(* ===== verification/_CoqProject ===== *)
-Q . S2P
Prelude.v
Machine.v
PageTables.v
Pmm.v
Paging.v
PagingInit.v
Boot.v
PmmSpec.v
PagingSpec.v
HeapList.v
Kheap.v
HeapInv.v
HeapSpec.v
HeapLimit.v
Vmm.v
Terminal.v
Kprintf.v
Serial.v
Shell.v
Keyboard.v
Gdt.v
Idt.v
Timer.v
ConsoleSpec.v
InterruptSpec.v
Trap.v
TrapSpec.v
Process.v
Scheduler.v
SchedInv.v
ProcInv.v
ThreadInv.v
SchedSpec.v
ContextSpec.v
Threads.v
VmmInv.v
RegionPages.v
VmmSpec.v
RegionSpec.v
Kernel.v
KernelSpec.v
FaultSpec.v
Start.v
LoaderState.v
Loader.v
Fat16.v
Elf.v
Handoff.v
Stage2.v
LoaderSpec.v
