(* ===== verification/Prelude.v ===== *)
(** * TupleOS kernel: a verification development

    TupleOS ([src/]) is a 32-bit x86 kernel in C with a boot loader of its own.
    [boot/stage1.asm] and [boot/stage2.asm] load the kernel's ELF file from a FAT16 volume;
    [boot/boot.asm] builds a first page map and calls [kernel_main] ([kernel/kernel.c]), which
    initialises the console, the descriptor tables, the devices, the memory managers and the
    processes and then halts until interrupts arrive.  This library is a shallow embedding of
    that code: every C function and every routine of the assembly files is an executable
    function in a state-and-failure monad over the state it touches, and its theorems say what
    it does to that state, from the sectors of the disk to the final [hlt] loop.

    ** How the program is represented

    - Integers are [Z] with the wrap-around of C's unsigned types written out ([u32], [u16],
      [u8], [+u], [-u], [*u]).  Reading or writing outside a C array stops the run with
      [OutOfBounds], a division by zero with [DivideError], an access to an unmapped page
      with [PageFault], undefined behaviour with [Undefined], [cli; hlt] and the final
      [hlt] loop with [Halted].
    - [M S A] (this file) is the type of code on a state [S]; [zoom] runs code of a lower
      layer inside a higher one through a [lens].  Each layer's record contains the one
      below it: [machine] (Machine) < [psys] (Pmm) < [gsys] (Paging) < [hsys] (Kheap) <
      [vsys] (Vmm) < [osys] (Process).  The console ([csys], [ssys], [ksys]) and the
      descriptor tables ([dsys], [isys]) sit on the machine beside them; [kernel] (Kernel)
      joins all of them on one machine.  The boot loader has a state of its own ([lsys],
      LoaderState): memory without the MMU, the A20 gate, its variables and its output.
    - A C loop is [loop], an iteration of its body with a bound of 2^32 turns; reaching the
      bound is [LoopBound].  The bound is enough: a 32-bit counter or a list of distinct
      32-bit addresses takes no more turns, and every theorem stated with [wp] proves that
      the run returns, hence that no bound is reached.  The bound is a binary number, so
      that an evaluation costs only the turns that are taken.
    - [wp m s Q] is total correctness: [m] returns from [s], in [Q].  [wpe] has a second
      postcondition for runs that are stopped.
    - Memory is physical: bytes in [ram], reached through the two-level page walk
      ([translate]) of the tables that are in that memory, so that a store into a page table
      changes the translations after it.  The text buffer of the screen is the adapter's memory
      behind the physical address 0xB8000, reached through the same walk.  Port accesses, and
      calls of [kprintf] inside the components below [kernel_main], are events of [trace];
      what a device answers is a function [device] of the state, arbitrary in the theorems.
    - The linker script is the class [Layout] (addresses of the kernel's objects) with the
      class [LayoutOk] (aligned, disjoint, inside the image); a function pointer is an address
      or a constructor of [handler].
    - The BIOS is a parameter of the loader, the record [bios] of LoaderState: what its disk,
      memory and A20 services and the ports answer at the n-th call.  The theorems name what
      they rely on ([serves], [lists], [kbd_ready], [chs_bounded]), and their witnesses have a
      BIOS that does it.

    ** Files

    - Prelude: the monad, loops, correctness of runs, arithmetic and list lemmas, the
      tactics ([wp_step], [bools]) and hint databases.
    - Machine ([kernel/ports.h]): memory, MMU, ports, events.  PageTables: how one store
      changes a translation.
    - Pmm, PmmSpec ([kernel/pmm.c], [kernel/multiboot.h]): frame bitmap and counters,
      initialisation from the multiboot map.  PmmSpec refines allocation to taking the
      smallest free frame below the bound of the scan and shows what the bitmap is after
      [pmm_init] for a map that fits it, that the counters are exact in every run, where an
      index leaves the array and which frames are never handed out.
    - Paging, PagingInit, Boot, PagingSpec ([kernel/paging.c], [boot/boot.asm]): page
      directory and tables.  The software walk is the MMU's; map and unmap change one page;
      the kernel's own map survives the runs whose callers keep to [page_step]; [paging_init]
      run on the boot map installs exactly the higher-half map.
    - HeapList, Kheap, HeapInv, HeapSpec, HeapLimit ([kernel/kheap.c]): the list algorithms
      over an interface of word memory ([WordMem] with [WordMemLaws]), which the MMU
      implements; the tiling invariant; kmalloc and kfree refine first fit with coalescing on
      a list of blocks; live bytes are not touched while the heap stays within the page tables
      of [paging_init], at most 0xC1000000 ([can_grow]).  HeapLimit shows what happens beyond:
      a new page table is written over a page of the heap.
    - Vmm, VmmInv, VmmSpec, RegionPages, RegionSpec ([kernel/vmm.c], [kernel/vmm.h]): regions
      and address spaces.  The region list stays sorted, searches are exact, [vmm_init]
      registers the kernel's regions; mapping and unmapping a region are specified
      with the pages, the frames and the undoing of a failed request, for ranges that have
      their page tables or low frames for them.  Three theorems
      show runs in which [vmm_find_free_region] returns an occupied range, in which destroying
      an address space unmaps the screen, and in which mapping the last frame faults.
    - Terminal, Kprintf, Serial, Shell, Keyboard, ConsoleSpec ([kernel/kernel.c],
      [kprintf.c], [serial.c], [shell.c], [keyboard.c]): the terminal as a typewriter on a
      tape, formatted output over an interface of devices ([Sink] with [SinkLaws]) against the
      meaning of a format ([printf_text]), the serial line at the pace of its device, the
      shell as a line editor with a command table, the keyboard as a translation of scan
      codes.
    - Gdt, Idt, Timer, InterruptSpec ([kernel/gdt.c], [idt.c], [timer.c], [boot/gdt_flush.asm]):
      descriptors, gates, interrupt controllers and the PIT, read back the way the hardware
      decodes them.
    - Trap, TrapSpec, FaultSpec ([boot/interrupts.asm], [struct interrupt_frame], [vmm.c]): the
      48 stubs and [isr_common] as lists of instructions.  The frame in memory is the C
      structure, an interrupt is transparent to the code it interrupts, a page fault ends in
      its report, no line of the controllers stays in service.
    - Process, Scheduler, SchedInv, ProcInv, ThreadInv, SchedSpec, ContextSpec, Threads
      ([kernel/process.c], [scheduler.c], [timer.c], [boot/context_switch.asm]): the process
      table, the round robin, the swap of stacks in memory, the trampoline and the two threads.
      The table's invariant holds in every run, [schedule] refines a choice on the list of
      states and is fair, the stacks refine one saved context per thread, a new thread starts
      at its entry, and the threads print for ever.
    - Kernel, KernelSpec ([kernel/kernel.c]): [kernel_main], whose own output goes to the screen
      and the serial port, and that it runs from the boot state to its final loop with the
      components' invariants established, for a memory map that fits the frame bitmap and a
      serial port that gets ready.
    - Start ([boot/boot.asm]): [_start] with its loops computes the memory that Boot gives as a
      function, and calls [kernel_main] with its arguments on the stack.
    - LoaderState, Loader, Fat16, Elf, Handoff, Stage2, LoaderSpec ([boot/stage1.asm],
      [boot/stage2.asm], [multiboot_info_t]): the A20 gate, the FAT16 volume, the ELF file, the
      memory map and the multiboot structure.  Stage 1, entered with DS = 0, reads stage 2 or gives
      up after three attempts, and loses the boot drive otherwise; stage 2 hands over a
      kernel whose segments are in memory and a structure that describes the BIOS's map;
      together with Start and KernelSpec, a disk with a kernel leads
      to the final loop.

    ** Bounds

    Besides the 2^32 turns of a loop, the memory map of the kernel's theorems has available
    entries that end within the 32784 frames of the bitmap and share no frame ([entry_ok],
    [map_disjoint]), the heap grows within the tables of [paging_init] ([can_grow]), and
    the loader's theorems assume at most 170 entries of the memory map and a kernel file of
    at most 0x7F000 bytes: more would run into the loader's own buffers and stack, where a store stops the model ([real_zone], [pm_zone]).

    ** Not modelled

    - Interrupts arriving between two instructions of kernel code: handlers are run as whole
      steps ([os_step] of SchedSpec orders them arbitrarily with the other operations), and
      TrapSpec shows that the interrupted code does not see them.
    - What a call of [kprintf] or [serial_printf] inside a component below [kernel_main]
      shows: the call is an event that always succeeds, and ConsoleSpec gives the text of an
      event's format and arguments.  The calls of [kernel_main] itself are run.
    - The stack words below the boot stack's pointer are a hypothesis ([WordMemLaws] on the
      words a switch uses) where they are not heap memory; thread stacks are heap memory and
      need none.  Stack frames of C functions are not modelled.
    - The structures [vmm_address_space_t] that [vmm_create_address_space] allocates are kept
      in a map by their address, not as words of the heap.
    - The registers the switch to protected mode changes, the parameter block of the boot
      sector (its values come from the volume), and the build files. *)

From stdpp Require Import base gmap list numbers option.
From Stdlib Require Import ZArith Lia.

#[global] Open Scope Z_scope.

(** ** Fixed-width arithmetic

    C's [uint32_t], [uint16_t] and [uint8_t] values are kept as [Z] with the
    wrap-around of every operation written out. *)

Definition W32 : Z := 4294967296.
Definition u32 (x : Z) : Z := x mod 4294967296.
Definition u16 (x : Z) : Z := x mod 65536.
Definition u8 (x : Z) : Z := x mod 256.

Declare Scope cword_scope.
Delimit Scope cword_scope with cw.
Notation "a +u b" := (u32 (a + b)) (at level 50, left associativity) : cword_scope.
Notation "a -u b" := (u32 (a - b)) (at level 50, left associativity) : cword_scope.
Notation "a *u b" := (u32 (a * b)) (at level 40, left associativity) : cword_scope.
#[global] Open Scope cword_scope.

(** A [uint32_t] converted to [int32_t]. *)
Definition s32 (x : Z) : Z := if x <? 2147483648 then x else x - 4294967296.

(** The truth value of a C condition [x & mask]. *)
Definition has_bits (x mask : Z) : bool := negb (Z.land x mask =? 0).

(** [is32 x]: [x] is the value of a [uint32_t] object. *)
Definition is32 (x : Z) : Prop := 0 <= x < 4294967296.

(** ** Results of a piece of kernel code

    Kernel code runs on a state and either returns a value or is stopped:
    by the MMU (page fault), by an access outside a C array, by a division by zero, by
    an operation C leaves undefined, by the CPU being halted, or by exceeding the
    iteration bound of a loop. *)

Inductive stop :=
  | PageFault (va : Z)
  | OutOfBounds (index : Z)
  | DivideError
  | Undefined
  | Halted
  | LoopBound.

Inductive result (S A : Type) :=
  | Ok (a : A) (s : S)
  | Stop (e : stop) (s : S).
Arguments Ok {S A} _ _.
Arguments Stop {S A} _ _.

Definition M (S A : Type) : Type := S -> result S A.

Definition ret {S A} (a : A) : M S A := fun s => Ok a s.
Definition bind {S A B} (m : M S A) (k : A -> M S B) : M S B :=
  fun s => match m s with
           | Ok a s' => k a s'
           | Stop e s' => Stop e s'
           end.
Definition stop_with {S A} (e : stop) : M S A := fun s => Stop e s.
Definition get {S A} (f : S -> A) : M S A := fun s => Ok (f s) s.
Definition modify {S} (f : S -> S) : M S unit := fun s => Ok tt (f s).

Declare Scope kcode_scope.
Delimit Scope kcode_scope with kc.
Notation "x <- m ;; k" := (bind m (fun x => k))
  (at level 81, m at next level, right associativity) : kcode_scope.
Notation "m ;;; k" := (bind m (fun _ => k))
  (at level 81, right associativity) : kcode_scope.
#[global] Open Scope kcode_scope.

Definition when {S} (b : bool) (m : M S unit) : M S unit :=
  if b then m else ret tt.

Lemma bind_ext {S A B} (m : M S A) (k k' : A -> M S B) s :
  (forall a s', k a s' = k' a s') -> bind m k s = bind m k' s.
Proof. intros H. unfold bind. by destruct (m s). Qed.

(** Running code of a lower layer inside the state of a higher one. *)
Record lens (S T : Type) := Lens { view : S -> T; update : T -> S -> S }.
Arguments Lens {S T} _ _.
Arguments view {S T} _ _.
Arguments update {S T} _ _ _.

Class LensLaws {S T} (l : lens S T) : Prop := {
  view_update : forall t s, view l (update l t s) = t;
  update_view : forall s, update l (view l s) s = s;
  update_update : forall t t' s, update l t (update l t' s) = update l t s;
}.

Definition zoom {S T A} (l : lens S T) (m : M T A) : M S A :=
  fun s => match m (view l s) with
           | Ok a t => Ok a (update l t s)
           | Stop e t => Stop e (update l t s)
           end.

(** ** Loops

    A C loop is an iteration of its body, which either continues with new
    values of the loop variables ([inl]) or leaves the loop ([inr]).  The number
    of iterations is bounded by [2^32] (a list of distinct 32-bit addresses or a
    32-bit counter cannot take more steps); the bound is a binary number, so that
    an evaluation costs only the iterations that are taken. *)

Section Loops.
Context {S X R : Type} (body : X -> M S (X + R)).

Fixpoint iterate (p : positive) (x : X) : M S (X + R) :=
  match p with
  | xH => body x
  | xO q =>
      r <- iterate q x ;;
      match r with inl x' => iterate q x' | inr y => ret (inr y) end
  | xI q =>
      r <- body x ;;
      match r with
      | inl x' =>
          r' <- iterate q x' ;;
          match r' with inl x'' => iterate q x'' | inr y => ret (inr y) end
      | inr y => ret (inr y)
      end
  end.

Definition loop (x : X) : M S R :=
  r <- iterate 4294967296 x ;;
  match r with inl _ => stop_with LoopBound | inr y => ret y end.
End Loops.

(** Two loops whose variables correspond through [f] do the same. *)
Section LoopRename.
Context {S X Y R : Type} (f : X -> Y) (b : X -> M S (X + R)) (b' : Y -> M S (Y + R)).
Definition renamed (r : X + R) : Y + R := match r with inl x => inl (f x) | inr y => inr y end.
Hypothesis same_body : forall x s, b' (f x) s = bind (b x) (fun r => ret (renamed r)) s.

Lemma iterate_rename p x s : iterate b' p (f x) s = bind (iterate b p x) (fun r => ret (renamed r)) s.
Proof.
  revert x s. induction p as [p IH|p IH|]; intros x s; cbn [iterate]; [| |apply same_body].
  - unfold bind at 1. rewrite same_body. unfold bind, ret. destruct (b x s) as [[x'|y] s'|e s']; [|done..].
    cbn [renamed]. rewrite IH. unfold bind, ret.
    destruct (iterate b p x' s') as [[x''|y] s''|e s'']; [|done..]. cbn [renamed]. apply IH.
  - unfold bind at 1. rewrite IH. unfold bind, ret.
    destruct (iterate b p x s) as [[x''|y] s''|e s'']; [|done..]. cbn [renamed]. apply IH.
Qed.

Lemma loop_rename x s : loop b' (f x) s = loop b x s.
Proof.
  unfold loop, bind at 1. rewrite iterate_rename. unfold bind, ret.
  by destruct (iterate b _ x s) as [[x'|y] s'|e s'].
Qed.
End LoopRename.

(** [for (i = i0; i < n; i += step) body] on a [uint32_t] counter. *)
Definition for_loop {S} (n step : Z) (body : Z -> M S unit) (i0 : Z) : M S unit :=
  loop (fun i => if i <? n
                 then body i ;;; ret (inl (i +u step))
                 else ret (inr tt)) i0.

(** ** Correctness of runs

    [wpe m s Q E]: [m] run on [s] returns in [Q] or is stopped in [E].  [wp m s Q] is
    total correctness: the run returns, and returns in [Q]. *)

Definition wpe {S A} (m : M S A) (s : S) (Q : A -> S -> Prop) (E : stop -> S -> Prop) : Prop :=
  match m s with Ok a s' => Q a s' | Stop e s' => E e s' end.

Abbreviation wp m s Q := (wpe m s Q (fun _ _ => False)).

Lemma wp_ok {S A} (m : M S A) s (Q : A -> S -> Prop) :
  wp m s Q <-> exists a s', m s = Ok a s' /\ Q a s'.
Proof. unfold wpe. destruct (m s); naive_solver. Qed.

Lemma wp_weaken {S A} (m : M S A) s (Q Q' : A -> S -> Prop) (E E' : stop -> S -> Prop) :
  wpe m s Q E -> (forall a s', Q a s' -> Q' a s') -> (forall e s', E e s' -> E' e s') -> wpe m s Q' E'.
Proof. unfold wpe. destruct (m s); naive_solver. Qed.

Section Wp.
Context {S : Type} (E : stop -> S -> Prop).

Lemma wp_ret {A} (a : A) s (Q : A -> S -> Prop) : Q a s -> wpe (ret a) s Q E.
Proof. done. Qed.

Lemma wp_stop {A} e s (Q : A -> S -> Prop) : E e s -> wpe (stop_with e) s Q E.
Proof. done. Qed.

Lemma wp_bind {A B} (m : M S A) (k : A -> M S B) s Q :
  wpe m s (fun a s' => wpe (k a) s' Q E) E -> wpe (bind m k) s Q E.
Proof. unfold wpe, bind. by destruct (m s). Qed.

Lemma wp_unbind {A B} (m : M S A) (k : A -> M S B) s (Q : B -> S -> Prop) :
  wpe (bind m k) s Q E -> wpe m s (fun a s' => wpe (k a) s' Q E) E.
Proof. unfold wpe, bind. by destruct (m s). Qed.

Lemma wp_get {A} (f : S -> A) s (Q : A -> S -> Prop) : Q (f s) s -> wpe (get f) s Q E.
Proof. done. Qed.

Lemma wp_modify (f : S -> S) s (Q : unit -> S -> Prop) :
  Q tt (f s) -> wpe (modify f) s Q E.
Proof. done. Qed.

Lemma wp_mono {A} (m : M S A) s (Q Q' : A -> S -> Prop) :
  wpe m s Q E -> (forall a s', Q a s' -> Q' a s') -> wpe m s Q' E.
Proof. unfold wpe. destruct (m s); naive_solver. Qed.

Lemma wp_when (b : bool) (m : M S unit) s Q :
  (b = true -> wpe m s Q E) -> (b = false -> Q tt s) -> wpe (when b m) s Q E.
Proof. destruct b; naive_solver. Qed.

Lemma wp_zoom {T A} (l : lens S T) (m : M T A) s (Q : A -> S -> Prop) :
  wpe m (view l s) (fun a t => Q a (update l t s)) (fun e t => E e (update l t s)) ->
  wpe (zoom l m) s Q E.
Proof. unfold wpe, zoom. by destruct (m _). Qed.

(** A run that is known, used in a correctness goal. *)
Lemma wp_eq {A} (m : M S A) s a s' (Q : A -> S -> Prop) :
  m s = Ok a s' -> Q a s' -> wpe m s Q E.
Proof. unfold wpe. by intros ->. Qed.

(** Total correctness can be used where stopping would be allowed. *)
Lemma wp_total {A} (m : M S A) s (Q : A -> S -> Prop) : wp m s Q -> wpe m s Q E.
Proof. unfold wpe. by destruct (m s). Qed.
End Wp.

(** A loop with an invariant that carries a variant: every turn that continues makes it
    smaller. *)
Section LoopVariant.
Context {S X R : Type} (body : X -> M S (X + R)).
Context (I : Z -> X -> S -> Prop) (Q : R -> S -> Prop) (E : stop -> S -> Prop).

Hypothesis Hbody : forall n x s, I n x s ->
  wpe (body x) s (fun r s' => match r with
                              | inl x' => exists m, 0 <= m < n /\ I m x' s'
                              | inr y => Q y s'
                              end) E.

Definition iter_post (p : positive) (n : Z) (r : X + R) (s' : S) : Prop :=
  match r with
  | inl x' => exists m, 0 <= m /\ m + Z.pos p <= n /\ I m x' s'
  | inr y => Q y s'
  end.

Lemma wp_iterate p n x s : I n x s -> wpe (iterate body p x) s (iter_post p n) E.
Proof.
  revert n x s. induction p as [q IH|q IH|]; intros n x s HI; cbn [iterate].
  - apply wp_bind. eapply wp_mono; [by apply Hbody|]. intros [x1|y] s1; [|done].
    intros (n1 & Hn1 & HI1). apply wp_bind. eapply wp_mono; [by apply IH|].
    intros [x2|y] s2; [|done]. intros (n2 & Hp2 & Hn2 & HI2).
    eapply wp_mono; [by apply IH|]. intros [x3|y] s3; [|done].
    intros (n3 & ? & ? & ?). exists n3. split_and!; [done|lia|done].
  - apply wp_bind. eapply wp_mono; [by apply IH|].
    intros [x2|y] s2; [|done]. intros (n2 & Hp2 & Hn2 & HI2).
    eapply wp_mono; [by apply IH|]. intros [x3|y] s3; [|done].
    intros (n3 & ? & ? & ?). exists n3. split_and!; [done|lia|done].
  - eapply wp_mono; [by apply Hbody|]. intros [x1|y] s1; [|done].
    intros (n1 & ? & ?). exists n1. split_and!; [lia|lia|done].
Qed.

(** A loop whose variant starts below the iteration bound terminates. *)
Lemma wp_loop_var n x s : I n x s -> n < 4294967296 -> wpe (loop body x) s Q E.
Proof.
  intros HI Hn. unfold loop. apply wp_bind. eapply wp_mono; [by apply wp_iterate|].
  intros [x'|y] s'; [|done]. intros (m & ? & ? & _). lia.
Qed.
End LoopVariant.

(** The common case: the variant is a function of the loop variable and the state. *)
Section LoopRule.
Context {S X R : Type} (body : X -> M S (X + R)).
Context (I : X -> S -> Prop) (mu : X -> S -> Z) (Q : R -> S -> Prop) (E : stop -> S -> Prop).

Definition loop_post (x : X) (s : S) (r : X + R) (s' : S) : Prop :=
  match r with
  | inl x' => I x' s' /\ 0 <= mu x' s' < mu x s
  | inr y => Q y s'
  end.

Hypothesis Hbody : forall x s, I x s -> wpe (body x) s (loop_post x s) E.

Lemma wp_loop x s : I x s -> mu x s < 4294967296 -> wpe (loop body x) s Q E.
Proof.
  intros HI Hmu. apply (wp_loop_var body (fun n x s => I x s /\ n = mu x s) Q E) with (mu x s); [|done|done].
  intros n x' s' [HI' ->]. eapply wp_mono; [by apply Hbody|]. intros [x1|y] s1; [|done].
  intros [? ?]. by exists (mu x1 s1).
Qed.
End LoopRule.

(** A loop that does not end: after [p] turns it is still running. *)
Lemma wp_iterate_turns {S X R : Type} (body : X -> M S (X + R)) (I : Z -> X -> S -> Prop) E :
  (forall n x s, I n x s -> wpe (body x) s (fun r s' => exists x', r = inl x' /\ I (n + 1) x' s') E) ->
  forall p n x s, I n x s ->
    wpe (iterate body p x) s (fun r s' => exists x', r = inl x' /\ I (n + Z.pos p) x' s') E.
Proof.
  intros Hbody p. induction p as [q IH|q IH|]; intros n x s HI; cbn [iterate].
  - apply wp_bind. eapply wp_mono; [by apply Hbody|]. intros r1 s1 (x1 & -> & H1).
    apply wp_bind. eapply wp_mono; [by apply IH|]. intros r2 s2 (x2 & -> & H2).
    eapply wp_mono; [by apply IH|]. intros r3 s3 (x3 & -> & H3). exists x3. split; [done|].
    by replace (n + Z.pos q~1) with (n + 1 + Z.pos q + Z.pos q) by lia.
  - apply wp_bind. eapply wp_mono; [by apply IH|]. intros r2 s2 (x2 & -> & H2).
    eapply wp_mono; [by apply IH|]. intros r3 s3 (x3 & -> & H3). exists x3. split; [done|].
    by replace (n + Z.pos q~0) with (n + Z.pos q + Z.pos q) by lia.
  - by apply Hbody.
Qed.

#[global] Opaque iterate.

(** A counted loop carries an invariant indexed by the counter. *)
Lemma wp_for_loop {S} (n step : Z) (body : Z -> M S unit) (I : Z -> S -> Prop) i0 s Q E :
  0 < step -> 0 <= i0 <= n -> (n - i0) mod step = 0 -> n <= 4294967296 - step ->
  I i0 s ->
  (forall i s', i0 <= i < n -> (i - i0) mod step = 0 -> I i s' ->
     wpe (body i) s' (fun _ s'' => I (i + step) s'') E) ->
  (forall s', I n s' -> Q tt s') ->
  wpe (for_loop n step body i0) s Q E.
Proof.
  intros Hst Hi0 Hdiv Hn HI0 Hb HQ. unfold for_loop.
  apply (wp_loop _ (fun i s' => i0 <= i <= n /\ (i - i0) mod step = 0 /\ I i s')
                   (fun i _ => n - i)); [|split_and!; try done; try lia|lia].
  2:{ rewrite Z.sub_diag. by apply Z.mod_0_l; lia. }
  intros i s' (Hr & Hm & HI). destruct (i <? n) eqn:Hlt.
  - apply Z.ltb_lt in Hlt. apply wp_bind. eapply wp_mono; [apply Hb; [lia|done|done]|].
    intros [] s'' HI'. apply wp_ret. cbn.
    assert (i + step <= n) as Hle.
    { apply Z.mod_divide in Hdiv as [a Ha]; [|lia]. apply Z.mod_divide in Hm as [b Hm]; [|lia].
      assert (b < a) by nia. nia. }
    unfold u32. rewrite Z.mod_small by lia. split_and!; try done; try lia.
    replace (i + step - i0) with ((i - i0) + 1 * step) by lia.
    by rewrite Z.mod_add by lia.
  - apply Z.ltb_ge in Hlt. apply wp_ret. cbn. apply HQ. by replace n with i by lia.
Qed.

(** ** Arithmetic shared by the components *)

Lemma u32_small x : is32 x -> u32 x = x.
Proof. apply Z.mod_small. Qed.

Lemma u32_range x : is32 (u32 x).
Proof. by apply Z.mod_pos_bound. Qed.

Lemma u8_range x : 0 <= u8 x < 256.
Proof. by apply Z.mod_pos_bound. Qed.

Lemma u8_small x : 0 <= x < 256 -> u8 x = x.
Proof. apply Z.mod_small. Qed.

(** Masks of the form [~(2^n - 1)] on 32-bit values round down. *)
Lemma land_high_mask x n :
  is32 x -> 0 <= n <= 32 -> Z.land x (2 ^ 32 - 2 ^ n) = x - x mod 2 ^ n.
Proof.
  unfold is32. intros Hx Hn.
  replace (2 ^ 32 - 2 ^ n) with (Z.shiftl (Z.ones (32 - n)) n).
  2:{ rewrite Z.shiftl_mul_pow2, Z.ones_equiv by lia.
      replace (2 ^ 32) with (2 ^ (32 - n) * 2 ^ n) by (rewrite <-Z.pow_add_r by lia; f_equal; lia).
      lia. }
  replace (x - x mod 2 ^ n) with (Z.shiftl (Z.shiftr x n) n).
  2:{ rewrite Z.shiftl_mul_pow2, Z.shiftr_div_pow2 by lia.
      pose proof (Z.div_mod x (2 ^ n) ltac:(lia)). lia. }
  apply Z.bits_inj'. intros i Hi. rewrite Z.land_spec.
  destruct (Z.lt_ge_cases i n).
  - by rewrite !Z.shiftl_spec_low, andb_false_r by lia.
  - rewrite !Z.shiftl_spec, Z.shiftr_spec by lia. replace (i - n + n) with i by lia.
    destruct (Z.lt_ge_cases i 32).
    + by rewrite Z.ones_spec_low, andb_true_r by lia.
    + rewrite Z.ones_spec_high, andb_false_r by lia.
      destruct (Z.eq_dec x 0) as [->|]; [by rewrite Z.bits_0|].
      rewrite Z.bits_above_log2; [done|lia|].
      assert (Z.log2 x < 32) by (apply Z.log2_lt_pow2; lia). lia.
Qed.

Lemma land_page_mask x : is32 x -> Z.land x 0xFFFFF000 = x - x mod 4096.
Proof. intros. by apply (land_high_mask x 12); [|lia]. Qed.

Lemma land_mask8 x : is32 x -> Z.land x 0xFFFFFFF8 = x - x mod 8.
Proof. intros. by apply (land_high_mask x 3); [|lia]. Qed.

Lemma land_low x n : 0 <= n -> Z.land x (Z.ones n) = x mod 2 ^ n.
Proof. intros. by apply Z.land_ones. Qed.

Lemma land_fff x : Z.land x 0xFFF = x mod 4096.
Proof. by apply (land_low x 12). Qed.

Lemma land_3ff x : Z.land x 0x3FF = x mod 1024.
Proof. by apply (land_low x 10). Qed.

Lemma land_ffff x : Z.land x 0xFFFF = x mod 65536.
Proof. by apply (land_low x 16). Qed.

Lemma land_ff x : Z.land x 0xFF = x mod 256.
Proof. by apply (land_low x 8). Qed.

Lemma land_f x : Z.land x 0x0F = x mod 16.
Proof. by apply (land_low x 4). Qed.

Lemma land_4 x : Z.land x 4 = if Z.testbit x 2 then 4 else 0.
Proof.
  apply Z.bits_inj'. intros i Hi. rewrite Z.land_spec.
  change 4 with (2 ^ 2). rewrite Z.pow2_bits_eqb by lia.
  destruct (Z.testbit x 2) eqn:E, (Z.eqb_spec 2 i) as [<-|Hne];
    rewrite ?E, ?andb_false_r, ?Z.bits_0, ?Z.pow2_bits_true, ?Z.pow2_bits_false by lia; done.
Qed.

Lemma land_1 x : Z.land x 1 = x mod 2.
Proof. by apply (land_low x 1). Qed.

(** Or-ing flags into the free low bits of an aligned value is an addition. *)
Lemma lor_low a b n : 0 <= n -> 0 <= b < 2 ^ n -> Z.lor (a * 2 ^ n) b = a * 2 ^ n + b.
Proof.
  intros Hn Hb. rewrite <-Z.shiftl_mul_pow2 by lia.
  symmetry. rewrite <-Z.add_lor_land at 1.
  enough (Z.land (Z.shiftl a n) b = 0) as -> by lia.
  apply Z.bits_inj'. intros i Hi. rewrite Z.land_spec, Z.bits_0.
  destruct (Z.lt_ge_cases i n); [by rewrite Z.shiftl_spec_low by lia|].
  destruct (Z.eq_dec b 0) as [->|]; [by rewrite Z.bits_0, andb_false_r|].
  rewrite (Z.bits_above_log2 b), andb_false_r; [done|lia|].
  apply Z.log2_lt_pow2; [lia|]. apply Z.lt_le_trans with (2 ^ n); [lia|].
  apply Z.pow_le_mono_r; lia.
Qed.

Lemma lor_page a b : a mod 4096 = 0 -> 0 <= b < 4096 -> Z.lor a b = a + b.
Proof.
  intros Ha Hb. apply Z.mod_divide in Ha as [c ->]; [|lia].
  by apply (lor_low c b 12).
Qed.

Lemma s32_small x : 0 <= x < 2147483648 -> s32 x = x.
Proof. intros. unfold s32. destruct (Z.ltb_spec x 2147483648); lia. Qed.

Lemma testbit_u8 x j : 0 <= j < 8 -> Z.testbit (u8 x) j = Z.testbit x j.
Proof. intros. apply (Z.mod_pow2_bits_low x 8). lia. Qed.

Lemma testbit_shiftl1 k j : 0 <= k -> Z.testbit (Z.shiftl 1 k) j = (k =? j).
Proof. intros. by rewrite Z.shiftl_1_l, Z.pow2_bits_eqb by lia. Qed.

(** [x & (1 << k)] tests bit [k]. *)
Lemma has_bits_shiftl1 x k : 0 <= k -> has_bits x (Z.shiftl 1 k) = Z.testbit x k.
Proof.
  intros Hk. unfold has_bits. rewrite Z.shiftl_1_l.
  destruct (Z.testbit x k) eqn:E.
  - apply negb_true_iff, Z.eqb_neq. intros E0.
    apply (f_equal (fun z => Z.testbit z k)) in E0.
    rewrite Z.land_spec, E, Z.pow2_bits_true, Z.bits_0 in E0 by lia. done.
  - apply negb_false_iff, Z.eqb_eq, Z.bits_inj'. intros i Hi.
    rewrite Z.land_spec, Z.pow2_bits_eqb, Z.bits_0 by lia.
    destruct (Z.eqb_spec k i) as [<-|]; [by rewrite E|by rewrite andb_false_r].
Qed.

Lemma byte_all_ones b : 0 <= b < 256 -> (forall j, 0 <= j < 8 -> Z.testbit b j = true) -> b = 255.
Proof.
  intros Hb Hall. rewrite <-(u8_small b Hb). unfold u8. change 256 with (2 ^ 8).
  rewrite <-Z.land_ones by lia. change 255 with (Z.ones 8).
  apply Z.bits_inj'. intros i Hi. rewrite Z.land_spec.
  destruct (Z.lt_ge_cases i 8).
  - by rewrite Hall, Z.ones_spec_low by lia.
  - by rewrite Z.ones_spec_high, andb_false_r by lia.
Qed.

(** ** Counting *)

Fixpoint countZ (n : nat) (P : Z -> bool) : Z :=
  match n with
  | O => 0
  | S k => countZ k P + (if P (Z.of_nat k) then 1 else 0)
  end.

Lemma countZ_range n P : 0 <= countZ n P <= Z.of_nat n.
Proof. induction n as [|n IH]; cbn; [lia|]. destruct (P _); lia. Qed.

Lemma countZ_ext n P P' :
  (forall i, 0 <= i < Z.of_nat n -> P i = P' i) -> countZ n P = countZ n P'.
Proof.
  induction n as [|n IH]; intros H; [done|]. cbn.
  rewrite IH, H; [done|lia|]. intros. apply H. lia.
Qed.

Lemma countZ_none n P : (forall i, 0 <= i < Z.of_nat n -> P i = false) -> countZ n P = 0.
Proof.
  induction n as [|n IH]; intros H; [done|]. cbn. rewrite IH, H; [done|lia|].
  intros. apply H. lia.
Qed.

(** Changing one index from [false] to [true] adds one. *)
Lemma countZ_flip n P P' f :
  0 <= f < Z.of_nat n -> P f = false -> P' f = true ->
  (forall i, 0 <= i < Z.of_nat n -> i <> f -> P i = P' i) ->
  countZ n P' = countZ n P + 1.
Proof.
  induction n as [|n IH]; intros Hf HP HP' H; [lia|]. cbn.
  destruct (Z.eq_dec f (Z.of_nat n)) as [->|Hne].
  - rewrite HP, HP'. rewrite (countZ_ext n P' P); [lia|].
    intros. symmetry. apply H; lia.
  - rewrite IH; [|lia|done|done|]; [|intros; apply H; lia].
    rewrite (H (Z.of_nat n)) by lia. lia.
Qed.

(** The indices of an interval. *)
Lemma countZ_interval n P a b : 0 <= a <= b -> b <= Z.of_nat n ->
  (forall i, 0 <= i < Z.of_nat n -> P i = (a <=? i) && (i <? b)) -> countZ n P = b - a.
Proof.
  revert b. induction n as [|n IH]; intros b Hab Hb H; cbn [countZ]; [lia|].
  rewrite (H (Z.of_nat n)) by lia. destruct (Z.eq_dec b (Z.of_nat n + 1)) as [->|].
  - destruct (Z.eq_dec a (Z.of_nat n + 1)) as [->|].
    + rewrite countZ_none; [destruct (Z.leb_spec (Z.of_nat n + 1) (Z.of_nat n)); cbn; lia|].
      intros i Hi. rewrite H by lia. destruct (Z.leb_spec (Z.of_nat n + 1) i); [lia|done].
    + rewrite (IH (Z.of_nat n)); [|lia|lia|].
      * destruct (Z.leb_spec a (Z.of_nat n)), (Z.ltb_spec (Z.of_nat n) (Z.of_nat n + 1)); cbn; lia.
      * intros i Hi. rewrite H by lia.
        by destruct (Z.ltb_spec i (Z.of_nat n + 1)), (Z.ltb_spec i (Z.of_nat n)); try lia.
  - rewrite (IH b); [|lia|lia|intros; apply H; lia].
    destruct (Z.ltb_spec (Z.of_nat n) b); [lia|]. rewrite andb_false_r. lia.
Qed.

(** ** Automation

    [kbounds]: ranges of machine words; [kword]: machine arithmetic that does not wrap
    around is arithmetic of [Z]; [kmask]: masks of low bits are remainders. *)

Create HintDb kbounds discriminated.
#[export] Hint Resolve u32_range u8_range countZ_range : kbounds.

Create Rewrite HintDb kword.
#[export] Hint Rewrite u32_small using (unfold is32 in *; lia) : kword.
#[export] Hint Rewrite u8_small using lia : kword.
#[export] Hint Rewrite s32_small using lia : kword.

Create Rewrite HintDb kmask.
#[export] Hint Rewrite land_fff land_3ff land_1 land_ffff land_ff land_f : kmask.

(** ** Symbolic execution *)

Ltac wp_step :=
  lazymatch goal with
  | |- wpe (bind _ _) _ _ _ => apply wp_bind
  | |- wpe (ret _) _ _ _ => apply wp_ret
  | |- wpe (stop_with _) _ _ _ => apply wp_stop
  | |- wpe (get _) _ _ _ => apply wp_get
  | |- wpe (modify _) _ _ _ => apply wp_modify
  | |- wpe (zoom _ _) _ _ _ => apply wp_zoom
  | |- wpe (if ?b then _ else _) _ _ _ => let E := fresh "E" in destruct b eqn:E
  | |- wpe (let _ := _ in _) _ _ _ => cbv zeta
  end.
Ltac wp_steps := repeat (wp_step; cbv beta).

(** Boolean tests of the code turned into propositions. *)
Ltac bools :=
  repeat match goal with
  | H : (_ <? _) = true |- _ => apply Z.ltb_lt in H
  | H : (_ <? _) = false |- _ => apply Z.ltb_ge in H
  | H : (_ <=? _) = true |- _ => apply Z.leb_le in H
  | H : (_ <=? _) = false |- _ => apply Z.leb_gt in H
  | H : (_ =? _) = true |- _ => apply Z.eqb_eq in H
  | H : (_ =? _) = false |- _ => apply Z.eqb_neq in H
  | H : (_ && _) = true |- _ => apply andb_true_iff in H as [? ?]
  | H : (_ || _) = false |- _ => apply orb_false_iff in H as [? ?]
  | H : negb _ = true |- _ => apply negb_true_iff in H
  | H : negb _ = false |- _ => apply negb_false_iff in H
  end.
