(* ===== verification/Machine.v ===== *)
(** * The machine under the kernel

    Physical memory as bytes, the two-level page walk of the i686 MMU, the I/O
    ports ([kernel/ports.h]) and the trace of externally visible events.  The
    kernel's loads and stores go through virtual addresses: [vld32], [vst32],
    [vld8] and [vst8] translate through the page tables that are in memory, so a
    store into a page table changes the translations that follow it. *)

From stdpp Require Import base gmap list numbers option strings.
From Stdlib Require Import ZArith Lia Setoid Morphisms.
From S2P Require Import Prelude.

(** The end-of-line character of C's format strings. *)
Definition nl : string := String (Ascii.ascii_of_nat 10) EmptyString.

(** An argument of a variadic [kprintf] or [serial_printf] call. *)
Inductive karg :=
  | KInt (v : Z)
  | KStr (s : string).

(** What the outside of the CPU and memory can see, newest first in the trace. *)
Inductive event :=
  | OutB (port value : Z)
  | InB (port value : Z)
  | Invlpg (va : Z)
  | LoadCr3 (pa : Z)
  | Lidt (limit base : Z)
  | Lgdt (limit base : Z)
  | Sti
  | Cli
  | Kprintf (fmt : string) (args : list karg)
  | SerialPrintf (fmt : string) (args : list karg).

(** [device port n] is the byte the device behind [port] answers to the [n]-th
    [inb] of the run. *)
Record machine := Machine {
  ram : gmap Z Z;
  cr3 : Z;
  device : Z -> nat -> Z;
  reads : nat;
  trace : list event;
}.

Definition set_ram (r : gmap Z Z) (h : machine) : machine :=
  Machine r (cr3 h) (device h) (reads h) (trace h).

Definition emit (e : event) : M machine unit :=
  modify (fun h => Machine (ram h) (cr3 h) (device h) (reads h) (e :: trace h)).

(** ** Link-time addresses

    The addresses the linker ([linker.ld]) gives to the symbols the C code takes
    the address of; virtual addresses of the higher half. *)
Class Layout := {
  sym_page_directory : Z;
  sym_page_tables : Z;
  sym_boot_page_directory : Z;
  sym_boot_page_table : Z;
  sym_kernel_end : Z;
}.

(** What [linker.ld] and the [aligned(4096)] attributes guarantee: the kernel image
    starts at 1 MB, its end is within the 4 MB the boot code maps, and the paging
    statics are page-aligned and do not overlap. *)
Class LayoutOk (L : Layout) : Prop := {
  lo_pd_aligned : sym_page_directory mod 4096 = 0;
  lo_pt_aligned : sym_page_tables mod 4096 = 0;
  lo_bpd_aligned : sym_boot_page_directory mod 4096 = 0;
  lo_bpt_aligned : sym_boot_page_table mod 4096 = 0;
  lo_pd_range : 0xC0100000 <= sym_page_directory /\ sym_page_directory + 4096 <= sym_kernel_end;
  lo_pt_range : 0xC0100000 <= sym_page_tables /\ sym_page_tables + 4 * 4096 <= sym_kernel_end;
  lo_bpd_range : 0xC0100000 <= sym_boot_page_directory /\
                 sym_boot_page_directory + 4096 <= sym_kernel_end;
  lo_bpt_range : 0xC0100000 <= sym_boot_page_table /\
                 sym_boot_page_table + 4096 <= sym_kernel_end;
  lo_disjoint : sym_page_directory + 4096 <= sym_page_tables \/
                sym_page_tables + 4 * 4096 <= sym_page_directory;
  lo_boot_disjoint : forall a, a = sym_boot_page_directory \/ a = sym_boot_page_table ->
    a <> sym_page_directory /\
    (a + 4096 <= sym_page_tables \/ sym_page_tables + 4 * 4096 <= a);
  lo_boot_ne : sym_boot_page_directory <> sym_boot_page_table;
  lo_end : sym_kernel_end <= 0xC0400000;
}.

(** ** Ports and output *)

Definition outb (port value : Z) : M machine unit := emit (OutB (u16 port) (u8 value)).

Definition inb (port : Z) : M machine Z :=
  fun h =>
    let v := u8 (device h (u16 port) (reads h)) in
    Ok v (Machine (ram h) (cr3 h) (device h) (S (reads h)) (InB (u16 port) v :: trace h)).

Definition io_wait : M machine unit := outb 0x80 0.

Definition kprintf (fmt : string) (args : list karg) : M machine unit :=
  emit (Kprintf fmt args).

Definition serial_printf (fmt : string) (args : list karg) : M machine unit :=
  emit (SerialPrintf fmt args).

Definition load_cr3 (pa : Z) : M machine unit :=
  modify (fun h => Machine (ram h) pa (device h) (reads h) (LoadCr3 pa :: trace h)).

(** ** Physical memory: little-endian bytes *)

Definition ld8 (m : gmap Z Z) (a : Z) : Z := u8 (default 0 (m !! a)).
Definition st8 (m : gmap Z Z) (a v : Z) : gmap Z Z := <[a := u8 v]> m.

Definition ld32 (m : gmap Z Z) (a : Z) : Z :=
  ld8 m a + 256 * (ld8 m (a + 1) + 256 * (ld8 m (a + 2) + 256 * ld8 m (a + 3))).

Definition st32 (m : gmap Z Z) (a v : Z) : gmap Z Z :=
  st8 (st8 (st8 (st8 m a v) (a + 1) (v / 256)) (a + 2) (v / 65536)) (a + 3) (v / 16777216).

(** ** The MMU *)

Definition pd_index (va : Z) : Z := Z.shiftr va 22.
Definition pt_index (va : Z) : Z := Z.land (Z.shiftr va 12) 0x3FF.

(** The page-table entry the hardware finds for [va], if the walk succeeds. *)
Definition walk (m : gmap Z Z) (cr3 va : Z) : option Z :=
  let pde := ld32 m (Z.land cr3 0xFFFFF000 + 4 * pd_index va) in
  if has_bits pde 1 then
    let pte := ld32 m (Z.land pde 0xFFFFF000 + 4 * pt_index va) in
    if has_bits pte 1 then Some pte else None
  else None.

Definition translate (h : machine) (va : Z) : option Z :=
  (fun pte => Z.land pte 0xFFFFF000 + Z.land va 0xFFF) <$> walk (ram h) (cr3 h) va.

Definition vld8 (va : Z) : M machine Z :=
  fun h => match translate h va with
           | Some pa => Ok (ld8 (ram h) pa) h
           | None => Stop (PageFault va) h
           end.

Definition vst8 (va v : Z) : M machine unit :=
  fun h => match translate h va with
           | Some pa => Ok tt (set_ram (st8 (ram h) pa v) h)
           | None => Stop (PageFault va) h
           end.

(** The four bytes of a word are translated before any of them is accessed. *)
Definition translate4 (h : machine) (va : Z) : option (Z * Z * Z * Z) :=
  match translate h va, translate h (va +u 1), translate h (va +u 2), translate h (va +u 3) with
  | Some p0, Some p1, Some p2, Some p3 => Some (p0, p1, p2, p3)
  | _, _, _, _ => None
  end.

Definition vread (h : machine) (va : Z) : option Z :=
  match translate4 h va with
  | Some (p0, p1, p2, p3) =>
      Some (ld8 (ram h) p0 + 256 * (ld8 (ram h) p1
            + 256 * (ld8 (ram h) p2 + 256 * ld8 (ram h) p3)))
  | None => None
  end.

Definition vld32 (va : Z) : M machine Z :=
  fun h => match vread h va with
           | Some v => Ok v h
           | None => Stop (PageFault va) h
           end.

Definition vst32 (va v : Z) : M machine unit :=
  fun h => match translate4 h va with
           | Some (p0, p1, p2, p3) =>
               Ok tt (set_ram (st8 (st8 (st8 (st8 (ram h) p0 v) p1 (v / 256))
                                         p2 (v / 65536)) p3 (v / 16777216)) h)
           | None => Stop (PageFault va) h
           end.

(** ** Memory laws *)

Lemma ld8_range m a : 0 <= ld8 m a < 256.
Proof. apply u8_range. Qed.

Lemma ld8_st8 m a b v : ld8 (st8 m a v) b = if decide (a = b) then u8 v else ld8 m b.
Proof.
  unfold ld8, st8. rewrite lookup_insert. case_decide; [|done]. cbn.
  apply u8_small, u8_range.
Qed.

Lemma ld32_range m a : is32 (ld32 m a).
Proof.
  unfold ld32, is32. pose proof (ld8_range m a). pose proof (ld8_range m (a + 1)).
  pose proof (ld8_range m (a + 2)). pose proof (ld8_range m (a + 3)). lia.
Qed.

Lemma ld8_st32_ne m a b v : b < a \/ a + 4 <= b -> ld8 (st32 m a v) b = ld8 m b.
Proof. intros. unfold st32. rewrite !ld8_st8. repeat case_decide; lia. Qed.

Lemma ld32_st32 m a v : is32 v -> ld32 (st32 m a v) a = v.
Proof.
  unfold is32. intros Hv. unfold ld32, st32. rewrite !ld8_st8.
  repeat case_decide; try lia. unfold u8.
  change 65536 with (256 * 256). change 16777216 with (256 * 256 * 256).
  rewrite <-!Z.div_div by lia.
  pose proof (Z.div_mod v 256 ltac:(lia)).
  pose proof (Z.div_mod (v / 256) 256 ltac:(lia)).
  pose proof (Z.div_mod (v / 256 / 256) 256 ltac:(lia)).
  rewrite (Z.mod_small (v / 256 / 256 / 256)).
  - lia.
  - split; [apply Z.div_pos; [apply Z.div_pos; [apply Z.div_pos|]|]; lia|].
    repeat apply Z.div_lt_upper_bound; lia.
Qed.

Lemma ld32_st32_ne m a b v : b + 4 <= a \/ a + 4 <= b -> ld32 (st32 m a v) b = ld32 m b.
Proof. intros. unfold ld32. by rewrite !ld8_st32_ne by lia. Qed.

Lemma ld32_st8_ne m a b v : a < b \/ b + 4 <= a -> ld32 (st8 m a v) b = ld32 m b.
Proof. intros. unfold ld32. rewrite !ld8_st8. repeat case_decide; lia. Qed.

(** ** Translation laws *)

Lemma pd_index_div va : pd_index va = va / 4096 / 1024.
Proof.
  unfold pd_index. rewrite Z.shiftr_div_pow2 by lia.
  by rewrite Z.div_div by lia.
Qed.

Lemma pt_index_div va : pt_index va = (va / 4096) mod 1024.
Proof. unfold pt_index. by rewrite land_3ff, Z.shiftr_div_pow2 by lia. Qed.

Lemma pt_index_range va : 0 <= pt_index va < 1024.
Proof. rewrite pt_index_div. by apply Z.mod_pos_bound. Qed.

Lemma pd_index_range va : is32 va -> 0 <= pd_index va < 1024.
Proof.
  unfold is32. intros. rewrite pd_index_div. split.
  - repeat apply Z.div_pos; lia.
  - repeat apply Z.div_lt_upper_bound; lia.
Qed.

(** The walk depends on the page number only. *)
Lemma walk_page m c va va' : va / 4096 = va' / 4096 -> walk m c va = walk m c va'.
Proof.
  intros E. unfold walk. by rewrite !pd_index_div, !pt_index_div, E.
Qed.

Lemma page_offset va k : va mod 4096 + k < 4096 -> 0 <= k ->
  (va + k) / 4096 = va / 4096 /\ (va + k) mod 4096 = va mod 4096 + k.
Proof.
  intros. pose proof (Z.mod_pos_bound va 4096 ltac:(lia)).
  pose proof (Z.div_mod va 4096 ltac:(lia)).
  replace (va + k) with ((va mod 4096 + k) + (va / 4096) * 4096) by lia.
  rewrite Z.div_add, Z.mod_add by lia.
  rewrite Z.div_small, Z.mod_small by lia. lia.
Qed.

Lemma translate_offset h va pa k :
  translate h va = Some pa -> va mod 4096 + k < 4096 -> 0 <= k ->
  translate h (va + k) = Some (pa + k).
Proof.
  intros Ht Hk Hk0. destruct (page_offset va k Hk Hk0) as [Ed Em].
  unfold translate in *. rewrite (walk_page _ _ (va + k) va Ed).
  destruct (walk _ _ va); [|done]. cbn in *.
  rewrite land_fff in *. rewrite Em. injection Ht as <-. f_equal. lia.
Qed.

Lemma translate4_aligned h va pa :
  is32 va -> va mod 4 = 0 -> translate h va = Some pa ->
  translate4 h va = Some (pa, pa + 1, pa + 2, pa + 3).
Proof.
  unfold is32. intros Hv Ha Ht.
  assert (va mod 4096 + 3 < 4096) as Hlt.
  { pose proof (Z.mod_pos_bound va 4096 ltac:(lia)).
    assert ((va mod 4096) mod 4 = 0) as Hm.
    { change 4096 with (4 * 1024). rewrite Z.rem_mul_r by lia.
      rewrite Ha, Z.add_0_l, Z.mul_comm. apply Z.mod_mul. lia. }
    pose proof (Z.div_mod (va mod 4096) 4 ltac:(lia)).
    pose proof (Z.div_lt_upper_bound (va mod 4096) 4 1024 ltac:(lia) ltac:(lia)). lia. }
  assert (va + 3 < 4294967296) as Hb.
  { pose proof (Z.div_mod va 4096 ltac:(lia)).
    pose proof (Z.div_lt_upper_bound va 4096 1048576 ltac:(lia) ltac:(lia)). lia. }
  unfold translate4. rewrite Ht.
  rewrite !u32_small by (unfold is32; lia).
  by rewrite !(translate_offset h va pa) by (done || lia).
Qed.

(** The machine after events, newest first. *)
Definition emitted (es : list event) (h : machine) : machine :=
  Machine (ram h) (cr3 h) (device h) (reads h) (es ++ trace h).

Lemma emitted_nil h : emitted [] h = h.
Proof. by destruct h. Qed.

Lemma emitted_app es1 es2 h : emitted es1 (emitted es2 h) = emitted (es1 ++ es2) h.
Proof. unfold emitted. cbn. by rewrite app_assoc. Qed.

Lemma wp_outb port value h (Q : unit -> machine -> Prop) E :
  Q tt (emitted [OutB (u16 port) (u8 value)] h) -> wpe (outb port value) h Q E.
Proof. done. Qed.

Lemma wp_emit e h (Q : unit -> machine -> Prop) E :
  Q tt (emitted [e] h) -> wpe (emit e) h Q E.
Proof. done. Qed.

(** Machines that differ only in what the devices saw. *)
Definition same_mem (h h' : machine) : Prop := ram h = ram h' /\ cr3 h = cr3 h'.

#[export] Instance same_mem_equiv : Equivalence same_mem.
Proof. unfold same_mem. split; [by intros ?|by intros ? ? []|intros ? ? ? [] []; split; congruence]. Qed.

#[export] Instance translate_proper : Proper (same_mem ==> eq ==> eq) translate.
Proof. intros h h' [E1 E2] va ? <-. unfold translate. by rewrite E1, E2. Qed.

#[export] Instance vread_proper : Proper (same_mem ==> eq ==> eq) vread.
Proof.
  intros h h' E va ? <-. unfold vread, translate4.
  pose proof (fun a => translate_proper h h' E a a eq_refl) as T. rewrite !T.
  destruct E as [-> _]. done.
Qed.

Lemma vread_aligned h va pa :
  is32 va -> va mod 4 = 0 -> translate h va = Some pa ->
  vread h va = Some (ld32 (ram h) pa).
Proof. intros. unfold vread. by erewrite translate4_aligned. Qed.

Lemma wp_vld32 h va v (Q : Z -> machine -> Prop) E :
  vread h va = Some v -> Q v h -> wpe (vld32 va) h Q E.
Proof. intros Hr. unfold wpe, vld32. by rewrite Hr. Qed.

(** On an aligned, mapped address the accesses are physical word accesses. *)
Lemma vld32_aligned h va pa :
  is32 va -> va mod 4 = 0 -> translate h va = Some pa ->
  vld32 va h = Ok (ld32 (ram h) pa) h.
Proof. intros. unfold vld32. by erewrite vread_aligned. Qed.

Lemma vst32_aligned h va pa v :
  is32 va -> va mod 4 = 0 -> translate h va = Some pa ->
  vst32 va v h = Ok tt (set_ram (st32 (ram h) pa v) h).
Proof. intros. unfold vst32. by erewrite translate4_aligned. Qed.
