(* ===== verification/PageTables.v ===== *)
(** * Page tables in memory

    How the translation of the MMU changes when a word of memory changes: a word
    outside the paging structures, an entry of a page table, an entry of the page
    directory. *)

From stdpp Require Import base gmap list numbers option strings.
From Stdlib Require Import ZArith Lia.
From S2P Require Import Prelude Machine.

(** A page-aligned physical address. *)
Definition page_aligned (a : Z) : Prop := is32 a /\ a mod 4096 = 0.

(** The page table the directory [c] names for its index [i]. *)
Definition table_of (m : gmap Z Z) (c i : Z) : option Z :=
  let pde := ld32 m (c + 4 * i) in
  if has_bits pde 1 then Some (Z.land pde 0xFFFFF000) else None.

Definition pte_of (m : gmap Z Z) (T k : Z) : option Z :=
  let pte := ld32 m (T + 4 * k) in
  if has_bits pte 1 then Some pte else None.

Lemma has_bits_1 x : has_bits x 1 = negb (x mod 2 =? 0).
Proof. unfold has_bits. by rewrite land_1. Qed.

Lemma land_mask_aligned x : is32 x -> page_aligned (Z.land x 0xFFFFF000).
Proof.
  unfold page_aligned, is32. intros. rewrite land_page_mask by done.
  pose proof (Z.div_mod x 4096 ltac:(lia)). pose proof (Z.mod_pos_bound x 4096 ltac:(lia)).
  replace (x - x mod 4096) with (x / 4096 * 4096) by lia.
  rewrite Z.mod_mul by lia. pose proof (Z.div_pos x 4096). lia.
Qed.

Lemma land_mask_id a : page_aligned a -> Z.land a 0xFFFFF000 = a.
Proof. intros [H32 Ha]. rewrite land_page_mask by done. lia. Qed.

Lemma table_of_aligned m c i T : table_of m c i = Some T -> page_aligned T.
Proof.
  unfold table_of. destruct (has_bits _ _); [|done]. intros [= <-].
  apply land_mask_aligned, ld32_range.
Qed.

Lemma walk_tables m c va : page_aligned c ->
  walk m c va = T ← table_of m c (pd_index va); pte_of m T (pt_index va).
Proof.
  intros Hc. unfold walk, table_of, pte_of. rewrite land_mask_id by done.
  by destruct (has_bits (ld32 m (c + _)) 1).
Qed.

(** Words of one frame do not overlap words of another. *)
Lemma frames_disjoint a b k j :
  a mod 4096 = 0 -> b mod 4096 = 0 -> a <> b -> 0 <= k < 1024 -> 0 <= j < 1024 ->
  a + 4 * k + 4 <= b + 4 * j \/ b + 4 * j + 4 <= a + 4 * k.
Proof.
  intros Ha Hb Hne Hk Hj. apply Z.mod_divide in Ha as [x ->]; [|lia].
  apply Z.mod_divide in Hb as [y ->]; [|lia]. nia.
Qed.

Lemma ld32_st32_frame m a b k j v :
  a mod 4096 = 0 -> b mod 4096 = 0 -> a <> b -> 0 <= k < 1024 -> 0 <= j < 1024 ->
  ld32 (st32 m (a + 4 * k) v) (b + 4 * j) = ld32 m (b + 4 * j).
Proof.
  intros. apply ld32_st32_ne. destruct (frames_disjoint a b k j); auto.
Qed.

Lemma ld32_st32_index m a k j v : k <> j ->
  ld32 (st32 m (a + 4 * k) v) (a + 4 * j) = ld32 m (a + 4 * j).
Proof. intros. apply ld32_st32_ne. lia. Qed.

(** A store into one frame leaves the bytes of the others. *)
Lemma ld8_st32_frame m a k v b :
  a mod 4096 = 0 -> 0 <= k < 1024 -> b < a \/ a + 4096 <= b ->
  ld8 (st32 m (a + 4 * k) v) b = ld8 m b.
Proof. intros. apply ld8_st32_ne. lia. Qed.

Section Updates.
Context (m : gmap Z Z) (c : Z).
Context (Hc : page_aligned c).

(** [F] is a frame that holds neither the directory nor a page table. *)
Definition data_frame (F : Z) : Prop :=
  F mod 4096 = 0 /\ F <> c /\ forall i, 0 <= i < 1024 -> table_of m c i <> Some F.

Lemma table_of_data F k v i : data_frame F -> 0 <= k < 1024 -> 0 <= i < 1024 ->
  table_of (st32 m (F + 4 * k) v) c i = table_of m c i.
Proof.
  intros (Ha & Hne & _) Hk Hi. unfold table_of.
  by rewrite ld32_st32_frame by (try done; apply Hc).
Qed.

(** A store into a data frame changes no translation. *)
Lemma walk_data F k v va : data_frame F -> 0 <= k < 1024 -> is32 va ->
  walk (st32 m (F + 4 * k) v) c va = walk m c va.
Proof.
  intros HF Hk Hva. rewrite !walk_tables by done.
  pose proof (pd_index_range va Hva). pose proof (pt_index_range va).
  rewrite table_of_data by done.
  destruct (table_of m c (pd_index va)) as [T|] eqn:E; [|done]. cbn.
  destruct HF as (Ha & _ & HT). unfold pte_of.
  rewrite ld32_st32_frame; [done..|by apply (table_of_aligned m c (pd_index va))| |done|done].
  intros ->. by apply (HT (pd_index va)).
Qed.

(** A store into entry [k] of the page table of index [i]. *)
Lemma table_of_pte i T k v j : table_of m c i = Some T -> T <> c ->
  0 <= k < 1024 -> 0 <= j < 1024 ->
  table_of (st32 m (T + 4 * k) v) c j = table_of m c j.
Proof.
  intros HT Hne Hk Hj. unfold table_of.
  rewrite ld32_st32_frame; [done|by apply (table_of_aligned m c i)|by apply Hc|done..].
Qed.

Lemma walk_pte i T k v va :
  table_of m c i = Some T -> T <> c -> 0 <= i < 1024 -> 0 <= k < 1024 -> is32 v -> is32 va ->
  (forall j, 0 <= j < 1024 -> table_of m c j = Some T -> j = i) ->
  walk (st32 m (T + 4 * k) v) c va =
  if decide (pd_index va = i /\ pt_index va = k)
  then if has_bits v 1 then Some v else None
  else walk m c va.
Proof.
  intros HT Hne Hi Hk Hv Hva Hinj. rewrite !walk_tables by done.
  pose proof (pd_index_range va Hva). pose proof (pt_index_range va).
  rewrite (table_of_pte i) by done. case_decide as E.
  - destruct E as [-> ->]. rewrite HT. cbn. unfold pte_of. by rewrite ld32_st32.
  - destruct (table_of m c (pd_index va)) as [T'|] eqn:E'; [|done]. cbn. unfold pte_of.
    destruct (Z.eq_dec T' T) as [->|Hne'].
    + assert (pd_index va = i) as E1 by (by apply Hinj).
      rewrite ld32_st32_index by (intros ->; tauto). done.
    + rewrite ld32_st32_frame; [done|by apply (table_of_aligned m c i)| |congruence|done..].
      by apply (table_of_aligned m c (pd_index va)).
Qed.

(** A store into entry [i] of the directory that installs an empty table. *)
Lemma table_of_pde i v j : 0 <= i < 1024 -> 0 <= j < 1024 -> is32 v ->
  table_of (st32 m (c + 4 * i) v) c j =
  if decide (j = i) then if has_bits v 1 then Some (Z.land v 0xFFFFF000) else None
  else table_of m c j.
Proof.
  intros Hi Hj Hv. unfold table_of. case_decide as E.
  - subst. by rewrite ld32_st32.
  - by rewrite ld32_st32_index by done.
Qed.

Lemma walk_pde i v va :
  0 <= i < 1024 -> is32 v -> is32 va -> table_of m c i = None ->
  Z.land v 0xFFFFF000 <> c ->
  (forall j, 0 <= j < 1024 -> table_of m c j <> Some c) ->
  (forall k, 0 <= k < 1024 -> pte_of m (Z.land v 0xFFFFF000) k = None) ->
  walk (st32 m (c + 4 * i) v) c va = walk m c va.
Proof.
  intros Hi Hv Hva Hnone Hne Hself Hempty. rewrite !walk_tables by done.
  pose proof (pd_index_range va Hva). pose proof (pt_index_range va).
  rewrite table_of_pde by done. case_decide as E.
  - rewrite E, Hnone. destruct (has_bits v 1); [|done]. cbn.
    rewrite <-(Hempty (pt_index va)) by done. unfold pte_of.
    rewrite ld32_st32_frame; [done|apply Hc|by apply land_mask_aligned|congruence|done..].
  - destruct (table_of m c (pd_index va)) as [T|] eqn:E'; [|done]. cbn. unfold pte_of.
    rewrite ld32_st32_frame; [done|apply Hc|by eapply table_of_aligned| |done..].
    intros <-. by apply (Hself (pd_index va)).
Qed.
End Updates.
