(* ===== verification/Pmm.v ===== *)
(** * Physical memory manager ([kernel/pmm.c], [kernel/multiboot.h])

    The frame bitmap with its two counters, the allocation and release of single
    frames, and the initialisation from the boot loader's memory map. *)

From stdpp Require Import base gmap list numbers option strings.
From Stdlib Require Import ZArith Lia.
From S2P Require Import Prelude Machine.

Definition PAGE_SIZE : Z := 4096.
Definition MAX_FRAMES : Z := 32786.
Definition BITMAP_BYTES : Z := MAX_FRAMES / 8.

Definition MULTIBOOT_FLAG_MMAP : Z := Z.shiftl 1 6.
Definition MULTIBOOT_MEMORY_AVAILABLE : Z := 1.

(** The statics of [pmm.c] on top of the machine. *)
Record psys := Psys {
  p_hw : machine;
  frame_bitmap : list Z;
  total_frames : Z;
  used_frames : Z;
}.

Definition p_lens : lens psys machine :=
  Lens p_hw (fun h s => Psys h (frame_bitmap s) (total_frames s) (used_frames s)).

#[export] Instance p_lens_laws : LensLaws p_lens.
Proof. split; by intros; try destruct s. Qed.

Definition set_bitmap (b : list Z) (s : psys) : psys :=
  Psys (p_hw s) b (total_frames s) (used_frames s).
Definition set_total (n : Z) (s : psys) : psys :=
  Psys (p_hw s) (frame_bitmap s) n (used_frames s).
Definition set_used (n : Z) (s : psys) : psys :=
  Psys (p_hw s) (frame_bitmap s) (total_frames s) n.

Definition p_kprintf (fmt : string) (args : list karg) : M psys unit :=
  zoom p_lens (kprintf fmt args).

(** ** The bitmap *)

Definition bitmap_read (i : Z) : M psys Z :=
  fun s => match frame_bitmap s !! Z.to_nat i with
           | Some b => Ok b s
           | None => Stop (OutOfBounds i) s
           end.

Definition bitmap_write (i v : Z) : M psys unit :=
  fun s => match frame_bitmap s !! Z.to_nat i with
           | Some _ => Ok tt (set_bitmap (<[Z.to_nat i := u8 v]> (frame_bitmap s)) s)
           | None => Stop (OutOfBounds i) s
           end.

Definition bitmap_set (frame : Z) : M psys unit :=
  b <- bitmap_read (frame / 8) ;;
  bitmap_write (frame / 8) (Z.lor b (Z.shiftl 1 (frame mod 8))).

Definition bitmap_clear (frame : Z) : M psys unit :=
  b <- bitmap_read (frame / 8) ;;
  bitmap_write (frame / 8) (Z.land b (Z.lnot (Z.shiftl 1 (frame mod 8)))).

Definition bitmap_test (frame : Z) : M psys Z :=
  b <- bitmap_read (frame / 8) ;;
  ret (Z.land b (Z.shiftl 1 (frame mod 8))).

(** The inner loop of [bitmap_first_free]: the first clear bit of a byte. *)
Fixpoint bit_scan (n : nat) (j b : Z) : option Z :=
  match n with
  | O => None
  | S n' => if has_bits b (Z.shiftl 1 j) then bit_scan n' (j + 1) b else Some j
  end.

Definition bitmap_first_free : M psys Z :=
  n <- get (fun s => total_frames s / 8) ;;
  loop (fun i =>
    if i <? n then
      b <- bitmap_read i ;;
      if b =? 0xFF then ret (inl (i +u 1)) else
      match bit_scan 8 0 b with
      | Some j => ret (inr (s32 (i *u 8 +u j)))
      | None => ret (inl (i +u 1))
      end
    else ret (inr (-1))) 0.

(** ** Allocation and release *)

(** Pointers are addresses; [NULL] is 0. *)
Definition pmm_alloc_frame : M psys Z :=
  frame <- bitmap_first_free ;;
  if frame <? 0 then
    p_kprintf ("PMM: Out of memory!" +:+ nl) [] ;;; ret 0
  else
    bitmap_set frame ;;;
    modify (fun s => set_used (used_frames s +u 1) s) ;;;
    ret (frame *u PAGE_SIZE).

Definition pmm_free_frame (frame_addr : Z) : M psys unit :=
  let frame := frame_addr / PAGE_SIZE in
  if MAX_FRAMES <=? frame then ret tt else
  t <- bitmap_test frame ;;
  if t =? 0 then ret tt else
  bitmap_clear frame ;;;
  modify (fun s => set_used (used_frames s -u 1) s).

Definition pmm_get_total_memory : M psys Z :=
  get (fun s => total_frames s *u PAGE_SIZE).

Definition pmm_get_free_memory : M psys Z :=
  get (fun s => (total_frames s -u used_frames s) *u PAGE_SIZE).

(** ** Initialisation from the multiboot memory map *)

Definition ld (va : Z) : M psys Z := zoom p_lens (vld32 va).

Section Init.
Context {L : Layout}.

(** [((uint32_t)&_kernel_end - 0xC0000000 + PAGE_SIZE - 1) & ~(PAGE_SIZE - 1)] *)
Definition kernel_end_phys : Z :=
  Z.land (sym_kernel_end -u 0xC0000000 +u PAGE_SIZE -u 1) 0xFFFFF000.

(** The [for] loop over the frames of one available region. *)
Definition free_region (kernel_end start_frame end_frame : Z) : M psys unit :=
  loop (fun frame =>
    if (frame <? end_frame) && (frame <? MAX_FRAMES) then
      let addr := frame *u PAGE_SIZE in
      if (addr <? 0x100000) || (addr <? kernel_end) then ret (inl (frame +u 1)) else
      bitmap_clear frame ;;;
      modify (fun s => set_total (total_frames s +u 1) s) ;;;
      ret (inl (frame +u 1))
    else ret (inr tt)) start_frame.

(** The 64-bit [base_addr] and [length] fields are truncated to 32 bits. *)
Definition init_entry (kernel_end mmap : Z) : M psys unit :=
  type <- ld (mmap +u 20) ;;
  if negb (type =? MULTIBOOT_MEMORY_AVAILABLE) then ret tt else
  base <- ld (mmap +u 4) ;;
  length <- ld (mmap +u 12) ;;
  p_kprintf ("Available: 0x%x - 0x%x (%u KB)" +:+ nl)
            [KInt base; KInt (base +u length); KInt (length / 1024)] ;;;
  let start_frame := (base +u PAGE_SIZE -u 1) / PAGE_SIZE in
  let end_frame := (base +u length) / PAGE_SIZE in
  free_region kernel_end start_frame end_frame.

(** One round of the [while] loop over the map. *)
Definition map_body (kernel_end mmap_end mmap : Z) : M psys (Z + unit) :=
  if mmap <? mmap_end then
    init_entry kernel_end mmap ;;;
    size <- ld mmap ;;
    ret (inl (mmap +u size +u 4))
  else ret (inr tt).

Definition pmm_init (mbi : Z) : M psys unit :=
  for_loop BITMAP_BYTES 1 (fun i => bitmap_write i 0xFF) 0 ;;;
  flags <- ld mbi ;;
  if negb (has_bits flags MULTIBOOT_FLAG_MMAP) then
    p_kprintf ("PMM: No memory map available" +:+ nl) []
  else
    p_kprintf ("PMM: Parsing memory map..." +:+ nl) [] ;;;
    mmap_addr <- ld (mbi +u 48) ;;
    mmap_length <- ld (mbi +u 44) ;;
    let mmap_end := mmap_addr +u mmap_length in
    loop (map_body kernel_end_phys mmap_end) mmap_addr ;;;
    t <- get total_frames ;;
    p_kprintf ("PMM: %u frame (%u MB) available" +:+ nl)
              [KInt t; KInt (t *u PAGE_SIZE / (1024 * 1024))].
End Init.

(** ** Output and loads, seen from this layer *)

Lemma wp_p_kprintf fmt args s (Q : unit -> psys -> Prop) E :
  (forall h, same_mem (p_hw s) h -> Q tt (update p_lens h s)) ->
  wpe (p_kprintf fmt args) s Q E.
Proof. intros H. unfold p_kprintf. wp_step. unfold kprintf, emit. wp_step. by apply H. Qed.

Lemma wp_ld a v s (Q : Z -> psys -> Prop) E :
  vread (p_hw s) a = Some v -> Q v s -> wpe (ld a) s Q E.
Proof.
  intros Hr HQ. unfold ld. wp_step. eapply wp_vld32; [exact Hr|]. by rewrite update_view.
Qed.

(** ** The bitmap as a predicate on frames *)

Definition bitmap_wf (l : list Z) : Prop :=
  length l = 4098%nat /\ Forall (fun b => 0 <= b < 256) l.

(** Frame numbers the array has a bit for; [MAX_FRAMES] is larger. *)
Definition FRAMES : Z := 32784.

Definition frame_bit (l : list Z) (f : Z) : bool :=
  Z.testbit (l !!! Z.to_nat (f / 8)) (f mod 8).

Definition bm_set (l : list Z) (f : Z) : list Z :=
  <[Z.to_nat (f / 8) := u8 (Z.lor (l !!! Z.to_nat (f / 8)) (Z.shiftl 1 (f mod 8)))]> l.
Definition bm_clear (l : list Z) (f : Z) : list Z :=
  <[Z.to_nat (f / 8) :=
      u8 (Z.land (l !!! Z.to_nat (f / 8)) (Z.lnot (Z.shiftl 1 (f mod 8))))]> l.

Lemma frame_index f : 0 <= f < FRAMES ->
  0 <= f / 8 < 4098 /\ 0 <= f mod 8 < 8 /\ (Z.to_nat (f / 8) < 4098)%nat.
Proof.
  unfold FRAMES. intros. pose proof (Z.mod_pos_bound f 8 ltac:(lia)).
  assert (0 <= f / 8 < 4098) by (split; [apply Z.div_pos|apply Z.div_lt_upper_bound]; lia).
  lia.
Qed.

Lemma bitmap_byte l i : bitmap_wf l -> (i < 4098)%nat ->
  l !! i = Some (l !!! i) /\ 0 <= l !!! i < 256.
Proof.
  intros [Hlen Hall] Hi. destruct (lookup_lt_is_Some_2 l i) as [b Hb]; [lia|].
  rewrite (list_lookup_total_correct _ _ _ Hb), Hb. split; [done|].
  by eapply (Forall_lookup_1 (fun b => 0 <= b < 256)).
Qed.

Lemma bitmap_set_ok s f : bitmap_wf (frame_bitmap s) -> 0 <= f < FRAMES ->
  bitmap_set f s = Ok tt (set_bitmap (bm_set (frame_bitmap s) f) s).
Proof.
  intros Hwf Hf. destruct (frame_index f Hf) as (_ & _ & Hi).
  destruct (bitmap_byte _ _ Hwf Hi) as [E _].
  unfold bitmap_set, bind, bitmap_read. rewrite E.
  unfold bitmap_write. by rewrite E.
Qed.

Lemma bitmap_clear_ok s f : bitmap_wf (frame_bitmap s) -> 0 <= f < FRAMES ->
  bitmap_clear f s = Ok tt (set_bitmap (bm_clear (frame_bitmap s) f) s).
Proof.
  intros Hwf Hf. destruct (frame_index f Hf) as (_ & _ & Hi).
  destruct (bitmap_byte _ _ Hwf Hi) as [E _].
  unfold bitmap_clear, bind, bitmap_read. rewrite E.
  unfold bitmap_write. by rewrite E.
Qed.

Lemma bitmap_test_ok s f : bitmap_wf (frame_bitmap s) -> 0 <= f < FRAMES ->
  exists t, bitmap_test f s = Ok t s /\ (t =? 0) = negb (frame_bit (frame_bitmap s) f).
Proof.
  intros Hwf Hf. destruct (frame_index f Hf) as (_ & Hm & Hi).
  destruct (bitmap_byte _ _ Hwf Hi) as [E _].
  unfold bitmap_test, bind, bitmap_read. rewrite E. eexists. split; [done|].
  unfold frame_bit. rewrite <-has_bits_shiftl1 by lia.
  unfold has_bits. by rewrite negb_involutive.
Qed.

Lemma bitmap_wf_insert l i v : bitmap_wf l -> bitmap_wf (<[i := u8 v]> l).
Proof.
  intros [Hlen Hall]. split; [by rewrite length_insert|].
  apply Forall_insert; [done|apply u8_range].
Qed.

(** Two frames share a byte of the bitmap or not. *)
Lemma frame_bit_insert l f g v : bitmap_wf l -> 0 <= f < FRAMES -> 0 <= g < FRAMES ->
  frame_bit (<[Z.to_nat (f / 8) := u8 v]> l) g =
  if decide (f / 8 = g / 8) then Z.testbit v (g mod 8) else frame_bit l g.
Proof.
  intros [Hlen _] Hf Hg. destruct (frame_index f Hf) as (? & ? & ?).
  destruct (frame_index g Hg) as (? & ? & ?). unfold frame_bit.
  case_decide as E.
  - rewrite <-E, list_lookup_total_insert_eq by lia. by rewrite testbit_u8 by lia.
  - rewrite list_lookup_total_insert_ne by lia. done.
Qed.

Lemma frame_eq f g : 0 <= f -> 0 <= g -> f = g <-> f / 8 = g / 8 /\ f mod 8 = g mod 8.
Proof.
  intros. pose proof (Z.div_mod f 8 ltac:(lia)). pose proof (Z.div_mod g 8 ltac:(lia)).
  split; [by intros ->|intros [E1 E2]; lia].
Qed.

Lemma frame_bit_set l f g : bitmap_wf l -> 0 <= f < FRAMES -> 0 <= g < FRAMES ->
  frame_bit (bm_set l f) g = (f =? g) || frame_bit l g.
Proof.
  intros Hwf Hf Hg. pose proof (frame_eq f g ltac:(lia) ltac:(lia)) as Heq.
  unfold bm_set. rewrite frame_bit_insert by done. case_decide as E.
  - rewrite Z.lor_spec, testbit_shiftl1 by (apply Z.mod_pos_bound; lia).
    unfold frame_bit. rewrite E, orb_comm. f_equal.
    destruct (Z.eqb_spec f g), (Z.eqb_spec (f mod 8) (g mod 8)); tauto.
  - destruct (Z.eqb_spec f g); [tauto|done].
Qed.

Lemma frame_bit_clear l f g : bitmap_wf l -> 0 <= f < FRAMES -> 0 <= g < FRAMES ->
  frame_bit (bm_clear l f) g = negb (f =? g) && frame_bit l g.
Proof.
  intros Hwf Hf Hg. pose proof (frame_eq f g ltac:(lia) ltac:(lia)) as Heq.
  unfold bm_clear. rewrite frame_bit_insert by done. case_decide as E.
  - rewrite Z.land_spec, Z.lnot_spec, testbit_shiftl1 by (apply Z.mod_pos_bound; lia).
    unfold frame_bit. rewrite E, andb_comm. f_equal. f_equal.
    destruct (Z.eqb_spec f g), (Z.eqb_spec (f mod 8) (g mod 8)); tauto.
  - destruct (Z.eqb_spec f g); [tauto|done].
Qed.

Lemma bm_set_wf l f : bitmap_wf l -> bitmap_wf (bm_set l f).
Proof. apply bitmap_wf_insert. Qed.
Lemma bm_clear_wf l f : bitmap_wf l -> bitmap_wf (bm_clear l f).
Proof. apply bitmap_wf_insert. Qed.

(** ** The scan *)

Lemma bit_scan_spec n j b :
  0 <= j -> match bit_scan n j b with
            | Some k => j <= k < j + Z.of_nat n /\ Z.testbit b k = false /\
                        forall i, j <= i < k -> Z.testbit b i = true
            | None => forall i, j <= i < j + Z.of_nat n -> Z.testbit b i = true
            end.
Proof.
  revert j. induction n as [|n IH]; intros j Hj; cbn [bit_scan]; [intros; lia|].
  rewrite has_bits_shiftl1 by lia. destruct (Z.testbit b j) eqn:E.
  - specialize (IH (j + 1) ltac:(lia)). destruct (bit_scan n (j + 1) b) as [k|].
    + destruct IH as (? & ? & IH). split_and!; [lia|lia|done|].
      intros i ?. destruct (Z.eq_dec i j) as [->|]; [done|]. apply IH; lia.
    + intros i ?. destruct (Z.eq_dec i j) as [->|]; [done|]. apply IH; lia.
  - split_and!; [lia|lia|done|]. intros; lia.
Qed.

(** The frames the scan of [bitmap_first_free] looks at. *)
Definition scan_limit (s : psys) : Z := 8 * (total_frames s / 8).

Definition all_used (l : list Z) (n : Z) : Prop :=
  forall g, 0 <= g < n -> frame_bit l g = true.

(** What the scan promises: the lowest free frame below the limit, or -1. *)
Definition first_free_post (s : psys) (r : Z) : Prop :=
  (0 <= r < scan_limit s /\ frame_bit (frame_bitmap s) r = false /\
     all_used (frame_bitmap s) r) \/
  (r = -1 /\ all_used (frame_bitmap s) (scan_limit s)).

Definition pmm_wf (s : psys) : Prop :=
  bitmap_wf (frame_bitmap s) /\ 0 <= total_frames s /\ scan_limit s <= FRAMES.

Lemma frame_bit_byte l i k : 0 <= k < 8 ->
  frame_bit l (8 * i + k) = Z.testbit (l !!! Z.to_nat i) k.
Proof.
  intros. unfold frame_bit. rewrite (Z.mul_comm 8 i), (Z.add_comm (i * 8)).
  by rewrite Z.div_add, Z.mod_add, Z.div_small, Z.mod_small by lia.
Qed.

Lemma all_used_byte l i : all_used l (8 * i) -> 0 <= i ->
  (forall k, 0 <= k < 8 -> Z.testbit (l !!! Z.to_nat i) k = true) ->
  all_used l (8 * (i + 1)).
Proof.
  intros H Hi Hk g Hg. destruct (Z.lt_ge_cases g (8 * i)); [by apply H; lia|].
  replace g with (8 * i + (g - 8 * i)) by lia. rewrite frame_bit_byte by lia. apply Hk. lia.
Qed.

Lemma bitmap_first_free_wp s : pmm_wf s ->
  wp bitmap_first_free s (fun r s' => s' = s /\ first_free_post s r).
Proof.
  intros (Hwf & Ht & Hlim). unfold bitmap_first_free. wp_step. wp_step. cbv beta.
  assert (0 <= total_frames s / 8 <= 4098) as Hn.
  { unfold scan_limit, FRAMES in Hlim. pose proof (Z.div_pos (total_frames s) 8). lia. }
  apply (wp_loop _ (fun i s' => s' = s /\ 0 <= i <= total_frames s / 8 /\
                                all_used (frame_bitmap s) (8 * i))
                   (fun i _ => total_frames s / 8 - i)).
  2:{ split_and!; [done|lia|lia|]. intros g Hg. lia. }
  2:{ lia. }
  intros i ? (-> & Hi & Hu). wp_step; bools.
  2:{ wp_step. split; [done|]. right. split; [done|]. unfold scan_limit.
      by replace (total_frames s / 8) with i by lia. }
  destruct (bitmap_byte _ (Z.to_nat i) Hwf ltac:(lia)) as [Hb Hr].
  wp_step. apply (wp_eq _ _ _ (frame_bitmap s !!! Z.to_nat i) s).
  { unfold bitmap_read. by rewrite Hb. }
  assert (forall (Hall : forall k, 0 <= k < 8 ->
             Z.testbit (frame_bitmap s !!! Z.to_nat i) k = true),
          wp (ret (inl (i +u 1)) : M psys (Z + Z)) s
             (loop_post (fun i s' => s' = s /\ 0 <= i <= total_frames s / 8 /\
                                     all_used (frame_bitmap s) (8 * i))
                (fun i _ => total_frames s / 8 - i)
                (fun r s' => s' = s /\ first_free_post s r) i s)) as Hnext.
  { intros Hall. wp_step. rewrite u32_small by (unfold is32; lia).
    split_and!; [done|lia|lia| |lia|lia]. apply all_used_byte; [done|lia|done]. }
  wp_step; bools.
  - apply Hnext. intros k Hk. rewrite E0. change 255 with (Z.ones 8).
    by apply Z.ones_spec_low.
  - pose proof (bit_scan_spec 8 0 (frame_bitmap s !!! Z.to_nat i) ltac:(lia)) as Hscan.
    destruct (bit_scan 8 0 _) as [j|].
    + destruct Hscan as (Hj & Hbit & Hlow). wp_step. split; [done|]. left.
      rewrite !u32_small by (unfold is32, u32; rewrite ?Z.mod_small; lia).
      rewrite s32_small by lia. rewrite (Z.mul_comm i 8).
      split_and!; [unfold scan_limit in *; lia..| |].
      * by rewrite frame_bit_byte by lia.
      * intros g Hg. destruct (Z.lt_ge_cases g (8 * i)); [by apply Hu; lia|].
        replace g with (8 * i + (g - 8 * i)) by lia.
        rewrite frame_bit_byte by lia. apply Hlow. lia.
    + by apply Hnext.
Qed.

(** ** Allocation *)

Definition alloc_post (s : psys) (r : Z) (s' : psys) : Prop :=
  (exists f, 0 <= f < scan_limit s /\ frame_bit (frame_bitmap s) f = false /\
     all_used (frame_bitmap s) f /\ r = PAGE_SIZE * f /\
     s' = set_used (used_frames s +u 1) (set_bitmap (bm_set (frame_bitmap s) f) s)) \/
  (all_used (frame_bitmap s) (scan_limit s) /\ r = 0 /\
     exists h, p_kprintf ("PMM: Out of memory!" +:+ nl) [] s = Ok tt (update p_lens h s) /\
               s' = update p_lens h s /\ ram h = ram (p_hw s) /\ cr3 h = cr3 (p_hw s)).

Lemma pmm_alloc_frame_wp s : pmm_wf s -> wp pmm_alloc_frame s (alloc_post s).
Proof.
  intros Hwf. unfold pmm_alloc_frame. wp_step.
  eapply wp_mono; [by apply bitmap_first_free_wp|].
  intros r ? [-> [(Hr & Hbit & Hlow)|[-> Hall]]].
  - wp_step; bools; [lia|]. destruct Hwf as (Hb & _ & Hlim).
    wp_step. eapply wp_eq; [apply bitmap_set_ok; [done|lia]|]. wp_steps.
    left. exists r. split_and!; try done; try lia.
    unfold FRAMES, PAGE_SIZE in *. rewrite u32_small by (unfold is32; lia). lia.
  - wp_step; [|done]. wp_steps. right. split_and!; [done|done|].
    by eexists.
Qed.

Lemma pmm_wf_hw h s : pmm_wf s -> pmm_wf (update p_lens h s).
Proof. done. Qed.

Lemma alloc_post_wf s r s' : pmm_wf s -> alloc_post s r s' -> pmm_wf s'.
Proof.
  intros (Hb & Ht & Hl) [(f & _ & _ & _ & _ & ->)|(_ & _ & h & _ & -> & _)]; [|done].
  split_and!; [by apply bm_set_wf|done|done].
Qed.

(** ** Release *)

Definition free_post (s : psys) (frame : Z) (s' : psys) : Prop :=
  if frame_bit (frame_bitmap s) frame
  then s' = set_used (used_frames s -u 1) (set_bitmap (bm_clear (frame_bitmap s) frame) s)
  else s' = s.

Lemma pmm_free_frame_wp s a :
  bitmap_wf (frame_bitmap s) -> 0 <= a / PAGE_SIZE < FRAMES ->
  wp (pmm_free_frame a) s (fun _ s' => free_post s (a / PAGE_SIZE) s').
Proof.
  intros Hwf Ha. unfold pmm_free_frame, free_post. cbv zeta. wp_step; bools.
  { unfold MAX_FRAMES, FRAMES in *. lia. }
  destruct (bitmap_test_ok s _ Hwf Ha) as (t & Ht & Htb).
  wp_step. eapply wp_eq; [exact Ht|]. rewrite Htb.
  destruct (frame_bit _ _); cbn [negb]; [|done].
  wp_step. eapply wp_eq; [by apply bitmap_clear_ok|]. by wp_steps.
Qed.

Lemma free_post_wf s f s' : pmm_wf s -> free_post s f s' -> pmm_wf s'.
Proof.
  intros (Hb & Ht & Hl). unfold free_post. destruct (frame_bit _ _); intros ->; [|done].
  split_and!; [by apply bm_clear_wf|done|done].
Qed.

(** ** Counters *)

Definition count_free (l : list Z) : Z :=
  countZ (Z.to_nat FRAMES) (fun f => negb (frame_bit l f)).

(** The counters account for exactly the clear bits of the bitmap. *)
Definition pmm_counted (s : psys) : Prop :=
  pmm_wf s /\ total_frames s -u used_frames s = count_free (frame_bitmap s).

Lemma count_free_set l f : bitmap_wf l -> 0 <= f < FRAMES -> frame_bit l f = false ->
  count_free (bm_set l f) = count_free l - 1.
Proof.
  intros Hwf Hf Hbit. enough (count_free l = count_free (bm_set l f) + 1) by lia.
  apply countZ_flip with f; [unfold FRAMES in *; lia| | |].
  - by rewrite frame_bit_set, Z.eqb_refl.
  - by rewrite Hbit.
  - intros g Hg Hne. rewrite frame_bit_set by (done || (unfold FRAMES in *; lia)).
    by destruct (Z.eqb_spec f g); [lia|].
Qed.

Lemma count_free_clear l f : bitmap_wf l -> 0 <= f < FRAMES -> frame_bit l f = true ->
  count_free (bm_clear l f) = count_free l + 1.
Proof.
  intros Hwf Hf Hbit. apply countZ_flip with f; [unfold FRAMES in *; lia| | |].
  - by rewrite Hbit.
  - by rewrite frame_bit_clear, Z.eqb_refl.
  - intros g Hg Hne. rewrite frame_bit_clear by (done || (unfold FRAMES in *; lia)).
    by destruct (Z.eqb_spec f g); [lia|].
Qed.

Lemma u32_sub_step a b n : a -u b = n -> a -u (b +u 1) = u32 (n - 1) /\ a -u (b -u 1) = u32 (n + 1).
Proof.
  unfold u32. intros <-. split.
  - rewrite Zminus_mod_idemp_r, Zminus_mod_idemp_l. f_equal. lia.
  - rewrite Zminus_mod_idemp_r, Zplus_mod_idemp_l. f_equal. lia.
Qed.

Lemma count_free_range l : 0 <= count_free l <= FRAMES.
Proof.
  unfold count_free. pose proof (countZ_range (Z.to_nat FRAMES)
    (fun f => negb (frame_bit l f))). unfold FRAMES in *. lia.
Qed.

Lemma count_free_none l :
  (forall g, 0 <= g < FRAMES -> frame_bit l g = true) -> count_free l = 0.
Proof.
  intros H. apply countZ_none. intros g Hg. rewrite H; [done|]. unfold FRAMES in *. lia.
Qed.

Lemma count_free_of l (P : Z -> bool) :
  (forall g, 0 <= g < FRAMES -> frame_bit l g = negb (P g)) ->
  count_free l = countZ (Z.to_nat FRAMES) P.
Proof.
  intros H. apply countZ_ext. intros i Hi. rewrite H, negb_involutive; [done|].
  rewrite Z2Nat.id in Hi by done. exact Hi.
Qed.

#[global] Opaque count_free.

Lemma pmm_counted_alloc s r s' : pmm_counted s -> alloc_post s r s' -> pmm_counted s'.
Proof.
  intros [Hwf Hc] Hp. split; [by eapply alloc_post_wf|].
  destruct Hp as [(f & Hf & Hbit & _ & _ & ->)|(_ & _ & h & _ & -> & _)]; [|exact Hc].
  destruct Hwf as (Hb & _ & Hl).
  cbn [set_used set_bitmap total_frames used_frames frame_bitmap].
  pose proof (count_free_set _ f Hb ltac:(lia) Hbit) as Hcnt.
  rewrite (proj1 (u32_sub_step _ _ _ Hc)), <-Hcnt.
  pose proof (count_free_range (bm_set (frame_bitmap s) f)).
  apply u32_small. unfold is32, FRAMES in *. lia.
Qed.

Lemma pmm_counted_free s f s' : pmm_counted s -> 0 <= f < FRAMES ->
  free_post s f s' -> pmm_counted s'.
Proof.
  intros [Hwf Hc] Hf Hp. split; [by eapply free_post_wf|].
  revert Hp. unfold free_post. destruct (frame_bit _ _) eqn:Hbit; intros ->; [|exact Hc].
  destruct Hwf as (Hb & _ & Hl).
  cbn [set_used set_bitmap total_frames used_frames frame_bitmap].
  pose proof (count_free_clear _ f Hb Hf Hbit) as Hcnt.
  rewrite (proj2 (u32_sub_step _ _ _ Hc)), <-Hcnt.
  pose proof (count_free_range (bm_clear (frame_bitmap s) f)).
  apply u32_small. unfold is32, FRAMES in *. lia.
Qed.

(** ** The abstract frame pool *)

(** The free frames: the clear bits of the bitmap. *)
Definition free_frames (s : psys) : gset Z :=
  list_to_set (filter (fun f => frame_bit (frame_bitmap s) f = false) (seqZ 0 FRAMES)).

Lemma elem_of_free_frames s f :
  f ∈ free_frames s <-> 0 <= f < FRAMES /\ frame_bit (frame_bitmap s) f = false.
Proof.
  unfold free_frames. rewrite elem_of_list_to_set, list_elem_of_filter, elem_of_seqZ.
  rewrite Z.add_0_l. tauto.
Qed.

(** Those of them that the scan of [bitmap_first_free] reaches. *)
Definition reachable_frames (s : psys) : gset Z :=
  list_to_set (filter (fun f => frame_bit (frame_bitmap s) f = false) (seqZ 0 (scan_limit s))).

Lemma elem_of_reachable_frames s f :
  f ∈ reachable_frames s <-> 0 <= f < scan_limit s /\ frame_bit (frame_bitmap s) f = false.
Proof.
  unfold reachable_frames. rewrite elem_of_list_to_set, list_elem_of_filter, elem_of_seqZ.
  rewrite Z.add_0_l. tauto.
Qed.

(** An allocator on a set of frames: it hands out the smallest one when that lies below
    [bound], and nothing when no frame of the set does. *)
Inductive pool_alloc (bound : Z) (P : gset Z) : option Z -> gset Z -> Prop :=
  | pool_take f :
      f ∈ P -> f < bound -> (forall g, g ∈ P -> f <= g) -> pool_alloc bound P (Some f) (P ∖ {[f]})
  | pool_none : (forall g, g ∈ P -> bound <= g) -> pool_alloc bound P None P.

Definition pool_addr (o : option Z) : Z :=
  match o with Some f => PAGE_SIZE * f | None => 0 end.

Lemma alloc_post_refines s r s' : pmm_wf s -> alloc_post s r s' ->
  exists o, pool_alloc (scan_limit s) (free_frames s) o (free_frames s') /\ r = pool_addr o.
Proof.
  intros (Hb & _ & Hl) [(f & Hf & Hbit & Hlow & -> & ->)|(Hall & -> & h & _ & -> & _)].
  - exists (Some f). split; [|done].
    replace (free_frames (set_used _ _)) with (free_frames s ∖ {[f]}).
    + constructor; [apply elem_of_free_frames; split; [lia|done]|lia|].
      intros g [Hg Hgb]%elem_of_free_frames. destruct (Z.le_gt_cases f g); [done|].
      rewrite Hlow in Hgb by lia. done.
    + apply set_eq. intros g. rewrite elem_of_difference, elem_of_singleton, !elem_of_free_frames.
      cbn [set_used set_bitmap total_frames frame_bitmap]. split.
      * intros [[Hg Hgb] Hne]. split; [done|]. rewrite frame_bit_set by (done || lia).
        by destruct (Z.eqb_spec f g).
      * intros [Hg Hgb]. rewrite frame_bit_set in Hgb by (done || lia).
        by destruct (Z.eqb_spec f g).
  - exists None. split; [|done]. change (free_frames (update p_lens h s)) with (free_frames s).
    constructor. intros g [Hg Hgb]%elem_of_free_frames. destruct (Z.le_gt_cases (scan_limit s) g); [done|].
    rewrite Hall in Hgb by lia. done.
Qed.

(** ** Initialisation *)

(** An entry of the memory map ([multiboot_mmap_entry_t]). *)
Record mmap_entry := MmapEntry {
  e_size : Z;
  e_base : Z;
  e_length : Z;
  e_type : Z;
}.

Definition entry_at (h : machine) (a : Z) (e : mmap_entry) : Prop :=
  vread h a = Some (e_size e) /\
  vread h (a +u 4) = Some (u32 (e_base e)) /\
  vread h (a +u 12) = Some (u32 (e_length e)) /\
  vread h (a +u 20) = Some (e_type e).

(** The entries that lie one after the other from [a] up to [mmap_end]. *)
Fixpoint mmap_at (h : machine) (a mmap_end : Z) (es : list mmap_entry) : Prop :=
  match es with
  | [] => mmap_end <= a
  | e :: es' =>
      0 <= a < mmap_end /\ entry_at h a e /\ 0 <= e_size e /\ is32 (a + e_size e + 4) /\
      mmap_at h (a + e_size e + 4) mmap_end es'
  end.

Definition start_frame (e : mmap_entry) : Z :=
  (u32 (e_base e) +u PAGE_SIZE -u 1) / PAGE_SIZE.
Definition end_frame (e : mmap_entry) : Z :=
  (u32 (e_base e) +u u32 (e_length e)) / PAGE_SIZE.

(** The frames the loop visits for an entry, above a lower limit [lim]. *)
Definition code_frames (lim : Z) (e : mmap_entry) (g : Z) : bool :=
  (e_type e =? 1) && (start_frame e <=? g) && (g <? end_frame e) && (lim <=? PAGE_SIZE * g).

Definition code_map (lim : Z) (es : list mmap_entry) (g : Z) : bool :=
  existsb (fun e => code_frames lim e g) es.

(** The state after the regions [R] were released into [s]. *)
Definition released (s : psys) (R : Z -> bool) (s' : psys) : Prop :=
  same_mem (p_hw s) (p_hw s') /\ used_frames s' = used_frames s /\
  bitmap_wf (frame_bitmap s') /\
  (forall g, 0 <= g < FRAMES ->
     frame_bit (frame_bitmap s') g = frame_bit (frame_bitmap s) g && negb (R g)) /\
  (total_frames s = count_free (frame_bitmap s) ->
   (forall g, 0 <= g < FRAMES -> R g = true -> frame_bit (frame_bitmap s) g = true) ->
   total_frames s' = count_free (frame_bitmap s')).

Lemma released_refl s R : bitmap_wf (frame_bitmap s) ->
  (forall g, 0 <= g < FRAMES -> R g = false) -> released s R s.
Proof.
  intros Hwf HR. split_and!; try done. intros g Hg. by rewrite HR, andb_true_r.
Qed.

Lemma released_hw h s R s' : same_mem (p_hw s') h -> released s R s' ->
  released s R (update p_lens h s').
Proof.
  intros Hh (Hm & H). split; [|done]. etransitivity; [exact Hm|done].
Qed.

Lemma released_trans s R s1 R' s2 R'' :
  released s R s1 -> released s1 R' s2 ->
  (forall g, 0 <= g < FRAMES -> R'' g = R g || R' g) ->
  (forall g, 0 <= g < FRAMES -> R g = true -> R' g = false) ->
  released s R'' s2.
Proof.
  intros (Hm1 & Hu1 & Hw1 & Hb1 & Ht1) (Hm2 & Hu2 & Hw2 & Hb2 & Ht2) HR Hd.
  split_and!; [by etransitivity|by rewrite Hu2|done| |].
  - intros g Hg. rewrite Hb2, Hb1, HR, negb_orb by done. by rewrite andb_assoc.
  - intros Hc Hset. apply Ht2; [apply Ht1; [done|]|].
    + intros g Hg Hr. apply Hset; [done|]. by rewrite HR, Hr.
    + intros g Hg Hr. rewrite Hb1 by done. destruct (R g) eqn:E.
      * rewrite Hd in Hr by done. done.
      * rewrite andb_true_r. apply Hset; [done|]. by rewrite HR, Hr, orb_true_r.
Qed.

(** Releasing one frame, as the body of the loop of [free_region] does. *)
Lemma released_clear s f : bitmap_wf (frame_bitmap s) -> 0 <= f < FRAMES ->
  released s (fun g => g =? f)
    (set_total (total_frames s +u 1) (set_bitmap (bm_clear (frame_bitmap s) f) s)).
Proof.
  intros Hwf Hf. split_and!; [done|done|by apply bm_clear_wf| |].
  - intros g Hg. cbn [set_total set_bitmap frame_bitmap].
    rewrite frame_bit_clear by done. rewrite andb_comm, Z.eqb_sym. done.
  - intros Hc Hset. cbn [set_total set_bitmap frame_bitmap total_frames].
    rewrite count_free_clear; [|done|done|by apply Hset; [|apply Z.eqb_refl]].
    rewrite Hc. apply u32_small.
    pose proof (count_free_range (frame_bitmap s)). unfold is32, FRAMES in *. lia.
Qed.

Lemma released_ext s R R' s' :
  (forall g, 0 <= g < FRAMES -> R g = R' g) -> released s R s' -> released s R' s'.
Proof.
  intros HR (Hm & Hu & Hw & Hb & Hc). split_and!; [done|done|done| |].
  - intros g Hg. by rewrite Hb, HR.
  - intros Ht Hset. apply Hc; [exact Ht|]. intros g Hg Hr. apply Hset; [done|]. by rewrite <-HR.
Qed.

(** The frames from [st] up to [en] that lie above the limit. *)
Definition region_range (lim st en g : Z) : bool :=
  (st <=? g) && (g <? en) && (lim <=? PAGE_SIZE * g).

Lemma region_range_empty lim st en g : en <= st -> region_range lim st en g = false.
Proof.
  intros. unfold region_range. destruct (Z.leb_spec st g), (Z.ltb_spec g en); try done; lia.
Qed.

Lemma region_range_succ lim st f g : st <= f ->
  region_range lim st (f + 1) g =
  region_range lim st f g || ((lim <=? PAGE_SIZE * f) && (g =? f)).
Proof.
  intros. unfold region_range.
  destruct (Z.leb_spec st g), (Z.ltb_spec g (f + 1)), (Z.ltb_spec g f), (Z.eqb_spec g f);
    try lia; subst; by rewrite ?andb_false_r, ?andb_true_r, ?orb_false_r.
Qed.

Section InitProofs.
Context {L : Layout}.

(** The invariant of the loop of [free_region] at frame [f]. *)
Definition region_inv (s : psys) (lim st en f : Z) (s' : psys) : Prop :=
  st <= f /\ (f <= en \/ f = st) /\ released s (region_range lim st f) s'.

Lemma region_inv_exit s lim st en f s' : region_inv s lim st en f s' -> en <= f ->
  released s (region_range lim st en) s'.
Proof.
  intros (Hf1 & Hf2 & Hrel) Hle. destruct Hf2 as [Hf2| ->].
  - by replace en with f by lia.
  - eapply released_ext; [|exact Hrel]. intros g _. by rewrite !region_range_empty by lia.
Qed.

Lemma region_inv_skip s lim st en f s' : region_inv s lim st en f s' -> f < en ->
  PAGE_SIZE * f < lim -> region_inv s lim st en (f + 1) s'.
Proof.
  intros (Hf1 & _ & Hrel) Hlt Hlim. split_and!; [lia|lia|].
  eapply released_ext; [|exact Hrel]. intros g _. rewrite region_range_succ by lia.
  replace (lim <=? _) with false by (symmetry; by apply Z.leb_gt). by rewrite orb_false_r.
Qed.

Lemma region_inv_clear s lim st en f s' : region_inv s lim st en f s' ->
  0 <= f < FRAMES -> f < en -> lim <= PAGE_SIZE * f ->
  region_inv s lim st en (f + 1)
    (set_total (total_frames s' +u 1) (set_bitmap (bm_clear (frame_bitmap s') f) s')).
Proof.
  intros (Hf1 & _ & Hrel) Hf Hlt Hlim. split_and!; [lia|lia|].
  pose proof Hrel as (_ & _ & Hwf & _).
  eapply released_trans; [exact Hrel|by apply released_clear| |].
  - intros g _. rewrite region_range_succ by lia.
    by replace (lim <=? _) with true by (symmetry; by apply Z.leb_le).
  - intros g _ Hr. unfold region_range in Hr. bools. apply Z.eqb_neq. lia.
Qed.

Lemma free_region_wp ke st en s :
  bitmap_wf (frame_bitmap s) -> 0 <= st -> 0 <= en <= FRAMES ->
  wp (free_region ke st en) s
     (fun _ s' => released s (region_range (Z.max 0x100000 ke) st en) s').
Proof.
  intros Hwf Hst Hen. unfold free_region.
  apply (wp_loop _ (region_inv s (Z.max 0x100000 ke) st en)
                   (fun f _ => Z.max 0 (en - f))).
  2:{ split_and!; [lia|by right|]. apply released_refl; [done|]. intros.
      by apply region_range_empty. }
  2:{ unfold FRAMES in *. lia. }
  intros f s' Hinv. pose proof Hinv as (Hf & _ & Hrel). unfold FRAMES in Hen.
  wp_step.
  2:{ wp_step. apply (region_inv_exit _ _ _ _ f); [done|].
      apply andb_false_iff in E as [E|E]; bools; unfold MAX_FRAMES in *; lia. }
  bools. rewrite (u32_small (f * PAGE_SIZE)), Z.mul_comm by (unfold is32, PAGE_SIZE; lia).
  wp_step.
  - wp_step. rewrite u32_small by (unfold is32; lia). split; [|lia].
    apply region_inv_skip; [done|done|]. apply orb_true_iff in E as [?|?]; bools; lia.
  - bools. pose proof Hrel as (_ & _ & Hwf' & _).
    wp_step. eapply wp_eq; [apply bitmap_clear_ok; [done|unfold FRAMES; lia]|].
    wp_step. wp_step. wp_step. rewrite u32_small by (unfold is32; lia). split; [|lia].
    apply (region_inv_clear _ _ _ _ f s'); [done|unfold FRAMES; lia|done|lia].
Qed.

(** An entry whose visited frames the bitmap can represent. *)
Definition entry_fits (e : mmap_entry) : Prop := e_type e = 1 -> end_frame e <= FRAMES.

Lemma init_entry_wp ke a e s :
  bitmap_wf (frame_bitmap s) -> entry_at (p_hw s) a e -> entry_fits e ->
  wp (init_entry ke a) s
     (fun _ s' => released s (code_frames (Z.max 0x100000 ke) e) s').
Proof.
  intros Hwf (_ & Hb & Hl & Ht) Hok. unfold init_entry.
  wp_step. eapply wp_ld; [exact Ht|]. wp_step; bools.
  { wp_step. apply released_refl; [done|]. intros g _. unfold code_frames.
    by destruct (Z.eqb_spec (e_type e) 1). }
  wp_step. eapply wp_ld; [exact Hb|]. wp_step. eapply wp_ld; [exact Hl|].
  wp_step. apply wp_p_kprintf. intros h Hh. cbv zeta.
  fold (start_frame e). fold (end_frame e).
  assert (forall x, 0 <= u32 x / PAGE_SIZE) as Hpos.
  { intros x. apply Z.div_pos; [apply u32_range|by unfold PAGE_SIZE]. }
  eapply wp_mono; [apply free_region_wp; [done|apply Hpos|split; [apply Hpos|by apply Hok]]|].
  intros [] s' Hrel. apply (released_ext _ (region_range (Z.max 0x100000 ke)
                              (start_frame e) (end_frame e))).
  { intros g _. unfold code_frames, region_range. by rewrite E. }
  destruct Hrel as (Hm & Hrel). split; [|exact Hrel]. etransitivity; [exact Hh|exact Hm].
Qed.

(** No frame is visited for two entries. *)
Fixpoint code_disjoint (lim : Z) (es : list mmap_entry) : Prop :=
  match es with
  | [] => True
  | e :: es' =>
      (forall g, 0 <= g < FRAMES -> code_frames lim e g = true ->
                 code_map lim es' g = false) /\ code_disjoint lim es'
  end.

Lemma entry_at_same h h' a e : same_mem h h' -> entry_at h a e -> entry_at h' a e.
Proof.
  intros E. unfold entry_at.
  pose proof (fun x => vread_proper h h' E x x eq_refl) as R. by rewrite !R.
Qed.

Lemma mmap_at_same h h' a b es : same_mem h h' -> mmap_at h a b es -> mmap_at h' a b es.
Proof.
  intros E. revert a. induction es as [|e es IH]; intros a; [done|]. cbn.
  intros (? & ? & ? & ? & ?). split; [done|]. split; [by eapply entry_at_same|].
  split; [done|]. split; [done|]. by apply IH.
Qed.

Lemma code_map_snoc lim d e g :
  code_map lim (d ++ [e]) g = code_map lim d g || code_frames lim e g.
Proof. unfold code_map. rewrite existsb_app. cbn. by rewrite orb_false_r. Qed.

Lemma code_disjoint_mid lim d e r g : code_disjoint lim (d ++ e :: r) -> 0 <= g < FRAMES ->
  code_map lim d g = true -> code_frames lim e g = false.
Proof.
  induction d as [|e' d IH]; cbn [app code_disjoint]; [done|].
  intros [He Hd] Hg. cbn. intros [H1|H1]%orb_true_iff; [|by apply IH].
  specialize (He g Hg H1). unfold code_map in He. rewrite existsb_app in He.
  cbn in He. by apply orb_false_iff in He as [_ [? _]%orb_false_iff].
Qed.

Definition map_inv (s : psys) (lim b : Z) (es : list mmap_entry) (a : Z) (s' : psys) : Prop :=
  exists d r, es = d ++ r /\ mmap_at (p_hw s') a b r /\ released s (code_map lim d) s'.

Lemma map_loop_wp ke a b es s :
  bitmap_wf (frame_bitmap s) -> mmap_at (p_hw s) a b es -> Forall entry_fits es ->
  code_disjoint (Z.max 0x100000 ke) es -> is32 a -> is32 b ->
  wp (loop (map_body ke b) a) s
     (fun _ s' => released s (code_map (Z.max 0x100000 ke) es) s').
Proof.
  intros Hwf Hat Hok Hdis Ha Hb.
  apply (wp_loop _ (map_inv s (Z.max 0x100000 ke) b es) (fun a _ => Z.max 0 (b - a))).
  2:{ exists [], es. split; [done|]. split; [done|]. by apply released_refl. }
  2:{ unfold is32 in *. lia. }
  intros a' s' (d & [|e r] & -> & Hat' & Hrel); unfold map_body; cbn in Hat'.
  { destruct (Z.ltb_spec a' b); [lia|]. wp_step. by rewrite app_nil_r. }
  destruct Hat' as (Ha' & He & Hsz & H32 & Hat'). destruct (Z.ltb_spec a' b); [|lia].
  pose proof Hrel as (_ & _ & Hwf' & _).
  wp_step. eapply wp_mono; [apply init_entry_wp; [done|exact He|]|].
  { apply Forall_app in Hok as [_ Hok]. by inversion Hok. }
  intros [] s1 Hrel1. pose proof Hrel1 as (Hm1 & _).
  destruct (entry_at_same _ _ _ _ Hm1 He) as (Hsize & _).
  wp_step. eapply wp_ld; [exact Hsize|]. wp_step.
  rewrite (u32_small (a' + e_size e)), u32_small by (unfold is32 in *; lia).
  split; [|lia]. exists (d ++ [e]), r. split; [by rewrite <-app_assoc|].
  split; [by eapply mmap_at_same|].
  eapply released_trans; [exact Hrel|exact Hrel1| |].
  - intros g _. apply code_map_snoc.
  - intros g Hg Hr. by eapply code_disjoint_mid.
Qed.

(** Marking all frames used. *)
Lemma fill_wp s : length (frame_bitmap s) = 4098%nat ->
  wp (for_loop BITMAP_BYTES 1 (fun i => bitmap_write i 0xFF) 0) s
     (fun _ s' => s' = set_bitmap (replicate 4098 255) s).
Proof.
  intros Hlen.
  apply (wp_for_loop _ _ _ (fun i s' => exists l, s' = set_bitmap l s /\ length l = 4098%nat /\
           forall k, (k < Z.to_nat i)%nat -> l !! k = Some 255)); try done.
  - exists (frame_bitmap s). split_and!; [by destruct s|done|]. intros; lia.
  - intros i s' Hi _ (l & -> & Hl & Hk). change BITMAP_BYTES with 4098 in Hi.
    destruct (lookup_lt_is_Some_2 l (Z.to_nat i)) as [v Hv]; [lia|].
    eapply wp_eq; [unfold bitmap_write; cbn; by rewrite Hv|].
    exists (<[Z.to_nat i := u8 255]> l). split_and!; [done|by rewrite length_insert|].
    intros k Hki. destruct (decide (k = Z.to_nat i)) as [->|].
    + by rewrite list_lookup_insert_eq by lia.
    + rewrite list_lookup_insert_ne by lia. apply Hk. lia.
  - intros s' (l & -> & Hl & Hk). f_equal.
    apply (list_eq_same_length _ _ 4098%nat); [by rewrite length_replicate|done|].
    intros i x y Hi Hx Hy. apply lookup_replicate in Hy as [-> _].
    rewrite Hk in Hx by (change BITMAP_BYTES with 4098; lia). by injection Hx.
Qed.

Lemma full_bitmap : bitmap_wf (replicate 4098 255) /\
  (forall g, 0 <= g < FRAMES -> frame_bit (replicate 4098 255) g = true).
Proof.
  split; [split; [by rewrite length_replicate|by apply Forall_replicate]|].
  intros g Hg. destruct (frame_index g Hg) as (_ & Hm & Hi). unfold frame_bit.
  rewrite lookup_total_replicate_2 by done. by apply (Z.ones_spec_low 8).
Qed.

(** The machine holds the information structure [mbi] with the map [es]. *)
Definition boot_info (h : machine) (mbi : Z) (es : list mmap_entry) : Prop :=
  exists flags a n, is32 a /\ vread h mbi = Some flags /\
    has_bits flags MULTIBOOT_FLAG_MMAP = true /\
    vread h (mbi +u 48) = Some a /\ vread h (mbi +u 44) = Some n /\
    mmap_at h a (a +u n) es.

Definition free_limit : Z := Z.max 0x100000 kernel_end_phys.

Lemma count_full : count_free (replicate 4098 255) = 0.
Proof.
  apply count_free_none, full_bitmap.
Qed.

Lemma pmm_init_code_wp mbi es s :
  length (frame_bitmap s) = 4098%nat -> boot_info (p_hw s) mbi es ->
  Forall entry_fits es -> code_disjoint free_limit es ->
  wp (pmm_init mbi) s (fun _ s' =>
    released (set_bitmap (replicate 4098 255) s) (code_map free_limit es) s').
Proof.
  intros Hlen (flags & a & n & H32 & Hfl & Hbit & Ha & Hn & Hat) Hok Hdis. unfold pmm_init.
  wp_step. eapply wp_mono; [by apply fill_wp|]. intros [] ? ->. cbv beta.
  set (s0 := set_bitmap _ s).
  wp_step. eapply wp_ld; [exact Hfl|]. rewrite Hbit. cbn [negb].
  wp_step. apply wp_p_kprintf. intros h Hh.
  pose proof (fun x => vread_proper _ _ Hh x x eq_refl) as R.
  wp_step. eapply (wp_ld _ a); [cbn; by rewrite <-R|].
  wp_step. eapply (wp_ld _ n); [cbn; by rewrite <-R|]. cbv zeta.
  wp_step. eapply wp_mono.
  { apply (map_loop_wp kernel_end_phys a (a +u n) es).
    - apply full_bitmap.
    - eapply mmap_at_same; [exact Hh|exact Hat].
    - exact Hok.
    - exact Hdis.
    - exact H32.
    - apply u32_range. }
  intros [] s' Hrel. wp_step. wp_step. apply wp_p_kprintf. intros h' Hh'.
  apply released_hw; [exact Hh'|].
  destruct Hrel as (Hm & Hrel). split; [|exact Hrel]. etransitivity; [exact Hh|exact Hm].
Qed.

(** ** The map as the boot loader means it

    The loop works on the low halves of base and length; the specification does not. *)

(** The frames that lie completely in an available entry, above a lower limit [lim]. *)
Definition entry_frames (lim : Z) (e : mmap_entry) (g : Z) : bool :=
  (e_type e =? 1) && (e_base e <=? PAGE_SIZE * g) &&
  (PAGE_SIZE * (g + 1) <=? e_base e + e_length e) && (lim <=? PAGE_SIZE * g).

Definition map_frames (lim : Z) (es : list mmap_entry) (g : Z) : bool :=
  existsb (fun e => entry_frames lim e g) es.

(** An available entry ends within the memory the bitmap has bits for, 128 MB and 64 KB. *)
Definition entry_ok (e : mmap_entry) : Prop :=
  e_type e = 1 -> 0 <= e_base e /\ 0 <= e_length e /\ e_base e + e_length e < PAGE_SIZE * (FRAMES + 1).

(** No frame is made available by two entries. *)
Fixpoint map_disjoint (lim : Z) (es : list mmap_entry) : Prop :=
  match es with
  | [] => True
  | e :: es' =>
      (forall g, 0 <= g < FRAMES -> entry_frames lim e g = true ->
                 map_frames lim es' g = false) /\ map_disjoint lim es'
  end.

Lemma entry_bounds e : entry_ok e -> e_type e = 1 ->
  start_frame e = (e_base e + 4095) / 4096 /\ end_frame e = (e_base e + e_length e) / 4096.
Proof.
  intros Hok Ht. destruct (Hok Ht) as (H1 & H2 & H3). unfold start_frame, end_frame, PAGE_SIZE, FRAMES in *.
  rewrite (u32_small (e_base e)), (u32_small (e_length e)) by (unfold is32; lia).
  rewrite (u32_small (e_base e + 4096)), !u32_small by (unfold is32; lia). split; [f_equal; lia|done].
Qed.

Lemma entry_fits_ok e : entry_ok e -> entry_fits e.
Proof.
  intros Hok Ht. destruct (entry_bounds e Hok Ht) as [_ ->]. destruct (Hok Ht) as (_ & _ & H).
  unfold PAGE_SIZE, FRAMES in *. apply Z.lt_succ_r, Z.div_lt_upper_bound; lia.
Qed.

Lemma entry_frames_code lim e g : entry_ok e -> entry_frames lim e g = code_frames lim e g.
Proof.
  intros Hok. unfold entry_frames, code_frames. destruct (Z.eqb_spec (e_type e) 1) as [Ht|]; [|done]. cbn [andb].
  destruct (entry_bounds e Hok Ht) as [-> ->]. unfold PAGE_SIZE. f_equal. f_equal.
  - pose proof (Z.div_mod (e_base e + 4095) 4096 ltac:(lia)). pose proof (Z.mod_pos_bound (e_base e + 4095) 4096 ltac:(lia)).
    destruct (Z.leb_spec (e_base e) (4096 * g)), (Z.leb_spec ((e_base e + 4095) / 4096) g); lia.
  - pose proof (Z.div_mod (e_base e + e_length e) 4096 ltac:(lia)). pose proof (Z.mod_pos_bound (e_base e + e_length e) 4096 ltac:(lia)).
    destruct (Z.leb_spec (4096 * (g + 1)) (e_base e + e_length e)), (Z.ltb_spec g ((e_base e + e_length e) / 4096)); lia.
Qed.

Lemma map_frames_code lim es g : Forall entry_ok es -> map_frames lim es g = code_map lim es g.
Proof.
  unfold map_frames, code_map. induction 1 as [|e es He Hes IH]; [done|]. cbn [existsb]. by rewrite IH, entry_frames_code.
Qed.

Lemma code_disjoint_ok lim es : Forall entry_ok es -> map_disjoint lim es -> code_disjoint lim es.
Proof.
  induction 1 as [|e es He Hes IH]; [done|]. intros [H1 H2]. split; [|by apply IH]. intros g Hg Hc.
  rewrite <-map_frames_code by done. apply H1; [done|]. by rewrite entry_frames_code.
Qed.

Lemma pmm_init_wp mbi es s :
  length (frame_bitmap s) = 4098%nat -> boot_info (p_hw s) mbi es ->
  Forall entry_ok es -> map_disjoint free_limit es ->
  wp (pmm_init mbi) s (fun _ s' =>
    released (set_bitmap (replicate 4098 255) s) (map_frames free_limit es) s').
Proof.
  intros Hlen Hbi Hok Hd. eapply wp_mono; [apply (pmm_init_code_wp mbi es); [done|done| |by apply code_disjoint_ok]|].
  - eapply Forall_impl; [exact Hok|]. apply entry_fits_ok.
  - intros [] s'. apply released_ext. intros g _. symmetry. by apply map_frames_code.
Qed.
End InitProofs.
