(* ===== verification/Paging.v ===== *)
(** * Paging ([kernel/paging.c], [kernel/paging.h])

    The kernel's page directory and page tables are words in memory, read and
    written through the virtual addresses the C code uses: [page_directory] by its
    link address, a page table by [PHYS_TO_VIRT] of the address in its directory
    entry. *)

From stdpp Require Import base gmap list numbers option strings.
From Stdlib Require Import ZArith Lia Setoid Morphisms.
From S2P Require Import Prelude Machine PageTables Pmm.

Definition KERNEL_VIRTUAL_BASE : Z := 0xC0000000.
Definition PHYS_TO_VIRT (addr : Z) : Z := addr +u KERNEL_VIRTUAL_BASE.
Definition VIRT_TO_PHYS (addr : Z) : Z := addr -u KERNEL_VIRTUAL_BASE.

Definition PAGE_PRESENT : Z := 0x001.
Definition PAGE_WRITE : Z := 0x002.
Definition PAGE_USER : Z := 0x004.
Definition PAGE_ENTRIES : Z := 1024.

Record gsys := Gsys {
  g_p : psys;
  current_page_directory : Z;
}.

Definition g_lens : lens gsys psys :=
  Lens g_p (fun p s => Gsys p (current_page_directory s)).

#[export] Instance g_lens_laws : LensLaws g_lens.
Proof. split; by intros; try destruct s. Qed.

Definition g_hw (s : gsys) : machine := p_hw (g_p s).
Definition set_hw (h : machine) (s : gsys) : gsys :=
  update g_lens (update p_lens h (g_p s)) s.

Definition hw {A} (m : M machine A) : M gsys A := zoom g_lens (zoom p_lens m).

Section Paging.
Context {L : Layout}.

Definition paging_load_directory (dir_phys : Z) : M gsys unit := hw (load_cr3 dir_phys).

Definition paging_flush_tlb (virtual_addr : Z) : M gsys unit :=
  hw (emit (Invlpg virtual_addr)).

(** [page_directory[i]] and [table[i]] as lvalues. *)
Definition pd_entry (i : Z) : Z := sym_page_directory +u 4 * i.
Definition table_entry (table i : Z) : Z := table +u 4 * i.

Definition paging_init : M gsys unit :=
  hw (kprintf ("Paging: Initializing higher-half mapping..." +:+ nl) []) ;;;
  for_loop PAGE_ENTRIES 1 (fun i => hw (vst32 (pd_entry i) 0x00000002)) 0 ;;;
  for_loop 4 1 (fun t =>
    let table := sym_page_tables +u t * 4096 in
    for_loop PAGE_ENTRIES 1 (fun i =>
      let phys_addr := (t * PAGE_ENTRIES + i) *u PAGE_SIZE in
      hw (vst32 (table_entry table i) (Z.lor (Z.lor phys_addr PAGE_PRESENT) PAGE_WRITE))) 0 ;;;
    hw (vst32 (pd_entry (768 + t))
              (Z.lor (Z.lor (VIRT_TO_PHYS table) PAGE_PRESENT) PAGE_WRITE))) 0 ;;;
  modify (fun s => Gsys (g_p s) sym_page_directory) ;;;
  paging_load_directory (VIRT_TO_PHYS sym_page_directory) ;;;
  hw (kprintf ("Paging: Loaded, first 16MB mapped at 0xC0000000" +:+ nl) []).

(** The creation of a missing page table; [false] when there is no frame. *)
Definition new_page_table (pd_index flags : Z) : M gsys bool :=
  new_table_phys <- zoom g_lens pmm_alloc_frame ;;
  if new_table_phys =? 0 then
    hw (kprintf ("Paging: Failed to allocate page table" +:+ nl) []) ;;; ret false
  else
    let new_table := PHYS_TO_VIRT new_table_phys in
    for_loop PAGE_ENTRIES 1 (fun i => hw (vst32 (table_entry new_table i) 0)) 0 ;;;
    hw (vst32 (pd_entry pd_index)
          (Z.lor (Z.lor (Z.lor new_table_phys PAGE_PRESENT) PAGE_WRITE)
                 (Z.land flags PAGE_USER))) ;;;
    ret true.

Definition paging_map_page (virtual_addr physical_addr flags : Z) : M gsys unit :=
  let pd_i := Z.shiftr virtual_addr 22 in
  let pt_i := Z.land (Z.shiftr virtual_addr 12) 0x3FF in
  pde <- hw (vld32 (pd_entry pd_i)) ;;
  ok <- (if has_bits pde PAGE_PRESENT then ret true else new_page_table pd_i flags) ;;
  if negb ok then ret tt else
  pde' <- hw (vld32 (pd_entry pd_i)) ;;
  let table_phys := Z.land pde' 0xFFFFF000 in
  let table := PHYS_TO_VIRT table_phys in
  hw (vst32 (table_entry table pt_i)
        (Z.lor (Z.lor (Z.land physical_addr 0xFFFFF000) (Z.land flags 0xFFF)) PAGE_PRESENT)) ;;;
  paging_flush_tlb virtual_addr.

Definition paging_unmap_page (virtual_addr : Z) : M gsys unit :=
  let pd_i := Z.shiftr virtual_addr 22 in
  let pt_i := Z.land (Z.shiftr virtual_addr 12) 0x3FF in
  pde <- hw (vld32 (pd_entry pd_i)) ;;
  if negb (has_bits pde PAGE_PRESENT) then ret tt else
  pde' <- hw (vld32 (pd_entry pd_i)) ;;
  let table_phys := Z.land pde' 0xFFFFF000 in
  let table := PHYS_TO_VIRT table_phys in
  hw (vst32 (table_entry table pt_i) 0) ;;;
  paging_flush_tlb virtual_addr.

Definition paging_get_physical (virtual_addr : Z) : M gsys Z :=
  let pd_i := Z.shiftr virtual_addr 22 in
  let pt_i := Z.land (Z.shiftr virtual_addr 12) 0x3FF in
  let offset := Z.land virtual_addr 0xFFF in
  pde <- hw (vld32 (pd_entry pd_i)) ;;
  if negb (has_bits pde PAGE_PRESENT) then ret 0 else
  pde' <- hw (vld32 (pd_entry pd_i)) ;;
  let table_phys := Z.land pde' 0xFFFFF000 in
  let table := PHYS_TO_VIRT table_phys in
  pte <- hw (vld32 (table_entry table pt_i)) ;;
  if negb (has_bits pte PAGE_PRESENT) then ret 0 else
  pte' <- hw (vld32 (table_entry table pt_i)) ;;
  ret (Z.land pte' 0xFFFFF000 +u offset).

Definition paging_get_directory : Z := VIRT_TO_PHYS sym_page_directory.

Definition paging_create_directory : M gsys Z :=
  dir_phys <- zoom g_lens pmm_alloc_frame ;;
  if dir_phys =? 0 then
    hw (kprintf ("Paging: failed to allocate new page directory" +:+ nl) []) ;;; ret 0
  else
    let new_dir := PHYS_TO_VIRT dir_phys in
    for_loop PAGE_ENTRIES 1 (fun i => hw (vst32 (table_entry new_dir i) 0x00000002)) 0 ;;;
    for_loop 1024 1 (fun i =>
      v <- hw (vld32 (pd_entry i)) ;; hw (vst32 (table_entry new_dir i) v)) 768 ;;;
    ret dir_phys.

Definition paging_switch_directory (dir_phys : Z) : M gsys unit :=
  modify (fun s => Gsys (g_p s) (PHYS_TO_VIRT dir_phys)) ;;;
  paging_load_directory dir_phys.
End Paging.

(** ** Running machine code in this layer *)

Lemma wp_hw {A} (m : M machine A) s (Q : A -> gsys -> Prop) E :
  wpe m (g_hw s) (fun a h => Q a (set_hw h s)) (fun e h => E e (set_hw h s)) ->
  wpe (hw m) s Q E.
Proof. intros H. unfold hw. wp_step. wp_step. exact H. Qed.

Lemma wp_hw_kprintf fmt args s (Q : unit -> gsys -> Prop) E :
  (forall h, same_mem (g_hw s) h -> Q tt (set_hw h s)) -> wpe (hw (kprintf fmt args)) s Q E.
Proof. intros H. apply wp_hw. unfold kprintf, emit. wp_step. by apply H. Qed.

Lemma set_hw_id s : set_hw (g_hw s) s = s.
Proof. by destruct s as [[]]. Qed.

Lemma set_hw_hw h h' s : set_hw h (set_hw h' s) = set_hw h s.
Proof. done. Qed.

(** ** The kernel's own map

    The kernel reaches its paging structures through a window at
    [KERNEL_VIRTUAL_BASE].  [paging_init] maps 16 MB there, but the heap is placed
    over all of it except the first 4 MB; [DIRECT] is the part that stays. *)

Definition DIRECT : Z := 0x400000.

Section KernelMap.
Context {L : Layout} {LOk : LayoutOk L}.

Abbreviation PDp := paging_get_directory.

(** The window: physical addresses below [DIRECT] at [KERNEL_VIRTUAL_BASE]. *)
Definition window (h : machine) : Prop :=
  forall p, 0 <= p < DIRECT -> translate h (KERNEL_VIRTUAL_BASE + p) = Some p.

Record kmap_wf (h : machine) : Prop := {
  kw_cr3 : cr3 h = PDp;
  kw_direct : window h;
  kw_table : forall i T, 0 <= i < 1024 -> table_of (ram h) PDp i = Some T ->
               T < DIRECT /\ T <> PDp;
  kw_inj : forall i j T, 0 <= i < 1024 -> 0 <= j < 1024 ->
             table_of (ram h) PDp i = Some T -> table_of (ram h) PDp j = Some T -> i = j;
}.

Lemma PDp_eq : PDp = sym_page_directory - KERNEL_VIRTUAL_BASE.
Proof.
  unfold paging_get_directory, VIRT_TO_PHYS, KERNEL_VIRTUAL_BASE. apply u32_small.
  pose proof lo_pd_range. pose proof lo_end. unfold is32. lia.
Qed.

Lemma PDp_aligned : page_aligned PDp /\ PDp + 4096 <= DIRECT.
Proof.
  pose proof lo_pd_range. pose proof lo_end. pose proof lo_pd_aligned as Ha.
  rewrite PDp_eq. unfold page_aligned, is32, KERNEL_VIRTUAL_BASE, DIRECT.
  split_and!; [lia|lia| |lia].
  rewrite Zminus_mod, Ha. done.
Qed.

Lemma aligned_below F : page_aligned F -> F < DIRECT -> F + 4096 <= DIRECT.
Proof.
  intros [_ Ha] H. unfold DIRECT in *. apply Z.mod_divide in Ha as [x ->]; [|lia]. lia.
Qed.

Lemma PHYS_TO_VIRT_eq F : 0 <= F < DIRECT -> PHYS_TO_VIRT F = KERNEL_VIRTUAL_BASE + F.
Proof.
  unfold DIRECT, PHYS_TO_VIRT, KERNEL_VIRTUAL_BASE. intros. rewrite u32_small; [lia|].
  unfold is32. lia.
Qed.

Lemma pd_entry_eq i : pd_entry i = table_entry (PHYS_TO_VIRT PDp) i.
Proof.
  unfold pd_entry, table_entry. destruct PDp_aligned as [[H32 _] Hlt].
  rewrite PHYS_TO_VIRT_eq by (unfold is32 in *; lia). rewrite PDp_eq. f_equal. lia.
Qed.

(** Words of a frame in the window, by their virtual address. *)
Lemma window_word h F k : window h -> page_aligned F -> F < DIRECT -> 0 <= k < 1024 ->
  is32 (table_entry (PHYS_TO_VIRT F) k) /\ table_entry (PHYS_TO_VIRT F) k mod 4 = 0 /\
  translate h (table_entry (PHYS_TO_VIRT F) k) = Some (F + 4 * k).
Proof.
  intros Hw Ha Hlt Hk. pose proof (aligned_below F Ha Hlt) as Hb.
  destruct Ha as [H32 Ha]. unfold is32 in H32.
  rewrite PHYS_TO_VIRT_eq by lia. unfold table_entry, DIRECT in *.
  rewrite u32_small by (unfold is32, KERNEL_VIRTUAL_BASE; lia).
  split_and!; [unfold is32, KERNEL_VIRTUAL_BASE; lia..| |].
  - apply Z.mod_divide in Ha as [x ->]; [|lia]. unfold KERNEL_VIRTUAL_BASE.
    replace (3221225472 + x * 4096 + 4 * k) with ((805306368 + x * 1024 + k) * 4) by lia.
    apply Z.mod_mul. lia.
  - rewrite <-Z.add_assoc. apply Hw. unfold DIRECT. lia.
Qed.

Lemma window_read h F k : window h -> page_aligned F -> F < DIRECT -> 0 <= k < 1024 ->
  vread h (table_entry (PHYS_TO_VIRT F) k) = Some (ld32 (ram h) (F + 4 * k)).
Proof. intros. destruct (window_word h F k) as (? & ? & ?); try done. by apply vread_aligned. Qed.

Lemma window_write h F k v : window h -> page_aligned F -> F < DIRECT -> 0 <= k < 1024 ->
  vst32 (table_entry (PHYS_TO_VIRT F) k) v h = Ok tt (set_ram (st32 (ram h) (F + 4 * k) v) h).
Proof. intros. destruct (window_word h F k) as (? & ? & ?); try done. by apply vst32_aligned. Qed.

Lemma pd_read h i : kmap_wf h -> 0 <= i < 1024 ->
  vread h (pd_entry i) = Some (ld32 (ram h) (PDp + 4 * i)).
Proof.
  intros. rewrite pd_entry_eq. destruct PDp_aligned. apply window_read; [by apply kw_direct|done|lia|done].
Qed.

Lemma pd_write h i v : kmap_wf h -> 0 <= i < 1024 ->
  vst32 (pd_entry i) v h = Ok tt (set_ram (st32 (ram h) (PDp + 4 * i) v) h).
Proof.
  intros. rewrite pd_entry_eq. destruct PDp_aligned. apply window_write; [by apply kw_direct|done|lia|done].
Qed.

(** ** How the kernel's own map survives stores *)

Lemma page_index_eq va va' :
  (pd_index va' = pd_index va /\ pt_index va' = pt_index va) <-> va' / 4096 = va / 4096.
Proof.
  rewrite !pd_index_div, !pt_index_div.
  pose proof (Z.div_mod (va / 4096) 1024 ltac:(lia)).
  pose proof (Z.div_mod (va' / 4096) 1024 ltac:(lia)).
  split; [intros [E1 E2]; lia|by intros ->].
Qed.

(** [va] is not in the window. *)
Definition outside (va : Z) : Prop :=
  va < KERNEL_VIRTUAL_BASE \/ KERNEL_VIRTUAL_BASE + DIRECT <= va.

Lemma outside_page va p : outside va -> 0 <= p < DIRECT ->
  (KERNEL_VIRTUAL_BASE + p) / 4096 <> va / 4096.
Proof.
  unfold outside, DIRECT, KERNEL_VIRTUAL_BASE. intros Ho Hp E.
  pose proof (Z.div_mod va 4096 ltac:(lia)). pose proof (Z.mod_pos_bound va 4096 ltac:(lia)).
  pose proof (Z.div_mod (3221225472 + p) 4096 ltac:(lia)).
  pose proof (Z.mod_pos_bound (3221225472 + p) 4096 ltac:(lia)). lia.
Qed.

Lemma window_is32 p : 0 <= p < DIRECT -> is32 (KERNEL_VIRTUAL_BASE + p).
Proof. unfold is32, DIRECT, KERNEL_VIRTUAL_BASE. lia. Qed.

Lemma kmap_same h h' : same_mem h h' -> kmap_wf h -> kmap_wf h'.
Proof.
  intros Hm [Hc Hd Ht Hi]. pose proof Hm as [Hr Hcr]. split.
  - by rewrite <-Hcr.
  - intros p Hp. rewrite <-(Hd p Hp). symmetry. by apply translate_proper.
  - by rewrite <-Hr.
  - by rewrite <-Hr.
Qed.

Lemma kmap_data h F k v : kmap_wf h -> data_frame (ram h) PDp F -> 0 <= k < 1024 ->
  kmap_wf (set_ram (st32 (ram h) (F + 4 * k) v) h).
Proof.
  intros [Hc Hd Ht Hi] HF Hk. destruct PDp_aligned as [Hal _].
  assert (forall i, 0 <= i < 1024 -> table_of (st32 (ram h) (F + 4 * k) v) PDp i =
                                     table_of (ram h) PDp i) as E.
  { intros. by apply table_of_data. }
  split; cbn.
  - done.
  - intros p Hp. rewrite <-(Hd p Hp). unfold translate. cbn. rewrite Hc.
    by rewrite walk_data by (done || by apply window_is32).
  - intros i T Hir. rewrite E by done. by apply Ht.
  - intros i j T Hir Hjr. rewrite !E by done. by apply Hi.
Qed.

Lemma kmap_pte h T va v : kmap_wf h -> is32 va -> outside va -> is32 v ->
  table_of (ram h) PDp (pd_index va) = Some T ->
  kmap_wf (set_ram (st32 (ram h) (T + 4 * pt_index va) v) h).
Proof.
  intros Hw Hva Ho Hv HT. pose proof Hw as [Hc Hd Ht Hi].
  destruct PDp_aligned as [Hal _]. pose proof (pd_index_range va Hva) as Hr.
  pose proof (pt_index_range va) as Hr'. destruct (Ht _ _ Hr HT) as [_ Hne].
  assert (forall i, 0 <= i < 1024 -> table_of (st32 (ram h) (T + 4 * pt_index va) v) PDp i =
                                     table_of (ram h) PDp i) as E.
  { intros. by apply (table_of_pte _ _ Hal (pd_index va)). }
  split; cbn.
  - done.
  - intros p Hp. rewrite <-(Hd p Hp). unfold translate. cbn. rewrite Hc.
    erewrite walk_pte; [|done|exact HT|done..|by apply window_is32|eauto].
    rewrite decide_False; [done|]. rewrite page_index_eq. by apply outside_page.
  - intros i T' Hir. rewrite E by done. by apply Ht.
  - intros i j T' Hir Hjr. rewrite !E by done. by apply Hi.
Qed.

(** Installing an empty table in a missing directory entry. *)
Lemma kmap_pde h F i v : kmap_wf h -> 0 <= i < 1024 -> is32 v ->
  has_bits v 1 = true -> Z.land v 0xFFFFF000 = F -> F < DIRECT ->
  table_of (ram h) PDp i = None -> data_frame (ram h) PDp F ->
  (forall k, 0 <= k < 1024 -> pte_of (ram h) F k = None) ->
  kmap_wf (set_ram (st32 (ram h) (PDp + 4 * i) v) h) /\
  (forall va, is32 va -> walk (st32 (ram h) (PDp + 4 * i) v) PDp va = walk (ram h) PDp va).
Proof.
  intros Hw Hir Hv Hbit HF Hlt Hnone (Ha & Hne & Hfresh) Hempty.
  pose proof Hw as [Hc Hd Ht Hi]. destruct PDp_aligned as [Hal _].
  assert (forall va, is32 va -> walk (st32 (ram h) (PDp + 4 * i) v) PDp va =
                                walk (ram h) PDp va) as Hwalk.
  { intros va Hva. apply walk_pde; try done; [congruence| |by rewrite HF].
    intros j Hj E. by destruct (Ht _ _ Hj E). }
  assert (forall j, 0 <= j < 1024 -> table_of (st32 (ram h) (PDp + 4 * i) v) PDp j =
            if decide (j = i) then Some F else table_of (ram h) PDp j) as E.
  { intros j Hj. rewrite table_of_pde by done. by rewrite Hbit, HF. }
  split; [|done]. split; cbn.
  - done.
  - intros p Hp. rewrite <-(Hd p Hp). unfold translate. cbn. rewrite Hc.
    by rewrite Hwalk by by apply window_is32.
  - intros j T Hj. rewrite E by done. case_decide; [intros [= <-]; done|by apply Ht].
  - intros j j' T Hj Hj'. rewrite !E by done. repeat case_decide; try congruence.
    + intros [= <-] H'. by destruct (Hfresh j').
    + intros H' [= <-]. by destruct (Hfresh j).
    + by apply Hi.
Qed.

(** ** Single accesses *)

Lemma wp_hw_vld32 a v s (Q : Z -> gsys -> Prop) E :
  vread (g_hw s) a = Some v -> Q v s -> wpe (hw (vld32 a)) s Q E.
Proof.
  intros Hr HQ. apply wp_hw. eapply wp_vld32; [exact Hr|]. by rewrite set_hw_id.
Qed.

Lemma wp_hw_vst32 a v h s (Q : unit -> gsys -> Prop) E :
  vst32 a v (g_hw s) = Ok tt h -> Q tt (set_hw h s) -> wpe (hw (vst32 a v)) s Q E.
Proof. intros Hw HQ. apply wp_hw. by eapply wp_eq. Qed.

Lemma wp_flush va s (Q : unit -> gsys -> Prop) E :
  (forall h, same_mem (g_hw s) h -> trace h = Invlpg va :: trace (g_hw s) -> Q tt (set_hw h s)) ->
  wpe (paging_flush_tlb va) s Q E.
Proof. intros H. apply wp_hw. unfold emit. wp_step. by apply H. Qed.

Lemma table_of_pd h i : has_bits (ld32 (ram h) (PDp + 4 * i)) 1 = true ->
  table_of (ram h) PDp i = Some (Z.land (ld32 (ram h) (PDp + 4 * i)) 0xFFFFF000).
Proof. unfold table_of. by intros ->. Qed.

Lemma table_of_pd_none h i : has_bits (ld32 (ram h) (PDp + 4 * i)) 1 = false ->
  table_of (ram h) PDp i = None.
Proof. unfold table_of. by intros ->. Qed.

(** The walk of the kernel directory, by cases. *)
Lemma walk_kernel h va : kmap_wf h -> walk (ram h) (cr3 h) va =
  T ← table_of (ram h) PDp (pd_index va); pte_of (ram h) T (pt_index va).
Proof.
  intros Hw. rewrite (kw_cr3 _ Hw). apply walk_tables, PDp_aligned.
Qed.

(** ** Lookup *)

Lemma paging_get_physical_run s va : kmap_wf (g_hw s) -> is32 va ->
  paging_get_physical va s = Ok (default 0 (translate (g_hw s) va)) s.
Proof.
  intros Hw Hva. pose proof (pd_index_range va Hva) as Hi.
  enough (wp (paging_get_physical va) s
            (fun r s' => r = default 0 (translate (g_hw s) va) /\ s' = s)) as H.
  { by apply wp_ok in H as (? & ? & ? & -> & ->). }
  unfold paging_get_physical. fold (pd_index va) (pt_index va). cbv zeta.
  pose proof (pd_read _ _ Hw Hi) as Hpd. unfold translate. rewrite walk_kernel by done.
  wp_step. eapply wp_hw_vld32; [exact Hpd|]. unfold PAGE_PRESENT.
  destruct (has_bits (ld32 _ (PDp + _)) 1) eqn:Hb; cbn [negb].
  2:{ rewrite table_of_pd_none by done. by wp_step. }
  pose proof (table_of_pd _ _ Hb) as HT. rewrite HT. cbn.
  destruct (kw_table _ Hw _ _ Hi HT) as [Hlt _].
  pose proof (window_read _ _ _ (kw_direct _ Hw) (table_of_aligned _ _ _ _ HT) Hlt (pt_index_range va)) as Hpt.
  wp_step. eapply wp_hw_vld32; [exact Hpd|].
  wp_step. eapply wp_hw_vld32; [exact Hpt|]. unfold pte_of.
  destruct (has_bits (ld32 _ (Z.land _ _ + _)) 1); cbn [negb]; [|by wp_step].
  wp_step. eapply wp_hw_vld32; [exact Hpt|]. wp_step. split; [|done]. cbn.
  apply u32_small. pose proof (ld32_range (ram (g_hw s)) (Z.land (ld32 (ram (g_hw s)) (PDp + 4 * pd_index va)) 4294963200 + 4 * pt_index va)) as Hr.
  destruct (land_mask_aligned _ Hr) as [Hm Ha]. rewrite land_fff.
  pose proof (Z.mod_pos_bound va 4096 ltac:(lia)). unfold is32 in *.
  apply Z.mod_divide in Ha as [x Hx]; [|lia]. rewrite Hx in *. lia.
Qed.

(** ** Changes of single entries *)

(** [h'] translates like [h] except that the page of [va] has the entry [o]. *)
Definition remaps (h h' : machine) (va : Z) (o : option Z) : Prop :=
  forall va', is32 va' -> walk (ram h') (cr3 h') va' =
    if decide (va' / 4096 = va / 4096) then o else walk (ram h) (cr3 h) va'.

Definition entry (v : Z) : option Z := if has_bits v 1 then Some v else None.

Lemma pte_store_remaps h T va v : kmap_wf h -> is32 va -> is32 v ->
  table_of (ram h) PDp (pd_index va) = Some T ->
  remaps h (set_ram (st32 (ram h) (T + 4 * pt_index va) v) h) va (entry v).
Proof.
  intros Hw Hva Hv HT va' Hva'. cbn. rewrite (kw_cr3 _ Hw).
  pose proof (pd_index_range va Hva) as Hi. destruct (kw_table _ Hw _ _ Hi HT) as [_ Hne].
  erewrite walk_pte; [|apply PDp_aligned|exact HT|done|done|apply pt_index_range|done|done|].
  - apply decide_ext, page_index_eq.
  - intros j Hj HT'. by apply (kw_inj _ Hw _ _ _ Hj Hi HT' HT).
Qed.

Lemma remaps_same h h' h'' va o : remaps h h' va o -> same_mem h' h'' -> remaps h h'' va o.
Proof. intros Hr [E1 E2] va' Hva'. rewrite <-E1, <-E2. by apply Hr. Qed.

(** ** Unmapping *)

(** Bytes outside the frame [T] are unchanged. *)
Definition only_frame (T : Z) (h h' : machine) : Prop :=
  forall b, b < T \/ T + 4096 <= b -> ld8 (ram h') b = ld8 (ram h) b.

Lemma paging_unmap_page_wp s va : kmap_wf (g_hw s) -> is32 va -> outside va ->
  wp (paging_unmap_page va) s (fun _ s' =>
    s' = set_hw (g_hw s') s /\
    kmap_wf (g_hw s') /\ remaps (g_hw s) (g_hw s') va None /\
    match table_of (ram (g_hw s)) PDp (pd_index va) with
    | Some T => only_frame T (g_hw s) (g_hw s')
    | None => s' = s
    end).
Proof.
  intros Hw Hva Ho. pose proof (pd_index_range va Hva) as Hi.
  pose proof (pd_read _ _ Hw Hi) as Hpd.
  unfold paging_unmap_page. fold (pd_index va) (pt_index va). cbv zeta.
  wp_step. eapply wp_hw_vld32; [exact Hpd|]. unfold PAGE_PRESENT.
  destruct (has_bits (ld32 _ (PDp + _)) 1) eqn:Hb; cbn [negb].
  2:{ wp_step. split_and!; [by destruct s as [[]]|done| |by rewrite table_of_pd_none].
      intros va' Hva'. case_decide as E; [|done]. rewrite walk_kernel by done.
      apply page_index_eq in E as [-> _]. by rewrite table_of_pd_none. }
  pose proof (table_of_pd _ _ Hb) as HT. destruct (kw_table _ Hw _ _ Hi HT) as [Hlt _].
  pose proof (table_of_aligned _ _ _ _ HT) as Hal. pose proof (pt_index_range va) as Hk.
  wp_step. eapply wp_hw_vld32; [exact Hpd|].
  wp_step. eapply wp_hw_vst32; [apply window_write; [by apply kw_direct|done..]|].
  apply wp_flush. intros h Hh _. rewrite set_hw_hw. cbn in Hh.
  split_and!; [done| | |].
  - eapply kmap_same; [exact Hh|]. by apply kmap_pte.
  - eapply remaps_same; [|exact Hh]. by apply (pte_store_remaps _ _ va 0).
  - rewrite HT. intros b Hb'. destruct Hh as [Hr _].
    change (g_hw (set_hw h s)) with h. rewrite <-Hr. cbn.
    apply ld8_st32_frame; [apply Hal|done|done].
Qed.

(** ** Creating a page table *)

(** The invariant the paging code and the frame allocator share: the frames of the
    paging structures, and frame 0, are never handed out. *)
Record paging_inv (s : gsys) : Prop := {
  pi_map : kmap_wf (g_hw s);
  pi_pmm : pmm_wf (g_p s);
  pi_zero : frame_bit (frame_bitmap (g_p s)) 0 = true;
  pi_dir : frame_bit (frame_bitmap (g_p s)) (PDp / 4096) = true;
  pi_tables : forall i T, 0 <= i < 1024 -> table_of (ram (g_hw s)) PDp i = Some T ->
                frame_bit (frame_bitmap (g_p s)) (T / 4096) = true;
}.

(** The next frame to be handed out, if any, is inside the window. *)
Definition low_frame (s : gsys) : Prop :=
  forall f, 0 <= f < scan_limit (g_p s) -> frame_bit (frame_bitmap (g_p s)) f = false ->
    all_used (frame_bitmap (g_p s)) f -> PAGE_SIZE * f < DIRECT.

(** Frames that are in use and hold no paging structure keep their contents. *)
Definition keeps_data (s s' : gsys) : Prop :=
  forall G, data_frame (ram (g_hw s)) PDp G -> 0 <= G / 4096 < FRAMES ->
    frame_bit (frame_bitmap (g_p s)) (G / 4096) = true ->
    data_frame (ram (g_hw s')) PDp G /\
    frame_bit (frame_bitmap (g_p s')) (G / 4096) = true /\
    forall k, 0 <= k < 4096 -> ld8 (ram (g_hw s')) (G + k) = ld8 (ram (g_hw s)) (G + k).

(** Page tables stay where they are, and the scan range of the allocator too. *)
Definition tables_kept (s s' : gsys) : Prop :=
  total_frames (g_p s') = total_frames (g_p s) /\
  current_page_directory s' = current_page_directory s /\
  forall i T, 0 <= i < 1024 -> table_of (ram (g_hw s)) PDp i = Some T ->
    table_of (ram (g_hw s')) PDp i = Some T.

(** After [k] steps of the loop that clears the new table at [F]. *)
Record clearing (F : Z) (h0 : machine) (k : Z) (h : machine) : Prop := {
  cl_map : kmap_wf h;
  cl_walk : forall va, is32 va -> walk (ram h) PDp va = walk (ram h0) PDp va;
  cl_table : forall i, 0 <= i < 1024 -> table_of (ram h) PDp i = table_of (ram h0) PDp i;
  cl_zero : forall j, 0 <= j < k -> ld32 (ram h) (F + 4 * j) = 0;
  cl_only : only_frame F h0 h;
}.

Lemma clearing_step F h0 k h : page_aligned F -> data_frame (ram h0) PDp F -> 0 <= k < 1024 ->
  clearing F h0 k h ->
  clearing F h0 (k + 1) (set_ram (st32 (ram h) (F + 4 * k) 0) h).
Proof.
  intros Hal HF Hk [Hm Hw Ht Hz Ho].
  assert (data_frame (ram h) PDp F) as HF'.
  { destruct HF as (? & ? & Hfr). split_and!; [done|done|]. intros i Hi.
    rewrite Ht by done. by apply Hfr. }
  split; cbn.
  - by apply kmap_data.
  - intros va Hva. rewrite walk_data by (done || apply PDp_aligned). by apply Hw.
  - intros i Hi. rewrite table_of_data by (done || apply PDp_aligned). by apply Ht.
  - intros j Hj. destruct (Z.eq_dec j k) as [->|].
    + by apply ld32_st32.
    + rewrite ld32_st32_index by done. apply Hz. lia.
  - intros b Hb. cbn. rewrite ld8_st32_frame by (done || apply Hal). by apply Ho.
Qed.

Lemma clear_table_wp F s : kmap_wf (g_hw s) -> page_aligned F -> F < DIRECT ->
  data_frame (ram (g_hw s)) PDp F ->
  wp (for_loop PAGE_ENTRIES 1
        (fun i => hw (vst32 (table_entry (PHYS_TO_VIRT F) i) 0)) 0) s
     (fun _ s' => exists h, s' = set_hw h s /\ clearing F (g_hw s) 1024 h).
Proof.
  intros Hw Hal Hlt HF.
  apply (wp_for_loop _ _ _ (fun k s' => exists h, s' = set_hw h s /\ clearing F (g_hw s) k h));
    try done.
  - exists (g_hw s). split; [by rewrite set_hw_id|]. split; try done. intros; lia.
  - intros k s' Hk _ (h & -> & Hcl).
    eapply wp_hw_vst32; [apply window_write; [apply Hcl|done..]|].
    eexists. split; [done|]. by apply clearing_step.
Qed.

(** The directory entry [new_page_table] writes. *)
Definition pde_value (F flags : Z) : Z :=
  Z.lor (Z.lor (Z.lor F PAGE_PRESENT) PAGE_WRITE) (Z.land flags PAGE_USER).

Lemma add_low_mask a b : page_aligned a -> 0 <= b < 4096 ->
  is32 (a + b) /\ Z.land (a + b) 0xFFFFF000 = a.
Proof.
  intros [H32 Ha] Hb. unfold is32 in H32. apply Z.mod_divide in Ha as [x ->]; [|lia].
  assert (is32 (x * 4096 + b)) as H by (unfold is32; lia). split; [done|].
  rewrite land_page_mask by done. rewrite Z.add_comm, Z.mod_add by lia.
  rewrite Z.mod_small by lia. lia.
Qed.

Lemma add_low_odd a b : a mod 4096 = 0 -> b mod 2 = 1 -> has_bits (a + b) 1 = true.
Proof.
  intros Ha Hb. rewrite has_bits_1. apply Z.mod_divide in Ha as [x ->]; [|lia].
  replace (x * 4096 + b) with (b + x * 2048 * 2) by lia.
  by rewrite Z.mod_add, Hb by lia.
Qed.

Lemma pde_value_spec F flags : page_aligned F ->
  is32 (pde_value F flags) /\ has_bits (pde_value F flags) 1 = true /\
  Z.land (pde_value F flags) 0xFFFFF000 = F.
Proof.
  intros Hal. unfold pde_value, PAGE_PRESENT, PAGE_WRITE, PAGE_USER.
  rewrite <-!Z.lor_assoc, land_4. destruct Hal as [H32 Ha].
  set (low := Z.lor 1 _).
  assert (0 <= low < 4096 /\ low mod 2 = 1) as [Hl Hodd].
  { subst low. by destruct (Z.testbit flags 2). }
  rewrite lor_page by done. destruct (add_low_mask F low) as [? ?]; [done|done|].
  split_and!; try done. by apply add_low_odd.
Qed.

Lemma frame_of_aligned f : 0 <= f < FRAMES -> page_aligned (PAGE_SIZE * f) /\ PAGE_SIZE * f / 4096 = f.
Proof.
  unfold page_aligned, is32, PAGE_SIZE, FRAMES. intros. rewrite Z.mul_comm.
  rewrite Z.mod_mul, Z.div_mul by lia. lia.
Qed.

Lemma aligned_frame a : page_aligned a -> a < DIRECT -> a = 4096 * (a / 4096) /\ 0 <= a / 4096 < 1024.
Proof.
  intros [H32 Ha] Hlt. unfold is32, DIRECT in *. apply Z.mod_divide in Ha as [x ->]; [|lia].
  rewrite Z.div_mul by lia. lia.
Qed.

(** A free frame is not one of the paging structures. *)
Lemma free_frame_data s f : paging_inv s -> 0 <= f < FRAMES ->
  frame_bit (frame_bitmap (g_p s)) f = false ->
  data_frame (ram (g_hw s)) PDp (PAGE_SIZE * f).
Proof.
  intros [Hm _ _ Hd Ht] Hf Hbit. destruct (frame_of_aligned f Hf) as [[_ Ha] Hdiv].
  split_and!; [done| |].
  - intros E. rewrite <-E, Hdiv in Hd. congruence.
  - intros i Hi E. apply Ht in E; [|done]. rewrite Hdiv in E. congruence.
Qed.

Lemma paging_inv_hw h s : same_mem (g_hw s) h -> paging_inv s -> paging_inv (set_hw h s).
Proof.
  intros Hh [Hm Hp Hz Hd Ht]. split; cbn; try done.
  - by eapply kmap_same.
  - intros i T Hi. change (g_hw (set_hw h s)) with h. destruct Hh as [<- _]. by apply Ht.
Qed.

Lemma keeps_data_hw h s : same_mem (g_hw s) h -> keeps_data s (set_hw h s).
Proof.
  intros [Hr _] G HG Hin Hb. change (g_hw (set_hw h s)) with h. by rewrite <-Hr.
Qed.

Lemma tables_kept_hw h s : same_mem (g_hw s) h -> tables_kept s (set_hw h s).
Proof.
  intros [Hr _]. split_and!; [done|done|]. intros i T Hi.
  change (g_hw (set_hw h s)) with h. by rewrite <-Hr.
Qed.

(** The state after frame [f] became the page table of index [i]. *)
Definition with_table (s : gsys) (f i : Z) (s' : gsys) : Prop :=
  frame_bitmap (g_p s') = bm_set (frame_bitmap (g_p s)) f /\
  total_frames (g_p s') = total_frames (g_p s) /\
  current_page_directory s' = current_page_directory s /\
  kmap_wf (g_hw s') /\
  (forall j, 0 <= j < 1024 -> table_of (ram (g_hw s')) PDp j =
     if decide (j = i) then Some (PAGE_SIZE * f) else table_of (ram (g_hw s)) PDp j) /\
  (forall b, b < PAGE_SIZE * f \/ PAGE_SIZE * f + 4096 <= b ->
     b < PDp \/ PDp + 4096 <= b -> ld8 (ram (g_hw s')) b = ld8 (ram (g_hw s)) b).

Lemma with_table_inv s f i s' : paging_inv s -> 0 <= f < 1024 ->
  with_table s f i s' -> paging_inv s'.
Proof.
  intros [Hm (Hb & Htot & Hl) Hz Hd Ht] Hf (Ebm & Etot & _ & Hm' & Etab & _).
  assert (forall g, 0 <= g < 1024 -> frame_bit (frame_bitmap (g_p s)) g = true ->
            frame_bit (frame_bitmap (g_p s')) g = true) as Hmono.
  { intros g Hg Hgb. rewrite Ebm, frame_bit_set by (done || (unfold FRAMES; lia)).
    by rewrite Hgb, orb_true_r. }
  split; [done| | | |].
  - unfold pmm_wf, scan_limit. rewrite Ebm, Etot. split_and!; [by apply bm_set_wf|done|done].
  - by apply Hmono.
  - destruct PDp_aligned as [Hal Hlt]. apply Hmono; [|done].
    apply aligned_frame; [done|lia].
  - intros j T Hj. rewrite Etab by done. case_decide as E.
    + intros [= <-]. destruct (frame_of_aligned f ltac:(unfold FRAMES; lia)) as [_ ->].
      rewrite Ebm, frame_bit_set by (done || (unfold FRAMES; lia)). by rewrite Z.eqb_refl.
    + intros HT. apply Hmono; [|by eapply Ht].
      apply aligned_frame; [by eapply table_of_aligned|by eapply (kw_table _ Hm)].
Qed.

Lemma with_table_keeps s f i s' : paging_inv s -> 0 <= f < 1024 ->
  frame_bit (frame_bitmap (g_p s)) f = false ->
  with_table s f i s' -> keeps_data s s'.
Proof.
  intros Hinv Hf Hbit (Ebm & _ & _ & _ & Etab & Ebytes) G (Ha & Hne & Hnt) Hin Hused.
  destruct (frame_of_aligned f ltac:(unfold FRAMES; lia)) as [[_ Haf] Hdiv].
  destruct PDp_aligned as [[_ Hac] _].
  assert (G <> PAGE_SIZE * f) as HGF by (intros ->; rewrite Hdiv in Hused; congruence).
  split; [|split].
  - split_and!; [done|done|]. intros j Hj. rewrite Etab by done.
    case_decide; [congruence|by apply Hnt].
  - rewrite Ebm, frame_bit_set by (done || apply Hinv || (unfold FRAMES; lia)).
    by rewrite Hused, orb_true_r.
  - intros k Hk. unfold PAGE_SIZE in *.
    apply Z.mod_divide in Ha as [x ->]; [|lia]. apply Z.mod_divide in Hac as [y Hy]; [|lia].
    apply Ebytes; [nia|]. rewrite Hy in *. nia.
Qed.

Lemma with_table_kept s f i s' : table_of (ram (g_hw s)) PDp i = None ->
  with_table s f i s' -> tables_kept s s'.
Proof.
  intros Hn (_ & Etot & Ecur & _ & Etab & _). split_and!; [done|done|]. intros j T Hj HT.
  rewrite Etab by done. case_decide; congruence.
Qed.

(** The frames [ts] were free and are now in use, and no other frame changed hands. *)
Definition added (s s' : gsys) (ts : list Z) : Prop :=
  NoDup ts /\
  (forall x, x ∈ ts -> 0 < x < 1024 /\ frame_bit (frame_bitmap (g_p s)) x = false) /\
  forall x, 0 <= x < FRAMES ->
    frame_bit (frame_bitmap (g_p s')) x = bool_decide (x ∈ ts) || frame_bit (frame_bitmap (g_p s)) x.

Lemma added_none s s' : frame_bitmap (g_p s') = frame_bitmap (g_p s) -> added s s' [].
Proof. intros E. split_and!; [constructor|by intros x ?%not_elem_of_nil|]. intros x _. by rewrite E. Qed.

Lemma with_table_added s f i s' : paging_inv s -> 0 < f < 1024 ->
  frame_bit (frame_bitmap (g_p s)) f = false -> with_table s f i s' -> added s s' [f].
Proof.
  intros Hinv Hf Hb (Ebm & _). split_and!; [apply NoDup_singleton|by intros x ->%list_elem_of_singleton|].
  intros x Hx. rewrite Ebm, frame_bit_set by (apply Hinv || (unfold FRAMES in *; lia)). f_equal.
  rewrite (bool_decide_ext _ (f = x)) by (rewrite list_elem_of_singleton; naive_solver).
  destruct (Z.eqb_spec f x); by case_bool_decide.
Qed.

(** The outcome of [new_page_table]. *)
Definition new_table_post (s : gsys) (i : Z) (b : bool) (s' : gsys) : Prop :=
  paging_inv s' /\ keeps_data s s' /\ tables_kept s s' /\
  (forall va, is32 va -> walk (ram (g_hw s')) PDp va = walk (ram (g_hw s)) PDp va) /\
  if b then is_Some (table_of (ram (g_hw s')) PDp i) /\ (exists ts, (length ts <= 1)%nat /\ added s s' ts)
  else table_of (ram (g_hw s)) PDp i = None /\
       same_mem (g_hw s) (g_hw s') /\ frame_bitmap (g_p s') = frame_bitmap (g_p s) /\
       all_used (frame_bitmap (g_p s)) (scan_limit (g_p s)).

Lemma new_page_table_wp s i flags : paging_inv s -> low_frame s -> 0 <= i < 1024 ->
  table_of (ram (g_hw s)) PDp i = None ->
  wp (new_page_table i flags) s (new_table_post s i).
Proof.
  intros Hinv Hlow Hi Hnone. unfold new_page_table. wp_step. wp_step.
  change (view g_lens s) with (g_p s). eapply wp_mono; [apply pmm_alloc_frame_wp, Hinv|]. cbv beta.
  intros r p' [(f & Hf & Hbit & Hall & -> & ->)|(Hall & -> & h & _ & -> & Hram & Hcr)].
  2:{ cbn [Z.eqb]. assert (same_mem (g_hw s) h) as Hh by done.
      wp_step. apply wp_hw_kprintf. intros h' Hh'. wp_step.
      assert (same_mem (g_hw s) h') as Hs by (etransitivity; [exact Hh|exact Hh']).
      split_and!; [by apply (paging_inv_hw h' s)|by apply (keeps_data_hw h' s)|by apply (tables_kept_hw h' s)| |done..].
      intros va Hva. by destruct Hs as [-> _]. }
  pose proof (Hlow f Hf Hbit Hall) as Hlt. unfold DIRECT, PAGE_SIZE in Hlt.
  assert (f <> 0) as Hf0 by (intros ->; by rewrite (pi_zero _ Hinv) in Hbit).
  assert (0 <= f < 1024) as Hf' by lia.
  assert (0 <= f < FRAMES) as HfF by (unfold FRAMES; lia).
  destruct (frame_of_aligned f HfF) as [Hal Hdiv].
  pose proof (free_frame_data s f Hinv HfF Hbit) as HF.
  wp_step; bools; [unfold PAGE_SIZE in *; lia|].
  set (s1 := update g_lens _ s). cbv zeta.
  wp_step. eapply wp_mono.
  { apply (clear_table_wp (PAGE_SIZE * f) s1); [apply Hinv|done|unfold PAGE_SIZE, DIRECT; lia|done]. }
  intros [] ? (h1 & -> & [Hm1 Hw1 Ht1 Hz1 Ho1]).
  destruct (pde_value_spec (PAGE_SIZE * f) flags Hal) as (Hv32 & Hvb & Hvm).
  assert (data_frame (ram h1) PDp (PAGE_SIZE * f)) as HF1.
  { destruct HF as (? & ? & Hfr). split_and!; [done|done|]. intros j Hj.
    rewrite Ht1 by done. by apply Hfr. }
  assert (forall k, 0 <= k < 1024 -> pte_of (ram h1) (PAGE_SIZE * f) k = None) as Hpt1.
  { intros k Hk. unfold pte_of. by rewrite Hz1. }
  assert (table_of (ram h1) PDp i = None) as Hn1 by (by rewrite Ht1).
  destruct (kmap_pde h1 _ i _ Hm1 Hi Hv32 Hvb Hvm Hlt Hn1 HF1 Hpt1) as [Hm2 Hw2].
  wp_step. eapply wp_hw_vst32; [by apply pd_write|]. wp_step.
  set (s2 := set_hw _ _).
  assert (with_table s f i s2) as Hwt.
  { split_and!; [done|done|done|done| |].
    - intros j Hj. cbn. rewrite table_of_pde by (done || apply PDp_aligned).
      fold (pde_value (PAGE_SIZE * f) flags). by rewrite Hvb, Hvm, Ht1.
    - intros b Hb1 Hb2. cbn. rewrite ld8_st32_frame by (done || apply PDp_aligned).
      by apply Ho1. }
  split_and!; [by eapply with_table_inv|by eapply with_table_keeps| | | |].
  - by eapply with_table_kept.
  - intros va Hva. cbn. fold (pde_value (PAGE_SIZE * f) flags). rewrite Hw2 by done. by apply Hw1.
  - destruct Hwt as (_ & _ & _ & _ & -> & _); [|done]. by rewrite decide_True.
  - exists [f]. split; [done|]. by eapply with_table_added; [|lia|..].
Qed.

(** ** Mapping *)

(** The page-table entry [paging_map_page] writes. *)
Definition make_pte (physical_addr flags : Z) : Z :=
  Z.lor (Z.lor (Z.land physical_addr 0xFFFFF000) (Z.land flags 0xFFF)) PAGE_PRESENT.

Lemma make_pte_spec pa flags : is32 pa ->
  is32 (make_pte pa flags) /\ has_bits (make_pte pa flags) 1 = true /\
  Z.land (make_pte pa flags) 0xFFFFF000 = Z.land pa 0xFFFFF000.
Proof.
  intros H32. pose proof (land_mask_aligned pa H32) as Hal.
  unfold make_pte, PAGE_PRESENT. rewrite <-Z.lor_assoc, land_fff.
  set (low := Z.lor (flags mod 4096) 1).
  assert (low = Z.lor (2 * (flags mod 4096 / 2)) 1) as Elow.
  { subst low. apply Z.bits_inj'. intros i Hi. rewrite !Z.lor_spec.
    destruct (Z.eq_dec i 0) as [->|]; [by rewrite !orb_true_r|].
    replace i with (Z.succ (i - 1)) by lia. rewrite Z.testbit_even_succ by lia.
    change 2 with (2 ^ 1) at 1. rewrite <-Z.shiftr_div_pow2, Z.shiftr_spec by lia.
    by replace (i - 1 + 1) with (Z.succ (i - 1)) by lia. }
  assert (0 <= low < 4096 /\ low mod 2 = 1) as [Hl Hodd].
  { rewrite Elow, Z.mul_comm, (lor_low _ 1 1) by lia. change (2 ^ 1) with 2.
    pose proof (Z.mod_pos_bound flags 4096 ltac:(lia)).
    assert (0 <= flags mod 4096 / 2 < 2048)
      by (split; [apply Z.div_pos|apply Z.div_lt_upper_bound]; lia).
    rewrite Z.add_comm, Z.mod_add by lia. by split; [lia|]. }
  rewrite lor_page by (done || apply Hal).
  destruct (add_low_mask _ low Hal Hl) as [? ?]. split_and!; try done.
  apply add_low_odd; [apply Hal|done].
Qed.

Lemma keeps_data_trans s s1 s2 : keeps_data s s1 -> keeps_data s1 s2 -> keeps_data s s2.
Proof.
  intros H1 H2 G HG Hin Hb. destruct (H1 G HG Hin Hb) as (HG1 & Hb1 & Hk1).
  destruct (H2 G HG1 Hin Hb1) as (HG2 & Hb2 & Hk2). split_and!; [done|done|].
  intros k Hk. by rewrite Hk2, Hk1.
Qed.

(** Writing an entry of an existing table. *)
Lemma pte_store_inv s T va v h : paging_inv s -> is32 va -> outside va -> is32 v ->
  table_of (ram (g_hw s)) PDp (pd_index va) = Some T ->
  same_mem (set_ram (st32 (ram (g_hw s)) (T + 4 * pt_index va) v) (g_hw s)) h ->
  paging_inv (set_hw h s) /\ keeps_data s (set_hw h s) /\ tables_kept s (set_hw h s) /\
  remaps (g_hw s) h va (entry v).
Proof.
  intros Hinv Hva Ho Hv HT Hh. pose proof (pi_map _ Hinv) as Hm.
  pose proof (pd_index_range va Hva) as Hi. pose proof (pt_index_range va) as Hk.
  destruct (kw_table _ Hm _ _ Hi HT) as [Hlt Hne].
  pose proof (table_of_aligned _ _ _ _ HT) as [_ Hal].
  assert (forall j, 0 <= j < 1024 -> table_of (ram h) PDp j = table_of (ram (g_hw s)) PDp j) as Et.
  { intros j Hj. destruct Hh as [<- _]. cbn.
    by apply (table_of_pte _ _ (proj1 PDp_aligned) (pd_index va)). }
  split; [|split; [|split]].
  - destruct Hinv as [_ Hp Hz Hd Ht]. split; cbn; try done.
    + eapply kmap_same; [exact Hh|]. by apply kmap_pte.
    + intros i T' Hi'. change (g_hw (set_hw h s)) with h. rewrite Et by done. by apply Ht.
  - intros G (HGa & HGc & HGt) Hin Hb. change (g_hw (set_hw h s)) with h. split; [|split].
    + split_and!; [done|done|]. intros j Hj. rewrite Et by done. by apply HGt.
    + done.
    + intros k Hk'. destruct Hh as [<- _]. cbn. apply ld8_st32_frame; [done|done|].
      assert (G <> T) by (intros ->; by apply (HGt (pd_index va))).
      apply Z.mod_divide in HGa as [x ->]; [|lia]. apply Z.mod_divide in Hal as [y ->]; [|lia].
      nia.
  - split_and!; [done|done|]. intros j T' Hj. change (g_hw (set_hw h s)) with h. by rewrite Et.
  - eapply remaps_same; [|exact Hh]. by apply pte_store_remaps.
Qed.

Definition map_post (s : gsys) (va v : Z) (s' : gsys) : Prop :=
  paging_inv s' /\ keeps_data s s' /\ tables_kept s s' /\
  ((remaps (g_hw s) (g_hw s') va (Some v) /\ hd_error (trace (g_hw s')) = Some (Invlpg va) /\
    exists ts, (length ts <= 1)%nat /\ added s s' ts) \/
   (table_of (ram (g_hw s)) PDp (pd_index va) = None /\ same_mem (g_hw s) (g_hw s') /\
    frame_bitmap (g_p s') = frame_bitmap (g_p s) /\
    all_used (frame_bitmap (g_p s)) (scan_limit (g_p s)))).

Lemma tables_kept_trans s s1 s2 : tables_kept s s1 -> tables_kept s1 s2 -> tables_kept s s2.
Proof. intros (E1 & C1 & T1) (E2 & C2 & T2). split_and!; [congruence|congruence|eauto]. Qed.

Lemma tables_kept_refl s : tables_kept s s.
Proof. by split_and!. Qed.

(** Only the creation of a page table needs a frame inside the window. *)
Lemma paging_map_page_wp s va pa flags : paging_inv s -> is32 va ->
  (table_of (ram (g_hw s)) PDp (pd_index va) = None -> low_frame s) ->
  outside va -> is32 pa ->
  wp (paging_map_page va pa flags) s (fun _ s' => map_post s va (make_pte pa flags) s').
Proof.
  intros Hinv Hva Hlow Ho Hpa. pose proof (pd_index_range va Hva) as Hi.
  pose proof (pt_index_range va) as Hk.
  destruct (make_pte_spec pa flags Hpa) as (Hv32 & Hvb & _).
  unfold paging_map_page. fold (pd_index va) (pt_index va). cbv zeta.
  wp_step. eapply wp_hw_vld32; [by apply pd_read; [apply Hinv|]|]. unfold PAGE_PRESENT.
  wp_step. apply (wp_mono _ _ _ (new_table_post s (pd_index va))).
  { destruct (has_bits (ld32 _ (PDp + _)) 1) eqn:Hb.
    - wp_step. split_and!; try done; [by rewrite table_of_pd|].
      exists []. split; [cbn; lia|by apply added_none].
    - pose proof (table_of_pd_none _ _ Hb). apply new_page_table_wp; auto. }
  intros [] s1 (Hinv1 & Hkeep1 & Hkt1 & Hw1 & Hres); cbn [negb].
  2:{ wp_step. split_and!; [done..|]. right. by split_and!; try apply Hres. }
  destruct Hres as [[T HT] (ts & Hts & Hadd)]. pose proof (pi_map _ Hinv1) as Hm1.
  destruct (kw_table _ Hm1 _ _ Hi HT) as [Hlt _].
  assert (Z.land (ld32 (ram (g_hw s1)) (PDp + 4 * pd_index va)) 0xFFFFF000 = T) as ET.
  { clear -HT. unfold table_of in HT. destruct (has_bits _ _); congruence. }
  wp_step. eapply wp_hw_vld32; [by apply pd_read|]. rewrite ET.
  wp_step. eapply wp_hw_vst32; [apply window_write; try done; [by apply kw_direct|by eapply table_of_aligned]|].
  apply wp_flush. intros h Hh Htr. rewrite set_hw_hw.
  destruct (pte_store_inv s1 T va _ h Hinv1 Hva Ho Hv32 HT Hh) as (Hinv2 & Hkeep2 & Hkt2 & Hremap).
  split_and!; [done|by eapply keeps_data_trans|by eapply tables_kept_trans|]. left.
  split; [|split; [by change (g_hw (set_hw h s1)) with h; rewrite Htr|by exists ts]].
  intros va' Hva'. change (g_hw (set_hw h s1)) with h. rewrite Hremap by done.
  unfold entry. fold (make_pte pa flags). rewrite Hvb. case_decide; [done|].
  rewrite (kw_cr3 _ Hm1), Hw1 by done. by rewrite (kw_cr3 _ (pi_map _ Hinv)).
Qed.
End KernelMap.
