(* ===== verification/PagingInit.v ===== *)
(** * The map [paging_init] builds

    [paging_init] runs on the boot page tables and fills the kernel's own
    directory and four page tables through the window; after the load of CR3 the
    first 16 MB are mapped at [KERNEL_VIRTUAL_BASE] and nothing else is mapped. *)

From stdpp Require Import base gmap list numbers option strings.
From Stdlib Require Import ZArith Lia Setoid Morphisms.
From S2P Require Import Prelude Machine PageTables Pmm Paging.

Section Init.
Context {L : Layout} {LOk : LayoutOk L}.

Abbreviation PDp := paging_get_directory.

(** Physical address of [page_tables[t]]. *)
Definition PTp (t : Z) : Z := sym_page_tables - KERNEL_VIRTUAL_BASE + t * 4096.

Definition static_frame (G : Z) : Prop := G = PDp \/ exists t, 0 <= t < 4 /\ G = PTp t.

Lemma PTp_aligned t : 0 <= t < 4 -> page_aligned (PTp t) /\ PTp t < DIRECT.
Proof.
  intros Ht. pose proof lo_pt_range. pose proof lo_end. pose proof lo_pt_aligned as Ha.
  unfold PTp, page_aligned, is32, KERNEL_VIRTUAL_BASE, DIRECT.
  split_and!; [lia|lia| |lia]. rewrite Z.mod_add by lia. rewrite Zminus_mod, Ha. done.
Qed.

Lemma static_aligned G : static_frame G -> page_aligned G /\ G < DIRECT.
Proof.
  intros [->|(t & Ht & ->)]; [|by apply PTp_aligned].
  destruct PDp_aligned. split; [done|lia].
Qed.

Lemma static_distinct t t' : 0 <= t < 4 -> 0 <= t' < 4 ->
  PTp t <> PDp /\ (PTp t = PTp t' -> t = t').
Proof.
  intros Ht Ht'. rewrite PDp_eq. pose proof lo_disjoint. unfold PTp. lia.
Qed.

Lemma table_va t : 0 <= t < 4 -> sym_page_tables +u t * 4096 = PHYS_TO_VIRT (PTp t).
Proof.
  intros Ht. destruct (PTp_aligned t Ht) as [[H32 _] Hlt].
  rewrite PHYS_TO_VIRT_eq by (unfold is32 in *; lia).
  pose proof lo_pt_range. pose proof lo_end. unfold PTp, KERNEL_VIRTUAL_BASE.
  rewrite u32_small by (unfold is32; lia). lia.
Qed.

(** The machine during initialisation: it still runs on the directory [c] of the
    boot code, whose frames are not those of the kernel's own structures. *)
Record boot_ok (c : Z) (h : machine) : Prop := {
  bo_cr3 : cr3 h = c;
  bo_aligned : page_aligned c;
  bo_window : window h;
  bo_frames : forall G, static_frame G -> data_frame (ram h) c G;
}.

Lemma boot_ok_same c h h' : same_mem h h' -> boot_ok c h -> boot_ok c h'.
Proof.
  intros Hm [Hc Ha Hw Hf]. pose proof Hm as [Hr Hcr]. split; [congruence|done| |by rewrite <-Hr].
  intros p Hp. rewrite <-(Hw p Hp). symmetry. by apply translate_proper.
Qed.

Lemma boot_store c h G k v : boot_ok c h -> static_frame G -> 0 <= k < 1024 ->
  vst32 (table_entry (PHYS_TO_VIRT G) k) v h = Ok tt (set_ram (st32 (ram h) (G + 4 * k) v) h) /\
  boot_ok c (set_ram (st32 (ram h) (G + 4 * k) v) h).
Proof.
  intros [Hc Ha Hw Hf] HG Hk. destruct (static_aligned G HG) as [Hal Hlt].
  split; [by apply window_write|]. pose proof (Hf G HG) as HGd. split; [done|done| |].
  - intros p Hp. rewrite <-(Hw p Hp). unfold translate. cbn. rewrite Hc.
    by rewrite walk_data by (done || by apply window_is32).
  - intros G' HG'. destruct (Hf G' HG') as (? & ? & Ht). split_and!; [done|done|].
    intros i Hi. cbn. rewrite table_of_data by done. by apply Ht.
Qed.

(** ** Contents of the structures as they are filled *)

Definition pt_word (t i : Z) : Z := (t * 1024 + i) * 4096 + 3.
Definition pd_word (t i : Z) : Z :=
  if decide (768 <= i < 768 + t) then PTp (i - 768) + 3 else 2.

Definition pt_filled (m : gmap Z Z) (t n : Z) : Prop :=
  forall i, 0 <= i < n -> ld32 m (PTp t + 4 * i) = pt_word t i.

(** Tables below [t] are complete, [k] entries of table [t] are written. *)
Record contents (t k : Z) (m : gmap Z Z) : Prop := {
  fi_pd : forall i, 0 <= i < 1024 -> ld32 m (PDp + 4 * i) = pd_word t i;
  fi_pt : forall t', 0 <= t' < t -> pt_filled m t' 1024;
  fi_cur : pt_filled m t k;
}.

Definition filled (c t k : Z) (h : machine) : Prop := boot_ok c h /\ contents t k (ram h).

Lemma pt_word_code t i : 0 <= t < 4 -> 0 <= i < 1024 ->
  Z.lor (Z.lor ((t * PAGE_ENTRIES + i) *u PAGE_SIZE) PAGE_PRESENT) PAGE_WRITE = pt_word t i /\
  is32 (pt_word t i).
Proof.
  intros Ht Hi. unfold pt_word, PAGE_ENTRIES, PAGE_SIZE, PAGE_PRESENT, PAGE_WRITE.
  rewrite u32_small by (unfold is32; lia). rewrite <-Z.lor_assoc. change (Z.lor 1 2) with 3.
  rewrite lor_page; [|by apply Z.mod_mul|lia]. unfold is32. lia.
Qed.

Lemma pd_word_code t : 0 <= t < 4 ->
  Z.lor (Z.lor (VIRT_TO_PHYS (sym_page_tables +u t * 4096)) PAGE_PRESENT) PAGE_WRITE =
    PTp t + 3 /\ is32 (PTp t + 3).
Proof.
  intros Ht. destruct (PTp_aligned t Ht) as [[H32 Ha] Hlt].
  pose proof lo_pt_range. pose proof lo_end. unfold DIRECT, is32 in *.
  unfold VIRT_TO_PHYS, KERNEL_VIRTUAL_BASE, PAGE_PRESENT, PAGE_WRITE.
  rewrite (u32_small (sym_page_tables + t * 4096)) by (unfold is32; lia).
  rewrite u32_small by (unfold is32; lia). rewrite <-Z.lor_assoc. change (Z.lor 1 2) with 3.
  replace (sym_page_tables + t * 4096 - 3221225472) with (PTp t)
    by (unfold PTp, KERNEL_VIRTUAL_BASE; lia).
  rewrite lor_page by (done || lia). lia.
Qed.

Lemma filled_step c t k h : 0 <= t < 4 -> 0 <= k < 1024 -> filled c t k h ->
  filled c t (k + 1) (set_ram (st32 (ram h) (PTp t + 4 * k) (pt_word t k)) h).
Proof.
  intros Ht Hk [Hb [Hpd Hpt Hcur]].
  destruct (static_distinct t t Ht Ht) as [Hne _]. destruct (PTp_aligned t Ht) as [[_ Hal] _].
  destruct PDp_aligned as [[_ HalD] _].
  split; [apply boot_store; [done|right; by eexists|done]|]. split.
  - intros i Hi. cbn. rewrite ld32_st32_frame by done. by apply Hpd.
  - intros t' Ht' i Hi. cbn. destruct (PTp_aligned t' ltac:(lia)) as [[_ Hal'] _].
    destruct (static_distinct t t' Ht ltac:(lia)) as [_ Hd].
    rewrite ld32_st32_frame; [by apply Hpt|done|done| |done|done]. intros E.
    specialize (Hd E). lia.
  - intros i Hi. cbn. destruct (Z.eq_dec i k) as [->|].
    + apply ld32_st32. by apply pt_word_code.
    + rewrite ld32_st32_index by done. apply Hcur. lia.
Qed.

Lemma filled_next c t h : 0 <= t < 4 -> filled c t 1024 h ->
  filled c (t + 1) 0 (set_ram (st32 (ram h) (PDp + 4 * (768 + t)) (PTp t + 3)) h).
Proof.
  intros Ht [Hb [Hpd Hpt Hcur]]. destruct PDp_aligned as [[_ HalD] _].
  split; [apply boot_store; [done|by left|lia]|]. split.
  - intros i Hi. cbn. unfold pd_word. destruct (Z.eq_dec i (768 + t)) as [->|].
    + rewrite ld32_st32 by by apply pd_word_code. rewrite decide_True by lia. do 2 f_equal. lia.
    + rewrite ld32_st32_index by lia. rewrite Hpd by done. unfold pd_word.
      repeat case_decide; lia || done.
  - intros t' Ht' i Hi. cbn. destruct (PTp_aligned t' ltac:(lia)) as [[_ Hal'] _].
    destruct (static_distinct t' t' ltac:(lia) ltac:(lia)) as [Hne _].
    rewrite ld32_st32_frame; [|done|done|congruence|lia|done].
    destruct (Z.eq_dec t' t) as [->|]; [by apply Hcur|by apply Hpt; [lia|]].
  - intros i Hi. lia.
Qed.

(** ** The loops *)

Lemma clear_directory_wp c s : boot_ok c (g_hw s) ->
  wp (for_loop PAGE_ENTRIES 1 (fun i => hw (vst32 (pd_entry i) 0x00000002)) 0) s
     (fun _ s' => exists h, s' = set_hw h s /\ filled c 0 0 h).
Proof.
  intros Hb.
  apply (wp_for_loop _ _ _ (fun k s' => exists h, s' = set_hw h s /\ boot_ok c h /\
           forall i, 0 <= i < k -> ld32 (ram h) (PDp + 4 * i) = 2)); try done.
  - exists (g_hw s). split; [by rewrite set_hw_id|]. split; [done|]. intros; lia.
  - intros k s' Hk _ (h & -> & Hbh & Hz). rewrite pd_entry_eq.
    destruct (boot_store c h PDp k 2 Hbh) as [Hst Hb']; [by left|done|].
    eapply wp_hw_vst32; [exact Hst|]. eexists. split; [done|]. split; [done|].
    intros i Hi. cbn. destruct (Z.eq_dec i k) as [->|]; [by apply ld32_st32|].
    rewrite ld32_st32_index by done. apply Hz. lia.
  - intros s' (h & -> & Hbh & Hz). exists h. split; [done|]. split; [done|]. split.
    + intros i Hi. rewrite Hz by done. unfold pd_word. by rewrite decide_False by lia.
    + intros t' Ht'. lia.
    + intros i Hi. lia.
Qed.

Lemma fill_table_wp c t s : 0 <= t < 4 -> filled c t 0 (g_hw s) ->
  wp (for_loop PAGE_ENTRIES 1 (fun i =>
        hw (vst32 (table_entry (sym_page_tables +u t * 4096) i)
              (Z.lor (Z.lor ((t * PAGE_ENTRIES + i) *u PAGE_SIZE) PAGE_PRESENT) PAGE_WRITE))) 0) s
     (fun _ s' => exists h, s' = set_hw h s /\ filled c t 1024 h).
Proof.
  intros Ht Hf.
  apply (wp_for_loop _ _ _ (fun k s' => exists h, s' = set_hw h s /\ filled c t k h)); try done.
  - exists (g_hw s). by rewrite set_hw_id.
  - intros k s' Hk _ (h & -> & Hfh). rewrite table_va by done.
    rewrite (proj1 (pt_word_code t k Ht Hk)).
    destruct (boot_store c h (PTp t) k (pt_word t k)) as [Hst _];
      [apply Hfh|right; by eexists|done|].
    eapply wp_hw_vst32; [exact Hst|]. eexists. split; [done|]. by apply filled_step.
Qed.

Lemma fill_tables_wp c s : filled c 0 0 (g_hw s) ->
  wp (for_loop 4 1 (fun t =>
    let table := sym_page_tables +u t * 4096 in
    for_loop PAGE_ENTRIES 1 (fun i =>
      let phys_addr := (t * PAGE_ENTRIES + i) *u PAGE_SIZE in
      hw (vst32 (table_entry table i) (Z.lor (Z.lor phys_addr PAGE_PRESENT) PAGE_WRITE))) 0 ;;;
    hw (vst32 (pd_entry (768 + t))
              (Z.lor (Z.lor (VIRT_TO_PHYS table) PAGE_PRESENT) PAGE_WRITE))) 0) s
     (fun _ s' => exists h, s' = set_hw h s /\ filled c 4 0 h).
Proof.
  intros Hf. cbv zeta.
  apply (wp_for_loop _ _ _ (fun t s' => exists h, s' = set_hw h s /\ filled c t 0 h)); try done.
  - exists (g_hw s). by rewrite set_hw_id.
  - intros t s' Ht _ (h & -> & Hfh). wp_step. eapply wp_mono; [by apply (fill_table_wp c)|].
    intros [] ? (h1 & -> & Hf1). rewrite (proj1 (pd_word_code t Ht)), pd_entry_eq.
    destruct (boot_store c h1 PDp (768 + t) (PTp t + 3)) as [Hst _];
      [apply Hf1|by left|lia|].
    eapply wp_hw_vst32; [exact Hst|]. eexists. split; [done|]. by apply filled_next.
Qed.

(** ** The map *)

(** The first 16 MB of physical memory at [KERNEL_VIRTUAL_BASE]. *)
Definition higher_half (va : Z) : option Z :=
  if decide (KERNEL_VIRTUAL_BASE <= va < KERNEL_VIRTUAL_BASE + 0x1000000)
  then Some (va - KERNEL_VIRTUAL_BASE) else None.

Lemma filled_tables m i : contents 4 0 m -> 0 <= i < 1024 ->
  table_of m PDp i = if decide (768 <= i < 772) then Some (PTp (i - 768)) else None.
Proof.
  intros Hf Hi. unfold table_of. rewrite (fi_pd _ _ _ Hf) by done. unfold pd_word.
  change (768 + 4) with 772. case_decide; [|done].
  destruct (PTp_aligned (i - 768) ltac:(lia)) as [Hal _].
  rewrite add_low_odd by (done || apply Hal).
  by rewrite (proj2 (add_low_mask _ 3 Hal ltac:(lia))).
Qed.

Lemma filled_pte m t k : contents 4 0 m -> 0 <= t < 4 -> 0 <= k < 1024 ->
  pte_of m (PTp t) k = Some (pt_word t k).
Proof.
  intros Hf Ht Hk. unfold pte_of. rewrite (fi_pt _ _ _ Hf t) by done.
  unfold pt_word. by rewrite add_low_odd by (done || by apply Z.mod_mul).
Qed.

Lemma filled_translate h va : contents 4 0 (ram h) -> cr3 h = PDp -> is32 va ->
  translate h va = higher_half va.
Proof.
  intros Hf Hc Hva. unfold translate. rewrite Hc, walk_tables by apply PDp_aligned.
  pose proof (pd_index_range va Hva) as Hi. pose proof (pt_index_range va) as Hk.
  rewrite filled_tables by done. rewrite land_fff.
  pose proof (Z.div_mod va 4096 ltac:(lia)) as H1.
  pose proof (Z.mod_pos_bound va 4096 ltac:(lia)) as H2.
  pose proof (Z.div_mod (va / 4096) 1024 ltac:(lia)) as H3.
  rewrite <-pd_index_div, <-pt_index_div in H3.
  unfold higher_half, KERNEL_VIRTUAL_BASE. case_decide as E; cbn.
  - rewrite filled_pte by (done || lia). cbn. unfold pt_word.
    assert (page_aligned (((pd_index va - 768) * 1024 + pt_index va) * 4096)) as Hal.
    { split; [unfold is32; lia|by apply Z.mod_mul]. }
    rewrite (proj2 (add_low_mask _ 3 Hal ltac:(lia))).
    rewrite decide_True by lia. f_equal. lia.
  - by rewrite decide_False by lia.
Qed.

Lemma filled_kmap h : contents 4 0 (ram h) -> cr3 h = PDp -> kmap_wf h.
Proof.
  intros Hf Hc. split; [done| | |].
  - intros p Hp. rewrite filled_translate by (done || by apply window_is32).
    unfold higher_half, DIRECT in *. rewrite decide_True by lia. f_equal. lia.
  - intros i T Hi. rewrite filled_tables by done. case_decide; [|done]. intros [= <-].
    destruct (PTp_aligned (i - 768) ltac:(lia)).
    by destruct (static_distinct (i - 768) (i - 768) ltac:(lia) ltac:(lia)).
  - intros i j T Hi Hj. rewrite !filled_tables by done. repeat case_decide; try done.
    intros [= <-] [= E].
    destruct (static_distinct (j - 768) (i - 768) ltac:(lia) ltac:(lia)) as [_ Hd].
    specialize (Hd E). lia.
Qed.

Lemma paging_init_wp c s : boot_ok c (g_hw s) ->
  wp paging_init s (fun _ s' =>
    exists h, s' = Gsys (update p_lens h (g_p s)) sym_page_directory /\
      contents 4 0 (ram h) /\ cr3 h = PDp).
Proof.
  intros Hb. unfold paging_init.
  wp_step. apply wp_hw_kprintf. intros h0 Hh0.
  assert (boot_ok c h0) as Hb0 by (by eapply boot_ok_same).
  wp_step. eapply wp_mono; [by apply (clear_directory_wp c)|]. intros [] ? (h1 & -> & Hf1).
  wp_step. eapply wp_mono; [by apply (fill_tables_wp c)|]. intros [] ? (h2 & -> & [_ Hf2]).
  wp_step. wp_step. wp_step. apply wp_hw. unfold load_cr3. wp_step.
  apply wp_hw_kprintf. intros h3 [Hr Hc]. eexists. split; [done|]. cbn in Hr, Hc.
  by rewrite <-Hr, <-Hc.
Qed.
End Init.
