(* ===== verification/Boot.v ===== *)
(** * The boot map ([boot/boot.asm])

    [_start] fills one page table with the first 4 MB and enters it twice in the
    boot page directory, at index 0 and at index 768, before it turns paging on.
    This is the machine on which [kernel_main] starts. *)

From stdpp Require Import base gmap list numbers option strings.
From Stdlib Require Import ZArith Lia.
From S2P Require Import Prelude Machine PageTables Pmm Paging PagingInit.

(** Consecutive words [f 0], [f 1], ... stored from address [a]. *)
Fixpoint fill_words (n : nat) (a : Z) (f : Z -> Z) (m : gmap Z Z) : gmap Z Z :=
  match n with
  | O => m
  | S k => st32 (fill_words k a f m) (a + 4 * Z.of_nat k) (f (Z.of_nat k))
  end.

Lemma fill_words_in n a f m i : 0 <= i < Z.of_nat n -> is32 (f i) ->
  ld32 (fill_words n a f m) (a + 4 * i) = f i.
Proof.
  intros Hi Hf. induction n as [|n IH]; [lia|]. cbn [fill_words].
  destruct (Z.eq_dec i (Z.of_nat n)) as [->|].
  - by apply ld32_st32.
  - rewrite ld32_st32_index by lia. apply IH. lia.
Qed.

Lemma fill_words_out n a f m b : b + 4 <= a \/ a + 4 * Z.of_nat n <= b ->
  ld32 (fill_words n a f m) b = ld32 m b.
Proof.
  intros Hb. induction n as [|n IH]; [done|]. cbn [fill_words].
  rewrite ld32_st32_ne by lia. apply IH. lia.
Qed.

Section Boot.
Context {L : Layout}.

Definition boot_pt : Z := sym_boot_page_table - 0xC0000000.
Definition boot_pd : Z := sym_boot_page_directory - 0xC0000000.

(** [.fill_table], [.clear_pd] and the two directory entries. *)
Definition boot_ram (m : gmap Z Z) : gmap Z Z :=
  let m1 := fill_words 1024 boot_pt (fun i => Z.lor (4096 * i) 0x003) m in
  let m2 := fill_words 1024 boot_pd (fun _ => 0x00000002) m1 in
  let eax := Z.lor boot_pt 0x003 in
  st32 (st32 m2 boot_pd eax) (boot_pd + 768 * 4) eax.

Definition boot_machine (m : gmap Z Z) (dev : Z -> nat -> Z) : machine :=
  Machine (boot_ram m) boot_pd dev 0 [LoadCr3 boot_pd].

Context {LOk : LayoutOk L}.

Lemma boot_frames : page_aligned boot_pt /\ page_aligned boot_pd /\ boot_pt <> boot_pd.
Proof.
  pose proof lo_bpd_range. pose proof lo_bpt_range. pose proof lo_end.
  pose proof lo_bpd_aligned as E1. pose proof lo_bpt_aligned as E2. pose proof lo_boot_ne.
  unfold page_aligned, boot_pt, boot_pd, is32.
  rewrite !(Zminus_mod _ 0xC0000000), E1, E2. split_and!; try lia; reflexivity.
Qed.

Lemma boot_pde m i : 0 <= i < 1024 ->
  table_of (boot_ram m) boot_pd i =
  if decide (i = 0 \/ i = 768) then Some boot_pt else None.
Proof.
  intros Hi. destruct boot_frames as (Hpt & Hpd & Hne). unfold table_of, boot_ram.
  rewrite lor_page by (done || apply Hpt). destruct (add_low_mask boot_pt 3) as [H32 Hm]; [done|lia|].
  replace (boot_pd + 768 * 4) with (boot_pd + 4 * 768) by lia.
  assert (has_bits (boot_pt + 3) 1 = true) as Hb by (apply add_low_odd; [apply Hpt|done]).
  destruct (Z.eq_dec i 768) as [->|].
  { by rewrite ld32_st32, Hb, Hm, decide_True by auto. }
  rewrite ld32_st32_index by lia. destruct (Z.eq_dec i 0) as [->|].
  { rewrite Z.mul_0_r, Z.add_0_r. by rewrite ld32_st32, Hb, Hm, decide_True by auto. }
  rewrite ld32_st32_ne by lia. rewrite fill_words_in by (done || lia).
  by rewrite decide_False by lia.
Qed.

Lemma boot_pte m k : 0 <= k < 1024 -> pte_of (boot_ram m) boot_pt k = Some (4096 * k + 3).
Proof.
  intros Hk. destruct boot_frames as ([H32 Ha] & [H32' Ha'] & Hne). unfold pte_of, boot_ram.
  replace (boot_pd + 768 * 4) with (boot_pd + 4 * 768) by lia.
  rewrite ld32_st32_frame by (done || lia || congruence).
  pose proof (frames_disjoint boot_pd boot_pt 0 k Ha' Ha ltac:(congruence) ltac:(lia) Hk).
  rewrite ld32_st32_ne by lia.
  rewrite (fill_words_out _ boot_pd); cycle 1.
  { apply Z.mod_divide in Ha as [x Hx]; [|lia]. apply Z.mod_divide in Ha' as [y Hy]; [|lia].
    rewrite Hx, Hy in *. lia. }
  assert ((4096 * k) mod 4096 = 0) as Hk0 by (rewrite Z.mul_comm; by apply Z.mod_mul).
  rewrite fill_words_in; [|lia|]; rewrite lor_page by (done || lia); [|unfold is32; lia].
  by rewrite add_low_odd.
Qed.

(** The boot map: the first 4 MB at 0 and at 0xC0000000. *)
Definition boot_map (va : Z) : option Z :=
  if decide (0 <= va < 0x400000) then Some va
  else if decide (0xC0000000 <= va < 0xC0400000) then Some (va - 0xC0000000) else None.

Lemma boot_translate m dev va : is32 va -> translate (boot_machine m dev) va = boot_map va.
Proof.
  intros Hva. destruct boot_frames as (Hpt & Hpd & Hne). unfold translate. cbn [ram cr3 boot_machine].
  rewrite walk_tables by done. pose proof (pd_index_range va Hva) as Hi.
  pose proof (pt_index_range va) as Hk. rewrite boot_pde, land_fff by done.
  pose proof (Z.div_mod va 4096 ltac:(lia)) as H1.
  pose proof (Z.mod_pos_bound va 4096 ltac:(lia)) as H2.
  pose proof (Z.div_mod (va / 4096) 1024 ltac:(lia)) as H3.
  rewrite <-pd_index_div, <-pt_index_div in H3. unfold boot_map.
  case_decide as E; cbn.
  - rewrite boot_pte by done. cbn.
    assert (page_aligned (4096 * pt_index va)) as Hal.
    { split; [unfold is32; lia|]. rewrite Z.mul_comm. by apply Z.mod_mul. }
    rewrite (proj2 (add_low_mask _ 3 Hal ltac:(lia))). destruct E as [E|E]; rewrite E in *.
    + rewrite decide_True by lia. f_equal. lia.
    + rewrite decide_False, decide_True by lia. f_equal. lia.
  - rewrite !decide_False by lia. done.
Qed.

Lemma boot_boot_ok m dev : boot_ok boot_pd (boot_machine m dev).
Proof.
  destruct boot_frames as (Hpt & Hpd & Hne). split; [done|done| |].
  - intros p Hp. rewrite boot_translate by by apply window_is32. unfold boot_map.
    unfold DIRECT, KERNEL_VIRTUAL_BASE in *. rewrite decide_False, decide_True by lia. f_equal. lia.
  - intros G HG. destruct (static_aligned G HG) as [[_ Ha] _].
    pose proof (lo_boot_disjoint _ (or_introl eq_refl)) as [D1 D2].
    pose proof (lo_boot_disjoint _ (or_intror eq_refl)) as [D3 D4].
    destruct HG as [->|(t & Ht & ->)].
    + rewrite PDp_eq in *. unfold KERNEL_VIRTUAL_BASE in *.
      split_and!; [done|unfold boot_pd; lia|]. intros i Hi. cbn [ram boot_machine].
      rewrite boot_pde by done. case_decide; [|done]. intros E%(inj Some). unfold boot_pt in E. lia.
    + unfold PTp, KERNEL_VIRTUAL_BASE in *.
      split_and!; [done|unfold boot_pd; lia|]. intros i Hi. cbn [ram boot_machine].
      rewrite boot_pde by done. case_decide; [|done]. intros E%(inj Some). unfold boot_pt in E. lia.
Qed.
End Boot.

(** ** A concrete image

    One possible result of linking, used to run the definitions. *)
Definition demo_layout : Layout := {|
  sym_page_directory := 0xC0108000;
  sym_page_tables := 0xC0109000;
  sym_boot_page_directory := 0xC010D000;
  sym_boot_page_table := 0xC010E000;
  sym_kernel_end := 0xC0113ABC;
|}.

Lemma demo_layout_ok : LayoutOk demo_layout.
Proof.
  split; cbn; try lia; reflexivity.
Qed.

(** A multiboot information structure at 0x9000 with a memory map at 0x9100: low
    memory, a reserved area, and [n] bytes from 1 MB. *)
Definition demo_words (n : Z) : list (Z * Z) :=
  [ (0x9000, 0x40); (0x902C, 72); (0x9030, 0x9100);
    (0x9100, 20); (0x9104, 0); (0x9108, 0); (0x910C, 0x9F000); (0x9110, 0); (0x9114, 1);
    (0x9118, 20); (0x911C, 0xF0000); (0x9120, 0); (0x9124, 0x10000); (0x9128, 0); (0x912C, 2);
    (0x9130, 20); (0x9134, 0x100000); (0x9138, 0); (0x913C, n); (0x9140, 0); (0x9144, 1) ].

Definition demo_ram (n : Z) : gmap Z Z :=
  foldl (fun m w => st32 m w.1 w.2) ∅ (demo_words n).

(** The state in which [kernel_main] calls [pmm_init]: statics are zero. *)
Definition demo_boot (n : Z) : gsys :=
  Gsys (Psys (@boot_machine demo_layout (demo_ram n) (fun _ _ => 0x20)) (replicate 4098 0) 0 0) 0.

(** The same map as a list of entries. *)
Definition demo_map (n : Z) : list mmap_entry :=
  [ MmapEntry 20 0 0x9F000 1; MmapEntry 20 0xF0000 0x10000 2; MmapEntry 20 0x100000 n 1 ].
