(* ===== verification/PmmSpec.v ===== *)
(** * What the physical memory manager guarantees

    The properties of [kernel/pmm.c] as its clients see them: allocation against an
    abstract pool of frames, the counters along any run, the result of the
    initialisation, and the two places where the bitmap's bounds are wrong. *)

From stdpp Require Import base gmap list numbers option strings relations.
From Stdlib Require Import ZArith Lia.
From S2P Require Import Prelude Machine PageTables Pmm Paging PagingInit Boot.

(** ** Runs of the allocator *)

(** A call of one of the two operations that change the state; frames are released by
    addresses the bitmap has a bit for. *)
Inductive pmm_step : psys -> psys -> Prop :=
  | step_alloc s r s' : pmm_alloc_frame s = Ok r s' -> pmm_step s s'
  | step_free s a s' : 0 <= a / PAGE_SIZE < FRAMES ->
      pmm_free_frame a s = Ok tt s' -> pmm_step s s'.

Lemma alloc_inv s r s' : pmm_wf s -> pmm_alloc_frame s = Ok r s' -> alloc_post s r s'.
Proof. intros Hwf H. pose proof (pmm_alloc_frame_wp s Hwf) as W. unfold wpe in W. by rewrite H in W. Qed.

Lemma free_inv s a s' : pmm_wf s -> 0 <= a / PAGE_SIZE < FRAMES ->
  pmm_free_frame a s = Ok tt s' -> free_post s (a / PAGE_SIZE) s'.
Proof.
  intros Hwf Ha H. pose proof (pmm_free_frame_wp s a ltac:(apply Hwf) Ha) as W.
  unfold wpe in W. by rewrite H in W.
Qed.

Lemma pmm_step_counted s s' : pmm_counted s -> pmm_step s s' ->
  pmm_counted s' /\ total_frames s' = total_frames s.
Proof.
  intros Hc Hst. destruct Hst as [s0 r s1 H|s0 a s1 Ha H].
  - pose proof (alloc_inv _ _ _ (proj1 Hc) H) as Hp. split; [by eapply pmm_counted_alloc|].
    destruct Hp as [(f & _ & _ & _ & _ & ->)|(_ & _ & h & _ & -> & _)]; done.
  - pose proof (free_inv _ _ _ (proj1 Hc) Ha H) as Hp. split; [by eapply pmm_counted_free|].
    unfold free_post in Hp. destruct (frame_bit _ _); by subst.
Qed.

Lemma pmm_run_counted s s' : rtc pmm_step s s' -> pmm_counted s ->
  pmm_counted s' /\ total_frames s' = total_frames s.
Proof.
  induction 1 as [|s1 s2 s3 H1 H2 IH]; intros Hc; [done|].
  destruct (pmm_step_counted _ _ Hc H1) as [Hc2 E2]. destruct (IH Hc2) as [Hc3 E3].
  split; [done|congruence].
Qed.

(** The scan does not reach a frame at or above [total_frames]. *)
Lemma alloc_below s r s' : pmm_wf s -> pmm_alloc_frame s = Ok r s' ->
  r = 0 \/ exists f, r = PAGE_SIZE * f /\ 0 <= f < total_frames s /\
    frame_bitmap s' = bm_set (frame_bitmap s) f.
Proof.
  intros Hwf H. destruct (alloc_inv _ _ _ Hwf H) as [(f & Hf & _ & _ & -> & ->)|(_ & -> & _)]; [|by left].
  right. exists f. unfold scan_limit in Hf.
  pose proof (Z.mul_div_le (total_frames s) 8 ltac:(lia)). split_and!; [done|lia|lia|done].
Qed.

Lemma high_frame_step s s' g : pmm_wf s -> pmm_step s s' -> total_frames s <= g < FRAMES ->
  frame_bit (frame_bitmap s) g = false -> frame_bit (frame_bitmap s') g = false.
Proof.
  intros Hwf Hst Hg Hb. pose proof Hwf as (Hbm & Ht & _). destruct Hst as [s r s' H|s a s' Ha H].
  - destruct (alloc_inv _ _ _ Hwf H) as [(f & Hf & _ & _ & _ & ->)|(_ & _ & h & _ & -> & _)]; [|done].
    unfold scan_limit in Hf. pose proof (Z.mul_div_le (total_frames s) 8 ltac:(lia)). cbn.
    rewrite frame_bit_set, Hb by (done || lia). destruct (Z.eqb_spec f g); [lia|done].
  - pose proof (free_inv _ _ _ Hwf Ha H) as Hp. unfold free_post in Hp.
    destruct (frame_bit _ (a / PAGE_SIZE)); subst; [|done]. cbn.
    rewrite frame_bit_clear, Hb, andb_false_r by (done || lia). done.
Qed.

Lemma high_frame_run s s' g : rtc pmm_step s s' -> pmm_counted s -> total_frames s <= g < FRAMES ->
  frame_bit (frame_bitmap s) g = false -> frame_bit (frame_bitmap s') g = false.
Proof.
  induction 1 as [|s1 s2 s3 H1 H2 IH]; intros Hc Hg Hb; [done|].
  destruct (pmm_step_counted _ _ Hc H1) as [Hc2 E2].
  apply IH; [done|lia|]. by eapply high_frame_step; [apply Hc| | |].
Qed.

(** [n] allocations in a row, with what they returned. *)
Fixpoint alloc_many (n : nat) : M psys (list Z) :=
  match n with
  | O => ret []
  | S k => r <- pmm_alloc_frame ;; rs <- alloc_many k ;; ret (r :: rs)
  end.

(** The addresses a run handed out, without the failures. *)
Definition handed (rs : list Z) : list Z := filter (fun r => r <> 0) rs.

Lemma alloc_used_mono s r s' f : pmm_wf s -> alloc_post s r s' -> 0 <= f < FRAMES ->
  frame_bit (frame_bitmap s) f = true -> frame_bit (frame_bitmap s') f = true.
Proof.
  intros Hwf [(g & Hg & _ & _ & _ & ->)|(_ & _ & h & _ & -> & _)] Hf Hb; [|done].
  cbn. rewrite frame_bit_set, Hb, orb_true_r; [done|apply Hwf| |done].
  destruct Hwf as (_ & _ & ?). lia.
Qed.

Lemma alloc_many_wp n s : pmm_wf s -> wp (alloc_many n) s (fun rs s' =>
  pmm_wf s' /\ length rs = n /\
  NoDup (handed rs) /\
  forall r, r ∈ handed rs -> exists f, r = PAGE_SIZE * f /\ 0 <= f < scan_limit s /\
    frame_bit (frame_bitmap s) f = false).
Proof.
  revert s. induction n as [|n IH]; intros s Hwf; cbn [alloc_many].
  - wp_step. split_and!; [done|done|constructor|]. intros r Hr. by apply elem_of_nil in Hr.
  - wp_step. eapply wp_mono; [by apply pmm_alloc_frame_wp|]. intros r s1 Hp. cbv beta.
    wp_step. eapply wp_mono; [apply IH; by eapply alloc_post_wf|].
    intros rs s2 (Hwf2 & Hlen & Hnd & Hin). wp_step.
    assert (Hlim : scan_limit s1 = scan_limit s).
    { destruct Hp as [(f & _ & _ & _ & _ & ->)|(_ & _ & h & _ & -> & _)]; done. }
    assert (Hrest : forall q, q ∈ handed rs -> exists f, q = PAGE_SIZE * f /\
              0 <= f < scan_limit s /\ frame_bit (frame_bitmap s) f = false /\
              frame_bit (frame_bitmap s1) f = false).
    { intros q Hq. destruct (Hin q Hq) as (f & -> & Hf & Hb). rewrite Hlim in Hf.
      exists f. split_and!; [done|lia|lia| |done]. apply not_true_is_false. intros Hb'.
      rewrite (alloc_used_mono s r s1 f) in Hb; [done|done|done| |done].
      destruct Hwf as (_ & _ & ?). lia. }
    split; [done|]. split; [cbn; by rewrite Hlen|]. unfold handed in *. rewrite filter_cons.
    case_decide as Hr.
    2:{ split; [done|]. intros q Hq. destruct (Hrest q Hq) as (f & ? & ? & ? & _). by exists f. }
    destruct Hp as [(f & Hf & Hb & _ & -> & ->)|(_ & -> & _)]; [|done].
    split.
    + constructor; [|done]. intros Hq. destruct (Hrest _ Hq) as (f' & Ef & Hf' & _ & Hb').
      assert (f' = f) as -> by (unfold PAGE_SIZE in Ef; lia).
      cbn in Hb'. destruct Hwf as (? & _ & ?).
      rewrite frame_bit_set, Z.eqb_refl in Hb' by (done || lia). done.
    + intros q [->|Hq]%elem_of_cons; [by exists f|].
      destruct (Hrest q Hq) as (f' & ? & ? & ? & _). by exists f'.
Qed.

(** ** Claims *)


(** Allocations without releases in between never return the same frame twice, and
    every frame they return was free and lies in the range the scan covers. *)
Theorem pmm_alloc_distinct n s : pmm_wf s ->
  exists rs s', alloc_many n s = Ok rs s' /\ length rs = n /\ NoDup (handed rs) /\
    forall r, r ∈ handed rs -> exists f, r = PAGE_SIZE * f /\ 0 <= f < scan_limit s /\
      frame_bit (frame_bitmap s) f = false.
Proof.
  intros Hwf. pose proof (alloc_many_wp n s Hwf) as W.
  apply wp_ok in W as (rs & s' & E & _ & ? & ? & ?). by exists rs, s'.
Qed.

(** Releasing a frame that was just allocated restores the allocator: the bitmap
    shows the same free frames and the counter of used frames is what it was. *)
Theorem pmm_alloc_free_roundtrip s f :
  pmm_counted s -> f ∈ reachable_frames s ->
  wp (r <- pmm_alloc_frame ;; pmm_free_frame r) s (fun _ s' =>
    pmm_counted s' /\ u32 (used_frames s') = u32 (used_frames s) /\
    forall g, 0 <= g < FRAMES ->
      frame_bit (frame_bitmap s') g = frame_bit (frame_bitmap s) g).
Proof.
  intros Hc Hf. apply elem_of_reachable_frames in Hf as [Hf Hb]. pose proof (proj1 Hc) as Hwf.
  wp_step. eapply wp_mono; [by apply pmm_alloc_frame_wp|]. intros r s1 Hp. cbv beta.
  pose proof (pmm_counted_alloc _ _ _ Hc Hp) as Hc1.
  destruct Hp as [(g & Hg & Hgb & _ & -> & ->)|(Hall & _)].
  2:{ rewrite Hall in Hb by done. done. }
  pose proof Hwf as (Hbm & _ & Hlim).
  assert (PAGE_SIZE * g / PAGE_SIZE = g) as Ediv by (unfold PAGE_SIZE; rewrite Z.mul_comm; by apply Z.div_mul).
  eapply wp_mono; [apply pmm_free_frame_wp; [apply Hc1|rewrite Ediv; lia]|].
  rewrite Ediv. intros [] s2 Hp2. split; [eapply pmm_counted_free; [exact Hc1| |exact Hp2]; lia|].
  unfold free_post in Hp2. cbn [set_used set_bitmap frame_bitmap used_frames] in Hp2.
  rewrite frame_bit_set, Z.eqb_refl, orb_true_l in Hp2 by (done || lia). subst s2.
  cbn [set_used set_bitmap frame_bitmap used_frames]. split.
  - unfold u32. rewrite Zmod_mod, Zminus_mod_idemp_l. f_equal. lia.
  - intros x Hx. rewrite frame_bit_clear, frame_bit_set by (try apply bm_set_wf; done || lia).
    destruct (Z.eqb_spec g x) as [->|]; [by rewrite Hgb|done].
Qed.

Section Init.
Context {L : Layout}.

(** The statics as the boot loader leaves them. *)
Definition pristine (s : psys) : Prop :=
  length (frame_bitmap s) = 4098%nat /\ total_frames s = 0 /\ used_frames s = 0.

Lemma init_counted s es s' : pristine s ->
  released (set_bitmap (replicate 4098 255) s) (map_frames free_limit es) s' ->
  pmm_counted s' /\ total_frames s' = count_free (frame_bitmap s') /\
  (forall g, 0 <= g < FRAMES -> frame_bit (frame_bitmap s') g = negb (map_frames free_limit es g)).
Proof.
  intros (Hlen & Ht & Hu) (_ & Hu' & Hwf & Hb & Hc).
  destruct full_bitmap as [Hfw Hfull]. cbn [set_bitmap frame_bitmap total_frames used_frames p_hw] in Hc, Hu', Hb.
  assert (total_frames s' = count_free (frame_bitmap s')) as Et.
  { apply Hc; [by rewrite Ht, count_full|]. intros. by apply Hfull. }
  pose proof (count_free_range (frame_bitmap s')) as Hr.
  split; [|split; [done|]].
  - split; [split; [done|split; [lia|]]|].
    + unfold scan_limit. pose proof (Z.mul_div_le (total_frames s') 8 ltac:(lia)). lia.
    + rewrite Hu', Hu, Z.sub_0_r, Et. apply u32_small. unfold is32, FRAMES in *. lia.
  - intros g Hg. by rewrite Hb, Hfull.
Qed.

(** ** The first frame the array has no bit for *)

Abbreviation overrun := (fun e _ => e = OutOfBounds 4098).

Lemma free_region_overrun ke st en s : bitmap_wf (frame_bitmap s) ->
  0 <= st <= FRAMES -> FRAMES < en -> ke <= PAGE_SIZE * FRAMES ->
  wpe (free_region ke st en) s (fun _ _ => False) overrun.
Proof.
  unfold FRAMES, PAGE_SIZE. intros Hwf Hst Hen Hke. unfold free_region.
  apply (wp_loop _ (fun f s' => st <= f <= 32784 /\ bitmap_wf (frame_bitmap s'))
                   (fun f _ => 32785 - f)); [|split; [lia|done]|lia].
  intros f s' [Hf Hwf']. change MAX_FRAMES with 32786.
  replace (f <? en) with true by (symmetry; apply Z.ltb_lt; lia).
  replace (f <? 32786) with true by (symmetry; apply Z.ltb_lt; lia). cbn [andb]. cbv zeta.
  rewrite (u32_small (f * PAGE_SIZE)) by (unfold is32, PAGE_SIZE; lia).
  destruct (Z.eq_dec f 32784) as [->|Hne].
  - replace (_ || _) with false.
    2:{ symmetry. apply orb_false_iff. unfold PAGE_SIZE. split; [done|apply Z.ltb_ge; lia]. }
    wp_step. unfold bitmap_clear. wp_step. unfold wpe, bitmap_read.
    rewrite lookup_ge_None_2; [done|]. rewrite (proj1 Hwf'). by vm_compute.
  - wp_step; [wp_step; cbn; rewrite u32_small by (unfold is32; lia); split; [split; [lia|done]|lia]|].
    wp_step. eapply wp_eq; [apply bitmap_clear_ok; [done|unfold FRAMES; lia]|].
    wp_step. wp_step. wp_step. cbn [loop_post]. rewrite u32_small by (unfold is32; lia).
    split; [split; [lia|]|lia]. by apply bm_clear_wf.
Qed.

Lemma init_entry_overrun ke a e s : bitmap_wf (frame_bitmap s) -> entry_at (p_hw s) a e ->
  e_type e = 1 -> start_frame e <= FRAMES < end_frame e -> ke <= PAGE_SIZE * FRAMES ->
  wpe (init_entry ke a) s (fun _ _ => False) overrun.
Proof.
  intros Hwf (_ & Hb & Hl & Ht) Hty Hfr Hke. unfold init_entry.
  wp_step. eapply wp_ld; [exact Ht|]. rewrite Hty. cbn [negb MULTIBOOT_MEMORY_AVAILABLE Z.eqb Pos.eqb].
  wp_step. eapply wp_ld; [exact Hb|]. wp_step. eapply wp_ld; [exact Hl|].
  wp_step. apply wp_p_kprintf. intros h Hh. cbv zeta.
  apply free_region_overrun; [done| |apply Hfr|done]. split; [|apply Hfr].
  apply Z.div_pos; [apply u32_range|by unfold PAGE_SIZE].
Qed.

Lemma map_loop_overrun ke a b d e r s : bitmap_wf (frame_bitmap s) ->
  mmap_at (p_hw s) a b (d ++ e :: r) -> Forall entry_fits d ->
  e_type e = 1 -> start_frame e <= FRAMES < end_frame e -> ke <= PAGE_SIZE * FRAMES ->
  is32 a -> is32 b ->
  wpe (loop (map_body ke b) a) s (fun _ _ => False) overrun.
Proof.
  intros Hwf Hat Hok Hty Hfr Hke Ha Hb.
  apply (wp_loop _ (fun a s' => bitmap_wf (frame_bitmap s') /\
           exists d', mmap_at (p_hw s') a b (d' ++ e :: r) /\ Forall entry_fits d')
           (fun a _ => Z.max 0 (b - a))); [|split; [done|by exists d]|unfold is32 in *; lia].
  intros a' s' (Hwf' & [|e' d'] & Hat' & Hok'); unfold map_body; cbn [app mmap_at] in Hat';
    destruct Hat' as (Ha' & He & Hsz & H32 & Hat'); (destruct (Z.ltb_spec a' b); [|lia]).
  - wp_step. eapply wp_mono; [by apply (init_entry_overrun ke a' e)|done].
  - inversion Hok' as [|? ? Hok1 Hok2]. subst.
    wp_step. apply wp_total. eapply wp_mono; [apply (init_entry_wp ke a' e'); done|].
    intros [] s1 (Hm & _ & Hwf1 & _).
    destruct (entry_at_same _ _ _ _ Hm He) as (Hsize & _).
    wp_step. eapply wp_ld; [exact Hsize|]. wp_step.
    rewrite (u32_small (a' + e_size e')), u32_small by (unfold is32 in *; lia).
    split; [|lia]. split; [done|]. exists d'. split; [by eapply mmap_at_same|done].
Qed.

(** ** Claims on the initialisation *)

(** C14: after [pmm_init] the bitmap marks as free exactly the frames above the kernel
    image that lie completely in an available region of the boot loader's memory map,
    and [total_frames] is their number.  The map must fit the code: every available region
    ends within the 128 MB and 64 KB the bitmap has bits for ([entry_ok]), and no frame lies
    in two regions ([map_disjoint]). *)
Theorem pmm_init_exact mbi es s : pristine s -> boot_info (p_hw s) mbi es ->
  Forall entry_ok es -> map_disjoint free_limit es ->
  exists s', pmm_init mbi s = Ok tt s' /\
    (forall g, 0 <= g < FRAMES ->
       frame_bit (frame_bitmap s') g = negb (map_frames free_limit es g)) /\
    total_frames s' = count_free (frame_bitmap s') /\ used_frames s' = 0 /\
    same_mem (p_hw s) (p_hw s').
Proof.
  intros Hp Hbi Hok Hd. pose proof (pmm_init_wp mbi es s (proj1 Hp) Hbi Hok Hd) as W.
  apply wp_ok in W as ([] & s' & E & Hrel). exists s'.
  destruct (init_counted s es s' Hp Hrel) as (_ & Ht & Hb).
  destruct Hrel as (Hm & Hu & _). split_and!; [done|done|done| |done].
  rewrite Hu. apply Hp.
Qed.

(** From the initialisation on, after any sequence of allocations and releases,
    [pmm_get_free_memory] returns exactly [PAGE_SIZE] times the number of clear bits of
    the bitmap: the two counters never drift from it. *)
Theorem pmm_free_memory_exact mbi es s : pristine s -> boot_info (p_hw s) mbi es ->
  Forall entry_ok es -> map_disjoint free_limit es ->
  exists s1, pmm_init mbi s = Ok tt s1 /\
    forall s2, rtc pmm_step s1 s2 ->
      pmm_get_free_memory s2 = Ok (PAGE_SIZE * count_free (frame_bitmap s2)) s2.
Proof.
  intros Hp Hbi Hok Hd. pose proof (pmm_init_wp mbi es s (proj1 Hp) Hbi Hok Hd) as W.
  apply wp_ok in W as ([] & s1 & E & Hrel). exists s1. split; [done|]. intros s2 Hrun.
  destruct (init_counted s es s1 Hp Hrel) as (Hc & _).
  destruct (pmm_run_counted _ _ Hrun Hc) as [[_ Hc2] _].
  unfold pmm_get_free_memory, get. f_equal. rewrite Hc2, Z.mul_comm. apply u32_small.
  pose proof (count_free_range (frame_bitmap s2)). unfold is32, PAGE_SIZE, FRAMES in *. lia.
Qed.

(** C36: [MAX_FRAMES] is larger than the number of bits of [frame_bitmap], so
    [pmm_init] leaves the array as soon as an available region reaches frame 32784
    (128 MB + 64 KB): the access to [frame_bitmap[4098]] is out of bounds. *)
Theorem pmm_init_out_of_bounds mbi d e r s : pristine s -> boot_info (p_hw s) mbi (d ++ e :: r) ->
  Forall entry_fits d -> e_type e = 1 -> start_frame e <= FRAMES < end_frame e ->
  kernel_end_phys <= PAGE_SIZE * FRAMES ->
  exists s', pmm_init mbi s = Stop (OutOfBounds 4098) s'.
Proof.
  intros (Hlen & _) (flags & a & n & H32 & Hfl & Hbit & Ha & Hn & Hat) Hok Hty Hfr Hke.
  enough (wpe (pmm_init mbi) s (fun _ _ => False) overrun) as W.
  { unfold wpe in W. destruct (pmm_init mbi s); [done|]. subst. eauto. }
  unfold pmm_init. wp_step. apply wp_total. eapply wp_mono; [by apply fill_wp|].
  intros [] ? ->. cbv beta.
  wp_step. eapply wp_ld; [exact Hfl|]. rewrite Hbit. cbn [negb].
  wp_step. apply wp_p_kprintf. intros h Hh.
  pose proof (fun x => vread_proper _ _ Hh x x eq_refl) as R.
  wp_step. eapply (wp_ld _ a); [cbn [update p_lens p_hw]; by rewrite <-R|].
  wp_step. eapply (wp_ld _ n); [cbn [update p_lens p_hw]; by rewrite <-R|]. cbv zeta.
  wp_step. eapply wp_mono.
  { apply (map_loop_overrun kernel_end_phys a (a +u n) d e r); try done.
    - apply full_bitmap.
    - eapply mmap_at_same; [exact Hh|exact Hat].
    - apply u32_range. }
  done.
Qed.

(** The scan of [bitmap_first_free] stops at [total_frames], which counts the
    available frames and not the highest frame number: a frame at or above that number
    stays free in the bitmap but is never handed out, in any run after the
    initialisation. *)
Theorem pmm_high_frames_stranded mbi es s g : pristine s -> boot_info (p_hw s) mbi es ->
  Forall entry_ok es -> map_disjoint free_limit es ->
  0 < g < FRAMES -> map_frames free_limit es g = true ->
  countZ (Z.to_nat FRAMES) (map_frames free_limit es) <= g ->
  exists s1, pmm_init mbi s = Ok tt s1 /\
    forall s2, rtc pmm_step s1 s2 ->
      frame_bit (frame_bitmap s2) g = false /\
      forall r s3, pmm_alloc_frame s2 = Ok r s3 -> r <> PAGE_SIZE * g.
Proof.
  intros Hp Hbi Hok Hd Hg0 Hmap Hg. pose proof (pmm_init_wp mbi es s (proj1 Hp) Hbi Hok Hd) as W.
  apply wp_ok in W as ([] & s1 & E & Hrel). exists s1. split; [done|]. intros s2 Hrun.
  destruct (init_counted s es s1 Hp Hrel) as (Hc & Ht & Hb).
  rewrite (count_free_of _ _ Hb) in Ht.
  destruct (pmm_run_counted _ _ Hrun Hc) as [Hc2 Et]. split.
  - apply (high_frame_run s1 s2 g Hrun Hc); [lia|]. rewrite Hb, Hmap by lia. reflexivity.
  - intros r s3 Ha. destruct (alloc_below _ _ _ (proj1 Hc2) Ha) as [->|(f & -> & Hf & _)];
      unfold PAGE_SIZE; lia.
Qed.
End Init.

(** ** Witnesses *)

(** An allocator whose frames 8 and 9 are free. *)
Definition demo_pmm : psys :=
  Psys (Machine ∅ 0 (fun _ _ => 0) 0 []) (bm_clear (bm_clear (replicate 4098 255) 8) 9) 16 14.

Lemma demo_pmm_wf : pmm_wf demo_pmm.
Proof.
  split; [|by vm_compute]. do 2 apply bm_clear_wf. apply full_bitmap.
Qed.

Lemma demo_pmm_counted : pmm_counted demo_pmm.
Proof.
  split; [apply demo_pmm_wf|]. symmetry. destruct full_bitmap as [Hwf Hb].
  unfold demo_pmm. cbn [frame_bitmap total_frames used_frames].
  rewrite !count_free_clear, count_full;
    [reflexivity|exact Hwf|done|by apply Hb|by apply bm_clear_wf|done|by vm_compute].
Qed.


Lemma pmm_alloc_distinct_witness :
  exists rs s', alloc_many 6 demo_pmm = Ok rs s' /\ length rs = 6%nat /\ NoDup (handed rs) /\
    forall r, r ∈ handed rs -> exists f, r = PAGE_SIZE * f /\ 0 <= f < scan_limit demo_pmm /\
      frame_bit (frame_bitmap demo_pmm) f = false.
Proof. apply (pmm_alloc_distinct 6 demo_pmm demo_pmm_wf). Defined.

Lemma pmm_alloc_free_roundtrip_witness :
  wp (r <- pmm_alloc_frame ;; pmm_free_frame r) demo_pmm (fun _ s' =>
    pmm_counted s' /\ u32 (used_frames s') = u32 (used_frames demo_pmm) /\
    forall g, 0 <= g < FRAMES ->
      frame_bit (frame_bitmap s') g = frame_bit (frame_bitmap demo_pmm) g).
Proof.
  apply (pmm_alloc_free_roundtrip demo_pmm 8 demo_pmm_counted).
  apply elem_of_reachable_frames. by vm_compute.
Defined.

(** The boot state with [n] bytes of memory from 1 MB on. *)
Abbreviation demo_state n := (g_p (demo_boot n)).

Lemma demo_pristine n : pristine (demo_state n).
Proof. split; [apply length_replicate|done]. Qed.

Lemma demo_boot_info_8M : boot_info (p_hw (demo_state 0x700000)) 0x9000 (demo_map 0x700000).
Proof.
  exists 0x40, 0x9100, 72. split; [by unfold is32|]. repeat (split; [by vm_compute|]).
  by vm_compute.
Qed.

Lemma demo_boot_info_128M : boot_info (p_hw (demo_state 0x8000000)) 0x9000 (demo_map 0x8000000).
Proof.
  exists 0x40, 0x9100, 72. split; [by unfold is32|]. repeat (split; [by vm_compute|]).
  by vm_compute.
Qed.

Lemma demo_entries_ok : Forall entry_ok (demo_map 0x700000).
Proof. repeat constructor; by vm_compute. Qed.

Lemma demo_disjoint : map_disjoint (@free_limit demo_layout) (demo_map 0x700000).
Proof.
  change (@free_limit demo_layout) with 0x114000. split; [|split; [|split; [|done]]].
  - intros g Hg H. unfold entry_frames in H. bools. cbn [demo_map e_type e_base e_length] in *. unfold PAGE_SIZE in *. lia.
  - intros g Hg H. done.
  - intros g Hg H. done.
Qed.

(** The frames 0x114 to 0x7FF of 8 MB. *)
Lemma demo_available :
  countZ (Z.to_nat FRAMES) (map_frames (@free_limit demo_layout) (demo_map 0x700000)) = 1772.
Proof.
  apply (countZ_interval _ _ 0x114 0x800); [lia|by vm_compute|]. intros g Hg.
  change (@free_limit demo_layout) with 0x114000. unfold map_frames, entry_frames, demo_map.
  cbn [existsb e_type e_base e_length]. unfold PAGE_SIZE.
  destruct (Z.leb_spec 0 (4096 * g)), (Z.leb_spec (4096 * (g + 1)) (0 + 0x9F000)), (Z.leb_spec 0x114000 (4096 * g)),
    (Z.leb_spec 0x100000 (4096 * g)), (Z.leb_spec (4096 * (g + 1)) (0x100000 + 0x700000)), (Z.leb_spec 0x114 g), (Z.ltb_spec g 0x800);
    cbn; lia.
Qed.

Lemma pmm_init_exact_witness :
  exists s', @pmm_init demo_layout 0x9000 (demo_state 0x700000) = Ok tt s' /\
    (forall g, 0 <= g < FRAMES -> frame_bit (frame_bitmap s') g =
       negb (map_frames (@free_limit demo_layout) (demo_map 0x700000) g)) /\
    total_frames s' = count_free (frame_bitmap s') /\ used_frames s' = 0 /\
    same_mem (p_hw (demo_state 0x700000)) (p_hw s').
Proof.
  apply (@pmm_init_exact demo_layout 0x9000 (demo_map 0x700000) (demo_state 0x700000)
           (demo_pristine _) demo_boot_info_8M demo_entries_ok demo_disjoint).
Defined.

Lemma pmm_free_memory_exact_witness :
  exists s1, @pmm_init demo_layout 0x9000 (demo_state 0x700000) = Ok tt s1 /\
    forall s2, rtc pmm_step s1 s2 ->
      pmm_get_free_memory s2 = Ok (PAGE_SIZE * count_free (frame_bitmap s2)) s2.
Proof.
  apply (@pmm_free_memory_exact demo_layout 0x9000 (demo_map 0x700000) (demo_state 0x700000)
           (demo_pristine _) demo_boot_info_8M demo_entries_ok demo_disjoint).
Defined.

Lemma pmm_init_out_of_bounds_witness :
  exists s', @pmm_init demo_layout 0x9000 (demo_state 0x8000000) = Stop (OutOfBounds 4098) s'.
Proof.
  apply (@pmm_init_out_of_bounds demo_layout 0x9000
           [MmapEntry 20 0 0x9F000 1; MmapEntry 20 0xF0000 0x10000 2]
           (MmapEntry 20 0x100000 0x8000000 1) [] (demo_state 0x8000000) (demo_pristine _)
           demo_boot_info_128M); [repeat constructor; by vm_compute|done|by vm_compute|by vm_compute].
Defined.

(** Frame 2047, the last one of 8 MB, is free and never handed out. *)
Lemma pmm_high_frames_stranded_witness :
  exists s1, @pmm_init demo_layout 0x9000 (demo_state 0x700000) = Ok tt s1 /\
    forall s2, rtc pmm_step s1 s2 ->
      frame_bit (frame_bitmap s2) 2047 = false /\
      forall r s3, pmm_alloc_frame s2 = Ok r s3 -> r <> PAGE_SIZE * 2047.
Proof.
  apply (@pmm_high_frames_stranded demo_layout 0x9000 (demo_map 0x700000) (demo_state 0x700000) 2047
           (demo_pristine _) demo_boot_info_8M demo_entries_ok demo_disjoint);
    [by vm_compute|by vm_compute|by rewrite demo_available].
Defined.
