(* ===== verification/PagingSpec.v ===== *)
(** * What the paging code guarantees

    The properties of [kernel/paging.c]: the software walk agrees with the MMU, mapping
    and unmapping change one page, the kernel's own map survives every run, and the map
    [paging_init] installs from the boot map. *)

From stdpp Require Import base gmap list numbers option strings relations.
From Stdlib Require Import ZArith Lia.
From S2P Require Import Prelude Machine PageTables Pmm Paging PagingInit Boot PmmSpec.

Section Runs.
Context {L : Layout} {LOk : LayoutOk L}.

Abbreviation PDp := paging_get_directory.

(** ** Unmapping keeps the shared invariant *)

Lemma only_frame_table T h h' i : page_aligned T -> T <> PDp -> 0 <= i < 1024 ->
  only_frame T h h' -> table_of (ram h') PDp i = table_of (ram h) PDp i.
Proof.
  intros [HT32 HT] Hne Hi Ho. unfold table_of, ld32. destruct PDp_aligned as [[_ Hp] _].
  pose proof (frames_disjoint PDp T i 0 Hp HT ltac:(done) Hi ltac:(lia)).
  pose proof (frames_disjoint PDp T i 1023 Hp HT ltac:(done) Hi ltac:(lia)).
  rewrite !Ho; [done|..]; apply Z.mod_divide in Hp as [x Hx]; try lia;
    apply Z.mod_divide in HT as [y Hy]; lia.
Qed.

Lemma unmap_inv s va : paging_inv s -> is32 va -> outside va ->
  wp (paging_unmap_page va) s (fun _ s' =>
    paging_inv s' /\ remaps (g_hw s) (g_hw s') va None /\ frame_bitmap (g_p s') = frame_bitmap (g_p s)).
Proof.
  intros Hinv Hva Ho. eapply wp_mono; [apply paging_unmap_page_wp; [apply Hinv|done|done]|].
  intros [] s' (Ep & Hk & Hr & Hm). assert (frame_bitmap (g_p s') = frame_bitmap (g_p s)) as Eb
    by (by rewrite Ep). split; [|done].
  destruct (table_of (ram (g_hw s)) PDp (pd_index va)) as [T|] eqn:ET; [|by subst].
  destruct (kw_table _ (pi_map _ Hinv) _ _ (pd_index_range va Hva) ET) as [_ Hne].
  split; [done| | | |].
  - rewrite Ep. apply (pi_pmm _ Hinv).
  - rewrite Eb. apply (pi_zero _ Hinv).
  - rewrite Eb. apply (pi_dir _ Hinv).
  - intros i T' Hi HT'. rewrite Eb. apply (pi_tables _ Hinv i); [done|]. rewrite <-HT'. symmetry.
    apply (only_frame_table T); [by eapply table_of_aligned|done|done|done].
Qed.

Lemma alloc_paging_inv s r s' : paging_inv s -> alloc_post (g_p s) r (g_p s') ->
  current_page_directory s' = current_page_directory s -> paging_inv s' /\
  same_mem (g_hw s) (g_hw s').
Proof.
  intros Hinv Hp Hc. pose proof (alloc_post_wf _ _ _ (pi_pmm _ Hinv) Hp) as Hwf'.
  assert (Hm : same_mem (g_hw s) (g_hw s')).
  { unfold g_hw. destruct Hp as [(f & _ & _ & _ & _ & ->)|(_ & _ & h & _ & -> & ? & ?)]; [done|].
    by split. }
  assert (Hb : forall f, 0 <= f < FRAMES -> frame_bit (frame_bitmap (g_p s)) f = true ->
               frame_bit (frame_bitmap (g_p s')) f = true).
  { intros f Hf. apply (alloc_used_mono _ r); [apply Hinv|done|done]. }
  assert (Hlow : forall G, page_aligned G -> G < DIRECT -> 0 <= G / 4096 < FRAMES).
  { intros G HG Hd. destruct (aligned_frame G HG Hd) as [_ ?]. unfold FRAMES. lia. }
  split; [|done]. destruct Hm as [Er Ecr]. split.
  - eapply kmap_same; [by split|apply Hinv].
  - done.
  - apply Hb; [by vm_compute|apply Hinv].
  - apply Hb; [|apply Hinv]. destruct PDp_aligned. apply Hlow; [done|]. unfold DIRECT in *. lia.
  - intros i T Hi HT. rewrite <-Er in HT.
    destruct (kw_table _ (pi_map _ Hinv) i T Hi HT). apply Hb; [|by apply (pi_tables _ Hinv i)].
    apply Hlow; [by eapply table_of_aligned|done].
Qed.

(** A frame that may be given back: it is not frame 0 and holds no paging structure. *)
Definition releasable (s : gsys) (a : Z) : Prop :=
  0 < a / PAGE_SIZE < FRAMES /\ data_frame (ram (g_hw s)) PDp (PAGE_SIZE * (a / PAGE_SIZE)).

Lemma free_paging_inv s a s' : paging_inv s -> releasable s a ->
  free_post (g_p s) (a / PAGE_SIZE) (g_p s') -> paging_inv s' /\ same_mem (g_hw s) (g_hw s').
Proof.
  intros Hinv [Hf (_ & Hnd & Hnt)] Hp. pose proof (free_post_wf _ _ _ (pi_pmm _ Hinv) Hp) as Hwf'.
  assert (g_hw s' = g_hw s) as Em.
  { unfold g_hw, free_post in *. destruct (frame_bit _ _); by rewrite Hp. }
  assert (Hb : forall f, 0 <= f < FRAMES -> f <> a / PAGE_SIZE ->
               frame_bit (frame_bitmap (g_p s)) f = true ->
               frame_bit (frame_bitmap (g_p s')) f = true).
  { intros f Hf1 Hne Hb. unfold free_post in Hp. destruct (frame_bit _ (a / PAGE_SIZE)); rewrite Hp; [|done].
    cbn [set_used set_bitmap frame_bitmap]. rewrite frame_bit_clear, Hb; [|apply Hinv|lia|done].
    by destruct (Z.eqb_spec (a / PAGE_SIZE) f). }
  assert (Hlow : forall G, page_aligned G -> G < DIRECT -> 0 <= G / 4096 < FRAMES /\
                   (G <> PAGE_SIZE * (a / PAGE_SIZE) -> G / 4096 <> a / PAGE_SIZE)).
  { intros G HG Hd. destruct (aligned_frame G HG Hd) as [EG ?]. unfold FRAMES, PAGE_SIZE in *. lia. }
  split; [|by rewrite Em]. split; rewrite ?Em; [apply Hinv|done|..].
  - apply Hb; [by vm_compute|lia|apply Hinv].
  - destruct PDp_aligned as [HPa HPd]. destruct (Hlow PDp HPa) as [H1 H2]; [unfold DIRECT in *; lia|].
    apply Hb; [done|by apply H2|apply Hinv].
  - intros i T Hi HT. destruct (kw_table _ (pi_map _ Hinv) i T Hi HT).
    destruct (Hlow T) as [H1 H2]; [by eapply table_of_aligned|done|].
    apply Hb; [done| |by apply (pi_tables _ Hinv i)]. apply H2. intros ->. by apply (Hnt i).
Qed.

(** ** Runs of the memory operations

    What the callers owe the paging code, which checks none of it: addresses are mapped and
    unmapped outside the window, a page table is only made while the next free frame lies
    inside it, and no frame of a paging structure is released. *)
Inductive page_step : gsys -> gsys -> Prop :=
  | step_map s va pa flags s' : is32 va -> outside va -> is32 pa ->
      (table_of (ram (g_hw s)) PDp (pd_index va) = None -> low_frame s) ->
      paging_map_page va pa flags s = Ok tt s' -> page_step s s'
  | step_unmap s va s' : is32 va -> outside va ->
      paging_unmap_page va s = Ok tt s' -> page_step s s'
  | step_take s r s' : zoom g_lens pmm_alloc_frame s = Ok r s' -> page_step s s'
  | step_give s a s' : releasable s a ->
      zoom g_lens (pmm_free_frame a) s = Ok tt s' -> page_step s s'.

Lemma wp_run {S A} (m : M S A) s a s' (Q : A -> S -> Prop) : wp m s Q -> m s = Ok a s' -> Q a s'.
Proof. unfold wpe. intros W E. by rewrite E in W. Qed.

Lemma page_step_inv s s' : paging_inv s -> page_step s s' -> paging_inv s'.
Proof.
  intros Hinv Hst. destruct Hst as [s va pa flags s' Hva Ho Hpa Hlow E|s va s' Hva Ho E|s r s' E|s a s' Hr E].
  - by apply (wp_run _ _ _ _ _ (paging_map_page_wp s va pa flags Hinv Hva Hlow Ho Hpa) E).
  - by apply (wp_run _ _ _ _ _ (unmap_inv s va Hinv Hva Ho) E).
  - unfold zoom in E. destruct (pmm_alloc_frame (view g_lens s)) as [r' p|] eqn:Ea; [|done].
    injection E as <- <-. eapply alloc_paging_inv; [done| |done].
    apply (alloc_inv _ _ _ (pi_pmm _ Hinv) Ea).
  - unfold zoom in E. destruct (pmm_free_frame a (view g_lens s)) as [[] p|] eqn:Ea; [|done].
    injection E as <-. eapply free_paging_inv; [done|done|].
    eapply free_inv; [apply Hinv| |done]. destruct Hr. lia.
Qed.

Lemma page_run_inv s s' : rtc page_step s s' -> paging_inv s -> paging_inv s'.
Proof. induction 1; [done|]. intros. eauto using page_step_inv. Qed.

Lemma unmap_runs s va : paging_inv s -> is32 va -> outside va -> exists s', rtc page_step s s'.
Proof.
  intros Hinv Hva Ho. pose proof (unmap_inv s va Hinv Hva Ho) as W.
  apply wp_ok in W as ([] & s' & E & _). exists s'. by eapply rtc_once, step_unmap.
Qed.

(** What a lookup returns, 0 standing for "not mapped". *)
Definition lookup (h : machine) (va : Z) : Z := default 0 (translate h va).

Lemma remaps_lookup h h' va o va' : remaps h h' va o -> is32 va' ->
  lookup h' va' =
  if decide (va' / 4096 = va / 4096)
  then default 0 ((fun pte => Z.land pte 0xFFFFF000 + Z.land va' 0xFFF) <$> o)
  else lookup h va'.
Proof. intros Hr Hva. unfold lookup, translate. rewrite (Hr va' Hva). by case_decide. Qed.

(** ** The first steps of [kernel_main]: frames, then the kernel's own map *)

Definition memory_init (mbi : Z) : M gsys unit := zoom g_lens (pmm_init mbi) ;;; paging_init.

(** The state the boot code hands over. *)
Record booted (mbi : Z) (es : list mmap_entry) (s : gsys) : Prop := {
  bt_statics : pristine (g_p s);
  bt_map : exists c, boot_ok c (g_hw s);
  bt_info : boot_info (g_hw s) mbi es;
  bt_entries : Forall entry_ok es;
  bt_disjoint : map_disjoint free_limit es;
}.

Record memory_ready (es : list mmap_entry) (s : gsys) : Prop := {
  mr_counted : pmm_counted (g_p s);
  mr_bits : forall g, 0 <= g < FRAMES ->
    frame_bit (frame_bitmap (g_p s)) g = negb (map_frames free_limit es g);
  mr_total : total_frames (g_p s) = countZ (Z.to_nat FRAMES) (map_frames free_limit es);
  mr_contents : contents 4 0 (ram (g_hw s));
  mr_cr3 : cr3 (g_hw s) = PDp;
}.

Lemma memory_init_wp mbi es s : booted mbi es s ->
  wp (memory_init mbi) s (fun _ s' => memory_ready es s').
Proof.
  intros [Hp [c Hc] Hbi Hok Hd]. unfold memory_init. wp_step. apply wp_zoom.
  eapply wp_mono; [by apply (pmm_init_wp mbi es); [apply Hp| | |]|]. intros [] p Hrel. cbv beta.
  destruct (init_counted _ _ _ Hp Hrel) as (Hcnt & Ht & Hb).
  eapply wp_mono; [apply (paging_init_wp c)|].
  { eapply boot_ok_same; [|exact Hc]. apply Hrel. }
  intros [] s' (h & -> & Hcon & Hcr). split; [|exact Hb|by rewrite <-(count_free_of _ _ Hb)|done|done].
  destruct Hcnt as [Hwf Hn]. split; [by apply pmm_wf_hw|exact Hn].
Qed.

Lemma kernel_end_phys_eq : sym_kernel_end - KERNEL_VIRTUAL_BASE <= kernel_end_phys.
Proof.
  unfold kernel_end_phys, KERNEL_VIRTUAL_BASE, PAGE_SIZE.
  pose proof lo_end as He. pose proof lo_pd_range as Hp.
  rewrite (u32_small (sym_kernel_end - _)), (u32_small (_ + 4096)) by (unfold is32; lia).
  rewrite u32_small, land_page_mask by (unfold is32; lia).
  pose proof (Z.mod_pos_bound (sym_kernel_end - 3221225472 + 4096 - 1) 4096 ltac:(lia)). lia.
Qed.

(** Frames of the kernel image are not available. *)
Lemma image_frame es g : PAGE_SIZE * g < free_limit -> map_frames free_limit es g = false.
Proof.
  intros Hg. unfold map_frames. induction es as [|e es IH]; [done|]. cbn [existsb].
  rewrite IH, orb_false_r. unfold entry_frames.
  replace (free_limit <=? _) with false by (symmetry; by apply Z.leb_gt). by rewrite andb_false_r.
Qed.

Lemma static_below F : static_frame F -> PAGE_SIZE * (F / 4096) < free_limit /\ 0 <= F / 4096 < FRAMES.
Proof.
  intros HF. pose proof (static_aligned F HF) as [Ha Hd]. pose proof kernel_end_phys_eq as Hk.
  destruct (aligned_frame F Ha Hd) as [EF ?]. unfold FRAMES. split; [|lia].
  change PAGE_SIZE with 4096. rewrite <-EF. unfold free_limit.
  pose proof lo_pd_range. pose proof lo_pt_range.
  destruct HF as [->|(t & Ht & ->)].
  - rewrite PDp_eq. lia.
  - unfold PTp. lia.
Qed.

Lemma memory_ready_inv es s : memory_ready es s -> paging_inv s.
Proof.
  intros [Hc Hb _ Hcon Hcr].
  assert (Hst : forall F, static_frame F -> frame_bit (frame_bitmap (g_p s)) (F / 4096) = true).
  { intros F HF. destruct (static_below F HF). rewrite Hb by done. by rewrite image_frame. }
  split.
  - by apply filled_kmap.
  - apply Hc.
  - rewrite Hb by by vm_compute. rewrite image_frame; [done|]. unfold free_limit. lia.
  - apply Hst. by left.
  - intros i T Hi HT. rewrite filled_tables in HT by done. case_decide; [|done].
    injection HT as <-. apply Hst. right. exists (i - 768). split; [lia|done].
Qed.

(** ** Claims *)

(** C27: [paging_get_physical] returns what the MMU would use: on every kernel map its
    result is the hardware translation of the address, and 0 when there is none; it
    changes nothing. *)
Theorem paging_get_physical_mmu s va : kmap_wf (g_hw s) -> is32 va ->
  paging_get_physical va s = Ok (lookup (g_hw s) va) s.
Proof. apply paging_get_physical_run. Qed.

(** C8: after [paging_map_page va pa flags] a lookup in the page of [va] returns the
    address in the frame of [pa], a lookup anywhere else returns what it did before, and
    the TLB entry of [va] was invalidated.  The frame for a missing page table must exist
    and lie in the window. *)
Theorem paging_map_lookup s va pa flags va' : paging_inv s -> is32 va -> outside va ->
  is32 pa -> is32 va' -> low_frame s -> reachable_frames (g_p s) <> ∅ ->
  wp (paging_map_page va pa flags ;;; paging_get_physical va') s (fun r s' =>
    r = (if decide (va' / 4096 = va / 4096)
         then Z.land pa 0xFFFFF000 + Z.land va' 0xFFF else lookup (g_hw s) va') /\
    paging_inv s' /\ keeps_data s s' /\ hd_error (trace (g_hw s')) = Some (Invlpg va)).
Proof.
  intros Hinv Hva Ho Hpa Hva' Hlow Hne. wp_step.
  eapply wp_mono; [by apply paging_map_page_wp|]. intros [] s1 (Hinv1 & Hk & _ & Hcase). cbv beta.
  eapply wp_eq; [apply paging_get_physical_run; [apply Hinv1|done]|].
  destruct Hcase as [(Hr & Htr & _)|(_ & _ & _ & Hall)].
  - split; [|done]. fold (lookup (g_hw s1) va'). rewrite (remaps_lookup _ _ _ _ _ Hr Hva').
    case_decide; [|done]. cbn. by destruct (make_pte_spec pa flags Hpa) as (_ & _ & ->).
  - exfalso. apply Hne. apply set_eq. intros f. rewrite elem_of_reachable_frames.
    split; [|by intros ?%elem_of_empty]. intros [Hf Hb]. by rewrite (Hall f Hf) in Hb.
Qed.

(** C28: after [paging_unmap_page va] a lookup in the page of [va] finds nothing, every
    other page is translated as before, and no frame changed hands. *)
Theorem paging_unmap_lookup s va va' : paging_inv s -> is32 va -> outside va -> is32 va' ->
  wp (paging_unmap_page va ;;; paging_get_physical va') s (fun r s' =>
    r = (if decide (va' / 4096 = va / 4096) then 0 else lookup (g_hw s) va') /\
    paging_inv s' /\ frame_bitmap (g_p s') = frame_bitmap (g_p s)).
Proof.
  intros Hinv Hva Ho Hva'. wp_step. eapply wp_mono; [by apply unmap_inv|].
  intros [] s1 (Hinv1 & Hr & Hb). cbv beta.
  eapply wp_eq; [apply paging_get_physical_run; [apply Hinv1|done]|].
  split; [|done]. fold (lookup (g_hw s1) va').
  rewrite (remaps_lookup _ _ _ _ _ Hr Hva'). by case_decide.
Qed.

(** In every run of mappings, unmappings, frame allocations and releases whose callers
    keep to [page_step], the kernel keeps its own map: CR3 names the kernel directory, the first 4 MB stay reachable at
    [KERNEL_VIRTUAL_BASE], and no frame of a paging structure is ever free. *)
Theorem paging_runs_keep_kernel_map s s' : paging_inv s -> rtc page_step s s' ->
  cr3 (g_hw s') = PDp /\
  (forall p, 0 <= p < DIRECT -> translate (g_hw s') (KERNEL_VIRTUAL_BASE + p) = Some p) /\
  frame_bit (frame_bitmap (g_p s')) (PDp / 4096) = true /\
  (forall i T, 0 <= i < 1024 -> table_of (ram (g_hw s')) PDp i = Some T ->
     frame_bit (frame_bitmap (g_p s')) (T / 4096) = true).
Proof.
  intros Hinv Hrun. pose proof (page_run_inv _ _ Hrun Hinv) as H.
  split; [apply H|]. split; [apply (kw_direct _ (pi_map _ H))|]. split; [apply H|]. apply (pi_tables _ H).
Qed.

(** C26: [paging_init], run on the boot map, installs exactly the higher-half map: the
    first 16 MB of physical memory at 0xC0000000 and nothing else, so the identity map of
    the boot code is gone (virtual-memory.md and a comment in [vmm_init] describe an identity
    map of 16 MB instead). *)
Theorem paging_init_map c s : boot_ok c (g_hw s) ->
  exists s', paging_init s = Ok tt s' /\ cr3 (g_hw s') = PDp /\
    current_page_directory s' = sym_page_directory /\
    forall va, is32 va -> translate (g_hw s') va = higher_half va.
Proof.
  intros Hb. pose proof (paging_init_wp c s Hb) as W. apply wp_ok in W as ([] & s' & E & h & -> & Hc & Hcr).
  eexists. split; [exact E|]. split; [done|]. split; [done|]. intros va Hva. by apply filled_translate.
Qed.

(** The page tables [_start] builds before it enables paging map the first 4 MB at
    0 and at 0xC0000000 and nothing else, whatever memory held before. *)
Theorem boot_map_exact m dev va : is32 va -> translate (boot_machine m dev) va = boot_map va.
Proof. apply boot_translate. Qed.
End Runs.

(** ** Witnesses *)

(** The state a run ends in. *)
Definition final {S A} (r : result S A) : S := match r with Ok _ s => s | Stop _ s => s end.

Lemma wp_final {S A} (m : M S A) s (Q : S -> Prop) : wp m s (fun _ s' => Q s') -> Q (final (m s)).
Proof. unfold wpe. by destruct (m s). Qed.

Abbreviation demo_boot_8M := (demo_boot 0x700000).
#[export] Existing Instance demo_layout_ok.

Lemma demo_booted : booted (L := demo_layout) 0x9000 (demo_map 0x700000) demo_boot_8M.
Proof.
  split; [apply demo_pristine| |apply demo_boot_info_8M|apply demo_entries_ok|apply demo_disjoint].
  eexists. apply boot_boot_ok.
Qed.

(** The state after [pmm_init] and [paging_init] on 8 MB of memory. *)
Definition demo_memory : gsys := final (@memory_init demo_layout 0x9000 demo_boot_8M).

Lemma demo_memory_ready : memory_ready (L := demo_layout) (demo_map 0x700000) demo_memory.
Proof. unfold demo_memory. eapply (wp_final (memory_init 0x9000)), memory_init_wp, demo_booted. Qed.

#[global] Opaque demo_memory.

Lemma demo_memory_inv : paging_inv (L := demo_layout) demo_memory.
Proof. eapply memory_ready_inv, demo_memory_ready. Qed.

(** The first frame above the image, number 0x114. *)
Lemma demo_first_free : frame_bit (frame_bitmap (g_p demo_memory)) 0x114 = false.
Proof. rewrite (mr_bits _ _ demo_memory_ready); by vm_compute. Qed.

Lemma demo_total : total_frames (g_p demo_memory) = 1772.
Proof. rewrite (mr_total _ _ demo_memory_ready). apply demo_available. Qed.

Lemma demo_low_frame : low_frame demo_memory.
Proof.
  intros f Hf Hb Hall. destruct (Z.le_gt_cases f 0x114); [unfold PAGE_SIZE, DIRECT; lia|].
  pose proof (Hall 0x114 ltac:(lia)) as H1. by rewrite demo_first_free in H1.
Qed.

Lemma demo_has_frames : reachable_frames (g_p demo_memory) <> ∅.
Proof.
  intros E. apply (not_elem_of_empty (C := gset Z) 0x114). rewrite <-E.
  clear E. apply elem_of_reachable_frames. split; [|apply demo_first_free].
  unfold scan_limit. rewrite demo_total. by vm_compute.
Qed.

Lemma paging_get_physical_mmu_witness :
  @paging_get_physical demo_layout 0xC0123456 demo_memory =
  Ok (lookup (g_hw demo_memory) 0xC0123456) demo_memory.
Proof.
  apply (paging_get_physical_mmu demo_memory 0xC0123456); [exact (pi_map _ demo_memory_inv)|by unfold is32].
Defined.

Lemma paging_map_lookup_witness :
  wp (@paging_map_page demo_layout 0x8048000 0x200000 7 ;;; @paging_get_physical demo_layout 0x8048010)
     demo_memory (fun r s' => r = 0x200010 /\ paging_inv (L := demo_layout) s' /\
       keeps_data (L := demo_layout) demo_memory s' /\
       hd_error (trace (g_hw s')) = Some (Invlpg 0x8048000)).
Proof.
  apply (paging_map_lookup demo_memory 0x8048000 0x200000 7 0x8048010 demo_memory_inv);
    [by unfold is32|left; by vm_compute|by unfold is32|by unfold is32|apply demo_low_frame|
     apply demo_has_frames].
Defined.

Lemma paging_unmap_lookup_witness :
  wp (@paging_unmap_page demo_layout 0xC0500000 ;;; @paging_get_physical demo_layout 0xC0500004)
     demo_memory (fun r s' => r = 0 /\ paging_inv (L := demo_layout) s' /\
       frame_bitmap (g_p s') = frame_bitmap (g_p demo_memory)).
Proof.
  apply (paging_unmap_lookup demo_memory 0xC0500000 0xC0500004 demo_memory_inv);
    [by unfold is32|right; by vm_compute|by unfold is32].
Defined.

(** A run of one step. *)
Lemma paging_runs_keep_kernel_map_witness : exists s',
  rtc (page_step (L := demo_layout)) demo_memory s' /\
  cr3 (g_hw s') = @paging_get_directory demo_layout.
Proof.
  assert (is32 0xC0500000) as H1 by by unfold is32.
  assert (outside 0xC0500000) as H2 by (right; by vm_compute).
  destruct (unmap_runs demo_memory 0xC0500000 demo_memory_inv H1 H2) as [s' Hrun].
  exists s'. split; [exact Hrun|].
  exact (proj1 (paging_runs_keep_kernel_map demo_memory s' demo_memory_inv Hrun)).
Defined.

Lemma paging_init_map_witness :
  exists s', @paging_init demo_layout demo_boot_8M = Ok tt s' /\
    cr3 (g_hw s') = @paging_get_directory demo_layout /\
    current_page_directory s' = @sym_page_directory demo_layout /\
    forall va, is32 va -> translate (g_hw s') va = higher_half va.
Proof. exact (paging_init_map (L := demo_layout) (@boot_pd demo_layout) demo_boot_8M (boot_boot_ok _ _)). Defined.

Lemma boot_map_exact_witness :
  translate (@boot_machine demo_layout ∅ (fun _ _ => 0)) 0xC0101000 = Some 0x101000.
Proof. apply (boot_map_exact ∅ (fun _ _ => 0) 0xC0101000). by unfold is32. Defined.
