(* ===== verification/HeapList.v ===== *)
(** * The block list of the kernel heap ([kernel/kheap.c])

    The pointer algorithms of the allocator on the singly linked list of block
    headers, written against an interface of word loads and stores.  [Kheap.v] runs
    them on the MMU; here they are shown to implement operations on a list of
    (size, free) pairs that tile an address range. *)

From stdpp Require Import base gmap list numbers option strings.
From Stdlib Require Import ZArith Lia.
From S2P Require Import Prelude.

(** [sizeof(block_header_t)]: the fields [size], [is_free], [next]. *)
Definition HEADER_SIZE : Z := 12.

(** What the allocator needs from memory. *)
Class WordMem (S : Type) := {
  ldw : Z -> M S Z;
  stw : Z -> Z -> M S unit;
}.

(** What memory promises on the addresses that are [valid]: a load returns the word,
    a store changes that word only.  [framed] relates states that differ in nothing
    but valid words. *)
Class WordMemLaws (S : Type) `{WordMem S} := {
  rd : S -> Z -> Z;
  valid : S -> Z -> Prop;
  framed : S -> S -> Prop;
  framed_refl s : framed s s;
  framed_trans s1 s2 s3 : framed s1 s2 -> framed s2 s3 -> framed s1 s3;
  rd_32 s a : valid s a -> is32 (rd s a);
  ldw_ok s a : valid s a -> ldw a s = Ok (rd s a) s;
  stw_ok s a v : valid s a -> is32 v -> exists s', stw a v s = Ok tt s' /\ framed s s' /\
    (forall b, valid s b -> valid s' b) /\
    (forall b, valid s b -> rd s' b = if decide (b = a) then v else rd s b);
}.

Section Algorithms.
Context {S : Type} `{WordMem S}.

Definition f_size (block : Z) : Z := block.
Definition f_free (block : Z) : Z := block +u 4.
Definition f_next (block : Z) : Z := block +u 8.

(** The walk to the last block in [heap_expand]. *)
Definition last_block (first : Z) : M S Z :=
  loop (fun block =>
    next <- ldw (f_next block) ;;
    ret (if next =? 0 then inr block else inl next)) first.

(** The end of [heap_expand]: the last block is extended, or a new one appended. *)
Definition extend_last (block heap_end expand_size : Z) : M S unit :=
  free <- ldw (f_free block) ;;
  if negb (free =? 0) then
    size <- ldw (f_size block) ;;
    stw (f_size block) (size +u expand_size)
  else
    let new_block := heap_end in
    stw (f_size new_block) (expand_size -u HEADER_SIZE) ;;;
    stw (f_free new_block) 1 ;;;
    stw (f_next new_block) 0 ;;;
    stw (f_next block) new_block.

Definition find_free_from (first size : Z) : M S Z :=
  loop (fun block =>
    if block =? 0 then ret (inr 0) else
    free <- ldw (f_free block) ;;
    fits <- (if free =? 0 then ret false
             else sz <- ldw (f_size block) ;; ret (size <=? sz)) ;;
    if fits : bool then ret (inr block) else
    next <- ldw (f_next block) ;; ret (inl next)) first.

Definition split_block (block size : Z) : M S unit :=
  bsize <- ldw (f_size block) ;;
  if size +u HEADER_SIZE +u 32 <=? bsize then
    let new_block := block +u HEADER_SIZE +u size in
    bsize' <- ldw (f_size block) ;;
    stw (f_size new_block) (bsize' -u size -u HEADER_SIZE) ;;;
    stw (f_free new_block) 1 ;;;
    next <- ldw (f_next block) ;;
    stw (f_next new_block) next ;;;
    stw (f_size block) size ;;;
    stw (f_next block) new_block
  else ret tt.

Definition merge_from (first : Z) : M S unit :=
  loop (fun block =>
    if block =? 0 then ret (inr tt) else
    next <- ldw (f_next block) ;;
    if next =? 0 then ret (inr tt) else
    free <- ldw (f_free block) ;;
    both <- (if free =? 0 then ret false
             else nfree <- ldw (f_free next) ;; ret (negb (nfree =? 0))) ;;
    if both : bool then
      bsize <- ldw (f_size block) ;;
      nsize <- ldw (f_size next) ;;
      stw (f_size block) (bsize +u (HEADER_SIZE +u nsize)) ;;;
      nnext <- ldw (f_next next) ;;
      stw (f_next block) nnext ;;;
      ret (inl block)
    else
      ret (inl next)) first.
End Algorithms.

(** ** Lists of blocks *)

(** A block: its size without the header, and whether it is free. *)
Abbreviation block := (Z * bool)%type.

(** The address after the blocks, when the first one is at 0. *)
Fixpoint span (bs : list block) : Z :=
  match bs with
  | [] => 0
  | (sz, _) :: r => HEADER_SIZE + sz + span r
  end.

(** First fit: the address of the first free block that is large enough. *)
Fixpoint find_fit (a : Z) (bs : list block) (n : Z) : option Z :=
  match bs with
  | [] => None
  | (sz, fr) :: r => if fr && (n <=? sz) then Some a else find_fit (a + HEADER_SIZE + sz) r n
  end.

(** Joining runs of free blocks. *)
Fixpoint coalesce (cur : block) (r : list block) : list block :=
  match r with
  | [] => [cur]
  | b :: r' => if cur.2 && b.2 then coalesce (cur.1 + HEADER_SIZE + b.1, true) r'
               else cur :: coalesce b r'
  end.

(** The bytes in allocated blocks. *)
Fixpoint allocated (bs : list block) : Z :=
  match bs with
  | [] => 0
  | (sz, fr) :: r => (if fr then 0 else sz) + allocated r
  end.

Definition size_ok (b : block) : Prop := 0 <= b.1 /\ b.1 mod 4 = 0.

Lemma span_app l1 l2 : span (l1 ++ l2) = span l1 + span l2.
Proof. induction l1 as [|[sz fr] l IH]; cbn; [done|]. rewrite IH. lia. Qed.

Lemma span_nonneg bs : Forall size_ok bs -> 0 <= span bs.
Proof.
  induction 1 as [|[sz fr] l [H1 _] _ IH]; cbn in *; [done|]. unfold HEADER_SIZE. lia.
Qed.

Lemma span_mod bs : Forall size_ok bs -> span bs mod 4 = 0.
Proof.
  induction 1 as [|[sz fr] l [_ H1] _ IH]; cbn in *; [done|]. unfold HEADER_SIZE.
  rewrite Z.add_mod, (Z.add_mod 12 sz), H1, IH by lia. done.
Qed.

Lemma allocated_app l1 l2 : allocated (l1 ++ l2) = allocated l1 + allocated l2.
Proof. induction l1 as [|[sz fr] l IH]; cbn; [done|]. rewrite IH. lia. Qed.

Lemma allocated_bounds bs : Forall size_ok bs -> 0 <= allocated bs <= span bs.
Proof.
  induction 1 as [|[sz fr] l [H1 _] _ IH]; cbn in *; [done|]. unfold HEADER_SIZE.
  destruct fr; lia.
Qed.

Lemma coalesce_span cur r : span (coalesce cur r) = span (cur :: r).
Proof.
  revert cur. induction r as [|[sz fr] r IH]; intros [sz' fr']; [done|]. cbn [coalesce].
  destruct (_ && _); [rewrite IH|]; cbn; [lia|]. rewrite IH. cbn. lia.
Qed.

Lemma coalesce_allocated cur r : allocated (coalesce cur r) = allocated (cur :: r).
Proof.
  revert cur. induction r as [|[sz fr] r IH]; intros [sz' fr']; [done|]. cbn [coalesce].
  destruct fr', fr; cbn; rewrite IH; cbn; lia.
Qed.

(** [b] is an address in the payload of an allocated block. *)
Fixpoint live (a : Z) (bs : list block) (b : Z) : Prop :=
  match bs with
  | [] => False
  | (sz, fr) :: r => (fr = false /\ a + HEADER_SIZE <= b < a + HEADER_SIZE + sz) \/
                     live (a + HEADER_SIZE + sz) r b
  end.

Lemma live_app a l1 l2 b : live a (l1 ++ l2) b <-> live a l1 b \/ live (a + span l1) l2 b.
Proof.
  revert a. induction l1 as [|[sz fr] l IH]; intros a; cbn; [rewrite Z.add_0_r; tauto|].
  rewrite IH. replace (a + HEADER_SIZE + sz + span l) with (a + (HEADER_SIZE + sz + span l)) by lia.
  tauto.
Qed.

Lemma live_bounds a bs b : Forall size_ok bs -> live a bs b -> a <= b < a + span bs.
Proof.
  intros H. revert a. induction H as [|[sz fr] l [Hs _] Hl IH]; intros a; cbn in *; [done|].
  pose proof (span_nonneg _ Hl). unfold HEADER_SIZE in *.
  intros [[_ ?]|Hr]; [lia|]. apply IH in Hr. lia.
Qed.

(** Joining free blocks changes no payload. *)
Lemma live_coalesce a cur r b : live a (coalesce cur r) b <-> live a (cur :: r) b.
Proof.
  revert a cur. induction r as [|[sz' fr'] r IH]; intros a [sz fr]; [done|]. cbn [coalesce].
  destruct fr, fr'; cbn [fst snd andb]; rewrite ?IH; cbn;
    rewrite ?IH; cbn; unfold HEADER_SIZE; rewrite ?Z.add_assoc; intuition congruence.
Qed.

(** No two neighbours are both free. *)
Fixpoint separated (bs : list block) : Prop :=
  match bs with
  | [] => True
  | b :: r => match r with
              | [] => True
              | b' :: _ => b.2 && b'.2 = false
              end /\ separated r
  end.

Lemma coalesce_head cur r : exists sz r', coalesce cur r = (sz, cur.2) :: r'.
Proof.
  revert cur. induction r as [|b r IH]; intros [sz fr]; cbn; [by eauto|].
  destruct fr; cbn; [|by eauto]. destruct b as [sz' []]; cbn; [|by eauto]. apply IH.
Qed.

Lemma coalesce_separated cur r : separated (coalesce cur r).
Proof.
  revert cur. induction r as [|b r IH]; intros cur; cbn [coalesce]; [done|].
  destruct (cur.2 && b.2) eqn:E; [apply IH|].
  split; [|apply IH]. destruct (coalesce_head b r) as (sz & r' & ->). done.
Qed.

(** ** The allocator on lists *)

(** What is left of a free block of size [sz] when [n] bytes are taken from it. *)
Definition take_list (sz n : Z) : list block :=
  if n + HEADER_SIZE + 32 <=? sz
  then [(n, false); (sz - n - HEADER_SIZE, true)] else [(sz, false)].

(** First-fit allocation: the address of the payload and the new list. *)
Fixpoint alloc_list (a : Z) (bs : list block) (n : Z) : option (Z * list block) :=
  match bs with
  | [] => None
  | (sz, fr) :: r =>
      if fr && (n <=? sz) then Some (a + HEADER_SIZE, take_list sz n ++ r)
      else prod_map id (cons (sz, fr)) <$> alloc_list (a + HEADER_SIZE + sz) r n
  end.

(** Growing the list by [x] bytes at its end. *)
Fixpoint grow_list (bs : list block) (x : Z) : list block :=
  match bs with
  | [] => []
  | [(sz, fr)] => if fr then [(sz + x, true)] else [(sz, false); (x - HEADER_SIZE, true)]
  | b :: r => b :: grow_list r x
  end.

(** The block whose payload starts at [p]: the blocks before it, it, those after. *)
Fixpoint locate (a : Z) (bs : list block) (p : Z) : option (list block * block * list block) :=
  match bs with
  | [] => None
  | (sz, fr) :: r =>
      if p =? a + HEADER_SIZE then Some ([], (sz, fr), r)
      else (fun '(pre, b, post) => ((sz, fr) :: pre, b, post)) <$> locate (a + HEADER_SIZE + sz) r p
  end.

Definition merged (bs : list block) : list block :=
  match bs with [] => [] | b :: r => coalesce b r end.

(** Releasing the allocated block whose payload starts at [p]. *)
Definition free_list (a : Z) (bs : list block) (p : Z) : option (list block) :=
  match locate a bs p with
  | Some (pre, (sz, false), post) => Some (merged (pre ++ (sz, true) :: post))
  | _ => None
  end.

Lemma find_fit_none a bs n : find_fit a bs n = None <-> alloc_list a bs n = None.
Proof.
  revert a. induction bs as [|[sz fr] r IH]; intros a; cbn; [done|].
  destruct (fr && (n <=? sz)); [done|]. rewrite fmap_None. apply IH.
Qed.

Lemma find_fit_some a bs n p : find_fit a bs n = Some p ->
  exists pre sz post, bs = pre ++ [(sz, true)] ++ post /\ p = a + span pre /\ n <= sz /\
    alloc_list a bs n = Some (p + HEADER_SIZE, pre ++ take_list sz n ++ post).
Proof.
  revert a. induction bs as [|[sz fr] r IH]; intros a; cbn; [done|].
  destruct (fr && (n <=? sz)) eqn:E.
  - apply andb_true_iff in E as [-> E%Z.leb_le]. intros [= <-].
    exists [], sz, r. cbn. split_and!; [done|lia|done|done].
  - intros H. destruct (IH _ H) as (pre & sz' & post & -> & -> & Hle & ->).
    exists ((sz, fr) :: pre), sz', post. cbn. split_and!; [done|lia|done|done].
Qed.

Lemma grow_list_app pre sz fr x : grow_list (pre ++ [(sz, fr)]) x =
  pre ++ if fr then [(sz + x, true)] else [(sz, false); (x - HEADER_SIZE, true)].
Proof.
  induction pre as [|[sz' fr'] pre IH]; cbn; [done|]. rewrite IH. by destruct pre.
Qed.

Lemma locate_spec a bs p pre b post : locate a bs p = Some (pre, b, post) ->
  bs = pre ++ [b] ++ post /\ p = a + span pre + HEADER_SIZE.
Proof.
  revert a pre. induction bs as [|[sz fr] r IH]; intros a pre; cbn; [done|].
  destruct (Z.eqb_spec p (a + HEADER_SIZE)) as [->|_].
  - intros [= <- <- <-]. cbn. split; [done|lia].
  - destruct (locate _ r p) as [[[pre' b'] post']|] eqn:E; [|done]. cbn.
    intros [= <- -> ->]. destruct (IH _ _ E) as [-> ->]. cbn. split; [done|lia].
Qed.

(** A grown list has room. *)
Lemma alloc_grow a bs n x : bs <> [] -> Forall size_ok bs -> n + HEADER_SIZE <= x -> 0 <= n ->
  is_Some (alloc_list a (grow_list bs x) n).
Proof.
  intros Hne Hok Hx Hn. revert a. induction bs as [|[sz fr] r IH]; [done|]. intros a.
  apply Forall_cons in Hok as [[Hsz _] Hok]. cbn in Hsz. unfold HEADER_SIZE in *.
  destruct r as [|b r].
  - destruct fr; cbn.
    + rewrite (proj2 (Z.leb_le n (sz + x))) by lia. by eexists.
    + unfold HEADER_SIZE. rewrite (proj2 (Z.leb_le n (x - 12))) by lia. by eexists.
  - change (grow_list ((sz, fr) :: b :: r) x) with ((sz, fr) :: grow_list (b :: r) x).
    cbn [alloc_list]. destruct (fr && _); [by eexists|].
    rewrite fmap_is_Some. by apply IH.
Qed.

(** ** Blocks in memory *)

Section Representation.
Context {S : Type} `{WL : WordMemLaws S}.

(** The header of a block at [a]; addresses stay below [2^32]. *)
Record hdr (s : S) (a sz : Z) (fr : bool) (nx : Z) : Prop := {
  hd_addr : 0 < a /\ a + HEADER_SIZE + sz < 4294967296;
  hd_size : size_ok (sz, fr);
  hd_valid : valid s a /\ valid s (a + 4) /\ valid s (a + 8);
  hd_rsize : rd s a = sz;
  hd_rfree : rd s (a + 4) = if fr then 1 else 0;
  hd_rnext : rd s (a + 8) = nx;
}.

(** The blocks [bs] lie one after the other from [a] to [e]; the last one's [next]
    field is [z]. *)
Fixpoint seg (s : S) (a : Z) (bs : list block) (e z : Z) : Prop :=
  match bs with
  | [] => a = e
  | (sz, fr) :: r =>
      hdr s a sz fr (match r with [] => z | _ => a + HEADER_SIZE + sz end) /\
      seg s (a + HEADER_SIZE + sz) r e z
  end.

Lemma seg_sizes s a bs e z : seg s a bs e z -> Forall size_ok bs.
Proof.
  revert a. induction bs as [|[sz fr] r IH]; intros a; [done|]. intros [Hh Hs].
  constructor; [apply Hh|by eapply IH].
Qed.

Lemma seg_span s a bs e z : seg s a bs e z -> e = a + span bs.
Proof.
  revert a. induction bs as [|[sz fr] r IH]; intros a; cbn; [lia|].
  intros [Hh Hs]. rewrite (IH _ Hs). lia.
Qed.

Lemma seg_app s a l1 l2 e z :
  seg s a (l1 ++ l2) e z <->
  exists m, seg s a l1 m (match l2 with [] => z | _ => m end) /\ seg s m l2 e z.
Proof.
  revert a. induction l1 as [|[sz fr] l IH]; intros a; cbn [app seg].
  - split; [by eauto|]. by intros (m & -> & ?).
  - rewrite IH. split.
    + intros (Hh & m & Hl & H2). exists m. split; [|done]. split; [|done].
      destruct l as [|[] l']; [|done]. cbn in *. subst m. by destruct l2.
    + intros (m & [Hh Hl] & H2). split; [|by eauto].
      destruct l as [|[] l']; [|done]. cbn in *. subst m. by destruct l2.
Qed.

Lemma seg_bounds s a bs e z : seg s a bs e z -> bs <> [] -> 0 < a < e /\ e < 4294967296.
Proof.
  revert a. induction bs as [|[sz fr] r IH]; intros a; [done|]. cbn. intros [Hh Hs] _.
  destruct (hd_addr _ _ _ _ _ Hh), (hd_size _ _ _ _ _ Hh) as [? _]; cbn in *.
  unfold HEADER_SIZE in *. destruct r as [|b r']; [cbn in Hs; lia|].
  specialize (IH _ Hs ltac:(done)). lia.
Qed.

(** ** Stores

    [writes s ws s']: [s'] is [s] after stores to valid words, the latest first
    in [ws]. *)

Fixpoint over (ws : list (Z * Z)) (b old : Z) : Z :=
  match ws with
  | [] => old
  | (w, v) :: r => if decide (b = w) then v else over r b old
  end.

Record writes (s : S) (ws : list (Z * Z)) (s' : S) : Prop := {
  wr_framed : framed s s';
  wr_valid : forall b, valid s b -> valid s' b;
  wr_rd : forall b, valid s b -> rd s' b = over ws b (rd s b);
}.

Lemma writes_nil s : writes s [] s.
Proof. split; [apply framed_refl|done|done]. Qed.

Lemma hdr_writes s ws s' a sz fr nx : writes s ws s' ->
  valid s a /\ valid s (a + 4) /\ valid s (a + 8) ->
  0 < a /\ a + HEADER_SIZE + sz < 4294967296 -> size_ok (sz, fr) ->
  over ws a (rd s a) = sz -> over ws (a + 4) (rd s (a + 4)) = (if fr then 1 else 0) ->
  over ws (a + 8) (rd s (a + 8)) = nx -> hdr s' a sz fr nx.
Proof.
  intros [_ Hv Hr] (V0 & V4 & V8) ? ? <- R4 <-.
  split; [done|done|naive_solver|..]; rewrite Hr by done; done.
Qed.

Lemma over_out ws b old : Forall (fun w => w.1 <> b) ws -> over ws b old = old.
Proof.
  induction 1 as [|[w v] r Hw _ IH]; [done|]. cbn in *. by rewrite decide_False.
Qed.

(** Stores outside the range of the blocks keep them. *)
Lemma seg_writes s ws s' a bs e z : seg s a bs e z -> writes s ws s' ->
  Forall (fun w => w.1 < a \/ e <= w.1) ws -> seg s' a bs e z.
Proof.
  intros Hseg Hw. revert a Hseg. induction bs as [|[sz fr] r IH]; intros a; [done|].
  cbn. intros [Hh Hs] Hout. pose proof (seg_span _ _ _ _ _ Hs) as He.
  pose proof (span_nonneg _ (seg_sizes _ _ _ _ _ Hs)).
  destruct (hd_size _ _ _ _ _ Hh) as [Hsz _]. cbn in Hsz. unfold HEADER_SIZE in *.
  assert (forall k, 0 <= k < 12 -> Forall (fun w => w.1 <> a + k) ws) as Hk.
  { intros k Hk. eapply Forall_impl; [exact Hout|]. cbn. lia. }
  split.
  - eapply hdr_writes; [done|apply Hh|apply Hh|apply Hh|..]; rewrite over_out; try apply Hh;
      [|by apply Hk..]. specialize (Hk 0 ltac:(lia)). by rewrite Z.add_0_r in Hk.
  - apply IH; [done|]. eapply Forall_impl; [exact Hout|]. cbn. lia.
Qed.

(** The addresses of the fields do not wrap. *)
Lemma fields s a sz fr nx : hdr s a sz fr nx ->
  f_size a = a /\ f_free a = a + 4 /\ f_next a = a + 8.
Proof.
  intros Hh. destruct (hd_addr _ _ _ _ _ Hh), (hd_size _ _ _ _ _ Hh) as [Hsz _].
  cbn in Hsz. unfold f_size, f_free, f_next, HEADER_SIZE in *.
  rewrite !u32_small by (unfold is32; lia). done.
Qed.

Lemma wp_ldw s a (Q : Z -> S -> Prop) E : valid s a -> Q (rd s a) s -> wpe (ldw a) s Q E.
Proof. intros Hv HQ. eapply wp_eq; [by apply ldw_ok|done]. Qed.

Lemma wp_read s ws s1 a (Q : Z -> S -> Prop) E : writes s ws s1 -> valid s a ->
  Q (over ws a (rd s a)) s1 -> wpe (ldw a) s1 Q E.
Proof.
  intros Hw Hv HQ. apply wp_ldw; [by eapply wr_valid|]. by rewrite (wr_rd _ _ _ Hw).
Qed.

Lemma wp_write s ws s1 a v (Q : unit -> S -> Prop) E : writes s ws s1 -> valid s a -> is32 v ->
  (forall s2, writes s ((a, v) :: ws) s2 -> Q tt s2) -> wpe (stw a v) s1 Q E.
Proof.
  intros [Hf Hva Hr] Hv H32 HQ.
  destruct (stw_ok s1 a v (Hva _ Hv) H32) as (s2 & Hrun & Hf2 & Hva2 & Hr2).
  eapply wp_eq; [exact Hrun|]. apply HQ. split.
  - by eapply framed_trans.
  - eauto.
  - intros b Hb. cbn. rewrite Hr2, Hr by eauto. done.
Qed.

(** ** Walks *)

Lemma last_block_wp s a bs sz fr e : seg s a (bs ++ [(sz, fr)]) e 0 ->
  wp (last_block a) s (fun r s' => s' = s /\ r = a + span bs).
Proof.
  intros Hseg. unfold last_block.
  apply (wp_loop _ (fun b s' => s' = s /\ exists pre post, bs = pre ++ post /\
           b = a + span pre /\ seg s b (post ++ [(sz, fr)]) e 0)
         (fun b _ => e - b)).
  2:{ split; [done|]. exists [], bs. cbn. split_and!; [done|lia|done]. }
  2:{ destruct (seg_bounds _ _ _ _ _ Hseg) as [? ?]; [by destruct bs|lia]. }
  intros b ? (-> & pre & post & -> & -> & Hb).
  destruct post as [|[sz' fr'] post']; cbn [app] in Hb; destruct Hb as [Hh Hs].
  - destruct (fields _ _ _ _ _ Hh) as (_ & _ & ->).
    wp_step. apply wp_ldw; [apply Hh|]. rewrite (hd_rnext _ _ _ _ _ Hh). wp_step.
    cbn. split; [done|]. by rewrite app_nil_r.
  - destruct (fields _ _ _ _ _ Hh) as (_ & _ & ->).
    wp_step. apply wp_ldw; [apply Hh|]. rewrite (hd_rnext _ _ _ _ _ Hh).
    destruct (hd_addr _ _ _ _ _ Hh), (hd_size _ _ _ _ _ Hh) as [Hsz _]. cbn in Hsz.
    assert (post' ++ [(sz, fr)] <> []) as Hne by (by destruct post').
    destruct (seg_bounds _ _ _ _ _ Hs Hne). unfold HEADER_SIZE in *.
    destruct (post' ++ [(sz, fr)]) as [|b0 l0] eqn:El; [done|].
    destruct (Z.eqb_spec (a + span pre + 12 + sz') 0); [lia|]. wp_step.
    split; [|lia]. split; [done|]. exists (pre ++ [(sz', fr')]), post'.
    split_and!; [by rewrite <-app_assoc|rewrite span_app; cbn; unfold HEADER_SIZE; lia|].
    by rewrite El.
Qed.

Lemma find_free_from_wp s a bs n e : seg s a bs e 0 -> bs <> [] ->
  wp (find_free_from a n) s (fun r s' => s' = s /\ r = default 0 (find_fit a bs n)).
Proof.
  intros Hseg Hne. unfold find_free_from.
  apply (wp_loop _ (fun b s' => s' = s /\
           ((b = 0 /\ find_fit a bs n = None) \/
            exists r, r <> [] /\ seg s b r e 0 /\ find_fit a bs n = find_fit b r n))
         (fun b _ => if b =? 0 then 0 else e - b)).
  2:{ split; [done|]. right. by exists bs. }
  2:{ destruct (seg_bounds _ _ _ _ _ Hseg Hne). destruct (a =? 0); lia. }
  intros b ? (-> & [[-> Hf]|(r & Hr & Hb & Hf)]).
  { wp_step; [|done]. wp_step. by rewrite Hf. }
  destruct (seg_bounds _ _ _ _ _ Hb Hr) as [Hbe He].
  destruct r as [|[sz fr] r]; [done|]. destruct Hb as [Hh Hs].
  destruct (fields _ _ _ _ _ Hh) as (E1 & E2 & E3). rewrite E1, E2, E3.
  destruct (Z.eqb_spec b 0); [lia|].
  wp_step. apply wp_ldw; [apply Hh|]. rewrite (hd_rfree _ _ _ _ _ Hh).
  wp_step. apply (wp_mono _ _ _ (fun x s' => s' = s /\ x = fr && (n <=? sz))).
  { destruct fr; cbn; wp_steps; [|done]. apply wp_ldw; [apply Hh|].
    rewrite (hd_rsize _ _ _ _ _ Hh). by wp_step. }
  intros x ? [-> ->]. rewrite Hf. cbn [find_fit]. wp_step.
  { by wp_step. }
  wp_step. apply wp_ldw; [apply Hh|]. rewrite (hd_rnext _ _ _ _ _ Hh). wp_step.
  destruct (hd_addr _ _ _ _ _ Hh), (hd_size _ _ _ _ _ Hh) as [Hsz _]. cbn in Hsz.
  unfold HEADER_SIZE in *. destruct r as [|b' r'].
  - unfold loop_post. rewrite (proj2 (Z.eqb_neq b 0)) by done.
    split; [split; [done|by left]|]. change (0 =? 0) with true. lia.
  - destruct (seg_bounds _ _ _ _ _ Hs ltac:(done)) as [? _]. unfold loop_post.
    rewrite (proj2 (Z.eqb_neq b 0)), (proj2 (Z.eqb_neq (b + 12 + sz) 0)) by lia.
    split; [|lia]. split; [done|]. right. by exists (b' :: r').
Qed.

(** ** Updates *)

(** Every word of an address range is valid. *)
Definition room (s : S) (lo hi : Z) : Prop :=
  forall b, lo <= b < hi -> b mod 4 = 0 -> valid s b.

Lemma room_writes s ws s' lo hi : room s lo hi -> writes s ws s' -> room s' lo hi.
Proof. intros Hr Hw b Hb Hm. eapply wr_valid; [done|]. by apply Hr. Qed.

(** The outcome of an update of the list [bs] to [bs']: valid words stay valid, and
    the payloads of the allocated blocks keep their contents. *)
Record updated (a e : Z) (s : S) (bs : list block) (s' : S) (bs' : list block) : Prop := {
  up_framed : framed s s';
  up_valid : forall b, valid s b -> valid s' b;
  up_seg : seg s' a bs' e 0;
  up_keeps : forall b, valid s b -> live a bs b -> rd s' b = rd s b;
}.

Lemma updated_refl a e s bs : seg s a bs e 0 -> updated a e s bs s bs.
Proof. intros. split; [apply framed_refl|done..]. Qed.

Lemma updated_trans a e s bs s1 bs1 s2 bs2 :
  updated a e s bs s1 bs1 -> updated a e s1 bs1 s2 bs2 ->
  (forall b, live a bs b -> live a bs1 b) -> updated a e s bs s2 bs2.
Proof.
  intros [F1 V1 _ K1] [F2 V2 S2 K2] Hl. split; [by eapply framed_trans|eauto|done|].
  intros b Hb Hlb. rewrite K2, K1; eauto.
Qed.

(** Replacing the blocks in the middle of a list by stores inside them. *)
Lemma replace_blocks s ws s' a0 a m pre mid mid' post e :
  seg s a0 (pre ++ mid ++ post) e 0 -> mid <> [] -> mid' <> [] ->
  a = a0 + span pre -> m = a + span mid ->
  writes s ws s' -> Forall (fun w => a <= w.1 < m /\ ~ live a mid w.1) ws ->
  (forall z, (z = if post is [] then 0 else m) -> seg s a mid m z -> seg s' a mid' m z) ->
  updated a0 e s (pre ++ mid ++ post) s' (pre ++ mid' ++ post).
Proof.
  intros Hseg Hne Hne' -> -> Hw Hin Hmid. apply seg_app in Hseg as (? & Hpre & Hseg).
  apply seg_app in Hseg as (? & Hm & Hpost).
  pose proof (seg_span _ _ _ _ _ Hpre). pose proof (seg_span _ _ _ _ _ Hm). subst.
  split; [apply Hw|apply Hw| |].
  - apply seg_app. eexists. split.
    + destruct mid as [|x mid]; [done|]. destruct mid' as [|x' mid']; [done|].
      eapply seg_writes; [exact Hpre|done|]. eapply Forall_impl; [exact Hin|]. cbn. lia.
    + apply seg_app. eexists. split; [by apply Hmid; [destruct post|]|].
      eapply seg_writes; [exact Hpost|done|]. eapply Forall_impl; [exact Hin|]. cbn. lia.
  - intros b Hb Hl. rewrite (wr_rd _ _ _ Hw b Hb). apply over_out.
    apply live_app in Hl as [Hl|Hl].
    { apply live_bounds in Hl; [|by eapply seg_sizes].
      eapply Forall_impl; [exact Hin|]. cbn. lia. }
    apply live_app in Hl as [Hl|Hl].
    { eapply Forall_impl; [exact Hin|]. cbn. intros [w v] [_ Hnl] E. cbn in Hnl, E. by subst. }
    apply live_bounds in Hl; [|by eapply seg_sizes].
    eapply Forall_impl; [exact Hin|]. cbn. lia.
Qed.

Lemma size_ok_is32 s a sz fr nx : hdr s a sz fr nx -> is32 sz /\ 0 < a /\
  a + 12 + sz < 4294967296.
Proof.
  intros Hh. destruct (hd_addr _ _ _ _ _ Hh), (hd_size _ _ _ _ _ Hh) as [Hsz _].
  cbn in Hsz. unfold is32, HEADER_SIZE in *. lia.
Qed.

(** The decision and the stores of [split_block]. *)
Definition split_list (sz n : Z) : list block :=
  if n + HEADER_SIZE + 32 <=? sz
  then [(n, true); (sz - n - HEADER_SIZE, true)] else [(sz, true)].

(** The block in the middle of a list, with its [next] field. *)
Lemma seg_block s a0 pre sz fr post e :
  seg s a0 (pre ++ [(sz, fr)] ++ post) e 0 ->
  let a := a0 + span pre in
  hdr s a sz fr (if post is [] then 0 else a + HEADER_SIZE + sz) /\
  seg s (a + HEADER_SIZE + sz) post e 0 /\
  is32 sz /\ 0 < a /\ a + 12 + sz < 4294967296 /\ sz mod 4 = 0 /\ a + 12 + sz <= e.
Proof.
  intros Hseg a. apply seg_app in Hseg as (m & Hpre & Hh). apply seg_span in Hpre.
  fold a in Hpre. subst m. destruct Hh as [Hh Hpost]. cbn [app] in Hh, Hpost.
  destruct (size_ok_is32 _ _ _ _ _ Hh) as (? & ? & ?). split_and!; try done.
  - apply (hd_size _ _ _ _ _ Hh).
  - pose proof (seg_span _ _ _ _ _ Hpost) as ->. unfold HEADER_SIZE.
    pose proof (span_nonneg _ (seg_sizes _ _ _ _ _ Hpost)). lia.
Qed.

Lemma split_room s a e sz n : room s a e -> a mod 4 = 0 -> n mod 4 = 0 -> 0 <= n ->
  n + 44 <= sz -> a + 12 + sz <= e ->
  valid s (a + 12 + n) /\ valid s (a + 12 + n + 4) /\ valid s (a + 12 + n + 8).
Proof.
  intros Hroom Hal Hnm Hn Hle He.
  assert (forall k, 0 <= k <= 8 -> k mod 4 = 0 -> valid s (a + 12 + n + k)) as HV.
  { intros k Hk Hkm. apply Hroom; [lia|].
    rewrite Z.add_mod, (Z.add_mod _ n), (Z.add_mod a), Hal, Hnm, Hkm by lia. done. }
  split_and!; [|by apply HV..]. rewrite <-(Z.add_0_r (a + 12 + n)). by apply HV.
Qed.

(** The stores of [split_block], latest first. *)
Definition split_stores (a n sz nx : Z) : list (Z * Z) :=
  [(a + 8, a + 12 + n); (a, n); (a + 12 + n + 8, nx); (a + 12 + n + 4, 1);
   (a + 12 + n, sz - n - 12)].

Lemma split_seg s s' a0 pre sz post n e :
  let a := a0 + span pre in
  seg s a0 (pre ++ [(sz, true)] ++ post) e 0 ->
  room s a e -> a mod 4 = 0 -> 0 <= n -> n mod 4 = 0 -> n + 44 <= sz ->
  writes s (split_stores a n sz (if post is [] then 0 else a + HEADER_SIZE + sz)) s' ->
  updated a0 e s (pre ++ [(sz, true)] ++ post)
          s' (pre ++ [(n, true); (sz - n - 12, true)] ++ post).
Proof.
  intros a Hseg Hroom Hal Hn Hnm Hle Hw.
  destruct (seg_block _ _ _ _ _ _ _ Hseg) as (Hh & _ & H32 & Ha & Hb & Hszm & He).
  fold a in Hh, Ha, Hb, He.
  destruct (split_room s a e sz n) as (V0 & V4 & V8); try done. unfold is32 in H32.
  eapply (replace_blocks s _ s' a0 a (a + 12 + sz)); [exact Hseg|done|done|done
    |cbn; unfold HEADER_SIZE; lia|exact Hw|repeat constructor; cbn; first [lia|naive_solver]|].
  intros z' Hz' _.
  assert (z' = if post is [] then 0 else a + HEADER_SIZE + sz) as -> by (by destruct post).
  cbn [seg]. unfold HEADER_SIZE. split; [|split; [|lia]].
  - eapply hdr_writes; [exact Hw|apply Hh|unfold HEADER_SIZE; lia|done|..]; cbn;
      repeat (case_decide; try lia). apply Hh.
  - eapply hdr_writes; [exact Hw|done|unfold HEADER_SIZE; lia| |..]; cbn;
      repeat (case_decide; try lia).
    split; cbn; [lia|]. rewrite Zminus_mod, (Zminus_mod sz), Hszm, Hnm. done.
Qed.

Lemma split_block_wp s a0 a pre sz post n e :
  seg s a0 (pre ++ [(sz, true)] ++ post) e 0 -> a = a0 + span pre ->
  64 <= a -> room s a e -> a mod 4 = 0 -> 0 <= n -> n mod 4 = 0 -> n <= sz ->
  wp (split_block a n) s (fun _ s' =>
    updated a0 e s (pre ++ [(sz, true)] ++ post) s' (pre ++ split_list sz n ++ post)).
Proof.
  intros Hseg -> Hlo Hroom Hal Hn Hnm Hle.
  destruct (seg_block _ _ _ _ _ _ _ Hseg) as (Hh & _ & H32 & Ha & Hb & _ & He).
  pose proof (split_seg s) as Hsplit. set (a := a0 + span pre) in *. unfold is32 in H32.
  destruct (fields _ _ _ _ _ Hh) as (_ & _ & E8). pose proof (hd_valid _ _ _ _ _ Hh) as (V0 & V4 & V8).
  unfold split_block, split_list, f_size. rewrite E8. unfold f_free, f_next, HEADER_SIZE.
  rewrite !(u32_small (n + 12)), !(u32_small (n + 12 + 32)) by (unfold is32; lia).
  wp_step. apply wp_ldw; [done|]. rewrite (hd_rsize _ _ _ _ _ Hh).
  wp_step; bools; [|wp_step; by apply updated_refl].
  cbv zeta. rewrite !(u32_small (a + 12)), !(u32_small (a + 12 + n)) by (unfold is32; lia).
  rewrite !(u32_small (a + 12 + n + _)) by (unfold is32; lia).
  destruct (split_room s a e sz n) as (W0 & W4 & W8); try done; [lia|].
  wp_step. apply wp_ldw; [done|]. rewrite (hd_rsize _ _ _ _ _ Hh).
  rewrite !(u32_small (sz - n)), !(u32_small (sz - n - 12)) by (unfold is32; lia).
  wp_step. eapply wp_write; [apply writes_nil|done|unfold is32; lia|]. intros s1 Hw1.
  wp_step. eapply wp_write; [exact Hw1|done|unfold is32; lia|]. intros s2 Hw2.
  wp_step. eapply wp_read; [exact Hw2|done|].
  rewrite over_out, (hd_rnext _ _ _ _ _ Hh) by (repeat constructor; cbn; lia).
  wp_step. eapply wp_write; [exact Hw2|done|by destruct post; unfold is32, HEADER_SIZE; lia|].
  intros s3 Hw3. wp_step. eapply wp_write; [exact Hw3|done|unfold is32; lia|]. intros s4 Hw4.
  eapply wp_write; [exact Hw4|done|unfold is32; lia|]. intros s5 Hw5.
  eapply Hsplit; try done. lia.
Qed.

(** Setting the [is_free] field. *)
Lemma set_free_wp s a0 pre sz fr post e (fr' : bool) :
  let a := a0 + span pre in
  seg s a0 (pre ++ [(sz, fr)] ++ post) e 0 ->
  wp (stw (f_free a) (if fr' then 1 else 0)) s (fun _ s' =>
    updated a0 e s (pre ++ [(sz, fr)] ++ post) s' (pre ++ [(sz, fr')] ++ post)).
Proof.
  intros a Hseg. destruct (seg_block _ _ _ _ _ _ _ Hseg) as (Hh & _ & H32 & Ha & Hb & Hm & _).
  fold a in Hh, Ha, Hb. destruct (fields _ _ _ _ _ Hh) as (_ & -> & _). unfold is32 in H32.
  eapply wp_write; [apply writes_nil|apply Hh|by destruct fr'; unfold is32|]. intros s1 Hw.
  eapply (replace_blocks s _ s1 a0 a (a + 12 + sz)); [exact Hseg|done|done|done
    |cbn; unfold HEADER_SIZE; lia|exact Hw|repeat constructor; cbn; unfold HEADER_SIZE; lia|].
  intros z' _ [Hold ?]. cbn. split; [|done]. unfold HEADER_SIZE in *.
  eapply hdr_writes; [exact Hw|apply Hh|unfold HEADER_SIZE; lia|split; cbn; [lia|done]|..]; cbn;
      repeat (case_decide; try lia); [apply Hh|apply Hold].
Qed.

(** ** Growing at the end *)

Lemma extend_seg s s' a pre sz e x :
  seg s a (pre ++ [(sz, true)]) e 0 -> 0 <= x -> x mod 4 = 0 -> e + x < 4294967296 ->
  writes s [(a + span pre, sz + x)] s' ->
  seg s' a (pre ++ [(sz + x, true)]) (e + x) 0.
Proof.
  intros Hseg Hx Hxm He Hw. apply seg_app in Hseg as (m & Hpre & Hh & Hend).
  pose proof (seg_span _ _ _ _ _ Hpre) as Em. rewrite <-Em in Hw. cbn in Hend.
  destruct (size_ok_is32 _ _ _ _ _ Hh) as ([? _] & ? & ?).
  destruct (hd_size _ _ _ _ _ Hh) as [_ Hm]. cbn in Hm. unfold HEADER_SIZE in *.
  apply seg_app. exists m. split; [|split].
  - eapply seg_writes; [exact Hpre|exact Hw|]. repeat constructor; cbn; lia.
  - eapply hdr_writes; [exact Hw|apply Hh|unfold HEADER_SIZE; lia| |..]; cbn;
      repeat (case_decide; try lia); [|apply Hh..].
    split; cbn; [lia|]. by rewrite Z.add_mod, Hm, Hxm by lia.
  - cbn. unfold HEADER_SIZE. lia.
Qed.

Lemma append_seg s s' a pre sz e x :
  seg s a (pre ++ [(sz, false)]) e 0 -> 12 <= x -> x mod 4 = 0 -> e + x < 4294967296 ->
  valid s e /\ valid s (e + 4) /\ valid s (e + 8) ->
  writes s [(a + span pre + 8, e); (e + 8, 0); (e + 4, 1); (e, x - 12)] s' ->
  seg s' a (pre ++ [(sz, false); (x - 12, true)]) (e + x) 0.
Proof.
  intros Hseg Hx Hxm He Hv Hw. apply seg_app in Hseg as (m & Hpre & Hh & Hend).
  pose proof (seg_span _ _ _ _ _ Hpre) as Em. rewrite <-Em in Hw. cbn in Hend.
  destruct (size_ok_is32 _ _ _ _ _ Hh) as ([? _] & ? & ?).
  destruct (hd_size _ _ _ _ _ Hh) as [_ Hm]. cbn in Hm. unfold HEADER_SIZE in *.
  apply seg_app. exists m. split; [|split; [|split]].
  - eapply seg_writes; [exact Hpre|exact Hw|]. repeat constructor; cbn; lia.
  - eapply hdr_writes; [exact Hw|apply Hh|unfold HEADER_SIZE; lia|split; cbn; [lia|done]|..]; cbn;
      repeat (case_decide; try lia); [apply Hh..|unfold HEADER_SIZE; lia].
  - replace (m + HEADER_SIZE + sz) with e by (unfold HEADER_SIZE; lia).
    eapply hdr_writes; [exact Hw|done|unfold HEADER_SIZE; lia|split; cbn; [lia|]|..]; cbn;
      repeat (case_decide; try lia). rewrite Zminus_mod, Hxm. done.
  - cbn. unfold HEADER_SIZE. lia.
Qed.

(** The blocks between [a] and [e] grow to [e + x]. *)
Record extended (a e x : Z) (s : S) (bs : list block) (s' : S) : Prop := {
  ex_framed : framed s s';
  ex_valid : forall b, valid s b -> valid s' b;
  ex_seg : seg s' a (grow_list bs x) (e + x) 0;
  ex_keeps : forall b, valid s b -> live a bs b -> rd s' b = rd s b;
}.

Lemma live_last_header a pre sz fr e k ws s : seg s a (pre ++ [(sz, fr)]) e 0 ->
  live a (pre ++ [(sz, fr)]) k ->
  Forall (fun w => (a + span pre <= w.1 < a + span pre + 12) \/ e <= w.1) ws ->
  Forall (fun w : Z * Z => w.1 <> k) ws.
Proof.
  intros Hseg Hl Hws. pose proof (seg_span _ _ _ _ _ Hseg) as He.
  pose proof (seg_sizes _ _ _ _ _ Hseg) as Hok. apply Forall_app in Hok as [Hok _].
  rewrite span_app in He. cbn in He. unfold HEADER_SIZE in He.
  eapply Forall_impl; [exact Hws|]. cbn. intros [w v] Hw <-. cbn in *.
  apply live_app in Hl as [Hl|[[_ Hl]|[]]]; [|unfold HEADER_SIZE in Hl; lia].
  apply live_bounds in Hl; [|done]. destruct (seg_block s a pre sz fr [] e Hseg) as (_ & _ & [? _] & _). lia.
Qed.

Lemma extend_last_wp s a pre sz fr e x :
  seg s a (pre ++ [(sz, fr)]) e 0 -> 12 <= x -> x mod 4 = 0 -> e + x < 4294967296 ->
  valid s e /\ valid s (e + 4) /\ valid s (e + 8) ->
  wp (extend_last (a + span pre) e x) s (fun _ s' => extended a e x s (pre ++ [(sz, fr)]) s').
Proof.
  intros Hseg Hx Hxm He Hv.
  destruct (seg_block s a pre sz fr [] e Hseg) as (Hh & Hend & [? _] & Ha & Hb & _ & _).
  cbn in Hend. unfold HEADER_SIZE in Hend. unfold extend_last.
  destruct (fields _ _ _ _ _ Hh) as (_ & -> & ->). unfold f_size, f_free, f_next, HEADER_SIZE.
  rewrite !(u32_small (e + _)), !(u32_small (x - 12)) by (unfold is32; lia).
  wp_step. apply wp_ldw; [apply Hh|]. rewrite (hd_rfree _ _ _ _ _ Hh).
  destruct fr; cbn [Z.eqb negb].
  - wp_step. apply wp_ldw; [apply Hh|]. rewrite (hd_rsize _ _ _ _ _ Hh).
    rewrite u32_small by (unfold is32; lia).
    eapply wp_write; [apply writes_nil|apply Hh|unfold is32; lia|]. intros s1 Hw.
    split; [apply Hw|apply Hw|rewrite grow_list_app; apply extend_seg with s; try done; lia|].
    intros b Hbv Hl. rewrite (wr_rd _ _ _ Hw) by done. apply over_out.
    eapply live_last_header; [exact Hseg|exact Hl|]. repeat constructor; cbn; lia.
  - cbv zeta.
    wp_step. eapply wp_write; [apply writes_nil|apply Hv|unfold is32; lia|]. intros s1 Hw1.
    wp_step. eapply wp_write; [exact Hw1|apply Hv|unfold is32; lia|]. intros s2 Hw2.
    wp_step. eapply wp_write; [exact Hw2|apply Hv|unfold is32; lia|]. intros s3 Hw3.
    eapply wp_write; [exact Hw3|apply Hh|unfold is32; lia|]. intros s4 Hw.
    split; [apply Hw|apply Hw|rewrite grow_list_app; by apply append_seg with s|].
    intros b Hbv Hl. rewrite (wr_rd _ _ _ Hw) by done. apply over_out.
    eapply live_last_header; [exact Hseg|exact Hl|]. repeat constructor; cbn; lia.
Qed.

(** ** Merging *)

(** One merge of two neighbours. *)
Lemma merge_seg s s' a0 pre sz sz' post e :
  let a := a0 + span pre in
  seg s a0 (pre ++ [(sz, true); (sz', true)] ++ post) e 0 ->
  writes s [(a + 8, if post is [] then 0 else a + 12 + sz + 12 + sz'); (a, sz + 12 + sz')] s' ->
  updated a0 e s (pre ++ [(sz, true); (sz', true)] ++ post)
          s' (pre ++ [(sz + 12 + sz', true)] ++ post).
Proof.
  intros a Hseg Hw.
  destruct (seg_block s a0 pre sz true ((sz', true) :: post) e Hseg) as (Hh & Hs & H32 & Ha & Hb & Hm & _).
  fold a in Hh, Ha, Hb, Hs. unfold is32 in H32.
  destruct (seg_block s (a + HEADER_SIZE + sz) [] sz' true post e Hs) as (_ & _ & H32' & _ & Hb' & Hm' & _).
  cbn in Hb'. unfold HEADER_SIZE, is32 in *.
  eapply (replace_blocks s _ s' a0 a (a + 12 + sz + 12 + sz')); [exact Hseg|done|done|done
    |cbn; unfold HEADER_SIZE; lia|exact Hw|repeat constructor; cbn; first [lia|naive_solver]|].
  intros z' Hz' _. cbn. split; [|unfold HEADER_SIZE; lia].
  eapply hdr_writes; [exact Hw|apply Hh|unfold HEADER_SIZE; lia|split; cbn; [lia|]|..]; cbn;
      repeat (case_decide; try lia); [|apply Hh].
  rewrite Z.add_mod, (Z.add_mod sz), Hm, Hm' by lia. done.
Qed.

Lemma live_partial a cur r pre c post b : coalesce cur r = pre ++ coalesce c post ->
  live a (cur :: r) b -> live a (pre ++ [c] ++ post) b.
Proof.
  intros E. by rewrite <-live_coalesce, E, !(live_app a pre), live_coalesce.
Qed.

(** The pass over the list joins every run of free blocks. *)
Lemma merge_from_wp s a cur r e : seg s a (cur :: r) e 0 ->
  wp (merge_from a) s (fun _ s' => updated a e s (cur :: r) s' (coalesce cur r)).
Proof.
  intros Hseg. unfold merge_from.
  apply (wp_loop _ (fun b s1 => exists pre c post, b = a + span pre /\
      updated a e s (cur :: r) s1 (pre ++ [c] ++ post) /\
      coalesce cur r = pre ++ coalesce c post) (fun b s1 => e - b - 12 - rd s1 b)).
  2:{ exists [], cur, r. cbn. rewrite Z.add_0_r. split_and!; [done|by apply updated_refl|done]. }
  2:{ destruct cur as [sz fr]. destruct (seg_bounds _ _ _ _ _ Hseg ltac:(done)).
      destruct Hseg as [Hh _].
      rewrite (hd_rsize _ _ _ _ _ Hh). destruct (size_ok_is32 _ _ _ _ _ Hh) as ([? _] & ? & _). lia. }
  intros b s1 (pre & [sz fr] & post & -> & Hup & Hco). pose proof (up_seg _ _ _ _ _ _ Hup) as Hs.
  destruct (seg_block _ _ _ _ _ _ _ Hs) as (Hh & Hpost & H32 & Ha & Hb & Hm & He).
  set (b := a + span pre) in *. unfold is32 in H32.
  destruct (fields _ _ _ _ _ Hh) as (_ & E4 & E8). unfold f_size. rewrite E4, E8.
  rewrite (proj2 (Z.eqb_neq b 0)) by lia.
  wp_step. apply wp_ldw; [apply Hh|]. rewrite (hd_rnext _ _ _ _ _ Hh).
  destruct post as [|[sz' fr'] post].
  { wp_step; [|done]. wp_step. unfold loop_post. by rewrite Hco. }
  destruct (seg_block s1 (b + HEADER_SIZE + sz) [] sz' fr' post e Hpost)
    as (Hh' & _ & H32' & Ha' & Hb' & _ & He'). cbn in Hh', Ha', Hb', He'.
  rewrite Z.add_0_r in Hh', Ha', Hb', He'. unfold HEADER_SIZE, is32 in *.
  rewrite (proj2 (Z.eqb_neq (b + 12 + sz) 0)) by lia.
  destruct (fields _ _ _ _ _ Hh') as (_ & E4' & E8'). rewrite E4', E8'.
  wp_step. apply wp_ldw; [apply Hh|]. rewrite (hd_rfree _ _ _ _ _ Hh).
  wp_step. apply (wp_mono _ _ _ (fun x s' => s' = s1 /\ x = fr && fr')).
  { destruct fr; cbn; wp_steps; [|done]. apply wp_ldw; [apply Hh'|].
    rewrite (hd_rfree _ _ _ _ _ Hh'). wp_step. by destruct fr'. }
  intros x ? [-> ->]. cbn [coalesce fst snd] in Hco. destruct (fr && fr') eqn:Efr.
  - apply andb_true_iff in Efr as [-> ->].
    wp_step. apply wp_ldw; [apply Hh|]. rewrite (hd_rsize _ _ _ _ _ Hh).
    wp_step. apply wp_ldw; [apply Hh'|]. rewrite (hd_rsize _ _ _ _ _ Hh').
    rewrite (u32_small (12 + sz')), (u32_small (sz + _)) by (unfold is32; lia).
    wp_step. eapply wp_write; [apply writes_nil|apply Hh|unfold is32; lia|]. intros s2 Hw2.
    wp_step. eapply wp_read; [exact Hw2|apply Hh'|].
    rewrite over_out, (hd_rnext _ _ _ _ _ Hh') by (repeat constructor; cbn; lia).
    wp_step. eapply wp_write; [exact Hw2|apply Hh|by destruct post; unfold is32; lia|].
    intros s3 Hw3. wp_step. rewrite Z.add_assoc in Hw3.
    split; [|rewrite (wr_rd _ _ _ Hw3), (hd_rsize _ _ _ _ _ Hh) by apply Hh; cbn; repeat (case_decide; try lia)].
    exists pre, (sz + 12 + sz', true), post. split_and!; [done| |done].
    eapply updated_trans; [exact Hup|by apply merge_seg|intros ? Hl; by eapply live_partial].
  - wp_step. split.
    2:{ rewrite (hd_rsize _ _ _ _ _ Hh), (hd_rsize _ _ _ _ _ Hh'). lia. }
    exists (pre ++ [(sz, fr)]), (sz', fr'), post. rewrite <-!app_assoc.
    split_and!; [rewrite span_app; cbn; unfold HEADER_SIZE; lia|done|].
    by rewrite Hco.
Qed.
End Representation.

(** The same blocks under another set of valid words. *)
Lemma seg_transfer {S} `{WordMem S} (W1 W2 : WordMemLaws S) (s s' : S) a bs e z :
  (forall b, W1.(valid) s b -> W2.(valid) s' b /\ W2.(rd) s' b = W1.(rd) s b) ->
  @seg _ _ W1 s a bs e z -> @seg _ _ W2 s' a bs e z.
Proof.
  intros Hb. revert a. induction bs as [|[sz fr] r IH]; intros a; [done|].
  intros [[Ha Hs (V0 & V4 & V8) R0 R4 R8] Hr]. split; [|by apply IH].
  destruct (Hb _ V0) as [V0' E0], (Hb _ V4) as [V4' E4], (Hb _ V8) as [V8' E8].
  split; [done|done|done|congruence..].
Qed.
