(* ===== verification/Kheap.v ===== *)
(** * The kernel heap ([kernel/kheap.c])

    The allocator on the MMU: block headers are words of the pages that
    [kheap_init] and [heap_expand] map from [HEAP_START_ADDR] on.  The list
    algorithms are those of [HeapList.v], run on loads and stores through the page
    tables. *)

From stdpp Require Import base gmap list numbers option strings.
From Stdlib Require Import ZArith Lia.
From S2P Require Import Prelude Machine PageTables Pmm Paging HeapList.

Record hsys := Hsys {
  h_g : gsys;
  heap_start : Z;
  heap_end : Z;
  heap_max : Z;
  first_block : Z;
  total_allocated : Z;
}.

Definition h_lens : lens hsys gsys :=
  Lens h_g (fun g s => Hsys g (heap_start s) (heap_end s) (heap_max s) (first_block s)
                            (total_allocated s)).

#[export] Instance h_lens_laws : LensLaws h_lens.
Proof. split; by intros; try destruct s. Qed.

Definition set_heap_start (v : Z) (s : hsys) : hsys :=
  Hsys (h_g s) v (heap_end s) (heap_max s) (first_block s) (total_allocated s).
Definition set_heap_end (v : Z) (s : hsys) : hsys :=
  Hsys (h_g s) (heap_start s) v (heap_max s) (first_block s) (total_allocated s).
Definition set_heap_max (v : Z) (s : hsys) : hsys :=
  Hsys (h_g s) (heap_start s) (heap_end s) v (first_block s) (total_allocated s).
Definition set_first_block (v : Z) (s : hsys) : hsys :=
  Hsys (h_g s) (heap_start s) (heap_end s) (heap_max s) v (total_allocated s).
Definition set_allocated (v : Z) (s : hsys) : hsys :=
  Hsys (h_g s) (heap_start s) (heap_end s) (heap_max s) (first_block s) v.

Definition h_kprintf (fmt : string) (args : list karg) : M hsys unit :=
  zoom h_lens (hw (kprintf fmt args)).

(** Header fields are words of virtual memory. *)
#[export] Instance heap_mem : WordMem hsys := {
  ldw a := zoom h_lens (hw (vld32 a));
  stw a v := zoom h_lens (hw (vst32 a v));
}.

Definition INITIAL_HEAP_SIZE : Z := 1024 * 1024.
Definition MAX_HEAP_SIZE : Z := 16 * 1024 * 1024.
Definition HEAP_START_ADDR : Z := 0xC0400000.

Section Kheap.
Context {L : Layout}.

(** The loop of [kheap_init] and [heap_expand]: a new frame for every page of
    [size] bytes from [base]; [false] when the frames run out. *)
Definition map_new_pages (base size : Z) : M hsys bool :=
  loop (fun i =>
    if i <? size then
      frame <- zoom h_lens (zoom g_lens pmm_alloc_frame) ;;
      if frame =? 0 then ret (inr false) else
      zoom h_lens (paging_map_page (base +u i) frame (Z.lor PAGE_PRESENT PAGE_WRITE)) ;;;
      ret (inl (i +u PAGE_SIZE))
    else ret (inr true)) 0.

Definition kheap_init : M hsys unit :=
  modify (set_heap_start HEAP_START_ADDR) ;;;
  start <- get heap_start ;;
  modify (set_heap_end start) ;;;
  modify (set_heap_max (start +u MAX_HEAP_SIZE)) ;;;
  ok <- map_new_pages start INITIAL_HEAP_SIZE ;;
  if negb ok then h_kprintf ("Heap: Failed to allocate frame" +:+ nl) [] else
  modify (set_heap_end (start +u INITIAL_HEAP_SIZE)) ;;;
  modify (set_first_block start) ;;;
  first <- get first_block ;;
  stw (f_size first) (INITIAL_HEAP_SIZE -u HEADER_SIZE) ;;;
  stw (f_free first) 1 ;;;
  stw (f_next first) 0 ;;;
  h_kprintf ("Heap: Initialized at 0x%x, size %u KB" +:+ nl)
            [KInt start; KInt (INITIAL_HEAP_SIZE / 1024)].

Definition heap_expand (min_size : Z) : M hsys bool :=
  let expand_size := Z.land (min_size +u PAGE_SIZE -u 1) 0xFFFFF000 in
  hend <- get heap_end ;;
  hmax <- get heap_max ;;
  if hmax <? hend +u expand_size then ret false else
  ok <- map_new_pages hend expand_size ;;
  if negb ok then ret false else
  first <- get first_block ;;
  block <- last_block first ;;
  extend_last block hend expand_size ;;;
  modify (fun s => set_heap_end (heap_end s +u expand_size) s) ;;;
  ret true.

Definition find_free_block (size : Z) : M hsys Z :=
  first <- get first_block ;;
  find_free_from first size.

(** [kmalloc] once it has a block. *)
Definition take_block (block size : Z) : M hsys Z :=
  split_block block size ;;;
  stw (f_free block) 0 ;;;
  bsize <- ldw (f_size block) ;;
  modify (fun s => set_allocated (total_allocated s +u bsize) s) ;;;
  ret (block +u HEADER_SIZE).

Definition kmalloc (size0 : Z) : M hsys Z :=
  if size0 =? 0 then ret 0 else
  let size := Z.land (size0 +u 7) 0xFFFFFFF8 in
  block <- find_free_block size ;;
  if block =? 0 then
    ok <- heap_expand (size +u HEADER_SIZE) ;;
    if negb ok then h_kprintf ("Heap: Out of memory!" +:+ nl) [] ;;; ret 0 else
    block' <- find_free_block size ;;
    if block' =? 0 then ret 0 else take_block block' size
  else take_block block size.

Definition kmalloc_aligned (size : Z) : M hsys Z :=
  ptr <- kmalloc (size +u PAGE_SIZE) ;;
  if ptr =? 0 then ret 0 else
  ret (Z.land (ptr +u PAGE_SIZE -u 1) 0xFFFFF000).

Definition kcalloc (num size : Z) : M hsys Z :=
  let total := num *u size in
  ptr <- kmalloc total ;;
  (if negb (ptr =? 0) then
     for_loop total 1 (fun i => zoom h_lens (hw (vst8 (ptr +u i) 0))) 0
   else ret tt) ;;;
  ret ptr.

Definition merge_free_blocks : M hsys unit :=
  first <- get first_block ;;
  merge_from first.

Definition kfree (ptr : Z) : M hsys unit :=
  if ptr =? 0 then ret tt else
  let block := ptr -u HEADER_SIZE in
  free <- ldw (f_free block) ;;
  if negb (free =? 0) then h_kprintf ("Heap: Double free detected!" +:+ nl) [] else
  stw (f_free block) 1 ;;;
  bsize <- ldw (f_size block) ;;
  modify (fun s => set_allocated (total_allocated s -u bsize) s) ;;;
  merge_free_blocks.

Definition kheap_get_used : M hsys Z := get total_allocated.

Definition kheap_get_free : M hsys Z :=
  get (fun s => (heap_end s -u heap_start s) -u total_allocated s).
End Kheap.

(** ** Heap memory

    The pages from [lo] to [hi] are mapped, each to a frame of its own that is in use
    and holds no paging structure. *)

Section HeapMemory.
Context {L : Layout} {LOk : LayoutOk L}.
Context (lo hi : Z).

Abbreviation PDp := paging_get_directory.
Abbreviation mem s := (g_hw (h_g s)).

Definition set_mem (h : machine) (s : hsys) : hsys := update h_lens (set_hw h (h_g s)) s.

(** A frame that can hold heap data. *)
Definition heap_frame (g : gsys) (F : Z) : Prop :=
  data_frame (ram (g_hw g)) PDp F /\ 0 <= F / 4096 < FRAMES /\
  frame_bit (frame_bitmap (g_p g)) (F / 4096) = true.

Definition heap_page (va : Z) : Prop := lo <= va < hi /\ va mod 4096 = 0.

Record heap_map (g : gsys) : Prop := {
  hm_inv : paging_inv g;
  hm_range : KERNEL_VIRTUAL_BASE + DIRECT <= lo /\ lo <= hi /\ hi < 4294967296;
  hm_aligned : lo mod 4096 = 0 /\ hi mod 4096 = 0;
  hm_page : forall va, heap_page va ->
    exists F, translate (g_hw g) va = Some F /\ heap_frame g F;
  hm_inj : forall va va', heap_page va -> heap_page va' ->
    translate (g_hw g) va = translate (g_hw g) va' -> va = va';
}.

Definition hvalid (s : hsys) (a : Z) : Prop :=
  heap_map (h_g s) /\ lo <= a < hi /\ a mod 4 = 0.

Definition hrd (s : hsys) (a : Z) : Z := default 0 (vread (mem s) a).

(** States that differ in the contents of heap frames only. *)
Record hframed (s s' : hsys) : Prop := {
  hf_state : s' = set_mem (mem s') s;
  hf_cr3 : cr3 (mem s') = cr3 (mem s);
  hf_trace : trace (mem s') = trace (mem s);
  hf_walk : forall va, is32 va ->
    walk (ram (mem s')) (cr3 (mem s)) va = walk (ram (mem s)) (cr3 (mem s)) va;
  hf_tables : forall i, 0 <= i < 1024 ->
    table_of (ram (mem s')) PDp i = table_of (ram (mem s)) PDp i;
  hf_bytes : forall b,
    (forall va F, heap_page va -> is32 va -> translate (mem s) va = Some F ->
       b < F \/ F + 4096 <= b) ->
    ld8 (ram (mem s')) b = ld8 (ram (mem s)) b;
}.

Lemma hframed_refl s : hframed s s.
Proof. split; try done. by destruct s as [[[]]]. Qed.

Lemma hframed_translate s s' va : hframed s s' -> is32 va ->
  translate (mem s') va = translate (mem s) va.
Proof. intros Hf Hva. unfold translate. by rewrite (hf_cr3 _ _ Hf), (hf_walk _ _ Hf). Qed.

Lemma heap_page_32 g va : heap_map g -> heap_page va -> is32 va.
Proof.
  intros Hm [Hr _]. pose proof (hm_range _ Hm). unfold is32, KERNEL_VIRTUAL_BASE, DIRECT in *. lia.
Qed.

Lemma hframed_trans s1 s2 s3 : hframed s1 s2 -> hframed s2 s3 -> hframed s1 s3.
Proof.
  intros H1 H2. pose proof H1 as [E1 C1 T1 W1 Tb1 B1]. pose proof H2 as [E2 C2 T2 W2 Tb2 B2].
  split.
  - etransitivity; [exact E2|]. by rewrite E1 at 1.
  - congruence.
  - congruence.
  - intros va Hva. rewrite C1 in W2. rewrite W2, W1; done.
  - intros i Hi. rewrite Tb2, Tb1; done.
  - intros b Hb. rewrite B2, B1; [done|done|]. intros va F Hp H32.
    rewrite (hframed_translate s1 s2) by done. by apply Hb.
Qed.

Lemma word_split a : a mod 4 = 0 -> exists k, 0 <= k < 1024 /\ a mod 4096 = 4 * k.
Proof.
  intros Ha. exists (a mod 4096 / 4).
  assert ((a mod 4096) mod 4 = 0) as Hm.
  { change 4096 with (4 * 1024). rewrite Z.rem_mul_r by lia.
    rewrite Ha, Z.add_0_l, Z.mul_comm. apply Z.mod_mul. lia. }
  pose proof (Z.div_mod (a mod 4096) 4 ltac:(lia)). pose proof (Z.mod_pos_bound a 4096 ltac:(lia)).
  lia.
Qed.

(** A valid word is word [k] of its frame. *)
Definition word_at (s : hsys) (a p F k : Z) : Prop :=
  a = p + 4 * k /\ heap_page p /\ 0 <= k < 1024 /\ translate (mem s) p = Some F /\
  heap_frame (h_g s) F /\ is32 a /\ translate (mem s) a = Some (F + 4 * k).

Lemma valid_word s a : hvalid s a -> exists p F k, word_at s a p F k.
Proof.
  intros (Hm & Hr & Ha). pose proof Hm as [_ Hrg [Hlo Hhi] Hp _].
  destruct (word_split a Ha) as (k & Hk & Ek).
  pose proof (Z.div_mod a 4096 ltac:(lia)) as Ediv.
  set (p := 4096 * (a / 4096)). assert (p mod 4096 = 0) as Hpm.
  { unfold p. rewrite Z.mul_comm. apply Z.mod_mul. lia. }
  assert (heap_page p) as Hpg.
  { split; [|done]. apply Z.mod_divide in Hlo as [x Hx]; [|lia].
    unfold p in *. pose proof (Z.div_mod a 4096 ltac:(lia)).
    split; [|lia]. rewrite Hx. assert (x <= a / 4096); [|lia].
    apply Z.div_le_lower_bound; lia. }
  destruct (Hp p Hpg) as (F & HF & HFr). exists p, F, k.
  assert (a = p + 4 * k) as Ea by (unfold p; lia).
  assert (is32 a) by (unfold is32, KERNEL_VIRTUAL_BASE, DIRECT in *; lia).
  unfold word_at. do 6 (split; [done|]). rewrite Ea. apply translate_offset; [done| |lia]. rewrite Hpm. lia.
Qed.

Lemma word_read s a p F k : word_at s a p F k -> a mod 4 = 0 ->
  vread (mem s) a = Some (ld32 (ram (mem s)) (F + 4 * k)).
Proof. intros (_ & _ & _ & _ & _ & H32 & Ht) Ha. by apply vread_aligned. Qed.

Lemma hvalid_ldw s a : hvalid s a -> ldw a s = Ok (hrd s a) s.
Proof.
  intros Hv. destruct (valid_word s a Hv) as (p & F & k & Hw).
  pose proof (word_read s a p F k Hw ltac:(apply Hv)) as Hr. unfold hrd. rewrite Hr. cbn.
  unfold zoom, hw, zoom, vld32. cbn. unfold g_hw in Hr. rewrite Hr. by destruct s as [[[]]].
Qed.

(** The state after a store to word [k] of the heap frame [F]. *)
Definition stored (s : hsys) (F k v : Z) : hsys :=
  set_mem (set_ram (st32 (ram (mem s)) (F + 4 * k) v) (mem s)) s.

Lemma stored_walk s F k v va : heap_frame (h_g s) F -> kmap_wf (mem s) -> 0 <= k < 1024 ->
  is32 va -> walk (st32 (ram (mem s)) (F + 4 * k) v) (cr3 (mem s)) va =
             walk (ram (mem s)) (cr3 (mem s)) va.
Proof.
  intros (HF & _) Hk Hkr Hva. rewrite (kw_cr3 _ Hk). apply walk_data; try done. apply PDp_aligned.
Qed.

Lemma stored_framed s p F k v a : heap_map (h_g s) -> word_at s a p F k ->
  hframed s (stored s F k v).
Proof.
  intros Hm (_ & Hp & Hk & Ht & HF & _). pose proof (pi_map _ (hm_inv _ Hm)) as Hkm.
  split; try done; cbn.
  - intros va Hva. by apply stored_walk.
  - intros i Hi. apply table_of_data; try done; [apply PDp_aligned|apply HF].
  - intros b Hb. apply ld8_st32_frame; [apply HF|done|]. eapply Hb; [done| |done].
    by eapply heap_page_32.
Qed.

Lemma framed_heap_map s s' : hframed s s' -> kmap_wf (mem s') -> heap_map (h_g s) ->
  heap_map (h_g s').
Proof.
  intros Hf Hkm' Hm. pose proof Hm as [[Hkm Hpm Hz Hd Ht] Hr Ha Hp Hi].
  pose proof (hf_state _ _ Hf) as Es.
  assert (frame_bitmap (g_p (h_g s')) = frame_bitmap (g_p (h_g s))) as Ebm by (by rewrite Es).
  assert (forall va, heap_page va -> translate (mem s') va = translate (mem s) va) as Et.
  { intros va Hva. apply hframed_translate; [done|]. by eapply heap_page_32. }
  split; try done.
  - split; [done| | | |]; rewrite ?Ebm; try done.
    + by rewrite Es.
    + intros i T Hir. rewrite (hf_tables _ _ Hf) by done. by apply Ht.
  - intros va Hva. destruct (Hp va Hva) as (F & HF & (Hd1 & Hd2 & Hd3) & Hb1 & Hb2). exists F.
    rewrite Et by done. split; [done|]. split; [|by rewrite Ebm].
    split_and!; [done|done|]. intros i Hir. rewrite (hf_tables _ _ Hf) by done. by apply Hd3.
  - intros va va' Hva Hva'. rewrite !Et by done. by apply Hi.
Qed.

Lemma hvalid_stw s a v : hvalid s a -> is32 v -> exists s', stw a v s = Ok tt s' /\ hframed s s' /\
  (forall b, hvalid s b -> hvalid s' b) /\
  (forall b, hvalid s b -> hrd s' b = if decide (b = a) then v else hrd s b).
Proof.
  intros Hv H32. destruct (valid_word s a Hv) as (p & F & k & Hw).
  pose proof Hv as (Hm & _ & Ha). pose proof (pi_map _ (hm_inv _ Hm)) as Hkm.
  pose proof (stored_framed s p F k v a Hm Hw) as Hf.
  pose proof Hw as (Ea & Hp & Hk & Htp & HF & Ha32 & Hta).
  assert (heap_map (h_g (stored s F k v))) as Hm'.
  { eapply framed_heap_map; [exact Hf| |done]. apply kmap_data; [done|apply HF|done]. }
  exists (stored s F k v). split_and!; [|done| |].
  - pose proof (vst32_aligned _ _ _ v Ha32 Ha Hta) as Hst. unfold g_hw in Hst.
    unfold stw, heap_mem, zoom, hw, zoom. cbn [view update h_lens g_lens p_lens]. by rewrite Hst.
  - intros b (_ & Hb). by split.
  - intros b Hb. destruct (valid_word s b Hb) as (p' & F' & k' & Hw').
    pose proof Hw' as (Eb & Hp' & Hk' & Htp' & HF' & Hb32 & Htb).
    unfold hrd. rewrite (word_read s b p' F' k' Hw') by apply Hb.
    rewrite (vread_aligned _ b (F' + 4 * k')); [|done|apply Hb|by rewrite (hframed_translate s _ b Hf)].
    cbn. case_decide as E.
    + assert (F' + 4 * k' = F + 4 * k) as -> by congruence. by apply ld32_st32.
    + apply ld32_st32_ne. destruct (Z.eq_dec F F') as [<-|Hne].
      * assert (p = p') by (apply (hm_inj _ Hm); congruence). lia.
      * destruct (frames_disjoint F F' k k'); [apply HF|apply HF'|done..|lia|lia].
Qed.

Lemma hrd_32 s a : hvalid s a -> is32 (hrd s a).
Proof.
  intros Hv. destruct (valid_word s a Hv) as (p & F & k & Hw). unfold hrd.
  rewrite (word_read s a p F k Hw) by apply Hv. apply ld32_range.
Qed.
End HeapMemory.

(** The heap's pages satisfy the interface the list algorithms are verified against. *)
Definition heap_laws {L : Layout} {LOk : LayoutOk L} (lo hi : Z) : WordMemLaws hsys := {|
  rd := hrd;
  valid := hvalid lo hi;
  framed := hframed lo hi;
  framed_refl := hframed_refl lo hi;
  framed_trans := hframed_trans lo hi;
  rd_32 := hrd_32 lo hi;
  ldw_ok := hvalid_ldw lo hi;
  stw_ok := hvalid_stw lo hi;
|}.
