(* ===== verification/HeapInv.v ===== *)
(** * The invariant of the kernel heap

    The heap's pages hold a list of blocks that tile them exactly, and
    [total_allocated] is the sum of the sizes of the allocated blocks.  Every
    operation of [kernel/kheap.c] keeps this, and never touches the contents of an
    allocated block, the paging structures or a frame the heap does not own. *)

From stdpp Require Import base gmap list numbers option strings.
From Stdlib Require Import ZArith Lia.
From S2P Require Import Prelude Machine PageTables Pmm Paging HeapList Kheap.

Section HeapInv.
Context {L : Layout} {LOk : LayoutOk L}.

Abbreviation PDp := paging_get_directory.
Abbreviation mem s := (g_hw (h_g s)).
Abbreviation START := HEAP_START_ADDR.

(** ** Taking a frame *)

Definition taken (g : gsys) (f : Z) : gsys :=
  update g_lens (set_used (used_frames (g_p g) +u 1)
                   (set_bitmap (bm_set (frame_bitmap (g_p g)) f) (g_p g))) g.

Lemma taken_bit g f x : paging_inv g -> 0 <= f < FRAMES -> 0 <= x < FRAMES ->
  frame_bit (frame_bitmap (g_p (taken g f))) x = (f =? x) || frame_bit (frame_bitmap (g_p g)) x.
Proof. intros Hi Hf Hx. cbn. apply frame_bit_set; [apply Hi|done..]. Qed.

Lemma taken_keeps g f : paging_inv g -> 0 <= f < FRAMES -> keeps_data g (taken g f).
Proof.
  intros Hi Hf G HG HGr HGb. split_and!; [done| |done].
  rewrite taken_bit by done. by rewrite HGb, orb_true_r.
Qed.

Lemma table_frame g T i : paging_inv g -> 0 <= i < 1024 ->
  table_of (ram (g_hw g)) PDp i = Some T -> 0 <= T / 4096 < FRAMES.
Proof.
  intros Hi Hir HT. destruct (kw_table _ (pi_map _ Hi) _ _ Hir HT) as [Hlt _].
  destruct (aligned_frame T (table_of_aligned _ _ _ _ HT) Hlt). unfold FRAMES. lia.
Qed.

Lemma taken_inv g f : paging_inv g -> 0 <= f < FRAMES -> paging_inv (taken g f).
Proof.
  intros Hi Hf. pose proof Hi as [Hm (Hb & Htot & Hl) Hz Hd Ht]. split; [done| | | |].
  - split_and!; [by apply bm_set_wf|done|done].
  - rewrite taken_bit by (done || unfold FRAMES; lia). by rewrite Hz, orb_true_r.
  - destruct PDp_aligned as [Hal Hlt]. destruct (aligned_frame PDp Hal ltac:(lia)).
    rewrite taken_bit by (done || unfold FRAMES; lia). by rewrite Hd, orb_true_r.
  - intros i T Hir HT. rewrite taken_bit by (done || by eapply table_frame).
    by rewrite (Ht i T Hir HT), orb_true_r.
Qed.

(** ** Growing the mapped range *)

(** [s'] has the heap pages up to [hi'] instead of [hi]; nothing that was in use
    changed. *)
Record grown (s : hsys) (hi hi' : Z) (s' : hsys) : Prop := {
  gr_map : heap_map START hi' (h_g s');
  gr_vars : s' = update h_lens (h_g s') s;
  gr_data : keeps_data (h_g s) (h_g s');
  gr_tables : tables_kept (h_g s) (h_g s');
  gr_walk : forall va, is32 va -> va < hi \/ hi' <= va ->
    walk (ram (mem s')) PDp va = walk (ram (mem s)) PDp va;
}.

Lemma keeps_data_refl g : keeps_data g g.
Proof. by intros G HG Hr Hb. Qed.

Lemma grown_refl s hi : heap_map START hi (h_g s) -> grown s hi hi s.
Proof.
  intros Hm. split; [done|by destruct s|apply keeps_data_refl|apply tables_kept_refl|done].
Qed.

Lemma grown_same s hi h : heap_map START hi (h_g s) -> same_mem (mem s) h ->
  grown s hi hi (set_mem h s).
Proof.
  intros Hm Hh. pose proof Hm as [Hi Hr Ha Hp Hinj]. split.
  - assert (forall va, translate h va = translate (mem s) va) as Et.
    { intros va. symmetry. by apply translate_proper. }
    split; [by apply paging_inv_hw|done|done| |].
    + intros va Hva. destruct (Hp va Hva) as (F & HF & Hfr & Hb). exists F.
      change (g_hw (h_g (set_mem h s))) with h. rewrite Et. split; [done|]. split; [|done].
      change (g_hw (h_g (set_mem h s))) with h. by destruct Hh as [<- _].
    + intros va va' Hva Hva'. change (g_hw (h_g (set_mem h s))) with h. rewrite !Et. by apply Hinj.
  - by destruct s.
  - by apply keeps_data_hw.
  - by apply tables_kept_hw.
  - intros va _ _. change (g_hw (h_g (set_mem h s))) with h. by destruct Hh as [<- _].
Qed.

Lemma grown_trans s hi s1 hi1 s2 hi2 : hi <= hi1 <= hi2 ->
  grown s hi hi1 s1 -> grown s1 hi1 hi2 s2 -> grown s hi hi2 s2.
Proof.
  intros Hle [M1 V1 D1 T1 W1] [M2 V2 D2 T2 W2]. split; [done| | | |].
  - etransitivity; [exact V2|]. by rewrite V1 at 1.
  - by eapply keeps_data_trans.
  - by eapply tables_kept_trans.
  - intros va Hva Ho. rewrite W2, W1; [done|done|lia|done|lia].
Qed.

Lemma translate_walk g va : paging_inv g ->
  translate (g_hw g) va =
  (fun pte => Z.land pte 0xFFFFF000 + Z.land va 0xFFF) <$> walk (ram (g_hw g)) PDp va.
Proof. intros Hi. unfold translate. by rewrite (kw_cr3 _ (pi_map _ Hi)). Qed.

(** Words that were valid keep their value. *)
Lemma grown_read s hi hi' s' b : grown s hi hi' s' -> hvalid START hi s b -> hi <= hi' ->
  hvalid START hi' s' b /\ hrd s' b = hrd s b.
Proof.
  intros [M V D T W] Hv Hle. pose proof Hv as (Hm & Hb & Hb4).
  assert (hvalid START hi' s' b) as Hv' by (split_and!; [done|lia|lia|done]).
  split; [done|]. destruct (valid_word _ _ s b Hv) as (p & F & k & Hw).
  pose proof Hw as (Eb & Hp & Hk & Htp & (HF & HFr & HFb) & Hb32 & Htb).
  assert (translate (mem s') b = Some (F + 4 * k)) as Htb'.
  { rewrite <-Htb, !translate_walk by (by apply M || by apply Hm). by rewrite W by (done || lia). }
  destruct (D F HF HFr HFb) as (_ & _ & Hbytes). unfold hrd.
  rewrite (word_read _ _ s b p F k Hw Hb4), (vread_aligned _ _ _ Hb32 Hb4 Htb'). cbn. unfold ld32.
  rewrite <-!Z.add_assoc. by rewrite !Hbytes by lia.
Qed.

(** [paging_init] makes page tables for the first 16 MB of the higher half; the heap
    can grow to [TABLES_END] without a new one. *)
Definition TABLES_END : Z := 0xC1000000.

Definition window_tables (g : gsys) : Prop :=
  forall i, 768 <= i < 772 -> is_Some (table_of (ram (g_hw g)) PDp i).

Lemma window_tables_kept g g' : tables_kept g g' -> window_tables g -> window_tables g'.
Proof.
  intros (_ & _ & Hk) Hw i Hi. destruct (Hw i Hi) as [T HT]. exists T. apply Hk; [lia|done].
Qed.

Lemma heap_pd_index va : START <= va < TABLES_END -> 768 <= pd_index va < 772.
Proof.
  unfold HEAP_START_ADDR, TABLES_END. intros. rewrite pd_index_div, Z.div_div by lia.
  split; [apply Z.div_le_lower_bound|apply Z.div_lt_upper_bound]; lia.
Qed.

Lemma pte_frame f flags : 0 <= f < FRAMES ->
  Z.land (make_pte (PAGE_SIZE * f) flags) 0xFFFFF000 = PAGE_SIZE * f.
Proof.
  intros Hf. destruct (frame_of_aligned f Hf) as [Hal _].
  destruct (make_pte_spec (PAGE_SIZE * f) flags) as (_ & _ & ->); [apply Hal|].
  by apply land_mask_id.
Qed.

Lemma page_sep va hi : va mod 4096 = 0 -> hi mod 4096 = 0 -> va / 4096 = hi / 4096 -> va = hi.
Proof.
  intros H1 H2 E. pose proof (Z.div_mod va 4096 ltac:(lia)).
  pose proof (Z.div_mod hi 4096 ltac:(lia)). lia.
Qed.

Lemma remaps_walk g g' va o va' : remaps (g_hw g) (g_hw g') va o -> paging_inv g -> paging_inv g' ->
  is32 va' -> walk (ram (g_hw g')) PDp va' =
    if decide (va' / 4096 = va / 4096) then o else walk (ram (g_hw g)) PDp va'.
Proof.
  intros Hr Hi Hi' H32. specialize (Hr va' H32).
  by rewrite (kw_cr3 _ (pi_map _ Hi)), (kw_cr3 _ (pi_map _ Hi')) in Hr.
Qed.

(** One more page, on a frame that was free. *)
(** One more page: the last one is new. *)
Lemma heap_page_last hi va : hi mod 4096 = 0 -> heap_page START (hi + 4096) va -> heap_page START hi va \/ va = hi.
Proof.
  intros Ha [Hva1 Hva2]. destruct (Z.lt_ge_cases va hi); [left; split; [lia|done]|right].
  apply Z.mod_divide in Hva2 as [x ->]; [|lia]. apply Z.mod_divide in Ha as [y ->]; [|lia]. lia.
Qed.

(** The translations after the free frame [f] was mapped at the end of the heap. *)
Lemma grow_translate s hi f g' : heap_map START hi (h_g s) -> hi < TABLES_END -> 0 <= f < FRAMES -> paging_inv g' ->
  remaps (g_hw (taken (h_g s) f)) (g_hw g') hi (Some (make_pte (PAGE_SIZE * f) 3)) ->
  (forall va, is32 va -> walk (ram (g_hw g')) PDp va =
      if decide (va / 4096 = hi / 4096) then Some (make_pte (PAGE_SIZE * f) 3)
      else walk (ram (g_hw (h_g s))) PDp va) /\
  translate (g_hw g') hi = Some (PAGE_SIZE * f) /\
  (forall va, heap_page START hi va -> translate (g_hw g') va = translate (g_hw (h_g s)) va).
Proof.
  intros Hm Hlim Hf Hi' Hre. pose proof Hm as [Hi Hr [Ha1 Ha2] Hp Hinj].
  pose proof (taken_inv _ f Hi Hf) as Hi1. set (g := h_g s) in *.
  assert (forall va, is32 va -> walk (ram (g_hw g')) PDp va =
      if decide (va / 4096 = hi / 4096) then Some (make_pte (PAGE_SIZE * f) 3)
      else walk (ram (g_hw g)) PDp va) as Hw.
  { intros va Hva. by rewrite (remaps_walk _ _ _ _ _ Hre Hi1 Hi' Hva). }
  split; [exact Hw|]. split.
  - rewrite translate_walk, Hw by (done || unfold is32, TABLES_END in *; unfold KERNEL_VIRTUAL_BASE, DIRECT in *; lia).
    rewrite decide_True by done. cbn. rewrite pte_frame, land_fff, Ha2 by done. f_equal. lia.
  - intros va Hva. pose proof (heap_page_32 _ _ _ _ Hm Hva) as H32. destruct Hva as [Hva1 Hva2].
    rewrite !translate_walk, Hw by done. rewrite decide_False; [done|].
    intros E. apply page_sep in E; [lia|done..].
Qed.

Lemma grow_page s hi f g' : heap_map START hi (h_g s) -> hi < TABLES_END -> 0 <= f < FRAMES ->
  frame_bit (frame_bitmap (g_p (h_g s))) f = false ->
  paging_inv g' -> keeps_data (taken (h_g s) f) g' -> tables_kept (taken (h_g s) f) g' ->
  remaps (g_hw (taken (h_g s) f)) (g_hw g') hi (Some (make_pte (PAGE_SIZE * f) 3)) ->
  grown s hi (hi + 4096) (update h_lens g' s).
Proof.
  intros Hm Hlim Hf Hfree Hi' Hkd Hkt Hre. pose proof Hm as [Hi Hr [Ha1 Ha2] Hp Hinj].
  destruct (grow_translate s hi f g' Hm Hlim Hf Hi' Hre) as (Hw & Hnew & Hold). set (g := h_g s) in *.
  destruct (frame_of_aligned f Hf) as [Hal Hdiv].
  assert (forall va, heap_page START hi va -> translate (g_hw g) va <> Some (PAGE_SIZE * f)) as Hdist.
  { intros va Hva E. destruct (Hp va Hva) as (F & HF & _ & _ & Hb). rewrite E in HF.
    injection HF as <-. rewrite Hdiv in Hb. congruence. }
  pose proof (fun va => heap_page_last hi va Ha2) as Hcase.
  split; cbn [h_g h_lens update].
  - split; [done| | | |].
    + unfold TABLES_END, KERNEL_VIRTUAL_BASE, DIRECT in *. lia.
    + split; [done|]. rewrite Z.add_mod, Ha2 by lia. done.
    + intros va [Hva| ->]%Hcase.
      * destruct (Hp va Hva) as (F & HF & Hd & Hb1 & Hb2). exists F. rewrite Hold by done.
        destruct (Hkd F) as (Hd' & Hb' & _); [done|done| |].
        { rewrite taken_bit by done. by rewrite Hb2, orb_true_r. }
        by split_and!.
      * exists (PAGE_SIZE * f). split; [done|].
        destruct (Hkd (PAGE_SIZE * f)) as (Hd' & Hb' & _); rewrite ?Hdiv; try done.
        { exact (free_frame_data g f Hi Hf Hfree). }
        { rewrite taken_bit by done. by rewrite Z.eqb_refl. }
        split_and!; try done; rewrite ?Hdiv; lia.
    + intros va va' [Hva| ->]%Hcase [Hva'| ->]%Hcase; rewrite ?Hnew, ?Hold by done; try done.
      * by apply Hinj.
      * intros E. by apply Hdist in E.
      * intros E. symmetry in E. by apply Hdist in E.
  - done.
  - eapply keeps_data_trans; [by apply taken_keeps|done].
  - done.
  - intros va Hva Ho. rewrite Hw by done. rewrite decide_False; [done|].
    intros E. apply Z.mod_divide in Ha2 as [y Hy]; [|lia]. rewrite Hy, Z.div_mul in E by lia.
    pose proof (Z.div_mod va 4096 ltac:(lia)). pose proof (Z.mod_pos_bound va 4096 ltac:(lia)). lia.
Qed.

(** No frame is left for the allocator to find. *)
Definition exhausted (g : gsys) : Prop :=
  all_used (frame_bitmap (g_p g)) (scan_limit (g_p g)).

(** One turn of the loop. *)
Definition page_turn (hi : Z) (s : hsys) (r : bool) (s' : hsys) : Prop :=
  if r then grown s hi (hi + 4096) s'
  else grown s hi hi s' /\ exhausted (h_g s').

Lemma new_page_wp s hi (Q : Z + bool -> hsys -> Prop) x :
  heap_map START hi (h_g s) -> window_tables (h_g s) -> hi < TABLES_END ->
  (forall r s', page_turn hi s r s' -> Q (if r then inl x else inr false) s') ->
  wp (frame <- zoom h_lens (zoom g_lens pmm_alloc_frame) ;;
      if frame =? 0 then ret (inr false) else
      zoom h_lens (paging_map_page hi frame (Z.lor PAGE_PRESENT PAGE_WRITE)) ;;;
      ret (inl x)) s Q.
Proof.
  intros Hm Hwt Hlim HQ. pose proof (hm_inv _ _ _ Hm) as Hi. set (g := h_g s) in *.
  pose proof (hm_range _ _ _ Hm) as Hr.
  wp_step. wp_step. wp_step. change (view g_lens (view h_lens s)) with (g_p g).
  eapply wp_mono; [apply pmm_alloc_frame_wp, Hi|]. cbv beta.
  intros r p [(f & Hf & Hfree & Hlow & -> & ->)|(Hall & -> & h & _ & -> & Hh)].
  2:{ wp_step; [|done]. wp_step. apply (HQ false).
      split; [by apply (grown_same s hi h)|]. exact Hall. }
  assert (0 <= f < FRAMES) as HfF by (destruct (pi_pmm _ Hi) as (_ & _ & ?); lia).
  destruct (frame_of_aligned f HfF) as [Hal _]. pose proof (taken_inv _ f Hi HfF) as Hi1.
  assert (f <> 0) as Hf0 by (intros ->; rewrite (pi_zero _ Hi) in Hfree; congruence).
  wp_step; bools; [unfold PAGE_SIZE in *; lia|]. wp_step. wp_step.
  set (g1 := view h_lens _). change g1 with (taken g f). clear g1.
  assert (START <= hi < TABLES_END) as Hhi by lia.
  destruct (Hwt _ (heap_pd_index hi Hhi)) as [T HT].
  assert (table_of (ram (g_hw (taken g f))) PDp (pd_index hi) = Some T) as HT1 by exact HT.
  unfold TABLES_END, HEAP_START_ADDR in *.
  eapply wp_mono; [apply paging_map_page_wp; [exact Hi1|unfold is32; lia|congruence
    |unfold outside, KERNEL_VIRTUAL_BASE, DIRECT; lia|apply Hal]|].
  intros [] g' (Hi2 & Hkd & Hkt & [[Hre _]|[HN _]]); [|congruence].
  wp_step. apply (HQ true). by apply (grow_page s hi f g').
Qed.

Definition pages_post (s : hsys) (hi size : Z) (ok : bool) (s' : hsys) : Prop :=
  if ok then grown s hi (hi + size) s'
  else exists j, 0 <= j < size /\ j mod 4096 = 0 /\ grown s hi (hi + j) s' /\ exhausted (h_g s').

Lemma map_new_pages_wp s hi size : heap_map START hi (h_g s) -> window_tables (h_g s) ->
  0 <= size -> size mod 4096 = 0 -> hi + size <= TABLES_END ->
  wp (map_new_pages hi size) s (pages_post s hi size).
Proof.
  intros Hm Hwt Hs Hs4 Hlim. unfold map_new_pages. pose proof (hm_range _ _ _ Hm) as Hr.
  unfold TABLES_END, KERNEL_VIRTUAL_BASE, DIRECT in *.
  apply (wp_loop _ (fun i s' => 0 <= i <= size /\ i mod 4096 = 0 /\ grown s hi (hi + i) s')
                   (fun i _ => size - i)); [|split_and!; try done|lia].
  2:{ rewrite Z.add_0_r. by apply grown_refl. }
  intros i s1 (Hi & Hi4 & Hg). wp_step; bools.
  2:{ wp_step. replace size with i in * by lia. exact Hg. }
  apply Z.mod_divide in Hi4 as [x Hx]; [|lia]. apply Z.mod_divide in Hs4 as [y Hy]; [|lia].
  assert (i + 4096 <= size) as Hnext by lia.
  rewrite (u32_small (hi + i)), (u32_small (i + PAGE_SIZE)) by (unfold is32, PAGE_SIZE; lia).
  apply new_page_wp; [apply Hg|by eapply window_tables_kept; [apply Hg|]|unfold TABLES_END; lia|].
  intros [] s' Ht; unfold page_turn in Ht.
  - split; [|unfold PAGE_SIZE; lia]. unfold PAGE_SIZE. split_and!; [lia|lia| |].
    + rewrite Hx. replace (x * 4096 + 4096) with ((x + 1) * 4096) by lia. apply Z.mod_mul. lia.
    + rewrite Z.add_assoc. eapply grown_trans; [|exact Hg|done]. lia.
  - destruct Ht as [Ht Hall]. exists i. split_and!; [lia|lia| | |done].
    + rewrite Hx. apply Z.mod_mul. lia.
    + eapply grown_trans; [|exact Hg|done]. lia.
Qed.

(** ** The invariant *)

Abbreviation laws hi := (heap_laws START hi).

(** The blocks [bs] fill the heap up to [hi], in memory with pages up to [top]. *)
Definition blocks_at (top : Z) (s : hsys) (bs : list block) (hi : Z) : Prop :=
  @seg hsys heap_mem (laws top) s START bs hi 0.

Record heap_inv (s : hsys) (bs : list block) : Prop := {
  hi_map : heap_map START (heap_end s) (h_g s);
  hi_tables : window_tables (h_g s);
  hi_vars : heap_start s = START /\ first_block s = START /\
            heap_max s = START + MAX_HEAP_SIZE /\ heap_end s <= heap_max s;
  hi_blocks : blocks_at (heap_end s) s bs (heap_end s);
  hi_ne : bs <> [];
  hi_alloc : total_allocated s = allocated bs;
}.

(** What an operation leaves alone: the contents of the blocks that were allocated. *)
Definition payload_kept (s : hsys) (bs : list block) (s' : hsys) : Prop :=
  forall b, START <= b < heap_end s -> b mod 4 = 0 -> live START bs b -> hrd s' b = hrd s b.

Lemma blocks_same s s' bs top hi :
  (forall b, hvalid START top s b -> hvalid START top s' b /\ hrd s' b = hrd s b) ->
  blocks_at top s bs hi -> blocks_at top s' bs hi.
Proof. intros Hb. apply (seg_transfer (laws top) (laws top)). exact Hb. Qed.

(** Changing heap variables or emitting output does not disturb the blocks. *)
Lemma blocks_g s s' bs top hi : h_g s' = h_g s -> blocks_at top s bs hi -> blocks_at top s' bs hi.
Proof.
  intros E. apply blocks_same. intros b (Hm & Hb). unfold hvalid, hrd. rewrite E. by split; [split|].
Qed.

Lemma blocks_grown s hi hi' s' bs : grown s hi hi' s' -> hi <= hi' ->
  blocks_at hi s bs hi -> blocks_at hi' s' bs hi.
Proof.
  intros Hg Hle. apply (seg_transfer (laws hi) (laws hi')). intros b Hb.
  by apply (grown_read s hi hi' s' b).
Qed.

(** The same state with the pages beyond the heap's end left out. *)
Lemma heap_map_shrink lo hi hi' g : heap_map lo hi g -> lo <= hi' <= hi -> hi' mod 4096 = 0 ->
  heap_map lo hi' g.
Proof.
  intros [Hi Hr Ha Hp Hj] Hle Ha'. split; [done|lia|split; [apply Ha|done]|..].
  - intros va [? ?]. apply Hp. split; [lia|done].
  - intros va va' [? ?] [? ?]. apply Hj; (split; [lia|done]).
Qed.

Lemma blocks_leaked s hi hi' s' bs : heap_map START hi (h_g s) -> grown s hi hi' s' -> hi <= hi' ->
  blocks_at hi s bs hi -> blocks_at hi s' bs hi /\ heap_map START hi (h_g s').
Proof.
  intros Hm Hg Hle Hb. assert (heap_map START hi (h_g s')) as Hm'.
  { eapply heap_map_shrink; [apply Hg|pose proof (hm_range _ _ _ Hm); lia|apply Hm]. }
  split; [|done]. revert Hb. apply blocks_same. intros b Hb.
  destruct (grown_read s hi hi' s' b Hg Hb Hle) as [_ E]. split; [|done]. split; [done|apply Hb].
Qed.

Lemma payload_grown s bs hi' s' : heap_inv s bs -> grown s (heap_end s) hi' s' ->
  heap_end s <= hi' -> payload_kept s bs s'.
Proof.
  intros Hi Hg Hle b Hb Hb4 _. apply (grown_read s (heap_end s) hi' s' b); [done| |done].
  split_and!; [apply Hi|lia|lia|done].
Qed.

Lemma valid_room s hi lo : heap_map START hi (h_g s) -> START <= lo ->
  @room hsys heap_mem (laws hi) s lo hi.
Proof. intros Hm Hlo b Hb Hb4. split_and!; [done|lia|lia|done]. Qed.

(** ** Growing the heap *)

Lemma start_mod : START mod 4 = 0.
Proof. done. Qed.

(** The number of bytes [heap_expand] asks for. *)
Definition page_round (n : Z) : Z := (n + 4095) / 4096 * 4096.

Lemma page_round_code n : 0 <= n -> n + 4095 < 4294967296 ->
  Z.land (n +u PAGE_SIZE -u 1) 0xFFFFF000 = page_round n.
Proof.
  intros H0 Hn. unfold page_round, PAGE_SIZE, u32.
  rewrite Zminus_mod_idemp_l, Z.mod_small by lia.
  rewrite land_page_mask by (unfold is32; lia).
  pose proof (Z.div_mod (n + 4095) 4096 ltac:(lia)).
  replace (n + 4096 - 1) with (n + 4095) by lia. lia.
Qed.

Lemma page_round_bounds n : 0 <= n ->
  n <= page_round n < n + 4096 /\ page_round n mod 4096 = 0 /\ page_round n mod 4 = 0.
Proof.
  intros Hn. unfold page_round. pose proof (Z.div_mod (n + 4095) 4096 ltac:(lia)).
  pose proof (Z.mod_pos_bound (n + 4095) 4096 ltac:(lia)).
  rewrite Z.mod_mul by lia. split; [lia|]. split; [done|].
  replace ((n + 4095) / 4096 * 4096) with ((n + 4095) / 4096 * 1024 * 4) by lia.
  apply Z.mod_mul. lia.
Qed.

(** The invariant after stores to heap words. *)
Lemma framed_tables s s' top : hframed START top s s' -> window_tables (h_g s) -> window_tables (h_g s').
Proof. intros Hf Hw i Hi. rewrite (hf_tables _ _ _ _ Hf) by lia. by apply Hw. Qed.

Lemma framed_vars s s' top : hframed START top s s' ->
  heap_start s' = heap_start s /\ heap_end s' = heap_end s /\ heap_max s' = heap_max s /\
  first_block s' = first_block s /\ total_allocated s' = total_allocated s.
Proof. intros Hf. by rewrite (hf_state _ _ _ _ Hf). Qed.

Lemma vars_grown s s' hi hi' : grown s hi hi' s' ->
  heap_start s' = heap_start s /\ heap_end s' = heap_end s /\ heap_max s' = heap_max s /\
  first_block s' = first_block s /\ total_allocated s' = total_allocated s.
Proof. intros Hg. by rewrite (gr_vars _ _ _ _ Hg). Qed.

Lemma allocated_grow bs x : allocated (grow_list bs x) = allocated bs.
Proof.
  induction bs as [|[sz fr] r IH]; [done|]. destruct r as [|b r]; [by destruct fr|].
  change (grow_list ((sz, fr) :: b :: r) x) with ((sz, fr) :: grow_list (b :: r) x).
  cbn [allocated]. by rewrite IH.
Qed.

Definition expand_post (s : hsys) (bs : list block) (x : Z) (ok : bool) (s' : hsys) : Prop :=
  payload_kept s bs s' /\
  if ok then heap_inv s' (grow_list bs x) /\ heap_end s' = heap_end s + x
  else heap_inv s' bs /\ heap_end s' = heap_end s /\
       (heap_max s < heap_end s + x \/ exhausted (h_g s')).

Lemma expanded_inv s bs x s1 s2 : heap_inv s bs -> 0 <= x -> heap_end s + x <= heap_max s ->
  grown s (heap_end s) (heap_end s + x) s1 ->
  @extended _ _ (laws (heap_end s + x)) START (heap_end s) x s1 bs s2 ->
  START < heap_end s ->
  expand_post s bs x true (set_heap_end (heap_end s2 +u x) s2).
Proof.
  intros Hinv Hx Hmax Hg [Hf Hv Hseg Hk] Hlt. cbn in Hf, Hv, Hk.
  destruct (framed_vars _ _ _ Hf) as (E1 & E2 & E3 & E4 & E5).
  destruct (vars_grown _ _ _ _ Hg) as (F1 & F2 & F3 & F4 & F5).
  pose proof (hi_vars _ _ Hinv) as (V1 & V2 & V3 & V4).
  assert (heap_end s2 +u x = heap_end s + x) as ->.
  { rewrite E2, F2. apply u32_small. unfold is32. rewrite V3 in *.
    unfold HEAP_START_ADDR, MAX_HEAP_SIZE in *. lia. }
  assert (heap_map START (heap_end s + x) (h_g s2)) as Hm2.
  { apply (Hv START). split_and!; [apply Hg|lia|lia|done]. }
  split.
  - intros b Hb Hb4 Hl. transitivity (hrd s1 b).
    + apply Hk; [|done]. split_and!; [apply Hg|lia|lia|done].
    + by eapply payload_grown; [|exact Hg|lia|..].
  - split; [|done]. split; cbn.
    + done.
    + eapply framed_tables; [exact Hf|]. eapply window_tables_kept; [apply Hg|apply Hinv].
    + rewrite E1, E3, E4, F1, F3, F4. split_and!; done.
    + eapply (blocks_g s2); [done|exact Hseg].
    + pose proof (hi_ne _ _ Hinv). destruct bs as [|[? []] []]; done.
    + rewrite allocated_grow, E5, F5. apply (hi_alloc _ _ Hinv).
Qed.

Lemma last_split (bs : list block) : bs <> [] -> exists pre sz fr, bs = pre ++ [(sz, fr)].
Proof.
  intros H. destruct (exists_last H) as (pre & [sz fr] & ->). by exists pre, sz, fr.
Qed.

Lemma heap_expand_wp s bs m : heap_inv s bs -> 0 < m -> m + 4095 < 4294967296 ->
  let x := page_round m in
  heap_end s + x < 4294967296 ->
  (heap_end s + x <= TABLES_END \/ heap_max s < heap_end s + x) ->
  wp (heap_expand m) s (expand_post s bs x).
Proof.
  intros Hinv Hm0 Hm x Hwrap Hlim. unfold heap_expand. rewrite page_round_code by lia. fold x.
  destruct (page_round_bounds m ltac:(lia)) as (Hxm & Hx4096 & Hx4). fold x in Hxm, Hx4096, Hx4.
  assert (4096 <= x) by (apply Z.mod_divide in Hx4096 as [? ?]; lia).
  pose proof (hi_map _ _ Hinv) as Hmap. pose proof (hi_vars _ _ Hinv) as (V1 & V2 & V3 & V4).
  pose proof (hm_range _ _ _ Hmap) as Hr. unfold KERNEL_VIRTUAL_BASE, DIRECT in Hr.
  assert (START < heap_end s) as Hlt.
  { pose proof (hi_blocks _ _ Hinv) as Hb. pose proof (hi_ne _ _ Hinv) as Hne.
    destruct (seg_bounds _ _ _ _ _ Hb Hne). lia. }
  cbv zeta. do 4 wp_step. rewrite (u32_small (heap_end s + x)) by (unfold is32; lia).
  wp_step; bools.
  { wp_step. split; [by intros b|]. split_and!; [done|done|by left]. }
  wp_step. eapply wp_mono; [apply map_new_pages_wp; [done|apply Hinv|lia|done|lia]|].
  intros [] s1 Hp; unfold pages_post in Hp; cbn [negb].
  2:{ wp_step. destruct Hp as (j & Hj & _ & Hg & Hall).
      destruct (vars_grown _ _ _ _ Hg) as (F1 & F2 & F3 & F4 & F5).
      destruct (blocks_leaked _ _ _ _ bs Hmap Hg ltac:(lia) (hi_blocks _ _ Hinv)) as [Hb' Hm'].
      split; [by apply (payload_grown s bs (heap_end s + j)); [..|lia]|].
      split_and!; [|done|by right]. split; rewrite ?F1, ?F2, ?F3, ?F4, ?F5; try done.
      - eapply window_tables_kept; [apply Hg|apply Hinv].
      - apply (hi_ne _ _ Hinv).
      - apply (hi_alloc _ _ Hinv). }
  pose proof (blocks_grown _ _ _ _ bs Hp ltac:(lia) (hi_blocks _ _ Hinv)) as Hb1.
  destruct (vars_grown _ _ _ _ Hp) as (_ & _ & _ & F4 & _).
  destruct (last_split bs (hi_ne _ _ Hinv)) as (pre & sz & fr & Ebs). rewrite Ebs in Hb1.
  wp_step. wp_step. rewrite F4, V2. wp_step.
  eapply wp_mono; [eapply (last_block_wp (WL := laws (heap_end s + x))); exact Hb1|].
  intros blk ? [-> ->]. wp_step.
  eapply wp_mono; [apply (extend_last_wp (WL := laws (heap_end s + x)) s1 START pre sz fr); [exact Hb1|lia|done|lia|]|].
  { destruct (hm_aligned _ _ _ Hmap) as [_ Hend]. cbn.
    assert (forall k, 0 <= k <= 8 -> k mod 4 = 0 -> hvalid START (heap_end s + x) s1 (heap_end s + k)) as Hval.
    { intros k Hk Hk4. split_and!; [apply Hp|lia|lia|]. Z.to_euclidean_division_equations. lia. }
    rewrite <-(Z.add_0_r (heap_end s)) at 2. by split_and!; apply Hval. }
  intros [] s2 Hex. wp_step. wp_step. wp_step. rewrite <-Ebs in Hex.
  by apply (expanded_inv s bs x s1 s2); [|lia|lia|..].
Qed.

(** ** Allocation *)

(** A list update in memory, with the matching change of [total_allocated]. *)
Lemma updated_inv s bs s' bs' : heap_inv s bs ->
  @updated _ _ (laws (heap_end s)) START (heap_end s) s bs s' bs' -> bs' <> [] ->
  heap_inv (set_allocated (allocated bs') s') bs' /\
  payload_kept s bs (set_allocated (allocated bs') s') /\
  heap_end (set_allocated (allocated bs') s') = heap_end s.
Proof.
  intros Hinv [Hf Hv Hseg Hk] Hne. cbn in Hf, Hv, Hk.
  destruct (framed_vars _ _ _ Hf) as (E1 & E2 & E3 & E4 & E5).
  pose proof (hi_vars _ _ Hinv) as (V1 & V2 & V3 & V4). pose proof (hi_map _ _ Hinv) as Hm.
  assert (START < heap_end s) as Hlt.
  { destruct (seg_bounds _ _ _ _ _ (hi_blocks _ _ Hinv) (hi_ne _ _ Hinv)). lia. }
  split_and!; [|intros b Hb Hb4 Hl; by apply Hk|done].
  split; cbn; rewrite ?E1, ?E2, ?E3, ?E4; try done.
  - apply (Hv START). split_and!; [apply Hm|lia|lia|done].
  - eapply framed_tables; [exact Hf|apply Hinv].
  - eapply (blocks_g s'); [done|exact Hseg].
Qed.

Lemma split_list_cons sz n : exists k r, split_list sz n = (k, true) :: r /\
  take_list sz n = (k, false) :: r /\ allocated r = 0.
Proof.
  unfold split_list, take_list. destruct (_ <=? _); by eexists _, _.
Qed.

Lemma live_split a sz n post b :
  live a (split_list sz n ++ post) b <-> live a ([(sz, true)] ++ post) b.
Proof.
  unfold split_list. destruct (_ <=? _); [|done]. cbn. unfold HEADER_SIZE.
  replace (a + 12 + n + 12 + (sz - n - 12)) with (a + 12 + sz) by lia. intuition congruence.
Qed.

Lemma allocated_32 s bs : heap_inv s bs -> is32 (allocated bs).
Proof.
  intros Hinv. pose proof (hi_blocks _ _ Hinv) as Hb.
  pose proof (allocated_bounds _ (seg_sizes _ _ _ _ _ Hb)).
  destruct (seg_bounds _ _ _ _ _ Hb (hi_ne _ _ Hinv)). pose proof (seg_span _ _ _ _ _ Hb).
  unfold is32. lia.
Qed.

Definition take_post (s : hsys) (bs bs' : list block) (p : Z) (r : Z) (s' : hsys) : Prop :=
  r = p /\ heap_inv s' bs' /\ payload_kept s bs s' /\ heap_end s' = heap_end s.

Lemma take_block_wp s pre sz post n :
  let bs := pre ++ [(sz, true)] ++ post in
  heap_inv s bs -> 0 <= n <= sz -> n mod 4 = 0 ->
  wp (take_block (START + span pre) n) s
     (take_post s bs (pre ++ take_list sz n ++ post) (START + span pre + HEADER_SIZE)).
Proof.
  intros bs Hinv Hn Hn4. pose proof (hi_blocks _ _ Hinv) as Hb. set (W := laws (heap_end s)) in *.
  pose proof (hi_map _ _ Hinv) as Hm.
  assert (Forall size_ok pre) as Hok.
  { pose proof (seg_sizes _ _ _ _ _ Hb) as Hok. by apply Forall_app in Hok as [? _]. }
  assert ((START + span pre) mod 4 = 0 /\ 0 <= span pre) as [Hal Hsp].
  { split; [|by apply span_nonneg]. rewrite Z.add_mod by lia. rewrite span_mod by done. done. }
  destruct (seg_block _ _ _ _ _ _ _ Hb) as (_ & _ & _ & _ & Hbd & _ & _).
  unfold take_block. wp_step.
  eapply wp_mono; [apply (split_block_wp (WL := W) s START (START + span pre) pre sz post n (heap_end s));
    [exact Hb|done|unfold HEAP_START_ADDR; lia|apply valid_room; [done|lia]|done..|lia|done|lia]|].
  intros [] s1 Hup. destruct (split_list_cons sz n) as (k & r & Es & Et & Hr). rewrite Es in Hup. rewrite Et.
  pose proof (up_seg _ _ _ _ _ _ Hup) as Hb1. change (((k, true) :: r) ++ post) with ([(k, true)] ++ r ++ post) in Hb1.
  wp_step. eapply wp_mono; [apply (set_free_wp (WL := W) s1 START pre k true (r ++ post) (heap_end s) false), Hb1|].
  intros [] s2 Hup2. pose proof (up_seg _ _ _ _ _ _ Hup2) as Hb2.
  destruct (seg_block _ _ _ _ _ _ _ Hb2) as (Hh & _).
  wp_step. apply (wp_ldw (WL := W)); [apply Hh|]. unfold f_size. rewrite (hd_rsize _ _ _ _ _ Hh). do 3 wp_step.
  assert (@updated _ _ W START (heap_end s) s bs s2 (pre ++ [(k, false)] ++ r ++ post)) as Hup3.
  { eapply updated_trans; [exact Hup|exact Hup2|]. intros b. unfold bs.
    rewrite !(live_app _ pre). change ([(k, true)] ++ r ++ post) with (((k, true) :: r) ++ post).
    by rewrite <-Es, live_split. }
  destruct (updated_inv s bs s2 _ Hinv Hup3) as (Hinv' & Hpk & He); [by destruct pre|].
  assert (total_allocated s2 +u k = allocated (pre ++ [(k, false)] ++ r ++ post)) as ->.
  { destruct (framed_vars _ _ _ (up_framed _ _ _ _ _ _ Hup3)) as (_ & _ & _ & _ & ->).
    rewrite (hi_alloc _ _ Hinv). rewrite <-(u32_small (allocated (pre ++ [(k, false)] ++ _))) by (by eapply allocated_32).
    unfold bs. rewrite !allocated_app. cbn [allocated]. f_equal. lia. }
  rewrite (u32_small (START + span pre + HEADER_SIZE)) by (unfold is32, HEADER_SIZE, HEAP_START_ADDR in *; lia).
  split_and!; done.
Qed.

Lemma payload_trans s bs s1 bs1 s2 : payload_kept s bs s1 -> payload_kept s1 bs1 s2 ->
  heap_end s <= heap_end s1 -> (forall b, live START bs b -> live START bs1 b) ->
  payload_kept s bs s2.
Proof.
  intros H1 H2 He Hl b Hb Hb4 Hlb. rewrite H2; [by apply H1|lia|done|by apply Hl].
Qed.

(** Output leaves the heap as it is. *)
Lemma heap_inv_mem s bs h : heap_inv s bs -> same_mem (mem s) h ->
  heap_inv (set_mem h s) bs /\ payload_kept s bs (set_mem h s).
Proof.
  intros Hinv Hh. pose proof (grown_same s _ h (hi_map _ _ Hinv) Hh) as Hg. split.
  - split; [apply Hg| |apply (hi_vars _ _ Hinv)| |apply (hi_ne _ _ Hinv)|apply (hi_alloc _ _ Hinv)].
    + eapply window_tables_kept; [apply Hg|apply Hinv].
    + eapply blocks_grown; [exact Hg|done|apply Hinv].
  - eapply payload_grown; [done|exact Hg|done].
Qed.

Lemma heap_kprintf_wp s bs fmt args (Q : unit -> hsys -> Prop) E : heap_inv s bs ->
  (forall h, same_mem (mem s) h -> trace h = Kprintf fmt args :: trace (mem s) ->
     heap_inv (set_mem h s) bs -> payload_kept s bs (set_mem h s) -> Q tt (set_mem h s)) ->
  wpe (h_kprintf fmt args) s Q E.
Proof.
  intros Hinv HQ. unfold h_kprintf. wp_step. apply wp_hw. unfold kprintf, emit. wp_step.
  change (view h_lens s) with (h_g s). set (h := Machine _ _ _ _ _).
  assert (same_mem (mem s) h) as Hh by done. destruct (heap_inv_mem s bs h Hinv Hh). by apply HQ.
Qed.

Definition round8 (n : Z) : Z := (n + 7) / 8 * 8.

Lemma round8_code n : 0 <= n -> n + 7 < 4294967296 -> Z.land (n +u 7) 0xFFFFFFF8 = round8 n.
Proof.
  intros. unfold round8. rewrite u32_small by (unfold is32; lia).
  rewrite land_mask8 by (unfold is32; lia). pose proof (Z.div_mod (n + 7) 8 ltac:(lia)). lia.
Qed.

Lemma round8_bounds n : 0 <= n -> n <= round8 n < n + 8 /\ round8 n mod 4 = 0.
Proof.
  intros. unfold round8. pose proof (Z.div_mod (n + 7) 8 ltac:(lia)).
  pose proof (Z.mod_pos_bound (n + 7) 8 ltac:(lia)). split; [lia|].
  replace ((n + 7) / 8 * 8) with ((n + 7) / 8 * 2 * 4) by lia. apply Z.mod_mul. lia.
Qed.

(** The growth a request of [n] bytes asks for when no block fits. *)
Definition growth (n : Z) : Z := page_round (round8 n + HEADER_SIZE).

(** What [kmalloc] promises, on the list of blocks. *)
Definition kmalloc_post (s : hsys) (bs : list block) (n : Z) (r : Z) (s' : hsys) : Prop :=
  payload_kept s bs s' /\
  match alloc_list START bs (round8 n) with
  | Some (p, bs') => r = p /\ heap_inv s' bs' /\ heap_end s' = heap_end s
  | None =>
      (exists bs', alloc_list START (grow_list bs (growth n)) (round8 n) = Some (r, bs') /\
         heap_inv s' bs' /\ heap_end s' = heap_end s + growth n) \/
      (r = 0 /\ heap_inv s' bs /\ heap_end s' = heap_end s /\
         (heap_max s < heap_end s + growth n \/ exhausted (h_g s')))
  end.

(** The limit of [heap_expand].  [paging_init] provides page tables up to [TABLES_END]
    (0xC1000000), 4 MB below the maximum of the heap.  Growth by [x] is sound when it
    stays below them, or is refused because it exceeds the maximum; in between
    [paging_map_page] takes a new table whose frame is not in the kernel window and
    overwrites the heap ([new_table_overwrites]), and a sum beyond 32 bits wraps around
    in the comparison with the maximum.  The code tests neither. *)
Definition can_grow (s : hsys) (x : Z) : Prop :=
  heap_end s + x < 4294967296 /\
  (heap_end s + x <= TABLES_END \/ heap_max s < heap_end s + x).

Lemma find_free_block_wp s bs n : heap_inv s bs ->
  wp (find_free_block n) s (fun r s' => s' = s /\ r = default 0 (find_fit START bs n)).
Proof.
  intros Hinv. unfold find_free_block. wp_step. wp_step.
  destruct (hi_vars _ _ Hinv) as (_ & -> & _).
  apply (find_free_from_wp (WL := laws (heap_end s)) s START bs n (heap_end s)); apply Hinv.
Qed.

Lemma find_fit_pos s bs n p : heap_inv s bs -> find_fit START bs n = Some p -> p <> 0.
Proof.
  intros Hinv Hf. destruct (find_fit_some _ _ _ _ Hf) as (pre & sz & post & -> & -> & _ & _).
  pose proof (hi_blocks _ _ Hinv) as Hb.
  destruct (seg_block _ _ _ _ _ _ _ Hb) as (_ & _ & _ & ? & _). lia.
Qed.

Lemma live_grow a bs x b : live a bs b -> live a (grow_list bs x) b.
Proof.
  revert a. induction bs as [|[sz fr] r IH]; intros a; [done|]. destruct r as [|b' r].
  - destruct fr; cbn; [intuition congruence|tauto].
  - change (grow_list ((sz, fr) :: b' :: r) x) with ((sz, fr) :: grow_list (b' :: r) x).
    intros [?|?]; [by left|right; by apply IH].
Qed.

(** Taking the block [find_free_block] returned. *)
Lemma take_found_wp s bs n p : heap_inv s bs -> 0 <= n -> n mod 4 = 0 ->
  find_fit START bs n = Some p ->
  wp (take_block p n) s (fun r s' => exists bs', alloc_list START bs n = Some (r, bs') /\
    heap_inv s' bs' /\ payload_kept s bs s' /\ heap_end s' = heap_end s).
Proof.
  intros Hinv Hn Hn4 Hf. destruct (find_fit_some _ _ _ _ Hf) as (pre & sz & post & -> & -> & Hle & Ha).
  eapply wp_mono; [apply take_block_wp; [done|lia|done]|].
  intros r s' (-> & Hi & Hk & He). rewrite Ha. by eexists.
Qed.

(** A request that is served, from a block or by growing, does not come near the width
    of [size_t]. *)
Lemma request_bound s bs n : heap_inv s bs -> 0 < n ->
  (alloc_list START bs (round8 n) = None -> can_grow s (growth n)) -> n < 0x40000000.
Proof.
  intros Hinv Hn Hg. destruct (round8_bounds n ltac:(lia)) as [H8 _].
  destruct (hi_vars _ _ Hinv) as (_ & _ & Em & He).
  pose proof (seg_span _ _ _ _ _ (hi_blocks _ _ Hinv)) as Esp.
  pose proof (seg_sizes _ _ _ _ _ (hi_blocks _ _ Hinv)) as Hok.
  destruct (find_fit START bs (round8 n)) as [p|] eqn:Hf.
  - apply find_fit_some in Hf as (pre & sz & post & -> & _ & Hle & _).
    apply Forall_app in Hok as [Hpre [_ Hpost]%Forall_app].
    pose proof (span_nonneg pre Hpre). pose proof (span_nonneg post Hpost).
    rewrite !span_app in Esp. cbn [span] in Esp. unfold HEAP_START_ADDR, MAX_HEAP_SIZE, HEADER_SIZE in *. lia.
  - apply find_fit_none, Hg in Hf as [Hlt _]. unfold growth in Hlt.
    pose proof (page_round_bounds (round8 n + HEADER_SIZE) ltac:(unfold HEADER_SIZE; lia)).
    pose proof (span_nonneg bs Hok). unfold HEAP_START_ADDR, HEADER_SIZE in *. lia.
Qed.

Lemma kmalloc_wp s bs n : heap_inv s bs -> 0 < n ->
  (alloc_list START bs (round8 n) = None -> can_grow s (growth n)) ->
  wp (kmalloc n) s (kmalloc_post s bs n).
Proof.
  intros Hinv Hn Hgrow. pose proof (request_bound s bs n Hinv Hn Hgrow) as Hmax.
  unfold kmalloc. rewrite (proj2 (Z.eqb_neq n 0)) by lia.
  rewrite round8_code by lia. destruct (round8_bounds n ltac:(lia)) as [H8 H84].
  unfold kmalloc_post, growth in *. set (n8 := round8 n) in *. cbv zeta.
  wp_step. eapply wp_mono; [by apply find_free_block_wp|]. intros blk ? [-> ->].
  destruct (find_fit START bs n8) as [p|] eqn:Hf.
  { cbn. rewrite (proj2 (Z.eqb_neq p 0)) by (by eapply find_fit_pos).
    eapply wp_mono; [eapply take_found_wp; [done|lia|done|done]|].
    intros r s' (bs' & Ha & Hi & Hk & He). by rewrite Ha. }
  apply find_fit_none in Hf. destruct (Hgrow Hf) as [Hg1 Hg2].
  rewrite Hf. cbn. unfold HEADER_SIZE in *.
  rewrite (u32_small (n8 + 12)) by (unfold is32; lia).
  wp_step. eapply wp_mono; [apply heap_expand_wp; [done|lia|lia|done|done]|].
  set (x := page_round (n8 + 12)) in *.
  intros [] s1 [Hk1 Hres]; cbn [negb].
  2:{ destruct Hres as (Hi1 & He1 & Hwhy). wp_step. eapply heap_kprintf_wp; [exact Hi1|].
      intros h Hh _ Hi2 Hk2. wp_step. split; [|right].
      - eapply payload_trans; [done|exact Hk2|lia|done].
      - split_and!; done. }
  destruct Hres as [Hi1 He1]. wp_step. eapply wp_mono; [by apply find_free_block_wp|].
  intros blk ? [-> ->].
  destruct (find_fit START (grow_list bs x) n8) as [p|] eqn:Hf1.
  - cbn. rewrite (proj2 (Z.eqb_neq p 0)) by (by eapply find_fit_pos).
    eapply wp_mono; [eapply take_found_wp; [done|lia|done|done]|].
    intros r s' (bs' & Ha & Hi & Hk & He). split.
    + eapply payload_trans; [exact Hk1|exact Hk|..]; [|intros; by apply live_grow].
      pose proof (page_round_bounds (n8 + 12) ltac:(lia)). lia.
    + left. exists bs'. split_and!; [done|done|congruence].
  - exfalso. apply find_fit_none in Hf1.
    destruct (alloc_grow START bs n8 x) as [? ?]; [apply Hinv| |..|lia|congruence].
    + eapply seg_sizes, Hinv.
    + pose proof (page_round_bounds (n8 + 12) ltac:(lia)). unfold HEADER_SIZE. lia.
Qed.

(** ** Release *)

Lemma set_allocated_same s : set_allocated (total_allocated s) s = s.
Proof. by destruct s. Qed.

Lemma live_merged a bs b : live a (merged bs) b <-> live a bs b.
Proof. destruct bs; [done|]. apply live_coalesce. Qed.

Lemma allocated_merged bs : allocated (merged bs) = allocated bs.
Proof. destruct bs; [done|]. apply coalesce_allocated. Qed.

Lemma merged_ne bs : bs <> [] -> merged bs <> [].
Proof. destruct bs as [|b r]; [done|]. cbn. destruct (coalesce_head b r) as (? & ? & ->). done. Qed.

Lemma merged_separated bs : separated (merged bs).
Proof. destruct bs; [done|]. apply coalesce_separated. Qed.

Lemma merge_free_blocks_wp s bs : heap_inv s bs ->
  wp merge_free_blocks s (fun _ s' =>
    heap_inv s' (merged bs) /\ payload_kept s bs s' /\ heap_end s' = heap_end s).
Proof.
  intros Hinv. unfold merge_free_blocks. wp_step. wp_step.
  destruct (hi_vars _ _ Hinv) as (_ & -> & _). pose proof (hi_ne _ _ Hinv) as Hne.
  pose proof (hi_blocks _ _ Hinv) as Hb. destruct bs as [|b r]; [done|].
  eapply wp_mono; [apply (merge_from_wp (WL := laws (heap_end s)) s START b r (heap_end s)), Hb|].
  intros [] s' Hup. cbn [merged].
  destruct (updated_inv s _ s' _ Hinv Hup) as (Hi & Hk & He).
  { by apply (merged_ne (b :: r)). }
  rewrite coalesce_allocated in Hi, Hk, He.
  destruct (framed_vars _ _ _ (up_framed _ _ _ _ _ _ Hup)) as (_ & _ & _ & _ & E5).
  rewrite <-(hi_alloc _ _ Hinv), <-E5, set_allocated_same in Hi, Hk, He. done.
Qed.

(** What [kfree] promises for a pointer to the payload of a block: it releases an
    allocated block and joins it with its free neighbours; a block that is free
    already is left alone. *)
Definition kfree_post (s : hsys) (bs : list block) (p : Z) (s' : hsys) : Prop :=
  heap_end s' = heap_end s /\
  match free_list START bs p with
  | Some bs' => heap_inv s' bs' /\ payload_kept s bs' s' /\ separated bs'
  | None => heap_inv s' bs /\ payload_kept s bs s' /\
            ram (mem s') = ram (mem s) /\
            hd_error (trace (mem s')) = Some (Kprintf ("Heap: Double free detected!" +:+ nl) [])
  end.

Lemma kfree_wp s bs p : heap_inv s bs -> is_Some (locate START bs p) ->
  wp (kfree p) s (fun _ s' => kfree_post s bs p s').
Proof.
  intros Hinv [[[pre [sz fr]] post] Hloc]. unfold kfree_post, free_list. rewrite Hloc.
  destruct (locate_spec _ _ _ _ _ _ Hloc) as [Ebs Ep]. pose proof (hi_blocks _ _ Hinv) as Hb.
  rewrite Ebs in Hb.
  destruct (seg_block _ _ _ _ _ _ _ Hb) as (Hh & _ & [? _] & Ha & Hbd & _ & _).
  unfold HEADER_SIZE in *. unfold kfree. rewrite (proj2 (Z.eqb_neq p 0)) by lia. cbv zeta.
  unfold HEADER_SIZE. rewrite (u32_small (p - 12)) by (unfold is32; lia).
  replace (p - 12) with (START + span pre) by lia.
  destruct (fields _ _ _ _ _ Hh) as (_ & E4 & _). rewrite E4.
  wp_step. apply (wp_ldw (WL := laws (heap_end s))); [apply Hh|]. rewrite (hd_rfree _ _ _ _ _ Hh).
  destruct fr; cbn [Z.eqb negb].
  { eapply heap_kprintf_wp; [exact Hinv|]. intros h [Hh0 _] Htr Hi2 Hk2.
    split_and!; [done|done|done| |]; change (g_hw (h_g (set_mem h s))) with h; [done|by rewrite Htr]. }
  rewrite <-E4. wp_step. eapply wp_mono; [apply (set_free_wp (WL := laws (heap_end s)) s START pre sz false post (heap_end s) true), Hb|].
  intros [] s1 Hup. pose proof (up_seg _ _ _ _ _ _ Hup) as Hb1.
  destruct (seg_block _ _ _ _ _ _ _ Hb1) as (Hh1 & _).
  wp_step. apply (wp_ldw (WL := laws (heap_end s))); [apply Hh1|]. unfold f_size. rewrite (hd_rsize _ _ _ _ _ Hh1).
  wp_step. wp_step. set (bs1 := pre ++ [(sz, true)] ++ post) in *. rewrite <-Ebs in Hup.
  destruct (updated_inv s bs s1 bs1 Hinv Hup) as (Hi1 & Hk1 & He1); [by destruct pre|].
  assert (total_allocated s1 -u sz = allocated bs1) as ->.
  { destruct (framed_vars _ _ _ (up_framed _ _ _ _ _ _ Hup)) as (_ & _ & _ & _ & ->).
    rewrite (hi_alloc _ _ Hinv). rewrite <-(u32_small (allocated bs1)) by (by eapply allocated_32).
    rewrite Ebs. unfold bs1. rewrite !allocated_app. cbn [allocated]. f_equal. lia. }
  eapply wp_mono; [by apply merge_free_blocks_wp|]. intros [] s2 (Hi2 & Hk2 & He2).
  split; [congruence|]. split_and!; [exact Hi2| |apply merged_separated].
  intros b Hb' Hb4 Hl. apply (proj1 (live_merged _ _ _)) in Hl. rewrite Hk2; [|by rewrite He1|done|exact Hl].
  apply Hk1; [done|done|]. rewrite Ebs. revert Hl. unfold bs1. rewrite !(live_app _ pre). cbn.
  intuition congruence.
Qed.

(** ** Initialisation *)

Definition init_blocks : list block := [(INITIAL_HEAP_SIZE - HEADER_SIZE, true)].

(** [kheap_init] leaves one free block, or reports that the frames ran out. *)
Definition init_post (s : hsys) (s' : hsys) : Prop :=
  (heap_inv s' init_blocks /\ heap_end s' = START + INITIAL_HEAP_SIZE /\
   tables_kept (h_g s) (h_g s')) \/
  (heap_end s' = START /\ first_block s' = first_block s /\ exhausted (h_g s') /\
   paging_inv (h_g s')).

Lemma empty_heap_map g : paging_inv g -> heap_map START START g.
Proof.
  intros Hi. split; [done|..]; unfold heap_page; try done; intros; lia.
Qed.

Lemma first_block_seg s s' hi : heap_map START hi (h_g s) -> hi = START + INITIAL_HEAP_SIZE ->
  @writes _ _ (laws hi) s [(START + 8, 0); (START + 4, 1); (START, INITIAL_HEAP_SIZE - 12)] s' ->
  blocks_at hi s' init_blocks hi.
Proof.
  intros Hm -> Hw. split; [|done].
  pose proof (valid_room s _ START Hm ltac:(done)) as Hr.
  eapply hdr_writes; [exact Hw| |done|by split|..]; [|done..].
  split_and!; by apply Hr.
Qed.

Lemma kheap_init_wp s : paging_inv (h_g s) -> window_tables (h_g s) -> total_allocated s = 0 ->
  wp kheap_init s (fun _ s' => init_post s s').
Proof.
  intros Hi Hwt Ht. unfold kheap_init. do 8 wp_step. cbv beta. cbn [set_heap_start heap_start].
  rewrite (u32_small (START + MAX_HEAP_SIZE)), (u32_small (START + INITIAL_HEAP_SIZE)),
    (u32_small (INITIAL_HEAP_SIZE - HEADER_SIZE)) by done.
  set (s0 := set_heap_max _ _). wp_step.
  eapply wp_mono; [apply (map_new_pages_wp s0 START INITIAL_HEAP_SIZE); [by apply empty_heap_map|done..]|].
  intros [] s1 Hp; unfold pages_post in Hp; cbn [negb].
  2:{ destruct Hp as (j & Hj & _ & Hg & Hall). pose proof (vars_grown _ _ _ _ Hg) as (_ & E2 & _ & E4 & _).
      unfold h_kprintf. wp_step. apply wp_hw_kprintf. intros h Hh. right. split_and!; [exact E2|exact E4|done|].
      apply paging_inv_hw; [done|apply Hg]. }
  pose proof (vars_grown _ _ _ _ Hp) as (E1 & E2 & E3 & _ & E5).
  set (hi := START + INITIAL_HEAP_SIZE) in *. pose proof (gr_map _ _ _ _ Hp) as Hm.
  do 6 wp_step. cbn [set_first_block first_block]. set (s2 := set_first_block _ _).
  assert (heap_map START hi (h_g s2)) as Hm2 by exact Hm.
  pose proof (valid_room s2 hi START Hm2 ltac:(done)) as Hr.
  unfold f_size, f_free, f_next. change (START +u 4) with (START + 4). change (START +u 8) with (START + 8).
  wp_step. eapply (wp_write (WL := laws hi)); [apply writes_nil|by apply Hr|done|]. intros s3 Hw3.
  wp_step. eapply (wp_write (WL := laws hi)); [exact Hw3|by apply Hr|done|]. intros s4 Hw4.
  wp_step. eapply (wp_write (WL := laws hi)); [exact Hw4|by apply Hr|done|]. intros s5 Hw5.
  pose proof (first_block_seg s2 s5 hi Hm2 eq_refl Hw5) as Hb.
  pose proof (wr_framed _ _ _ Hw5) as Hf. cbn in Hf. pose proof (framed_vars _ _ _ Hf) as (F1 & F2 & F3 & F4 & F5).
  assert (heap_inv s5 init_blocks) as Hinv.
  { split; rewrite ?F1, ?F2, ?F3, ?F4, ?F5; cbn; rewrite ?E1, ?E2, ?E3, ?E5; try done.
    - apply (wr_valid _ _ _ Hw5 START). by apply Hr.
    - eapply framed_tables; [exact Hf|]. eapply window_tables_kept; [apply Hp|done]. }
  eapply heap_kprintf_wp; [exact Hinv|]. intros h Hh _ Hinv' _. left. split_and!; [done|exact F2|].
  eapply tables_kept_trans; [apply Hp|]. split_and!.
  - by rewrite (hf_state _ _ _ _ Hf).
  - by rewrite (hf_state _ _ _ _ Hf).
  - intros i T Hir HT. change (g_hw (h_g (set_mem h s5))) with h. destruct Hh as [<- _].
    by rewrite (hf_tables _ _ _ _ Hf).
Qed.
End HeapInv.
