(* ===== verification/HeapSpec.v ===== *)
(** * What the kernel heap guarantees

    The properties of [kernel/kheap.c] from the initialisation of memory on: the heap
    implements first-fit allocation on a list of blocks, keeps its invariant and the
    contents of live blocks in every run, and accounts for what it handed out. *)

From stdpp Require Import base gmap list numbers option strings relations.
From Stdlib Require Import ZArith Lia.
From S2P Require Import Prelude Machine PageTables Pmm Paging PagingInit Boot PmmSpec PagingSpec.
From S2P Require Import HeapList Kheap HeapInv.

Section HeapSpec.
Context {L : Layout} {LOk : LayoutOk L}.

Abbreviation START := HEAP_START_ADDR.
Abbreviation mem s := (g_hw (h_g s)).

(** ** The initialisation of memory *)

(** [pmm_init(mbi); paging_init(); kheap_init();] of [kernel_main]. *)
Definition heap_boot (mbi : Z) : M hsys unit :=
  zoom h_lens (memory_init mbi) ;;; kheap_init.

Lemma ready_tables es g : memory_ready es g -> window_tables g.
Proof.
  intros H i Hi. rewrite filled_tables; [|apply H|lia]. rewrite decide_True by lia. eauto.
Qed.

Lemma heap_boot_wp mbi es s : booted mbi es (h_g s) -> total_allocated s = 0 ->
  wp (heap_boot mbi) s (fun _ s' => exists g, memory_ready es g /\ init_post (update h_lens g s) s').
Proof.
  intros Hb Ht. unfold heap_boot. wp_step. apply wp_zoom.
  eapply wp_mono; [by apply memory_init_wp|]. intros [] g Hr. cbv beta.
  eapply wp_mono; [apply kheap_init_wp|].
  - by eapply memory_ready_inv.
  - by eapply ready_tables.
  - done.
  - intros [] s' Hp. by exists g.
Qed.

(** ** Facts about first fit *)

Lemma alloc_list_taken a bs n p bs' : alloc_list a bs n = Some (p, bs') ->
  exists pre sz post, bs' = pre ++ [(sz, false)] ++ post /\ p = a + span pre + HEADER_SIZE /\
    n <= sz /\ allocated bs' = allocated bs + sz.
Proof.
  intros H. destruct (find_fit a bs n) as [q|] eqn:E.
  2:{ apply find_fit_none in E. by rewrite E in H. }
  apply find_fit_some in E as (pre & sz & post & -> & -> & Hsz & E). rewrite E in H.
  injection H as <- <-. unfold take_list. destruct (Z.leb_spec (n + HEADER_SIZE + 32) sz).
  - exists pre, n, ((sz - n - HEADER_SIZE, true) :: post).
    split_and!; [done|lia|lia|]. rewrite !allocated_app. cbn. lia.
  - exists pre, sz, post. split_and!; [done|lia|lia|]. rewrite !allocated_app. cbn. lia.
Qed.

Lemma locate_at a pre b post : Forall size_ok pre ->
  locate a (pre ++ b :: post) (a + span pre + HEADER_SIZE) = Some (pre, b, post).
Proof.
  revert a. induction pre as [|[sz fr] pre IH]; intros a Hok; cbn [app locate span].
  - destruct b as [sz fr]. by rewrite Z.add_0_r, Z.eqb_refl.
  - inversion Hok as [|? ? Hsz Hok']. subst. destruct Hsz as [Hsz _]. cbn in Hsz.
    pose proof (span_nonneg pre Hok'). unfold HEADER_SIZE in *.
    destruct (Z.eqb_spec (a + (12 + sz + span pre) + 12) (a + 12)); [lia|].
    replace (a + (12 + sz + span pre) + 12) with (a + 12 + sz + span pre + 12) by lia.
    by rewrite IH.
Qed.

Lemma inv_sizes s bs : heap_inv s bs -> Forall size_ok bs.
Proof. intros H. eapply seg_sizes, (hi_blocks _ _ H). Qed.

(** ** Runs *)

(** The blocks after [kmalloc n] returned [r]. *)
Definition kmalloc_blocks (bs : list block) (n r : Z) : list block :=
  match alloc_list START bs (round8 n) with
  | Some (_, l) => l
  | None =>
      if r =? 0 then bs else
      match alloc_list START (grow_list bs (growth n)) (round8 n) with
      | Some (_, l) => l
      | None => bs
      end
  end.

Lemma alloc_addr_pos s bs n p l : alloc_list START bs n = Some (p, l) -> heap_inv s l -> START < p.
Proof.
  intros H Hinv. destruct (alloc_list_taken _ _ _ _ _ H) as (pre & sz & post & -> & -> & _).
  apply inv_sizes, Forall_app in Hinv as [Hpre _].
  pose proof (span_nonneg pre Hpre). unfold HEADER_SIZE. lia.
Qed.

Lemma growth_nonneg n : 0 < n -> 0 <= growth n.
Proof.
  intros. pose proof (round8_bounds n ltac:(lia)). unfold growth.
  destruct (page_round_bounds (round8 n + HEADER_SIZE)); unfold HEADER_SIZE in *; lia.
Qed.

(** [kmalloc_post] with the blocks named by the result. *)
Lemma kmalloc_post_blocks s bs n r s' : 0 < n -> kmalloc_post s bs n r s' ->
  heap_inv s' (kmalloc_blocks bs n r) /\ heap_end s <= heap_end s' /\ payload_kept s bs s'.
Proof.
  intros Hn [Hpay Hpost]. pose proof (growth_nonneg n Hn). unfold kmalloc_blocks.
  destruct (alloc_list START bs (round8 n)) as [[q l]|].
  - destruct Hpost as (_ & ? & ->). done.
  - destruct Hpost as [(l & E & Hl & ->)|(-> & ? & -> & _)]; [|done].
    rewrite E. pose proof (alloc_addr_pos _ _ _ _ _ E Hl) as Hpos.
    replace (r =? 0) with false; [split; [done|split; [lia|done]]|].
    symmetry. apply Z.eqb_neq. unfold HEAP_START_ADDR in Hpos. lia.
Qed.

(** A call on a heap that holds the blocks [bs], and the blocks it leaves.  The callers
    owe [kfree] the payload address of a block, and must not let the heap grow into the
    last 4 MB below its maximum ([can_grow]): the code checks neither. *)
Inductive heap_step : hsys * list block -> hsys * list block -> Prop :=
  | step_kmalloc s bs n r s' : 0 < n -> (alloc_list START bs (round8 n) = None -> can_grow s (growth n)) ->
      kmalloc n s = Ok r s' -> heap_step (s, bs) (s', kmalloc_blocks bs n r)
  | step_kfree s bs p s' : is_Some (locate START bs p) ->
      kfree p s = Ok tt s' -> heap_step (s, bs) (s', default bs (free_list START bs p)).

Definition heap_good (x : hsys * list block) : Prop := heap_inv x.1 x.2.

Lemma heap_step_ok x y : heap_good x -> heap_step x y ->
  heap_good y /\ heap_end x.1 <= heap_end y.1 /\
  forall b, START <= b < heap_end x.1 -> b mod 4 = 0 ->
    live START x.2 b -> live START y.2 b -> hrd y.1 b = hrd x.1 b.
Proof.
  unfold heap_good. intros Hinv Hst.
  destruct Hst as [s bs n r s' Hn Hg E|s bs p s' Hp E]; cbn [fst snd] in *.
  - pose proof (wp_run _ _ _ _ _ (kmalloc_wp s bs n Hinv Hn Hg) E) as Hpost.
    destruct (kmalloc_post_blocks _ _ _ _ _ Hn Hpost) as (? & ? & Hpay).
    split; [done|]. split; [done|]. intros; by apply Hpay.
  - pose proof (wp_run _ _ _ _ _ (kfree_wp s bs p Hinv Hp) E) as [He Hpost].
    destruct (free_list START bs p) as [l|]; cbn; destruct Hpost as (? & Hpay & _);
      (split; [done|]; split; [lia|]; intros; by apply Hpay).
Qed.

(** The steps of a run during which the word [b] stays in an allocated block. *)
Definition heap_step_live (b : Z) (x y : hsys * list block) : Prop :=
  heap_step x y /\ live START x.2 b /\ live START y.2 b.

Lemma heap_run_good x y : rtc heap_step x y -> heap_good x -> heap_good y.
Proof. induction 1; [done|]. intros Hx. destruct (heap_step_ok _ _ Hx H); auto. Qed.

Lemma kmalloc_runs s bs n : heap_inv s bs -> 0 < n ->
  (alloc_list START bs (round8 n) = None -> can_grow s (growth n)) ->
  exists r s', rtc heap_step (s, bs) (s', kmalloc_blocks bs n r).
Proof.
  intros Hinv Hn Hg. pose proof (kmalloc_wp s bs n Hinv Hn Hg) as W.
  apply wp_ok in W as (r & s' & E & _). exists r, s'. by eapply rtc_once, step_kmalloc.
Qed.

Lemma kmalloc_final s bs n p l : heap_inv s bs -> 0 < n ->
  (alloc_list START bs (round8 n) = None -> can_grow s (growth n)) ->
  alloc_list START bs (round8 n) = Some (p, l) -> heap_inv (final (kmalloc n s)) l.
Proof.
  intros Hinv Hn Hg E. apply (wp_final (kmalloc n) s (fun s' => heap_inv s' l)).
  eapply wp_mono; [by apply kmalloc_wp|]. intros r s' [_ H]. rewrite E in H. apply H.
Qed.

Lemma heap_live_run b x y : rtc (heap_step_live b) x y -> heap_good x ->
  START <= b < heap_end x.1 -> b mod 4 = 0 -> hrd y.1 b = hrd x.1 b.
Proof.
  induction 1 as [|x y z (Hst & Hx & Hy) Hrun IH]; intros Hg Hb Hm; [done|].
  destruct (heap_step_ok _ _ Hg Hst) as (Hg' & He & Hpay).
  rewrite IH by (done || lia). by apply Hpay.
Qed.

(** What [kheap_get_free] computes: everything that is not payload of an allocated
    block, headers included. *)
Lemma heap_free_bytes s bs : heap_inv s bs ->
  (heap_end s -u heap_start s) -u total_allocated s = span bs - allocated bs.
Proof.
  intros Hinv. destruct (hi_vars _ _ Hinv) as (Es & _ & Em & He). rewrite Es, (hi_alloc _ _ Hinv).
  pose proof (seg_span _ _ _ _ _ (hi_blocks _ _ Hinv)) as Esp.
  pose proof (allocated_bounds bs (inv_sizes _ _ Hinv)).
  unfold HEAP_START_ADDR, MAX_HEAP_SIZE in *. rewrite Esp in He |- *.
  replace (3225419776 + span bs - 3225419776) with (span bs) by lia.
  by rewrite (u32_small (span bs)), u32_small by (unfold is32; lia).
Qed.

(** The block a successful [kmalloc] returned. *)
Lemma kmalloc_block s bs n r s' : heap_inv s bs -> 0 < n -> kmalloc_post s bs n r s' -> r <> 0 ->
  exists pre sz post, kmalloc_blocks bs n r = pre ++ [(sz, false)] ++ post /\
    r = START + span pre + HEADER_SIZE /\ n <= sz /\
    allocated (kmalloc_blocks bs n r) = allocated bs + sz.
Proof.
  intros Hinv Hn Hpost Hr. pose proof (round8_bounds n ltac:(lia)) as [Hr8 _].
  assert (exists bs0 l, alloc_list START bs0 (round8 n) = Some (r, l) /\
            kmalloc_blocks bs n r = l /\ allocated bs0 = allocated bs) as (bs0 & l & E & -> & <-).
  { unfold kmalloc_blocks. destruct Hpost as [_ Hpost].
    destruct (alloc_list START bs (round8 n)) as [[q l]|] eqn:E.
    - destruct Hpost as (-> & _). by exists bs, l.
    - destruct Hpost as [(l & E' & _)|(-> & _)]; [|done]. exists (grow_list bs (growth n)), l.
      rewrite E', allocated_grow. replace (r =? 0) with false by (symmetry; by apply Z.eqb_neq). done. }
  destruct (alloc_list_taken _ _ _ _ _ E) as (pre & sz & post & -> & -> & ? & ?).
  exists pre, sz, post. split_and!; [done|done|lia|done].
Qed.

(** The bytes that are handed out were in no allocated block. *)
Lemma alloc_fresh a bs n p bs' : Forall size_ok bs -> alloc_list a bs n = Some (p, bs') ->
  forall b, p <= b < p + n -> ~ live a bs b.
Proof.
  intros Hok H b Hb Hl. destruct (find_fit a bs n) as [q|] eqn:E.
  2:{ apply find_fit_none in E. by rewrite E in H. }
  apply find_fit_some in E as (pre & sz & post & -> & -> & Hsz & E). rewrite E in H.
  injection H as <- _. apply Forall_app in Hok as [Hpre [_ Hpost]%Forall_app].
  apply live_app in Hl as [Hl|Hl]; [apply live_bounds in Hl; [unfold HEADER_SIZE in *; lia|done]|].
  cbn in Hl. destruct Hl as [[? _]|Hl]; [done|].
  apply live_bounds in Hl; [unfold HEADER_SIZE in *; lia|done].
Qed.

Lemma size_ok_grow bs x : Forall size_ok bs -> HEADER_SIZE <= x -> x mod 4 = 0 ->
  Forall size_ok (grow_list bs x).
Proof.
  intros Hok Hx Hm. unfold HEADER_SIZE in Hx.
  induction Hok as [|[sz fr] r [Hsz Hsm] Hr IH]; [constructor|].
  cbn in Hsz, Hsm. destruct r as [|b r].
  - destruct fr; cbn; repeat constructor; cbn; unfold HEADER_SIZE; try done; try lia.
    + rewrite Z.add_mod, Hsm, Hm by lia. done.
    + rewrite Zminus_mod, Hm. done.
  - by constructor.
Qed.

Lemma kmalloc_fresh s bs n r s' : heap_inv s bs -> 0 < n -> kmalloc_post s bs n r s' -> r <> 0 ->
  forall b, r <= b < r + n -> ~ live START bs b.
Proof.
  intros Hinv Hn [_ Hpost] Hr b Hb. pose proof (inv_sizes _ _ Hinv) as Hok.
  pose proof (round8_bounds n ltac:(lia)) as [Hr8 _].
  destruct (alloc_list START bs (round8 n)) as [[q l]|] eqn:E.
  - destruct Hpost as (-> & _). eapply alloc_fresh; [done|exact E|lia].
  - destruct Hpost as [(l & E' & _)|(-> & _)]; [|done]. intros Hl.
    apply (live_grow _ _ (growth n)) in Hl. revert Hl. eapply alloc_fresh; [|exact E'|lia].
    unfold growth. destruct (page_round_bounds (round8 n + HEADER_SIZE)) as [Hp1 Hp2];
      [unfold HEADER_SIZE; lia|]. apply size_ok_grow; [done|lia|].
    unfold page_round. rewrite <-Z.mul_mod_idemp_r by lia. change (4096 mod 4) with 0.
    by rewrite Z.mul_0_r.
Qed.

(** ** Page-aligned allocation *)

Lemma kmalloc_aligned_wp s bs n : heap_inv s bs -> 0 < n ->
  (alloc_list START bs (round8 (n + PAGE_SIZE)) = None -> can_grow s (growth (n + PAGE_SIZE))) ->
  wp (kmalloc_aligned n) s (fun r s' =>
    exists p bs', bs' = kmalloc_blocks bs (n + PAGE_SIZE) p /\ heap_inv s' bs' /\
      heap_end s <= heap_end s' /\ payload_kept s bs s' /\
      ((r = 0 /\ bs' = bs /\ alloc_list START bs (round8 (n + PAGE_SIZE)) = None) \/
       (r mod 4096 = 0 /\ START < r /\
        forall b, r <= b < r + n -> live START bs' b /\ ~ live START bs b))).
Proof.
  unfold PAGE_SIZE. intros Hinv Hn Hg. unfold kmalloc_aligned, PAGE_SIZE.
  pose proof (request_bound s bs (n + 4096) Hinv ltac:(lia) Hg) as Hmax.
  rewrite (u32_small (n + 4096)) by (unfold is32; lia). wp_step.
  eapply wp_mono; [apply kmalloc_wp; [done|lia|done]|]. intros p s' Hpost. cbv beta.
  destruct (kmalloc_post_blocks s bs (n + 4096) p s' ltac:(lia) Hpost) as (Hinv' & Hend & Hpay).
  wp_step; bools; wp_step; exists p, (kmalloc_blocks bs (n + 4096) p);
    (split; [done|]; split; [done|]; split; [done|]; split; [done|]).
  { left. subst p. destruct Hpost as [_ Hpost]. unfold kmalloc_blocks.
    destruct (alloc_list START bs (round8 (n + 4096))) as [[q l]|] eqn:Ea; [|done].
    destruct Hpost as (<- & Hl & _). pose proof (alloc_addr_pos _ _ _ _ _ Ea Hl) as Hpos.
    by vm_compute in Hpos. }
  right. destruct (kmalloc_block s bs (n + 4096) p s' Hinv ltac:(lia) Hpost ltac:(done))
    as (pre & sz & post & El & Ep & Hsz & _).
  pose proof (inv_sizes _ _ Hinv') as Hok. rewrite El in Hok.
  destruct (hi_vars _ _ Hinv') as (_ & _ & Em & He).
  pose proof (seg_span _ _ _ _ _ (hi_blocks _ _ Hinv')) as Esp. rewrite El in Esp |- *.
  rewrite !span_app in Esp. cbn [span] in Esp.
  apply Forall_app in Hok as [Hpre [Hsz' Hpost']%Forall_app].
  pose proof (span_nonneg pre Hpre). pose proof (span_nonneg post Hpost').
  unfold HEAP_START_ADDR, MAX_HEAP_SIZE, HEADER_SIZE in *.
  rewrite (u32_small (p + 4096)), u32_small, land_page_mask by (unfold is32; lia).
  pose proof (Z.mod_pos_bound (p + 4096 - 1) 4096 ltac:(lia)).
  split; [|split; [lia|]].
  - pose proof (Z.div_mod (p + 4096 - 1) 4096 ltac:(lia)) as Hdm.
    replace (p + 4096 - 1 - _) with ((p + 4096 - 1) / 4096 * 4096) by lia. by apply Z.mod_mul.
  - intros b Hb. split; [|by apply (kmalloc_fresh s bs (n + 4096) p s'); try done; lia].
    apply live_app. right. apply live_app. left. cbn. left.
    split; [done|]. unfold HEADER_SIZE. lia.
Qed.

(** ** Claims *)

(** From the state the boot code leaves, [pmm_init], [paging_init] and [kheap_init]
    return; then either the heap is one free block of 1 MB behind page tables that map it
    to frames of its own, or the frames ran out and the heap is empty. *)
Theorem heap_boot_establishes mbi es s : booted mbi es (h_g s) -> total_allocated s = 0 ->
  exists s', heap_boot mbi s = Ok tt s' /\ paging_inv (h_g s') /\
    ((heap_inv s' init_blocks /\ heap_end s' = START + INITIAL_HEAP_SIZE) \/
     (heap_end s' = START /\ exhausted (h_g s'))).
Proof.
  intros Hb Ht. pose proof (heap_boot_wp mbi es s Hb Ht) as W.
  apply wp_ok in W as ([] & s' & E & s1 & _ & Hp). exists s'. split; [done|].
  destruct Hp as [(Hinv & He & _)|(He & _ & Hex & Hpi)].
  - split; [apply (hm_inv _ _ _ (hi_map _ _ Hinv))|]. by left.
  - split; [done|]. by right.
Qed.

(** C2: [kmalloc] implements first fit on the list of blocks.  It returns the payload
    address of the first free block that is large enough, split when enough is left; when
    none is, it grows the heap by whole pages and takes the block there, or returns [NULL]
    because the heap is at its maximum or the frames ran out.  The blocks tile the heap
    again afterwards and no word of an allocated block changed.  This holds for every size
    that a free block satisfies; a size that needs growth must keep the end of the heap
    within the page tables of [paging_init], at most 0xC1000000, or exceed the maximum
    ([can_grow]).  [heap_expand] does not test for that limit and corrupts the heap
    beyond it ([new_table_overwrites]). *)
Theorem kmalloc_refines s bs n : heap_inv s bs -> 0 < n ->
  (alloc_list START bs (round8 n) = None -> can_grow s (growth n)) ->
  wp (kmalloc n) s (kmalloc_post s bs n).
Proof. apply kmalloc_wp. Qed.

(** C3: [kfree], given the payload address of a block, releases an allocated block and
    joins runs of free neighbours, so that no two free blocks are adjacent; every other
    allocated word keeps its value.  A block that is free already is reported and nothing
    in memory changes. *)
Theorem kfree_refines s bs p : heap_inv s bs -> is_Some (locate START bs p) ->
  wp (kfree p) s (fun _ s' => kfree_post s bs p s').
Proof. apply kfree_wp. Qed.

(** C13: in every run of [kmalloc] and [kfree] calls in which each [kfree] gets the payload
    address of a block and no [kmalloc] grows the heap into the last 4 MB below its maximum
    (past 0xC1000000, where the page tables of [paging_init] end: [can_grow]), the blocks
    tile the heap, the counter
    of [kheap_get_used] is the number of bytes in allocated blocks, and a word keeps its
    value as long as it lies in an allocated block. *)
Theorem heap_runs s bs s' bs' : heap_inv s bs -> rtc heap_step (s, bs) (s', bs') ->
  heap_inv s' bs' /\ kheap_get_used s' = Ok (allocated bs') s' /\
  kheap_get_free s' = Ok (span bs' - allocated bs') s' /\
  forall b, START <= b < heap_end s -> b mod 4 = 0 ->
    rtc (heap_step_live b) (s, bs) (s', bs') -> hrd s' b = hrd s b.
Proof.
  intros Hinv Hrun. pose proof (heap_run_good _ _ Hrun Hinv) as Hinv'. unfold heap_good in Hinv'.
  cbn [fst snd] in Hinv'. split; [done|]. unfold kheap_get_used, kheap_get_free, get.
  rewrite (hi_alloc _ _ Hinv') at 1. rewrite (heap_free_bytes _ _ Hinv').
  split; [done|]. split; [done|]. intros b Hb Hm Hl. by apply (heap_live_run b (s, bs) (s', bs')).
Qed.

(** [kfree] of what [kmalloc] returned gives all the memory back: the number of used
    bytes is what it was before. *)
Theorem kmalloc_kfree_roundtrip s bs n : heap_inv s bs -> 0 < n ->
  (alloc_list START bs (round8 n) = None -> can_grow s (growth n)) ->
  wp (p <- kmalloc n ;; kfree p) s (fun _ s' =>
    kheap_get_used s' = Ok (allocated bs) s' /\ exists bs', heap_inv s' bs').
Proof.
  intros Hinv Hn Hg. wp_step. eapply wp_mono; [by apply kmalloc_wp|]. intros p s1 Hpost. cbv beta.
  destruct (kmalloc_post_blocks _ _ _ _ _ Hn Hpost) as (Hinv1 & _ & _).
  destruct (Z.eq_dec p 0) as [->|Hp].
  { unfold kfree. wp_step; [|done]. wp_step. unfold kheap_get_used, get.
    assert (kmalloc_blocks bs n 0 = bs) as Eb.
    { unfold kmalloc_blocks in *. destruct Hpost as [_ Hpost].
      destruct (alloc_list START bs (round8 n)) as [[q l]|] eqn:Ea; [|done].
      destruct Hpost as (<- & ? & _). pose proof (alloc_addr_pos _ _ _ _ _ Ea Hinv1) as Hpos.
      by vm_compute in Hpos. }
    rewrite Eb in Hinv1. split; [by rewrite (hi_alloc _ _ Hinv1)|by exists bs]. }
  destruct (kmalloc_block _ _ _ _ _ Hinv Hn Hpost Hp) as (pre & sz & post & El & Ep & _ & Ea).
  pose proof (inv_sizes _ _ Hinv1) as Hok. rewrite El in *. apply Forall_app in Hok as [Hpre _].
  pose proof (locate_at START pre (sz, false) post Hpre) as Eloc. rewrite <-Ep in Eloc.
  eapply wp_mono; [apply kfree_wp; [exact Hinv1|eexists; exact Eloc]|]. intros [] s2 [_ Hpost2].
  unfold free_list in Hpost2. cbn [app] in Hpost2. rewrite Eloc in Hpost2.
  destruct Hpost2 as (Hinv2 & _). split; [|by eexists]. unfold kheap_get_used, get. f_equal.
  rewrite (hi_alloc _ _ Hinv2), allocated_merged. rewrite !allocated_app in *. cbn in *. lia.
Qed.

(** C29: [kmalloc_aligned] returns [NULL] or a page-aligned address such that the
    requested bytes from it on lie in an allocated block and lay in none before.  The
    request is [size + PAGE_SIZE] bytes: a free block satisfies it, or the heap grows for
    it and stays within 0xC1000000, or it exceeds the maximum without wrapping around at
    32 bits ([can_grow]); the code tests the first and the last of these only. *)
Theorem kmalloc_aligned_correct s bs n : heap_inv s bs -> 0 < n ->
  (alloc_list START bs (round8 (n + PAGE_SIZE)) = None -> can_grow s (growth (n + PAGE_SIZE))) ->
  wp (kmalloc_aligned n) s (fun r s' =>
    exists bs', heap_inv s' bs' /\ heap_end s <= heap_end s' /\ payload_kept s bs s' /\
      (r = 0 \/ (r mod 4096 = 0 /\ START < r /\
        forall b, r <= b < r + n -> live START bs' b /\ ~ live START bs b))).
Proof.
  intros Hinv Hn Hg. eapply wp_mono; [by apply kmalloc_aligned_wp|].
  intros r s' (p & bs' & _ & ? & ? & ? & H). exists bs'. split_and!; [done..|].
  destruct H as [[? _]|H]; [by left|by right].
Qed.

(** The rounding of the size in [kmalloc] wraps around: a request for one of the
    seven largest sizes is served with a block for 0 bytes instead of failing. *)
Theorem kmalloc_size_wraps s bs n p : heap_inv s bs -> 0xFFFFFFF9 <= n <= 0xFFFFFFFF ->
  find_fit START bs 0 = Some p ->
  wp (kmalloc n) s (fun r s' => r <> 0 /\ exists bs',
    alloc_list START bs 0 = Some (r, bs') /\ heap_inv s' bs').
Proof.
  intros Hinv Hn Hfit. unfold kmalloc. destruct (Z.eqb_spec n 0); [lia|].
  assert (Z.land (n +u 7) 0xFFFFFFF8 = 0) as ->.
  { unfold u32. replace (n + 7) with (n - 4294967289 + 1 * 4294967296) by lia.
    rewrite Z.mod_add, Z.mod_small, land_mask8 by (unfold is32; lia). rewrite Z.mod_small; lia. }
  wp_step. eapply wp_mono; [by apply (find_free_block_wp s bs 0)|]. intros b s1 [-> ->].
  rewrite Hfit. change (default 0 (Some p)) with p.
  rewrite (proj2 (Z.eqb_neq p 0) (find_fit_pos _ _ _ _ Hinv Hfit)). eapply wp_mono; [by apply (take_found_wp s bs 0 p)|].
  intros r s' (bs' & E & Hinv' & _). split; [|by exists bs'].
  pose proof (alloc_addr_pos _ _ _ _ _ E Hinv') as Hpos. intros ->. by vm_compute in Hpos.
Qed.
End HeapSpec.

(** ** Witnesses *)

Definition demo_heap_boot : hsys := Hsys demo_boot_8M 0 0 0 0 0.
Definition demo_heap : hsys := final (@heap_boot demo_layout 0x9000 demo_heap_boot).

(** The boot runs: the heap has its first megabyte, frames above 4 MB are free, and no page
    table covers 0xC1000000. *)
Definition heap_facts (s : hsys) :=
  (heap_end s, total_frames (g_p (h_g s)), frame_bit (frame_bitmap (g_p (h_g s))) 0x400,
   table_of (ram (g_hw (h_g s))) (@paging_get_directory demo_layout) 772).

Lemma demo_heap_computed : heap_facts demo_heap = (0xC0500000, 1772, false, None).
Proof. vm_compute. reflexivity. Qed.

Lemma demo_heap_facts : heap_end demo_heap = 0xC0500000 /\
  total_frames (g_p (h_g demo_heap)) = 1772 /\
  frame_bit (frame_bitmap (g_p (h_g demo_heap))) 0x400 = false /\
  table_of (ram (g_hw (h_g demo_heap))) (@paging_get_directory demo_layout) 772 = None.
Proof.
  pose proof demo_heap_computed as E. unfold heap_facts in E. revert E. generalize demo_heap. intros s [= -> -> -> ->].
  by split_and!.
Qed.

Definition demo_heap_end : heap_end demo_heap = 0xC0500000 := proj1 demo_heap_facts.

#[local] Existing Instance demo_layout.

Lemma demo_heap_inv : heap_inv demo_heap init_blocks.
Proof.
  pose proof (heap_boot_wp 0x9000 (demo_map 0x700000) demo_heap_boot demo_booted eq_refl) as W.
  apply (wp_final _ _ (fun s' => exists g, memory_ready _ g /\ init_post (update h_lens g demo_heap_boot) s')) in W.
  fold demo_heap in W. destruct W as (s1 & _ & [[Hinv _]|[He _]]); [exact Hinv|].
  rewrite demo_heap_end in He. by vm_compute in He.
Qed.

#[global] Opaque demo_heap.

Lemma demo_can_grow : can_grow demo_heap (growth 100) /\ can_grow demo_heap (growth (100 + PAGE_SIZE)).
Proof.
  unfold can_grow. rewrite demo_heap_end. split; (split; [by vm_compute|left; by vm_compute]).
Qed.

(** The heap with one block of 104 bytes in use. *)
Definition demo_heap1 : hsys := final (kmalloc 100 demo_heap).
Definition demo_blocks1 : list block := [(104, false); (1048448, true)].

Lemma demo_heap1_inv : heap_inv demo_heap1 demo_blocks1.
Proof.
  unfold demo_heap1. eapply kmalloc_final; [exact demo_heap_inv|lia|exact (fun _ => proj1 demo_can_grow)|].
  vm_compute. reflexivity.
Qed.

#[global] Opaque demo_heap1.

Lemma heap_boot_establishes_witness :
  exists s', heap_boot 0x9000 demo_heap_boot = Ok tt s' /\ paging_inv (h_g s') /\
    ((heap_inv s' init_blocks /\ heap_end s' = HEAP_START_ADDR + INITIAL_HEAP_SIZE) \/
     (heap_end s' = HEAP_START_ADDR /\ exhausted (h_g s'))).
Proof.
  exact (heap_boot_establishes 0x9000 (demo_map 0x700000) demo_heap_boot demo_booted eq_refl).
Defined.

Lemma kmalloc_refines_witness : wp (kmalloc 100) demo_heap (kmalloc_post demo_heap init_blocks 100).
Proof.
  exact (kmalloc_refines demo_heap init_blocks 100 demo_heap_inv ltac:(lia) (fun _ => proj1 demo_can_grow)).
Defined.

Lemma kfree_refines_witness :
  wp (kfree 0xC040000C) demo_heap1 (fun _ s' => kfree_post demo_heap1 demo_blocks1 0xC040000C s').
Proof.
  apply (kfree_refines demo_heap1 demo_blocks1 0xC040000C demo_heap1_inv). vm_compute. eauto.
Defined.

Lemma heap_runs_witness : exists r s',
  rtc heap_step (demo_heap, init_blocks) (s', kmalloc_blocks init_blocks 100 r) /\
  heap_inv s' (kmalloc_blocks init_blocks 100 r).
Proof.
  destruct (kmalloc_runs demo_heap init_blocks 100 demo_heap_inv ltac:(lia) (fun _ => proj1 demo_can_grow))
    as (r & s' & Hrun).
  exists r, s'. split; [exact Hrun|]. exact (proj1 (heap_runs _ _ _ _ demo_heap_inv Hrun)).
Defined.

Lemma kmalloc_kfree_roundtrip_witness :
  wp (p <- kmalloc 100 ;; kfree p) demo_heap (fun _ s' =>
    kheap_get_used s' = Ok (allocated init_blocks) s' /\ exists bs', heap_inv s' bs').
Proof.
  exact (kmalloc_kfree_roundtrip demo_heap init_blocks 100 demo_heap_inv ltac:(lia) (fun _ => proj1 demo_can_grow)).
Defined.

Lemma kmalloc_aligned_correct_witness :
  wp (kmalloc_aligned 100) demo_heap (fun r s' =>
    exists bs', heap_inv s' bs' /\ heap_end demo_heap <= heap_end s' /\
      payload_kept demo_heap init_blocks s' /\
      (r = 0 \/ (r mod 4096 = 0 /\ HEAP_START_ADDR < r /\
                 forall b, r <= b < r + 100 -> live HEAP_START_ADDR bs' b /\
                   ~ live HEAP_START_ADDR init_blocks b))).
Proof.
  apply (kmalloc_aligned_correct demo_heap init_blocks 100 demo_heap_inv);
    [lia|exact (fun _ => proj2 demo_can_grow)].
Defined.

Lemma kmalloc_size_wraps_witness :
  wp (kmalloc 0xFFFFFFFF) demo_heap (fun r s' => r <> 0 /\ exists bs',
    alloc_list HEAP_START_ADDR init_blocks 0 = Some (r, bs') /\ heap_inv s' bs').
Proof.
  apply (kmalloc_size_wraps demo_heap init_blocks 0xFFFFFFFF HEAP_START_ADDR demo_heap_inv);
    [lia|by vm_compute].
Defined.
