(* ===== verification/HeapLimit.v ===== *)
(** * Where the heap stops being safe

    [paging_init] provides page tables up to 0xC1000000, 4 MB below the maximum of the heap.
    [paging_map_page] makes a missing table in the first free frame and reaches it at
    [PHYS_TO_VIRT] of that frame.  Above the first 4 MB of the kernel window these addresses
    belong to the heap, so the new table is written over a page of the heap instead: the
    reason for the limit [can_grow] in the properties of [kernel/kheap.c]. *)

From stdpp Require Import base gmap list numbers option strings.
From Stdlib Require Import ZArith Lia.
From S2P Require Import Prelude Machine PageTables Pmm Paging PagingInit Boot PmmSpec PagingSpec.
From S2P Require Import HeapList Kheap HeapInv HeapSpec.

Section HeapLimit.
Context {L : Layout} {LOk : LayoutOk L}.

Abbreviation START := HEAP_START_ADDR.
Abbreviation PDp := paging_get_directory.
Abbreviation mem s := (g_hw (h_g s)).

(** The frame [pmm_alloc_frame] hands out next. *)
Definition next_frame (g : gsys) (f : Z) : Prop :=
  0 <= f < scan_limit (g_p g) /\ frame_bit (frame_bitmap (g_p g)) f = false /\
  all_used (frame_bitmap (g_p g)) f.

(** ** Words of a page that is mapped somewhere *)

Lemma page_word h P F k : is32 P -> P mod 4096 = 0 -> translate h P = Some F -> 0 <= k < 1024 ->
  table_entry P k = P + 4 * k /\ is32 (P + 4 * k) /\ (P + 4 * k) mod 4 = 0 /\
  translate h (P + 4 * k) = Some (F + 4 * k).
Proof.
  intros H32 Ha Ht Hk. unfold is32 in H32. pose proof Ha as Ha'. apply Z.mod_divide in Ha' as [x ->]; [|lia].
  unfold table_entry. rewrite u32_small by (unfold is32; lia). split; [done|]. split; [unfold is32; lia|]. split.
  - replace (x * 4096 + 4 * k) with ((x * 1024 + k) * 4) by lia. apply Z.mod_mul. lia.
  - apply translate_offset; [done|rewrite Ha; lia|lia].
Qed.

Lemma page_store h P F k v : is32 P -> P mod 4096 = 0 -> translate h P = Some F -> 0 <= k < 1024 ->
  vst32 (table_entry P k) v h = Ok tt (set_ram (st32 (ram h) (F + 4 * k) v) h).
Proof. intros. destruct (page_word h P F k) as (-> & ? & ? & ?); try done. by apply vst32_aligned. Qed.

(** The loop of [new_page_table], through a page that is mapped to the data frame [F]. *)
Lemma clear_page_wp P F s : kmap_wf (g_hw s) -> page_aligned F -> data_frame (ram (g_hw s)) PDp F ->
  is32 P -> P mod 4096 = 0 -> translate (g_hw s) P = Some F ->
  wp (for_loop PAGE_ENTRIES 1 (fun i => hw (vst32 (table_entry P i) 0)) 0) s
     (fun _ s' => exists h, s' = set_hw h s /\ clearing F (g_hw s) 1024 h).
Proof.
  intros Hw Hal HF H32 Ha Ht.
  apply (wp_for_loop _ _ _ (fun k s' => exists h, s' = set_hw h s /\ clearing F (g_hw s) k h)); try done.
  - exists (g_hw s). split; [by rewrite set_hw_id|]. split; try done. intros; lia.
  - intros k s' Hk _ (h & -> & Hcl).
    assert (translate h P = Some F) as Ht'.
    { rewrite <-Ht. unfold translate. rewrite (kw_cr3 _ Hw), (kw_cr3 _ (cl_map _ _ _ _ Hcl)).
      by rewrite (cl_walk _ _ _ _ Hcl). }
    eapply wp_hw_vst32; [by apply page_store|]. eexists. split; [done|]. by apply clearing_step.
Qed.

(** A new directory entry leaves the addresses below the other entries alone. *)
Lemma pde_store_other h i v va : kmap_wf h -> 0 <= i < 1024 -> is32 v -> is32 va -> pd_index va <> i ->
  translate (set_ram (st32 (ram h) (PDp + 4 * i) v) h) va = translate h va.
Proof.
  intros Hw Hi Hv Hva Hne. destruct PDp_aligned as [Hal _]. unfold translate. cbn [ram cr3 set_ram].
  rewrite (kw_cr3 _ Hw), !walk_tables by done. pose proof (pd_index_range va Hva) as Hr.
  rewrite table_of_pde, decide_False by done.
  destruct (table_of (ram h) PDp (pd_index va)) as [T|] eqn:HT; [|done]. cbn. f_equal. unfold pte_of.
  destruct (kw_table _ Hw _ _ Hr HT) as [_ HneT]. destruct (table_of_aligned _ _ _ _ HT) as [_ HaT].
  by rewrite ld32_st32_frame by (done || apply Hal || apply pt_index_range).
Qed.

Lemma mapped_table h va F : kmap_wf h -> translate h va = Some F ->
  exists T, table_of (ram h) PDp (pd_index va) = Some T.
Proof.
  intros Hw. unfold translate. rewrite (walk_kernel _ _ Hw).
  destruct (table_of (ram h) PDp (pd_index va)) as [T|]; [by exists T|done].
Qed.

(** The directory can still be read and written after the new entry. *)
Lemma pd_word_kept h i v : kmap_wf h -> 0 <= i < 1024 -> is32 v -> table_of (ram h) PDp i = None ->
  vread (set_ram (st32 (ram h) (PDp + 4 * i) v) h) (pd_entry i) = Some v.
Proof.
  intros Hw Hi Hv Hn. rewrite pd_entry_eq. destruct PDp_aligned as [Hal Hlt].
  destruct (window_word h PDp i (kw_direct _ Hw) Hal ltac:(lia) Hi) as (H32 & H4 & Ht).
  set (a := table_entry (PHYS_TO_VIRT PDp) i) in *. destruct (mapped_table _ _ _ Hw Ht) as [T HT].
  rewrite (vread_aligned _ a (PDp + 4 * i)); [|done|done|].
  - cbn [ram set_ram]. by rewrite ld32_st32.
  - rewrite pde_store_other; [done|done|done|done|done|congruence].
Qed.

(** ** The new table lands in the heap *)

(** What is left of the heap page [P], which lies in the frame [F]. *)
Definition overwritten (g g' : gsys) (i k P f pte : Z) : Prop :=
  (forall j, 0 <= j < 1024 -> vread (g_hw g') (P + 4 * j) = Some (if decide (j = k) then pte else 0)) /\
  table_of (ram (g_hw g')) PDp i = Some (PAGE_SIZE * f) /\
  forall b, 0 <= b < 4096 -> ld8 (ram (g_hw g')) (PAGE_SIZE * f + b) = ld8 (ram (g_hw g)) (PAGE_SIZE * f + b).

(** Memory after the three stores: the cleared page, the directory entry, the table entry. *)
Lemma stores_overwrite g f i k P F h1 v pte h : paging_inv g -> 0 <= f < FRAMES ->
  frame_bit (frame_bitmap (g_p g)) f = false -> heap_frame g F -> page_aligned F ->
  is32 P -> P mod 4096 = 0 -> translate (g_hw g) P = Some F ->
  0 <= i < 1024 -> 0 <= k < 1024 -> table_of (ram (g_hw g)) PDp i = None ->
  is32 v -> has_bits v 1 = true -> Z.land v 0xFFFFF000 = PAGE_SIZE * f -> is32 pte ->
  clearing F (g_hw g) 1024 h1 ->
  same_mem (set_ram (st32 (st32 (ram h1) (PDp + 4 * i) v) (F + 4 * k) pte) h1) h ->
  overwritten g (set_hw h g) i k P f pte.
Proof.
  intros Hinv Hf Hfree (HF & HFr & HFb) Hal H32 Ha Ht Hi Hk Hn Hv Hvb Hvm Hp32 [Hm1 Hw1 Ht1 Hz1 Ho1] Hs.
  destruct PDp_aligned as [Hpd Hpdlt]. pose proof HF as (HFa & HFne & HFt).
  destruct (frame_of_aligned f Hf) as [[_ Hfa] Hdiv]. pose proof (free_frame_data g f Hinv Hf Hfree) as (_ & Hfne & _).
  assert (translate h1 P = Some F) as HP1.
  { rewrite <-Ht. unfold translate. rewrite (kw_cr3 _ (pi_map _ Hinv)), (kw_cr3 _ Hm1). by rewrite Hw1. }
  assert (pd_index P <> i) as HPi.
  { destruct (mapped_table _ _ _ Hm1 HP1) as [T HT]. rewrite Ht1 in HT by (by apply pd_index_range). congruence. }
  set (h2 := set_ram (st32 (ram h1) (PDp + 4 * i) v) h1).
  assert (table_of (ram h2) PDp i = Some (PAGE_SIZE * f)) as HT2.
  { cbn. rewrite table_of_pde by done. by rewrite decide_True, Hvb, Hvm. }
  assert (F <> PAGE_SIZE * f) as HFf by (intros ->; rewrite Hdiv in HFb; congruence).
  assert (forall j, 0 <= j < 1024 -> table_of (ram h2) PDp j <> Some F) as HF2.
  { intros j Hj. cbn. rewrite table_of_pde by done. rewrite Hvb, Hvm. case_decide; [congruence|].
    rewrite Ht1 by done. by apply HFt. }
  assert (data_frame (ram h2) PDp F) as HFd by done.
  assert (translate h P = Some F) as HP.
  { rewrite <-HP1, <-(pde_store_other h1 i v P) by done. fold h2. rewrite <-(translate_proper _ _ Hs P P eq_refl).
    unfold translate. change (cr3 h2) with (cr3 h1). cbn [ram cr3 set_ram]. rewrite (kw_cr3 _ Hm1).
    fold (ram h2). by rewrite (walk_data (ram h2)). }
  destruct Hs as [Hr _]. cbn [ram set_ram] in Hr. split; [|split].
  - intros j Hj. change (g_hw (set_hw h g)) with h. destruct (page_word h P F j H32 Ha HP Hj) as (_ & A1 & A2 & A3).
    rewrite (vread_aligned _ _ _ A1 A2 A3), <-Hr. f_equal. case_decide as E.
    + subst j. by apply ld32_st32.
    + rewrite ld32_st32_index by done. rewrite ld32_st32_frame by (done || apply Hpd || congruence). by apply Hz1.
  - change (g_hw (set_hw h g)) with h. rewrite <-Hr. fold (ram h2). by rewrite table_of_data.
  - intros b Hb. change (g_hw (set_hw h g)) with h. rewrite <-Hr. unfold PAGE_SIZE in *.
    apply Z.mod_divide in HFa as [x Hx]; [|lia]. destruct Hpd as [_ Hpda]. apply Z.mod_divide in Hpda as [y Hy]; [|lia].
    rewrite ld8_st32_frame by (done || lia || (rewrite Hx; apply Z.mod_mul; lia)).
    rewrite ld8_st32_frame by (done || lia || (rewrite Hy; apply Z.mod_mul; lia)).
    apply Ho1. lia.
Qed.

Lemma new_table_wp g va pa flags f P F : paging_inv g -> is32 va -> is32 pa -> next_frame g f ->
  table_of (ram (g_hw g)) PDp (pd_index va) = None ->
  P = KERNEL_VIRTUAL_BASE + PAGE_SIZE * f -> is32 P -> translate (g_hw g) P = Some F -> heap_frame g F ->
  wp (paging_map_page va pa flags) g (fun _ g' =>
    overwritten g g' (pd_index va) (pt_index va) P f (make_pte pa flags)).
Proof.
  intros Hinv Hva Hpa (Hf & Hfree & Hlow) Hn EP H32 Ht HFr. pose proof (pi_map _ Hinv) as Hw.
  pose proof (pd_index_range va Hva) as Hi. pose proof (pt_index_range va) as Hk.
  assert (0 <= f < FRAMES) as HfF by (destruct (pi_pmm _ Hinv) as (_ & _ & ?); lia).
  destruct (frame_of_aligned f HfF) as [Hfal Hdiv].
  assert (P mod 4096 = 0) as Ha.
  { subst P. unfold KERNEL_VIRTUAL_BASE, PAGE_SIZE. replace (3221225472 + 4096 * f) with ((786432 + f) * 4096) by lia.
    apply Z.mod_mul. lia. }
  assert (PHYS_TO_VIRT (PAGE_SIZE * f) = P) as EPV.
  { unfold PHYS_TO_VIRT, KERNEL_VIRTUAL_BASE in *. rewrite u32_small; [lia|]. unfold is32 in *. lia. }
  assert (page_aligned F) as Hal.
  { destruct HFr as ((HFa & _) & HFr & _). split; [|done]. apply Z.mod_divide in HFa as [x ->]; [|lia].
    rewrite Z.div_mul in HFr by lia. unfold is32, FRAMES in *. lia. }
  unfold paging_map_page. fold (pd_index va) (pt_index va). cbv zeta.
  wp_step. eapply wp_hw_vld32; [by apply pd_read|]. unfold PAGE_PRESENT at 1.
  destruct (has_bits (ld32 _ (PDp + _)) 1) eqn:Hb; [by rewrite (table_of_pd _ _ Hb) in Hn|].
  wp_step. unfold new_page_table. wp_step. wp_step. change (view g_lens g) with (g_p g).
  eapply wp_mono; [apply pmm_alloc_frame_wp, Hinv|]. cbv beta.
  intros r p' [(f' & Hf' & Hbit & Hall & -> & ->)|(Hall & _)]; [|by rewrite Hall in Hfree].
  assert (f' = f) as ->.
  { destruct (Z.lt_trichotomy f f') as [Hlt|[->|Hlt]]; [|done|].
    - rewrite Hall in Hfree by lia. done.
    - rewrite Hlow in Hbit by lia. done. }
  assert (f <> 0) as Hf0 by (intros ->; by rewrite (pi_zero _ Hinv) in Hfree).
  wp_step; bools; [unfold PAGE_SIZE in *; lia|]. set (s1 := update g_lens _ g). cbv zeta. rewrite EPV.
  wp_step. eapply wp_mono; [apply (clear_page_wp P F s1); [exact Hw|done|exact (proj1 HFr)|done|done|exact Ht]|].
  intros [] ? (h1 & -> & Hcl). pose proof (cl_map _ _ _ _ Hcl) as Hm1.
  destruct (pde_value_spec (PAGE_SIZE * f) flags Hfal) as (Hv32 & Hvb & Hvm).
  assert (table_of (ram h1) PDp (pd_index va) = None) as Hn1 by (by rewrite (cl_table _ _ _ _ Hcl)).
  wp_step. eapply wp_hw_vst32; [by apply pd_write|]. fold (pde_value (PAGE_SIZE * f) flags). wp_step. cbn [negb].
  wp_step. eapply wp_hw_vld32; [by apply pd_word_kept|]. rewrite Hvm, EPV. wp_step.
  destruct (make_pte_spec pa flags Hpa) as (Hp32 & _). fold (make_pte pa flags).
  assert (translate h1 P = Some F) as HP1.
  { rewrite <-Ht. unfold translate. rewrite (kw_cr3 _ Hw), (kw_cr3 _ Hm1). by rewrite (cl_walk _ _ _ _ Hcl). }
  assert (pd_index P <> pd_index va) as HPi.
  { destruct (mapped_table _ _ _ Hm1 HP1) as [T HT]. intros Ei. rewrite Ei in HT. congruence. }
  eapply wp_hw_vst32; [apply (page_store _ P F); [done|done| |done]; etransitivity; [by apply (pde_store_other h1)|done]|].
  apply wp_flush. intros h Hh _.
  exact (stores_overwrite g f (pd_index va) (pt_index va) P F h1 (pde_value (PAGE_SIZE * f) flags) (make_pte pa flags) h
    Hinv HfF Hfree HFr Hal H32 Ha Ht Hi Hk Hn Hv32 Hvb Hvm Hp32 Hcl Hh).
Qed.

(** ** Claim *)

(** C39: a new page table can overwrite the heap.  When no table covers the address that is
    mapped and [PHYS_TO_VIRT] of the next free frame is in the heap, as it is once the frames
    below 4 MB are used up, [paging_map_page] returns normally after it has cleared that page
    of the heap, whatever blocks lie in it, and written the table entry there.  The frame that
    becomes the page table is not written at all. *)
Theorem new_table_overwrites s bs va pa flags f : heap_inv s bs -> is32 va -> is32 pa ->
  table_of (ram (mem s)) PDp (pd_index va) = None -> next_frame (h_g s) f ->
  START <= KERNEL_VIRTUAL_BASE + PAGE_SIZE * f < heap_end s ->
  wp (zoom h_lens (paging_map_page va pa flags)) s (fun _ s' =>
    (forall k, 0 <= k < 1024 -> hrd s' (KERNEL_VIRTUAL_BASE + PAGE_SIZE * f + 4 * k) =
       if decide (k = pt_index va) then make_pte pa flags else 0) /\
    table_of (ram (mem s')) PDp (pd_index va) = Some (PAGE_SIZE * f) /\
    forall b, 0 <= b < 4096 ->
      ld8 (ram (mem s')) (PAGE_SIZE * f + b) = ld8 (ram (mem s)) (PAGE_SIZE * f + b)).
Proof.
  intros Hinv Hva Hpa Hn Hf Hr. pose proof (hi_map _ _ Hinv) as Hm.
  set (P := KERNEL_VIRTUAL_BASE + PAGE_SIZE * f) in *.
  assert (heap_page START (heap_end s) P) as HP.
  { split; [done|]. subst P. unfold KERNEL_VIRTUAL_BASE, PAGE_SIZE.
    replace (3221225472 + 4096 * f) with ((786432 + f) * 4096) by lia. apply Z.mod_mul. lia. }
  destruct (hm_page _ _ _ Hm P HP) as (F & Ht & HF). pose proof (heap_page_32 _ _ _ _ Hm HP) as H32.
  wp_step. eapply wp_mono.
  { exact (new_table_wp (h_g s) va pa flags f P F (hm_inv _ _ _ Hm) Hva Hpa Hf Hn eq_refl H32 Ht HF). }
  intros [] g (H1 & H2 & H3). split; [|done]. intros k Hk. unfold hrd.
  change (mem (update h_lens g s)) with (g_hw g). by rewrite H1.
Qed.

(** ** Fewer free frames *)

Definition h_taken (s : hsys) (f : Z) : hsys := update h_lens (taken (h_g s) f) s.

Lemma taken_heap s bs f : heap_inv s bs -> 0 <= f < FRAMES -> heap_inv (h_taken s f) bs.
Proof.
  intros Hinv Hf. pose proof (hi_map _ _ Hinv) as Hm. pose proof (hm_inv _ _ _ Hm) as Hi.
  assert (heap_map START (heap_end s) (taken (h_g s) f)) as Hm'.
  { destruct Hm as [_ Hr Ha Hp Hinj]. split; [by apply taken_inv|done|done| |exact Hinj].
    intros va Hva. destruct (Hp va Hva) as (F & Ht & HF & HFr & HFb). exists F. split; [exact Ht|].
    split; [exact HF|]. split; [done|]. rewrite taken_bit by done. by rewrite HFb, orb_true_r. }
  destruct Hinv as [_ Hwt Hv Hb Hne Ha]. split; [exact Hm'|exact Hwt|exact Hv| |exact Hne|exact Ha].
  revert Hb. apply blocks_same. intros b (_ & Hb). split; [by split|done].
Qed.

Lemma taken_all s bs fs : heap_inv s bs -> Forall (fun f => 0 <= f < FRAMES) fs ->
  let s' := foldl h_taken s fs in
  heap_inv s' bs /\ mem s' = mem s /\ heap_end s' = heap_end s /\
  total_frames (g_p (h_g s')) = total_frames (g_p (h_g s)) /\
  forall x, 0 <= x < FRAMES -> frame_bit (frame_bitmap (g_p (h_g s'))) x =
    bool_decide (x ∈ fs) || frame_bit (frame_bitmap (g_p (h_g s))) x.
Proof.
  intros Hinv Hfs. revert s Hinv. induction Hfs as [|f fs Hf Hfs IH]; intros s Hinv s'.
  - split; [done|]. do 3 (split; [done|]). intros x _. by rewrite bool_decide_false by apply not_elem_of_nil.
  - destruct (IH _ (taken_heap s bs f Hinv Hf)) as (H1 & H2 & H3 & H4 & H5).
    split; [exact H1|]. split; [exact H2|]. split; [exact H3|]. split; [exact H4|]. intros x Hx.
    unfold s'. cbn [foldl]. rewrite H5 by done. change (h_g (h_taken s f)) with (taken (h_g s) f).
    rewrite taken_bit by (done || apply (hi_map _ _ Hinv)).
    destruct (Z.eqb_spec f x) as [->|Hne].
    + rewrite (bool_decide_true (x ∈ x :: fs)) by constructor. by rewrite orb_true_r.
    + rewrite orb_false_l. f_equal. apply bool_decide_ext. rewrite elem_of_cons. naive_solver.
Qed.
End HeapLimit.

(** ** Witness *)

#[local] Existing Instance demo_layout.

(** The booted heap when the frames below 4 MB are in use. *)
Definition low_frames : list Z := seqZ 0 1024.
Definition demo_crowded : hsys := foldl h_taken demo_heap low_frames.

Lemma low_frames_ok : Forall (fun f => 0 <= f < FRAMES) low_frames.
Proof. apply Forall_forall. intros f Hf%elem_of_seqZ. unfold FRAMES. lia. Qed.

Lemma crowded s bs : heap_inv s bs -> total_frames (g_p (h_g s)) = 1772 ->
  frame_bit (frame_bitmap (g_p (h_g s))) 0x400 = false ->
  let s' := foldl h_taken s low_frames in
  heap_inv s' bs /\ heap_end s' = heap_end s /\ g_hw (h_g s') = g_hw (h_g s) /\ next_frame (h_g s') 0x400.
Proof.
  intros Hinv Ht Hb s'. destruct (taken_all s bs low_frames Hinv low_frames_ok) as (H1 & H2 & H3 & H4 & H5).
  fold s' in H1, H2, H3, H4, H5. clearbody s'. split; [exact H1|]. split; [exact H3|]. split; [exact H2|].
  unfold next_frame, scan_limit. rewrite H4, Ht. split; [by vm_compute|]. split.
  - rewrite H5, Hb, orb_false_r by (unfold FRAMES; lia). apply bool_decide_false. intros Hx%elem_of_seqZ. lia.
  - intros g Hg. rewrite H5 by (unfold FRAMES; lia). rewrite bool_decide_true; [done|]. apply elem_of_seqZ. lia.
Qed.

Lemma demo_crowded_ok : heap_inv demo_crowded init_blocks /\ heap_end demo_crowded = 0xC0500000 /\
  next_frame (h_g demo_crowded) 0x400 /\
  table_of (ram (g_hw (h_g demo_crowded))) paging_get_directory (pd_index 0xC1000000) = None.
Proof.
  destruct demo_heap_facts as (E1 & E2 & E3 & E4).
  destruct (crowded demo_heap init_blocks demo_heap_inv E2 E3) as (H1 & H2 & H3 & H4).
  fold demo_crowded in H1, H2, H3, H4. split; [exact H1|]. split; [exact (eq_trans H2 E1)|]. split; [exact H4|].
  change (pd_index 0xC1000000) with 772. rewrite H3. exact E4.
Qed.

#[local] Opaque demo_crowded.

Lemma new_table_overwrites_witness :
  wp (zoom h_lens (paging_map_page 0xC1000000 0x500000 3)) demo_crowded (fun _ s' =>
    (forall k, 0 <= k < 1024 -> hrd s' (KERNEL_VIRTUAL_BASE + PAGE_SIZE * 0x400 + 4 * k) =
       if decide (k = pt_index 0xC1000000) then make_pte 0x500000 3 else 0) /\
    table_of (ram (g_hw (h_g s'))) paging_get_directory (pd_index 0xC1000000) = Some (PAGE_SIZE * 0x400) /\
    forall b, 0 <= b < 4096 -> ld8 (ram (g_hw (h_g s'))) (PAGE_SIZE * 0x400 + b) =
      ld8 (ram (g_hw (h_g demo_crowded))) (PAGE_SIZE * 0x400 + b)).
Proof.
  assert (is32 0xC1000000 /\ is32 0x500000) as [V P] by (unfold is32; lia).
  assert (HEAP_START_ADDR <= KERNEL_VIRTUAL_BASE + PAGE_SIZE * 0x400 < 0xC0500000) as R by by vm_compute.
  pose proof demo_crowded_ok as (H1 & H2 & H3 & H4). rewrite <-H2 in R.
  exact (new_table_overwrites demo_crowded init_blocks 0xC1000000 0x500000 3 0x400 H1 V P H4 H3 R).
Defined.
