(* ===== verification/Vmm.v ===== *)
(** * The virtual memory manager ([kernel/vmm.c], [kernel/vmm.h])

    Regions live in a static pool and are linked by pointers into it; an address space
    is the kernel's static one or a structure from the heap, named by its address. *)

From stdpp Require Import base gmap list numbers option strings.
From Stdlib Require Import ZArith Lia.
From S2P Require Import Prelude Machine Pmm Paging Kheap.

Inductive region_type :=
  | REGION_FREE | REGION_KERNEL_CODE | REGION_KERNEL_DATA | REGION_KERNEL_HEAP
  | REGION_KERNEL_STACK | REGION_IDENTITY_MAP | REGION_USER_CODE | REGION_USER_DATA
  | REGION_USER_HEAP | REGION_USER_STACK | REGION_MMIO.

#[export] Instance region_type_eq_dec : EqDecision region_type.
Proof. solve_decision. Defined.

Definition type_code (t : region_type) : Z :=
  match t with
  | REGION_FREE => 0 | REGION_KERNEL_CODE => 1 | REGION_KERNEL_DATA => 2
  | REGION_KERNEL_HEAP => 3 | REGION_KERNEL_STACK => 4 | REGION_IDENTITY_MAP => 5
  | REGION_USER_CODE => 6 | REGION_USER_DATA => 7 | REGION_USER_HEAP => 8
  | REGION_USER_STACK => 9 | REGION_MMIO => 10
  end.

Definition VMM_READ : Z := 0x01.
Definition VMM_WRITE : Z := 0x02.
Definition VMM_EXEC : Z := 0x04.
Definition VMM_USER : Z := 0x08.
Definition VMM_MAX_REGIONS : Z := 256.

(** A pointer into [region_pool]; [None] is [NULL]. *)
Abbreviation rptr := (option nat).

Record region := Region {
  r_base : Z;
  r_size : Z;
  r_flags : Z;
  r_type : region_type;
  r_next : rptr;
}.

Record space := Space {
  page_directory : Z;
  regions : rptr;
  region_count : Z;
}.

(** A pointer to an address space that is not [NULL]. *)
Inductive sptr := KernelSpace | HeapSpace (addr : Z).

#[export] Instance sptr_eq_dec : EqDecision sptr.
Proof. solve_decision. Defined.

Record vsys := Vsys {
  v_h : hsys;
  region_pool : list region;
  region_pool_used : Z;
  kernel_space : space;
  heap_spaces : gmap Z space;
  current_space : option sptr;
  fault_handler : bool;
}.

Definition v_lens : lens vsys hsys :=
  Lens v_h (fun h s => Vsys h (region_pool s) (region_pool_used s) (kernel_space s) (heap_spaces s)
                            (current_space s) (fault_handler s)).

#[export] Instance v_lens_laws : LensLaws v_lens.
Proof. split; by intros; try destruct s. Qed.

Definition set_pool (l : list region) (s : vsys) : vsys :=
  Vsys (v_h s) l (region_pool_used s) (kernel_space s) (heap_spaces s) (current_space s) (fault_handler s).
Definition set_pool_used (n : Z) (s : vsys) : vsys :=
  Vsys (v_h s) (region_pool s) n (kernel_space s) (heap_spaces s) (current_space s) (fault_handler s).
Definition set_spaces (k : space) (m : gmap Z space) (s : vsys) : vsys :=
  Vsys (v_h s) (region_pool s) (region_pool_used s) k m (current_space s) (fault_handler s).
Definition set_current (p : option sptr) (s : vsys) : vsys :=
  Vsys (v_h s) (region_pool s) (region_pool_used s) (kernel_space s) (heap_spaces s) p (fault_handler s).
Definition set_fault_handler (s : vsys) : vsys :=
  Vsys (v_h s) (region_pool s) (region_pool_used s) (kernel_space s) (heap_spaces s) (current_space s) true.

(** Lower layers. *)
Definition v_paging {A} (m : M gsys A) : M vsys A := zoom v_lens (zoom h_lens m).
Definition v_hw {A} (m : M machine A) : M vsys A := v_paging (hw m).
Definition v_kprintf (fmt : string) (args : list karg) : M vsys unit := v_hw (kprintf fmt args).
Definition v_alloc_frame : M vsys Z := v_paging (zoom g_lens pmm_alloc_frame).
Definition v_free_frame (a : Z) : M vsys unit := v_paging (zoom g_lens (pmm_free_frame a)).

(** Structures behind pointers. *)
Definition rd_region (i : nat) : M vsys region :=
  fun s => match region_pool s !! i with
           | Some r => Ok r s
           | None => Stop (OutOfBounds (Z.of_nat i)) s
           end.
Definition wr_region (i : nat) (f : region -> region) : M vsys unit :=
  fun s => match region_pool s !! i with
           | Some r => Ok tt (set_pool (<[i := f r]> (region_pool s)) s)
           | None => Stop (OutOfBounds (Z.of_nat i)) s
           end.
Definition rd_space (p : sptr) : M vsys space :=
  fun s => match p with
           | KernelSpace => Ok (kernel_space s) s
           | HeapSpace a => match heap_spaces s !! a with
                            | Some sp => Ok sp s
                            | None => Stop Undefined s
                            end
           end.
Definition wr_space (p : sptr) (f : space -> space) : M vsys unit :=
  fun s => match p with
           | KernelSpace => Ok tt (set_spaces (f (kernel_space s)) (heap_spaces s) s)
           | HeapSpace a => match heap_spaces s !! a with
                            | Some sp => Ok tt (set_spaces (kernel_space s) (<[a := f sp]> (heap_spaces s)) s)
                            | None => Stop Undefined s
                            end
           end.

(** [kfree(space)]: the structure is gone. *)
Definition free_space (a : Z) : M vsys unit :=
  zoom v_lens (kfree a) ;;;
  modify (fun s => set_spaces (kernel_space s) (delete a (heap_spaces s)) s).

(** [p->next] through a pointer that may be [NULL]. *)
Definition deref (p : rptr) : M vsys nat :=
  match p with Some i => ret i | None => stop_with (PageFault 0) end.

Definition set_next (n : rptr) (r : region) : region :=
  Region (r_base r) (r_size r) (r_flags r) (r_type r) n.
Definition set_regions (p : rptr) (sp : space) : space :=
  Space (page_directory sp) p (region_count sp).
Definition add_count (d : Z) (sp : space) : space :=
  Space (page_directory sp) (regions sp) (region_count sp +u d).

Section Vmm.
Context {L : Layout}.

Definition alloc_region : M vsys rptr :=
  used <- get region_pool_used ;;
  if VMM_MAX_REGIONS <=? used then
    v_kprintf ("VMM: ran out of region slots, this is bad" +:+ nl) [] ;;; ret None
  else
    let r := Z.to_nat used in
    modify (set_pool_used (used +u 1)) ;;;
    wr_region r (fun _ => Region 0 0 0 REGION_FREE None) ;;;
    ret (Some r).

Definition insert_region (sp : sptr) (r : nat) : M vsys unit :=
  space <- rd_space sp ;;
  reg <- rd_region r ;;
  front <- match regions space with
           | None => ret true
           | Some h => hr <- rd_region h ;; ret (r_base reg <? r_base hr)
           end ;;
  if front : bool then
    wr_region r (set_next (regions space)) ;;;
    wr_space sp (set_regions (Some r)) ;;;
    wr_space sp (add_count 1)
  else
    h <- deref (regions space) ;;
    curr <- loop (fun curr =>
      c <- rd_region curr ;;
      match r_next c with
      | None => ret (inr curr)
      | Some n =>
          nr <- rd_region n ;;
          reg <- rd_region r ;;
          ret (if r_base nr <? r_base reg then inl n else inr curr)
      end) h ;;
    c <- rd_region curr ;;
    wr_region r (set_next (r_next c)) ;;;
    wr_region curr (set_next (Some r)) ;;;
    wr_space sp (add_count 1).

Definition remove_region (sp : sptr) (r : nat) : M vsys unit :=
  space <- rd_space sp ;;
  if bool_decide (regions space = Some r) then
    reg <- rd_region r ;;
    wr_space sp (set_regions (r_next reg)) ;;;
    wr_space sp (add_count (-1))
  else
    h <- deref (regions space) ;;
    curr <- loop (fun curr =>
      c <- rd_region curr ;;
      ret (match r_next c with
           | None => inr curr
           | Some n => if bool_decide (n = r) then inr curr else inl n
           end)) h ;;
    c <- rd_region curr ;;
    when (bool_decide (r_next c = Some r))
      (reg <- rd_region r ;;
       wr_region curr (set_next (r_next reg)) ;;;
       wr_space sp (add_count (-1))).

Definition fill_region (r : nat) (base size flags : Z) (type : region_type) : M vsys unit :=
  wr_region r (fun x => Region base size flags type (r_next x)).

Definition register_existing_region (sp : sptr) (base size flags : Z) (type : region_type) :
    M vsys rptr :=
  p <- alloc_region ;;
  match p with
  | None => ret None
  | Some r =>
      fill_region r base size flags type ;;;
      insert_region sp r ;;;
      ret (Some r)
  end.

Definition vmm_flags_to_page_flags (vmm_flags : Z) : Z :=
  let pf := PAGE_PRESENT in
  let pf := if has_bits vmm_flags VMM_WRITE then Z.lor pf PAGE_WRITE else pf in
  if has_bits vmm_flags VMM_USER then Z.lor pf PAGE_USER else pf.

Definition vmm_find_region (sp : option sptr) (vaddr : Z) : M vsys rptr :=
  match sp with
  | None => ret None
  | Some sp =>
      space <- rd_space sp ;;
      loop (fun p =>
        match p with
        | None => ret (inr None)
        | Some i =>
            r <- rd_region i ;;
            if (r_base r <=? vaddr) && (vaddr <? r_base r +u r_size r) then ret (inr (Some i))
            else ret (inl (r_next r))
        end) (regions space)
  end.

Definition type_name (t : region_type) : string :=
  match t with
  | REGION_FREE => "FREE" | REGION_KERNEL_CODE => "KCODE" | REGION_KERNEL_DATA => "KDATA"
  | REGION_KERNEL_HEAP => "KHEAP" | REGION_KERNEL_STACK => "KSTACK"
  | REGION_IDENTITY_MAP => "IDMAP" | REGION_USER_CODE => "UCODE" | REGION_USER_DATA => "UDATA"
  | REGION_USER_HEAP => "UHEAP" | REGION_USER_STACK => "USTACK" | REGION_MMIO => "MMIO"
  end.

Definition vmm_dump_regions (sp : option sptr) : M vsys unit :=
  match sp with
  | None => ret tt
  | Some sp =>
      space <- rd_space sp ;;
      v_kprintf ("VMM: --- Region Map (%u regions) ---" +:+ nl) [KInt (region_count space)] ;;;
      loop (fun p =>
        match p with
        | None => ret (inr tt)
        | Some i =>
            r <- rd_region i ;;
            v_kprintf (" 0x%x - 0x%x  [%s] %s%s%s" +:+ nl)
              [KInt (r_base r); KInt (r_base r +u r_size r); KStr (type_name (r_type r));
               KStr (if has_bits (r_flags r) VMM_READ then "R" else "-");
               KStr (if has_bits (r_flags r) VMM_WRITE then "W" else "-");
               KStr (if has_bits (r_flags r) VMM_USER then "U" else "K")] ;;;
            ret (inl (r_next r))
        end) (regions space) ;;;
      v_kprintf ("VMM: --- End Region Map ---" +:+ nl) []
  end.

(** [_kernel_end] rounded up to a page. *)
Definition kernel_end_page : Z := Z.land (sym_kernel_end +u PAGE_SIZE -u 1) 0xFFFFF000.

Definition vmm_init : M vsys unit :=
  v_kprintf ("VMM: Initializing..." +:+ nl) [] ;;;
  wr_space KernelSpace (fun _ => Space paging_get_directory None 0) ;;;
  modify (set_current (Some KernelSpace)) ;;;
  register_existing_region KernelSpace 0xC0001000 0x000FF000 (Z.lor VMM_READ VMM_WRITE) REGION_MMIO ;;;
  let kend := kernel_end_page in
  register_existing_region KernelSpace 0xC0100000 (kend -u 0xC0100000)
    (Z.lor (Z.lor VMM_READ VMM_WRITE) VMM_EXEC) REGION_KERNEL_CODE ;;;
  (if kend <? 0xC0400000 then
     register_existing_region KernelSpace kend (0xC0400000 -u kend) (Z.lor VMM_READ VMM_WRITE)
       REGION_IDENTITY_MAP ;;; ret tt
   else ret tt) ;;;
  register_existing_region KernelSpace 0xC0400000 (16 * 1024 * 1024) (Z.lor VMM_READ VMM_WRITE)
    REGION_KERNEL_HEAP ;;;
  modify set_fault_handler ;;;
  ks <- rd_space KernelSpace ;;
  v_kprintf ("VMM: Initialized with %u regions" +:+ nl) [KInt (region_count ks)] ;;;
  vmm_dump_regions (Some KernelSpace).

Definition vmm_create_address_space : M vsys (option sptr) :=
  a <- zoom v_lens (kmalloc 12) ;;
  if a =? 0 then
    v_kprintf ("VMM: couldn't allocate address space struct" +:+ nl) [] ;;; ret None
  else
  dir <- v_paging paging_create_directory ;;
  modify (fun s => set_spaces (kernel_space s) (<[a := Space dir None 0]> (heap_spaces s)) s) ;;;
  if dir =? 0 then
    v_kprintf ("VMM: couldn't create page directory" +:+ nl) [] ;;;
    free_space a ;;;
    ret None
  else
  ks <- rd_space KernelSpace ;;
  loop (fun kr =>
    match kr with
    | None => ret (inr tt)
    | Some i =>
        r <- rd_region i ;;
        register_existing_region (HeapSpace a) (r_base r) (r_size r) (r_flags r) (r_type r) ;;;
        r' <- rd_region i ;;
        ret (inl (r_next r'))
    end) (regions ks) ;;;
  ret (Some (HeapSpace a)).

Definition vmm_destroy_address_space (sp : option sptr) : M vsys unit :=
  match sp with
  | None | Some KernelSpace =>
      v_kprintf ("VMM: refusing to destroy kernel address space" +:+ nl) []
  | Some (HeapSpace a) =>
      space <- rd_space (HeapSpace a) ;;
      loop (fun p =>
        match p with
        | None => ret (inr tt)
        | Some i =>
            r <- rd_region i ;;
            when (type_code REGION_USER_CODE <=? type_code (r_type r))
              (loop (fun addr =>
                 if addr <? r_base r +u r_size r then
                   phys <- v_paging (paging_get_physical addr) ;;
                   when (negb (phys =? 0))
                     (v_paging (paging_unmap_page addr) ;;; v_free_frame phys) ;;;
                   ret (inl (addr +u PAGE_SIZE))
                 else ret (inr tt)) (r_base r)) ;;;
            ret (inl (r_next r))
        end) (regions space) ;;;
      space' <- rd_space (HeapSpace a) ;;
      v_free_frame (page_directory space') ;;;
      free_space a
  end.

Definition vmm_switch_address_space (sp : option sptr) : M vsys unit :=
  match sp with
  | None => ret tt
  | Some p =>
      space <- rd_space p ;;
      if page_directory space =? 0 then ret tt else
      modify (set_current (Some p)) ;;;
      v_paging (paging_switch_directory (page_directory space))
  end.

Definition vmm_get_current_space : M vsys (option sptr) := get current_space.
Definition vmm_get_kernel_space : sptr := KernelSpace.

(** The walk of [vmm_map_region] over the regions; [true] when one overlaps. *)
Definition check_overlap (sp : sptr) (vaddr size : Z) : M vsys bool :=
  space <- rd_space sp ;;
  loop (fun p =>
    match p with
    | None => ret (inr false)
    | Some i =>
        r <- rd_region i ;;
        let existing_end := r_base r +u r_size r in
        let new_end := vaddr +u size in
        if (vaddr <? existing_end) && (r_base r <? new_end) then
          v_kprintf ("VMM: region overlap! 0x%x-0x%x conflicts with 0x%x-0x%x" +:+ nl)
            [KInt vaddr; KInt new_end; KInt (r_base r); KInt existing_end] ;;;
          ret (inr true)
        else ret (inl (r_next r))
    end) (regions space).

(** The two rollback loops. *)
Definition undo_pages (vaddr upto : Z) : M vsys unit :=
  for_loop upto PAGE_SIZE (fun undo =>
    phys <- v_paging (paging_get_physical (vaddr +u undo)) ;;
    v_paging (paging_unmap_page (vaddr +u undo)) ;;;
    when (negb (phys =? 0)) (v_free_frame (Z.land phys 0xFFFFF000))) 0.

(** The zeroing of a page that was just mapped. *)
Definition zero_page (page : Z) : M vsys unit :=
  for_loop PAGE_SIZE 1 (fun i => v_hw (vst8 (page +u i) 0)) 0.

(** The mapping loop; [false] after running out of frames and undoing. *)
Definition map_pages (vaddr size page_flags : Z) : M vsys bool :=
  loop (fun offset =>
    if offset <? size then
      frame <- v_alloc_frame ;;
      if frame =? 0 then
        v_kprintf ("VMM: out of physical memory during map" +:+ nl) [] ;;;
        undo_pages vaddr offset ;;;
        ret (inr false)
      else
        v_paging (paging_map_page (vaddr +u offset) frame page_flags) ;;;
        zero_page (vaddr +u offset) ;;;
        ret (inl (offset +u PAGE_SIZE))
    else ret (inr true)) 0.

Definition vmm_map_region (sp : option sptr) (vaddr size flags : Z) (type : region_type) : M vsys Z :=
  match sp with
  | None => ret (-1)
  | Some p =>
      if has_bits vaddr (PAGE_SIZE - 1) then ret (-1) else
      if has_bits size (PAGE_SIZE - 1) then ret (-1) else
      overlap <- check_overlap p vaddr size ;;
      if overlap : bool then ret (-1) else
      ok <- map_pages vaddr size (vmm_flags_to_page_flags flags) ;;
      if negb ok then ret (-1) else
      r <- alloc_region ;;
      match r with
      | None => undo_pages vaddr size ;;; ret (-1)
      | Some i =>
          fill_region i vaddr size flags type ;;;
          insert_region p i ;;;
          ret 0
      end
  end.

(** The unmapping loop of [vmm_unmap_region]; the region is read again in every turn. *)
Definition unmap_pages (i : nat) : M vsys unit :=
  loop (fun offset =>
    r <- rd_region i ;;
    if offset <? r_size r then
      let addr := r_base r +u offset in
      phys <- v_paging (paging_get_physical addr) ;;
      when (negb (phys =? 0))
        (v_paging (paging_unmap_page addr) ;;;
         v_free_frame (Z.land phys 0xFFFFF000)) ;;;
      ret (inl (offset +u PAGE_SIZE))
    else ret (inr tt)) 0.

Definition vmm_unmap_region (sp : option sptr) (vaddr : Z) : M vsys Z :=
  match sp with
  | None => ret (-1)
  | Some p =>
      space <- rd_space p ;;
      found <- loop (fun q =>
        match q with
        | None => ret (inr None)
        | Some i =>
            r <- rd_region i ;;
            if r_base r =? vaddr then ret (inr (Some i))
            else ret (inl (r_next r))
        end) (regions space) ;;
      match found with
      | None =>
          v_kprintf ("VMM: no region at 0x%x to unmap" +:+ nl) [KInt vaddr] ;;; ret (-1)
      | Some i =>
          r <- rd_region i ;;
          if type_code (r_type r) <=? type_code REGION_IDENTITY_MAP then
            v_kprintf ("VMM: refusing to unmap kernel region at 0x%x" +:+ nl) [KInt vaddr] ;;; ret (-1)
          else
            unmap_pages i ;;;
            remove_region p i ;;;
            ret 0
      end
  end.

Definition page_up (x : Z) : Z := Z.land (x +u PAGE_SIZE -u 1) 0xFFFFF000.

Definition vmm_find_free_region (sp : option sptr) (size start_hint : Z) : M vsys Z :=
  match sp with
  | None => ret 0
  | Some p =>
      let size := page_up size in
      let start_hint := if start_hint =? 0 then 0xD0000000 else start_hint in
      let start_hint := page_up start_hint in
      space <- rd_space p ;;
      found <- loop (fun '(candidate, q) =>
        match q with
        | None => ret (inr None)
        | Some i =>
            r <- rd_region i ;;
            let region_end := r_base r +u r_size r in
            let candidate := if (r_base r <=? candidate) && (candidate <? region_end)
                             then page_up region_end else candidate in
            limit <- match r_next r with
                     | Some n => nr <- rd_region n ;; ret (r_base nr)
                     | None => ret 0xFFFFF000
                     end ;;
            if candidate +u size <=? limit then ret (inr (Some candidate))
            else ret (inl (candidate, r_next r))
        end) (start_hint, regions space) ;;
      match found with
      | Some c => ret c
      | None =>
          v_kprintf ("VMM: no free region of size 0x%x found" +:+ nl) [KInt size] ;;; ret 0
      end
  end.

Definition vmm_is_mapped (vaddr : Z) : M vsys bool :=
  phys <- v_paging (paging_get_physical vaddr) ;; ret (negb (phys =? 0)).

(** [page_fault_handler]; [cr2] and the fields of the frame are given. *)
Definition page_fault_handler (cr2 error_code eip : Z) : M vsys unit :=
  let present := Z.land error_code 0x1 in
  let write := Z.land error_code 0x2 in
  let user := Z.land error_code 0x4 in
  v_kprintf (nl +:+ "!!!!!!! PAGE FAULT !!!!!!!!!!") [] ;;;
  v_kprintf ("Address: 0x%x" +:+ nl) [KInt cr2] ;;;
  v_kprintf ("Error: %s %s in %s mode" +:+ nl)
    [KStr (if negb (present =? 0) then "protection violation" else "page not present");
     KStr (if negb (write =? 0) then "(write)" else "(read)");
     KStr (if negb (user =? 0) then "user" else "kernel")] ;;;
  v_kprintf ("At EIP: 0x%x" +:+ nl) [KInt eip] ;;;
  v_hw (serial_printf ("PAGE FAULT: addr=0x%x err=0x%x eip=0x%x" +:+ nl)
          [KInt cr2; KInt error_code; KInt eip]) ;;;
  cur <- get current_space ;;
  match cur with
  | None => ret tt
  | Some _ =>
      q <- vmm_find_region cur cr2 ;;
      match q with
      | Some i =>
          r <- rd_region i ;;
          if present =? 0 then
            v_kprintf (" -> Address is in region: type=%u, base=0x%x, size=0x%x" +:+ nl)
              [KInt (type_code (r_type r)); KInt (r_base r); KInt (r_size r)] ;;;
            v_kprintf (" -> This region exists but page isn't present" +:+ nl) [] ;;;
            v_kprintf (" -> (demand paging not implemented yet, halting)" +:+ nl) []
          else
            v_kprintf (" -> Protection violation in region type-%u" +:+ nl) [KInt (type_code (r_type r))] ;;;
            when (negb (write =? 0) && negb (has_bits (r_flags r) VMM_WRITE))
              (v_kprintf (" -> Write to read-only region" +:+ nl) []) ;;;
            when (negb (user =? 0) && negb (has_bits (r_flags r) VMM_USER))
              (v_kprintf (" -> User access to kernel region" +:+ nl) [])
      | None =>
          v_kprintf (" -> Address not in any mapped region (segfault)" +:+ nl) []
      end
  end ;;;
  v_kprintf ("System halted." +:+ nl) [] ;;;
  v_hw (emit Cli) ;;;
  stop_with Halted.
End Vmm.
