(* ===== verification/Terminal.v ===== *)
(** * The VGA text console ([kernel/kernel.c], [kernel/terminal.h])

    The text buffer is the adapter's memory at the physical address [0xB8000]: 2000 cells
    of 16 bits.  The terminal reaches it through the pointer [terminal_buffer], so that
    every access is translated by the MMU and faults where the page is not mapped.  The
    terminal keeps a row, a column and a colour; the hardware cursor is set through ports
    [0x3D4] and [0x3D5]. *)

From stdpp Require Import base gmap list numbers option strings.
From Stdlib Require Import ZArith Lia.
From S2P Require Import Prelude Machine.

Definition VGA_WIDTH : Z := 80.
Definition VGA_HEIGHT : Z := 25.

Inductive vga_color :=
  | VGA_COLOR_BLACK | VGA_COLOR_BLUE | VGA_COLOR_GREEN | VGA_COLOR_CYAN
  | VGA_COLOR_RED | VGA_COLOR_MAGENTA | VGA_COLOR_BROWN | VGA_COLOR_LIGHT_GREY
  | VGA_COLOR_DARK_GREY | VGA_COLOR_LIGHT_BLUE | VGA_COLOR_LIGHT_GREEN | VGA_COLOR_LIGHT_CYAN
  | VGA_COLOR_LIGHT_RED | VGA_COLOR_LIGHT_MAGENTA | VGA_COLOR_LIGHT_BROWN | VGA_COLOR_WHITE.

Definition color_code (c : vga_color) : Z :=
  match c with
  | VGA_COLOR_BLACK => 0 | VGA_COLOR_BLUE => 1 | VGA_COLOR_GREEN => 2 | VGA_COLOR_CYAN => 3
  | VGA_COLOR_RED => 4 | VGA_COLOR_MAGENTA => 5 | VGA_COLOR_BROWN => 6
  | VGA_COLOR_LIGHT_GREY => 7 | VGA_COLOR_DARK_GREY => 8 | VGA_COLOR_LIGHT_BLUE => 9
  | VGA_COLOR_LIGHT_GREEN => 10 | VGA_COLOR_LIGHT_CYAN => 11 | VGA_COLOR_LIGHT_RED => 12
  | VGA_COLOR_LIGHT_MAGENTA => 13 | VGA_COLOR_LIGHT_BROWN => 14 | VGA_COLOR_WHITE => 15
  end.

Definition vga_entry_color (fg bg : vga_color) : Z :=
  u8 (Z.lor (color_code fg) (Z.shiftl (color_code bg) 4)).

Definition vga_entry (uc color : Z) : Z := u16 (Z.lor (u8 uc) (Z.shiftl (u8 color) 8)).

(** The terminal's variables and the cells of the adapter. *)
Record csys := Csys {
  c_hw : machine;
  terminal_row : Z;
  terminal_column : Z;
  terminal_color : Z;
  terminal_buffer : Z;
  cells : list Z;
}.

Definition c_lens : lens csys machine :=
  Lens c_hw (fun h s => Csys h (terminal_row s) (terminal_column s) (terminal_color s) (terminal_buffer s) (cells s)).

#[export] Instance c_lens_laws : LensLaws c_lens.
Proof. split; by intros; try destruct s. Qed.

Definition set_row (v : Z) (s : csys) : csys :=
  Csys (c_hw s) v (terminal_column s) (terminal_color s) (terminal_buffer s) (cells s).
Definition set_column (v : Z) (s : csys) : csys :=
  Csys (c_hw s) (terminal_row s) v (terminal_color s) (terminal_buffer s) (cells s).
Definition set_color (v : Z) (s : csys) : csys :=
  Csys (c_hw s) (terminal_row s) (terminal_column s) v (terminal_buffer s) (cells s).
Definition set_buffer (v : Z) (s : csys) : csys :=
  Csys (c_hw s) (terminal_row s) (terminal_column s) (terminal_color s) v (cells s).
Definition set_cells (l : list Z) (s : csys) : csys :=
  Csys (c_hw s) (terminal_row s) (terminal_column s) (terminal_color s) (terminal_buffer s) l.

(** The adapter answers for 4000 bytes of physical memory from [0xB8000] on. *)
Definition VGA_MEMORY : Z := 0xB8000.
Definition vga_cell (pa : Z) : option nat :=
  if (VGA_MEMORY <=? pa) && (pa <? VGA_MEMORY + 4000) then Some (Z.to_nat ((pa - VGA_MEMORY) / 2))
  else None.

(** [terminal_buffer[i]] as an lvalue and as a value: two bytes, which lie in one page
    since the pointer is even.  An address that is mapped to anything else is memory. *)
Definition buffer_write (i v : Z) : M csys unit :=
  fun s =>
    let va := terminal_buffer s +u 2 * i in
    match translate (c_hw s) va with
    | Some pa =>
        match vga_cell pa with
        | Some n => Ok tt (set_cells (<[n := v]> (cells s)) s)
        | None => Ok tt (update c_lens (set_ram (st8 (st8 (ram (c_hw s)) pa v) (pa + 1) (v / 256)) (c_hw s)) s)
        end
    | None => Stop (PageFault va) s
    end.
Definition buffer_read (i : Z) : M csys Z :=
  fun s =>
    let va := terminal_buffer s +u 2 * i in
    match translate (c_hw s) va with
    | Some pa =>
        match vga_cell pa with
        | Some n => Ok (default 0 (cells s !! n)) s
        | None => Ok (ld8 (ram (c_hw s)) pa + 256 * ld8 (ram (c_hw s)) (pa + 1)) s
        end
    | None => Stop (PageFault va) s
    end.

(** The character codes the terminal treats specially. *)
Definition BACKSPACE : Z := 8.
Definition NEWLINE : Z := 10.
Definition SPACE : Z := 32.

Definition blank_entry (color : Z) : Z := vga_entry SPACE color.

Definition terminal_initialize : M csys unit :=
  modify (set_row 0) ;;;
  modify (set_column 0) ;;;
  modify (set_color (vga_entry_color VGA_COLOR_LIGHT_GREY VGA_COLOR_BLACK)) ;;;
  modify (set_buffer 0xC00B8000) ;;;
  for_loop VGA_HEIGHT 1 (fun y =>
    for_loop VGA_WIDTH 1 (fun x =>
      let index := (y *u VGA_WIDTH) +u x in
      color <- get terminal_color ;;
      buffer_write index (vga_entry SPACE color)) 0) 0.

Definition terminal_setcolor (color : Z) : M csys unit := modify (set_color (u8 color)).

Definition terminal_update_cursor : M csys unit :=
  pos <- get (fun s => u16 ((terminal_row s *u VGA_WIDTH) +u terminal_column s)) ;;
  zoom c_lens (outb 0x3D4 0x0F) ;;;
  zoom c_lens (outb 0x3D5 (Z.land pos 0xFF)) ;;;
  zoom c_lens (outb 0x3D4 0x0E) ;;;
  zoom c_lens (outb 0x3D5 (Z.land (Z.shiftr pos 8) 0xFF)).

Definition terminal_putentryat (c color x y : Z) : M csys unit :=
  let index := (y *u VGA_WIDTH) +u x in
  buffer_write index (vga_entry c color).

Definition terminal_scroll : M csys unit :=
  for_loop (VGA_HEIGHT - 1) 1 (fun y =>
    for_loop VGA_WIDTH 1 (fun x =>
      let dst := (y *u VGA_WIDTH) +u x in
      let src := ((y +u 1) *u VGA_WIDTH) +u x in
      v <- buffer_read src ;;
      buffer_write dst v) 0) 0 ;;;
  for_loop VGA_WIDTH 1 (fun x =>
    let index := ((VGA_HEIGHT - 1) *u VGA_WIDTH) +u x in
    color <- get terminal_color ;;
    buffer_write index (vga_entry SPACE color)) 0.

(** [if (++terminal_row == VGA_HEIGHT) { ... }], which occurs twice. *)
Definition next_row : M csys unit :=
  modify (fun s => set_row (terminal_row s +u 1) s) ;;;
  row <- get terminal_row ;;
  when (row =? VGA_HEIGHT) (terminal_scroll ;;; modify (set_row (VGA_HEIGHT - 1))).

Definition terminal_putchar (c : Z) : M csys unit :=
  if c =? BACKSPACE then
    column <- get terminal_column ;;
    row <- get terminal_row ;;
    (if 0 <? column then modify (set_column (column -u 1))
     else if 0 <? row then
       modify (set_row (row -u 1)) ;;; modify (set_column (VGA_WIDTH - 1))
     else ret tt) ;;;
    color <- get terminal_color ;;
    column' <- get terminal_column ;;
    row' <- get terminal_row ;;
    terminal_putentryat SPACE color column' row' ;;;
    terminal_update_cursor
  else if c =? NEWLINE then
    modify (set_column 0) ;;;
    next_row
  else
    color <- get terminal_color ;;
    column <- get terminal_column ;;
    row <- get terminal_row ;;
    terminal_putentryat c color column row ;;;
    modify (fun s => set_column (terminal_column s +u 1) s) ;;;
    column' <- get terminal_column ;;
    when (column' =? VGA_WIDTH) (modify (set_column 0) ;;; next_row) ;;;
    terminal_update_cursor.

(** ** C strings

    The characters of a string, followed by its terminator; beyond it an access is out
    of bounds. *)

Definition byte_of (a : Ascii.ascii) : Z := Z.of_N (Ascii.N_of_ascii a).

Definition bytes_of (s : string) : list Z := byte_of <$> String.list_ascii_of_string s.

Definition char_at {S} (str : list Z) (i : Z) : M S Z :=
  if i =? Z.of_nat (length str) then ret 0 else
  match str !! Z.to_nat i with
  | Some c => ret c
  | None => stop_with (OutOfBounds i)
  end.

Definition strlen {S} (str : list Z) : M S Z :=
  loop (fun len =>
    c <- char_at str len ;;
    ret (if negb (c =? 0) then inl (len +u 1) else inr len)) 0.

Definition terminal_write (data : list Z) (size : Z) : M csys unit :=
  for_loop size 1 (fun i => c <- char_at data i ;; terminal_putchar c) 0.

Definition terminal_writestring (data : list Z) : M csys unit :=
  n <- strlen data ;; terminal_write data n.

(** ** Strings and loops *)

(** A C string: its characters are not the terminator. *)
Definition cstring (str : list Z) : Prop :=
  Forall (fun c => c <> 0) str /\ Z.of_nat (length str) < 4294967295.

Lemma char_at_in {S} str (i : nat) c (Q : Z -> S -> Prop) E s : str !! i = Some c ->
  Q c s -> wpe (char_at str (Z.of_nat i)) s Q E.
Proof.
  intros Hi HQ. pose proof (lookup_lt_Some _ _ _ Hi). unfold char_at.
  rewrite (proj2 (Z.eqb_neq _ _)) by lia. rewrite Nat2Z.id, Hi. by wp_step.
Qed.

Lemma char_at_end {S} str (Q : Z -> S -> Prop) E s :
  Q 0 s -> wpe (char_at str (Z.of_nat (length str))) s Q E.
Proof. intros HQ. unfold char_at. rewrite Z.eqb_refl. by wp_step. Qed.

Lemma strlen_wp {S} str (s : S) : cstring str ->
  wp (strlen str) s (fun n s' => s' = s /\ n = Z.of_nat (length str)).
Proof.
  intros [Hnz Hlen]. unfold strlen.
  apply (wp_loop _ (fun n s' => s' = s /\ exists k : nat, n = Z.of_nat k /\ (k <= length str)%nat)
                   (fun n _ => Z.of_nat (length str) - n)).
  2:{ split; [done|]. exists 0%nat. split; [done|lia]. }
  2:{ lia. }
  intros n ? (-> & k & -> & Hk). wp_step.
  destruct (decide (k = length str)) as [->|Hne].
  - apply char_at_end. by wp_step.
  - destruct (lookup_lt_is_Some_2 str k) as [c Hc]; [lia|]. eapply char_at_in; [exact Hc|].
    assert (c <> 0) as Hc0 by (by eapply (Forall_lookup_1 (fun c => c <> 0))).
    rewrite (proj2 (Z.eqb_neq c 0)) by done. wp_step. cbn [negb].
    rewrite u32_small by (unfold is32; lia).
    split; [|lia]. split; [done|]. exists (k + 1)%nat. lia.
Qed.

(** Two nested counted loops run over the cells in order. *)
Lemma wp_for_cells (h w : Z) (body : Z -> Z -> M csys unit) (I : Z -> csys -> Prop) s Q E :
  0 <= h < 4294967295 -> 0 <= w < 4294967295 -> I 0 s ->
  (forall y x s', 0 <= y < h -> 0 <= x < w -> I (y * w + x) s' ->
     wpe (body y x) s' (fun _ s'' => I (y * w + x + 1) s'') E) ->
  (forall s', I (h * w) s' -> Q tt s') ->
  wpe (for_loop h 1 (fun y => for_loop w 1 (body y) 0) 0) s Q E.
Proof.
  intros Hh Hw H0 Hb HQ.
  apply (wp_for_loop _ _ _ (fun y s' => I (y * w) s')); [lia|lia|apply Z.mod_1_r|lia|done| |done].
  intros y s' Hy _ HI.
  apply (wp_for_loop _ _ _ (fun x s'' => I (y * w + x) s'')); [lia|lia|apply Z.mod_1_r|lia| | |].
  - by rewrite Z.add_0_r.
  - intros x s'' Hx _ HI'. rewrite Z.add_assoc. by apply Hb; [lia|lia|].
  - intros s''. by replace ((y + 1) * w) with (y * w + w) by lia.
Qed.

(** ** The screen as a tape of cells *)

Definition SCREEN : Z := 2000.

(** The page of the kernel window that holds the buffer is mapped to the adapter. *)
Definition screen_mapped (h : machine) : Prop := translate h 0xC00B8000 = Some VGA_MEMORY.

(** The pointer reaches the 2000 cells. *)
Definition screen_ok (s : csys) : Prop :=
  length (cells s) = 2000%nat /\ terminal_buffer s = 0xC00B8000 /\ screen_mapped (c_hw s).

(** Row and column are on the screen, and the buffer is reachable. *)
Definition term_wf (s : csys) : Prop :=
  0 <= terminal_row s < VGA_HEIGHT /\ 0 <= terminal_column s < VGA_WIDTH /\ screen_ok s.

Definition position (s : csys) : Z := terminal_row s * VGA_WIDTH + terminal_column s.

(** The whole screen moved up by one row. *)
Definition scrolled (l : list Z) (color : Z) : list Z :=
  drop 80 l ++ replicate 80 (blank_entry color).

(** What a character does to a tape with a position. *)
Definition tape_next (p : Z) (l : list Z) (color : Z) : Z * list Z :=
  if p =? SCREEN then (SCREEN - VGA_WIDTH, scrolled l color) else (p, l).

Definition tape_put (c : Z) (p : Z) (l : list Z) (color : Z) : Z * list Z :=
  if c =? BACKSPACE then
    let p' := Z.max 0 (p - 1) in (p', <[Z.to_nat p' := blank_entry color]> l)
  else if c =? NEWLINE then tape_next ((p / VGA_WIDTH + 1) * VGA_WIDTH) l color
  else tape_next (p + 1) (<[Z.to_nat p := vga_entry c color]> l) color.

Lemma buffer_cell s i : screen_ok s -> 0 <= i < 2000 ->
  exists pa, translate (c_hw s) (terminal_buffer s +u 2 * i) = Some pa /\ vga_cell pa = Some (Z.to_nat i).
Proof.
  intros (_ & Hb & Hm) Hi. rewrite Hb, u32_small by (unfold is32; lia).
  exists (VGA_MEMORY + 2 * i). split.
  - apply translate_offset; [exact Hm|change (0xC00B8000 mod 4096) with 0; lia|lia].
  - unfold vga_cell, VGA_MEMORY. rewrite (proj2 (Z.leb_le _ _)), (proj2 (Z.ltb_lt _ _)) by lia. cbn [andb].
    do 2 f_equal. replace (753664 + 2 * i - 753664) with (i * 2) by lia. apply Z.div_mul. lia.
Qed.

Lemma buffer_write_wp i v s (Q : unit -> csys -> Prop) E : screen_ok s ->
  0 <= i < 2000 -> Q tt (set_cells (<[Z.to_nat i := v]> (cells s)) s) ->
  wpe (buffer_write i v) s Q E.
Proof.
  intros Hs Hi HQ. destruct (buffer_cell s i Hs Hi) as (pa & Ht & Hc).
  unfold wpe, buffer_write. cbv zeta. by rewrite Ht, Hc.
Qed.

Lemma buffer_read_wp i s (Q : Z -> csys -> Prop) E : screen_ok s ->
  0 <= i < 2000 -> (forall v, cells s !! Z.to_nat i = Some v -> Q v s) ->
  wpe (buffer_read i) s Q E.
Proof.
  intros Hs Hi HQ. destruct (buffer_cell s i Hs Hi) as (pa & Ht & Hc).
  unfold wpe, buffer_read. cbv zeta. rewrite Ht, Hc.
  destruct (lookup_lt_is_Some_2 (cells s) (Z.to_nat i)) as [c E']; [destruct Hs; lia|]. rewrite E'. by apply HQ.
Qed.

(** The cell index the code computes. *)
Lemma cell_index y x : 0 <= y <= 25 -> 0 <= x < 80 ->
  (y *u VGA_WIDTH) +u x = y * 80 + x.
Proof.
  intros. unfold VGA_WIDTH. rewrite (u32_small (y * 80)) by (unfold is32; lia).
  apply u32_small. unfold is32. lia.
Qed.

(** ** Clearing *)

Definition same_vars (s s' : csys) : Prop :=
  c_hw s' = c_hw s /\ terminal_buffer s' = terminal_buffer s /\ terminal_row s' = terminal_row s /\
  terminal_column s' = terminal_column s /\ terminal_color s' = terminal_color s.

Lemma screen_set i v s : screen_ok s -> screen_ok (set_cells (<[i := v]> (cells s)) s).
Proof. intros (Hl & ? & ?). split; [cbn; by rewrite length_insert|done]. Qed.

(** The cells from [lo] on are blank up to [lo + i]. *)
Definition blanking (lo : Z) (s : csys) (i : Z) (s' : csys) : Prop :=
  same_vars s s' /\ screen_ok s' /\
  forall j : nat, cells s' !! j =
    if decide (lo <= Z.of_nat j < lo + i) then Some (blank_entry (terminal_color s))
    else cells s !! j.

Lemma blanking_0 lo s : screen_ok s -> blanking lo s 0 s.
Proof. intros. split_and!; try done. intros j. by rewrite decide_False by lia. Qed.

Lemma blanking_step lo s i s' : 0 <= lo -> 0 <= i -> lo + i < 2000 -> blanking lo s i s' ->
  blanking lo s (i + 1)
    (set_cells (<[Z.to_nat (lo + i) := vga_entry SPACE (terminal_color s')]> (cells s')) s').
Proof.
  intros Hlo Hi Hlt (Hv & Hs & Hc). split; [exact Hv|]. split; [by apply screen_set|].
  destruct Hs as [Hl _]. intros j. cbn. destruct Hv as (_ & _ & _ & _ & ->).
  destruct (decide (j = Z.to_nat (lo + i))) as [->|Hne].
  - rewrite list_lookup_insert_eq by lia. by rewrite decide_True by lia.
  - rewrite list_lookup_insert_ne by done. rewrite Hc. by apply decide_ext; lia.
Qed.

Lemma blanked_all s s' : blanking 0 s 2000 s' -> length (cells s) = 2000%nat ->
  cells s' = replicate 2000 (blank_entry (terminal_color s)).
Proof.
  intros (_ & [Hl _] & Hc) Hl0. apply list_eq. intros j. rewrite Hc.
  destruct (decide (j < 2000)%nat).
  - rewrite decide_True by lia. by rewrite lookup_replicate_2.
  - rewrite decide_False by lia. rewrite lookup_ge_None_2 by lia.
    symmetry. apply lookup_ge_None_2. rewrite length_replicate. lia.
Qed.

Lemma terminal_initialize_wp s : length (cells s) = 2000%nat -> screen_mapped (c_hw s) ->
  wp terminal_initialize s (fun _ s' =>
    s' = Csys (c_hw s) 0 0 7 0xC00B8000 (replicate 2000 (blank_entry 7))).
Proof.
  intros Hl Hm. unfold terminal_initialize. do 8 wp_step.
  set (s0 := set_buffer _ _). apply (wp_for_cells _ _ _ (blanking 0 s0)); [done|done| | |].
  - by apply blanking_0.
  - intros y x s' Hy Hx HI. rewrite cell_index by (unfold VGA_HEIGHT, VGA_WIDTH in *; lia).
    unfold VGA_HEIGHT, VGA_WIDTH in *. wp_step. wp_step.
    apply buffer_write_wp; [apply HI|lia|]. by apply (blanking_step 0 s0 (y * 80 + x)); [lia..|].
  - intros s' HI. pose proof (blanked_all _ _ HI Hl) as Hc.
    destruct HI as ((H1 & H2 & H3 & H4 & H5) & _). destruct s'. cbn in *. by subst.
Qed.

(** ** Scrolling *)

Definition shifting (s : csys) (i : Z) (s' : csys) : Prop :=
  same_vars s s' /\ screen_ok s' /\
  forall j : nat, (j < 2000)%nat ->
    cells s' !! j = if decide (Z.of_nat j < i) then cells s !! (j + 80)%nat else cells s !! j.

Lemma shifting_step s i s' v : 0 <= i < 1920 -> shifting s i s' ->
  cells s' !! Z.to_nat (i + 80) = Some v ->
  shifting s (i + 1) (set_cells (<[Z.to_nat i := v]> (cells s')) s').
Proof.
  intros Hi (Hv & Hs & Hc) Hrd. split; [exact Hv|]. split; [by apply screen_set|].
  destruct Hs as [Hl _]. intros j Hj. cbn. destruct (decide (j = Z.to_nat i)) as [->|Hne].
  - rewrite list_lookup_insert_eq by lia. rewrite decide_True by lia.
    rewrite <-Hrd, Hc by lia. rewrite decide_False by lia. f_equal. lia.
  - rewrite list_lookup_insert_ne by done. rewrite Hc by done. by apply decide_ext; lia.
Qed.

Lemma scroll_cells s s1 s2 : length (cells s) = 2000%nat -> shifting s 1920 s1 ->
  blanking 1920 s1 80 s2 -> cells s2 = scrolled (cells s) (terminal_color s).
Proof.
  intros Hl (Hv & [Hl1 _] & Hc1) (_ & [Hl2 _] & Hc2). destruct Hv as (_ & _ & _ & _ & Hcol).
  unfold scrolled. apply list_eq. intros j. rewrite Hc2, Hcol.
  destruct (decide (j < 1920)%nat) as [Hj|Hj].
  - rewrite decide_False by lia. rewrite Hc1, decide_True by lia.
    rewrite lookup_app_l by (rewrite length_drop; lia). rewrite lookup_drop. f_equal. lia.
  - rewrite lookup_app_r by (rewrite length_drop; lia). rewrite length_drop, Hl.
    destruct (decide (j < 2000)%nat).
    + rewrite decide_True by lia. by rewrite lookup_replicate_2 by lia.
    + rewrite decide_False by lia. rewrite lookup_ge_None_2 by lia.
      symmetry. apply lookup_ge_None_2. rewrite length_replicate. lia.
Qed.

Lemma terminal_scroll_wp s : screen_ok s ->
  wp terminal_scroll s (fun _ s' => s' = set_cells (scrolled (cells s) (terminal_color s)) s).
Proof.
  intros Hs. pose proof Hs as [Hl _]. unfold terminal_scroll. wp_step.
  apply (wp_for_cells _ _ _ (shifting s)); [done|done| | |].
  - split_and!; try done. intros j Hj. by rewrite decide_False by lia.
  - intros y x s' Hy Hx HI. unfold VGA_HEIGHT, VGA_WIDTH in Hy, Hx.
    rewrite (u32_small (y + 1)), !cell_index by (unfold is32; lia). unfold VGA_WIDTH in *.
    wp_step. apply buffer_read_wp; [apply HI|lia|]. intros v Hv.
    apply buffer_write_wp; [apply HI|lia|]. apply shifting_step; [lia|done|].
    by replace (y * 80 + x + 80) with ((y + 1) * 80 + x) by lia.
  - intros s1 HI. change ((VGA_HEIGHT - 1) * VGA_WIDTH) with 1920 in HI.
    apply (wp_for_loop _ _ _ (blanking 1920 s1)); [done|done|done|done| | |].
    + apply blanking_0, HI.
    + intros x s' Hx _ HI'. unfold VGA_WIDTH in Hx. rewrite cell_index by (unfold VGA_HEIGHT; lia).
      wp_step. wp_step. unfold VGA_HEIGHT. apply buffer_write_wp; [apply HI'|lia|].
      by apply (blanking_step 1920); [lia..|].
    + intros s2 HI'. pose proof (scroll_cells s s1 s2 Hl HI HI') as Hc.
      destruct HI as ((H1 & H2 & H3 & H4 & H5) & _), HI' as ((G1 & G2 & G3 & G4 & G5) & _).
      destruct s2, s. cbn in *. unfold set_cells. cbn. f_equal; [congruence..|exact Hc].
Qed.

(** ** The hardware cursor *)

(** The CRT controller: port [0x3D4] selects a register, port [0x3D5] writes it. *)
Fixpoint crtc_index (t : list event) : Z :=
  match t with
  | [] => 0
  | OutB p v :: r => if p =? 0x3D4 then v else crtc_index r
  | _ :: r => crtc_index r
  end.

Fixpoint crtc_reg (t : list event) (reg : Z) : option Z :=
  match t with
  | [] => None
  | OutB p v :: r => if (p =? 0x3D5) && (crtc_index r =? reg) then Some v else crtc_reg r reg
  | _ :: r => crtc_reg r reg
  end.

(** Registers 14 and 15 hold the cursor's position. *)
Definition hw_cursor (t : list event) : option Z :=
  hi ← crtc_reg t 0x0E; lo ← crtc_reg t 0x0F; Some (256 * hi + lo).

Definition cursor_events (p : Z) : list event :=
  [OutB 0x3D5 (p / 256); OutB 0x3D4 0x0E; OutB 0x3D5 (p mod 256); OutB 0x3D4 0x0F].

Lemma cursor_events_hw p t : hw_cursor (cursor_events p ++ t) = Some p.
Proof.
  unfold hw_cursor, cursor_events. cbn. f_equal. pose proof (Z.div_mod p 256 ltac:(lia)). lia.
Qed.

Lemma update_cursor_wp s : term_wf s ->
  wp terminal_update_cursor s (fun _ s' =>
    s' = update c_lens (emitted (cursor_events (position s)) (c_hw s)) s).
Proof.
  intros (Hr & Hc & _). unfold terminal_update_cursor, VGA_HEIGHT, VGA_WIDTH in *.
  wp_step. wp_step. rewrite cell_index by lia.
  assert (0 <= position s < 2000) as Hp by (unfold position, VGA_WIDTH; lia).
  fold VGA_WIDTH. change (terminal_row s * 80 + terminal_column s) with (position s).
  unfold u16. rewrite (Z.mod_small (position s)) by lia.
  unfold outb, emit. do 11 wp_step. 
  change 255 with (Z.ones 8). rewrite !Z.land_ones, Z.shiftr_div_pow2 by lia.
  change (2 ^ 8) with 256. pose proof (Z.div_pos (position s) 256).
  pose proof (Z.div_lt_upper_bound (position s) 256 8). pose proof (Z.mod_pos_bound (position s) 256).
  rewrite (Z.mod_small (position s / 256)) by lia. by rewrite !u8_small by lia.
Qed.

(** ** Characters *)

(** [s'] shows the tape [pl]; colour and machine are those of [s]. *)
Definition shows (s : csys) (pl : Z * list Z) (s' : csys) : Prop :=
  term_wf s' /\ position s' = pl.1 /\ cells s' = pl.2 /\
  terminal_color s' = terminal_color s /\ c_hw s' = c_hw s.

Lemma scrolled_screen s color : screen_ok s -> screen_ok (set_cells (scrolled (cells s) color) s).
Proof.
  intros (Hl & ? & ?). split; [|done]. cbn [cells set_cells]. unfold scrolled.
  by rewrite length_app, length_drop, length_replicate, Hl.
Qed.

Lemma next_row_wp s : 0 <= terminal_row s < VGA_HEIGHT -> screen_ok s ->
  terminal_column s = 0 ->
  wp next_row s (fun _ s' =>
    shows s (tape_next ((terminal_row s + 1) * VGA_WIDTH) (cells s) (terminal_color s)) s').
Proof.
  intros Hr Hl Hc. unfold next_row, VGA_HEIGHT in *. do 4 wp_step. cbn [set_row terminal_row].
  rewrite u32_small by (unfold is32; lia). unfold tape_next, SCREEN, VGA_WIDTH in *.
  apply wp_when; intros E; bools.
  - wp_step. eapply wp_mono; [by apply terminal_scroll_wp|]. intros [] ? ->. wp_step.
    rewrite E. pose proof (scrolled_screen _ (terminal_color s) Hl) as Hl'.
    unfold shows, term_wf, position. cbn [fst snd Z.mul Z.eqb Pos.mul Pos.eqb set_row set_cells
      terminal_row terminal_column cells terminal_color c_hw]. rewrite Hc. by split_and!.
  - rewrite (proj2 (Z.eqb_neq _ _)) by lia. unfold shows, term_wf, position, VGA_HEIGHT, VGA_WIDTH. cbn.
    rewrite Hc. split_and!; try done; lia.
Qed.

Lemma position_row s : term_wf s -> position s / VGA_WIDTH = terminal_row s.
Proof.
  intros (_ & Hc & _). unfold position, VGA_WIDTH in *. rewrite Z.add_comm, Z.div_add by lia.
  rewrite Z.div_small by lia. lia.
Qed.

(** The effect of one character: the tape is updated, and except after a newline the
    hardware cursor is set to the new position. *)
Definition put_post (c : Z) (s s' : csys) : Prop :=
  let pl := tape_put c (position s) (cells s) (terminal_color s) in
  term_wf s' /\ position s' = pl.1 /\ cells s' = pl.2 /\ terminal_color s' = terminal_color s /\
  c_hw s' = emitted (if c =? NEWLINE then [] else cursor_events pl.1) (c_hw s).

(** Setting the cursor after the tape was updated. *)
Lemma shows_cursor_wp s pl s1 : shows s pl s1 ->
  wp terminal_update_cursor s1 (fun _ s' =>
    term_wf s' /\ position s' = pl.1 /\ cells s' = pl.2 /\ terminal_color s' = terminal_color s /\
    c_hw s' = emitted (cursor_events pl.1) (c_hw s)).
Proof.
  intros (Hw & Hp & Hc & Hcol & Hh). eapply wp_mono; [by apply update_cursor_wp|].
  intros [] ? ->. rewrite <-Hp, <-Hh. split_and!; try done; apply Hw.
Qed.

Lemma putentry_wp s c : term_wf s ->
  wp (terminal_putentryat c (terminal_color s) (terminal_column s) (terminal_row s)) s (fun _ s' =>
    s' = set_cells (<[Z.to_nat (position s) := vga_entry c (terminal_color s)]> (cells s)) s).
Proof.
  intros (Hr & Hc & Hl). unfold terminal_putentryat, VGA_HEIGHT, VGA_WIDTH in *.
  rewrite cell_index by lia. apply buffer_write_wp; [done|lia|done].
Qed.

Lemma backspace_wp s : term_wf s -> wp (terminal_putchar BACKSPACE) s (fun _ s' => put_post BACKSPACE s s').
Proof.
  intros Hwf. pose proof Hwf as (Hr & Hc & Hl). unfold terminal_putchar, put_post, tape_put.
  cbn [Z.eqb BACKSPACE NEWLINE Pos.eqb]. do 5 wp_step.
  set (p := Z.max 0 (position s - 1)).
  apply (wp_mono _ _ _ (fun _ s1 => term_wf s1 /\ position s1 = p /\ cells s1 = cells s /\
           terminal_color s1 = terminal_color s /\ c_hw s1 = c_hw s)).
  { subst p. unfold term_wf, position, VGA_HEIGHT, VGA_WIDTH in *.
    wp_step; bools; [|wp_step; bools].
    - wp_step. cbn. rewrite u32_small by (unfold is32; lia). split_and!; try done; lia.
    - do 3 wp_step. cbn. rewrite u32_small by (unfold is32; lia). split_and!; try done; lia.
    - wp_step. split_and!; try done; lia. }
  intros [] s1 (Hw1 & Hp1 & Hc1 & Hcol1 & Hh1). do 7 wp_step.
  eapply wp_mono; [by apply putentry_wp|]. intros [] ? ->.
  rewrite Hp1, Hcol1, Hc1. eapply (shows_cursor_wp s (p, <[Z.to_nat p:=blank_entry (terminal_color s)]> (cells s))).
  destruct Hw1 as (Hr1 & Hcl1 & Hs1).
  refine (conj (conj Hr1 (conj Hcl1 _)) (conj Hp1 (conj eq_refl (conj Hcol1 Hh1)))).
  rewrite <-Hc1. by apply screen_set.
Qed.

Lemma terminal_putchar_wp c s : term_wf s -> wp (terminal_putchar c) s (fun _ s' => put_post c s s').
Proof.
  intros Hwf. destruct (decide (c = BACKSPACE)) as [->|Hb]; [by apply backspace_wp|].
  pose proof Hwf as (Hr & Hc & Hl). unfold terminal_putchar, put_post, tape_put.
  rewrite (proj2 (Z.eqb_neq c BACKSPACE)) by done. destruct (Z.eqb_spec c NEWLINE) as [->|Hn].
  - do 2 wp_step. eapply wp_mono; [by apply next_row_wp|]. intros [] s' (Hw & Hp & Hcl & Hcol & Hh).
    rewrite position_row by done. by rewrite emitted_nil.
  - do 7 wp_step. eapply wp_mono; [by apply putentry_wp|]. intros [] ? ->.
    do 5 wp_step. cbn [set_cells set_column terminal_column terminal_row cells].
    set (l := <[_ := _]> (cells s)). assert (screen_ok (set_cells l s)) as Hl' by (by apply screen_set).
    unfold VGA_HEIGHT, VGA_WIDTH in *. rewrite u32_small by (unfold is32; lia).
    apply (wp_mono _ _ _ (fun _ s1 => shows s (tape_next (position s + 1) l (terminal_color s)) s1)).
    2:{ intros [] s1 Hs. by eapply shows_cursor_wp. }
    apply wp_when; intros E; bools.
    + wp_step. wp_step. eapply wp_mono; [by apply next_row_wp|]. cbn. intros _ s' Hs.
      replace (position s + 1) with ((terminal_row s + 1) * VGA_WIDTH); [exact Hs|].
      unfold position, VGA_WIDTH. lia.
    + unfold tape_next, SCREEN. rewrite (proj2 (Z.eqb_neq _ _)) by (unfold position, VGA_WIDTH; lia).
      unfold shows, term_wf, position, VGA_HEIGHT, VGA_WIDTH. cbn. split_and!; try done; lia.
Qed.

(** ** Runs of characters *)

(** The terminal is deterministic: one character, and a run of them. *)
Definition put_state (s : csys) (c : Z) : csys :=
  let pl := tape_put c (position s) (cells s) (terminal_color s) in
  Csys (emitted (if c =? NEWLINE then [] else cursor_events pl.1) (c_hw s))
       (pl.1 / VGA_WIDTH) (pl.1 mod VGA_WIDTH) (terminal_color s) (terminal_buffer s) pl.2.

Definition type_all (cs : list Z) (s : csys) : csys := foldl put_state s cs.

Lemma put_post_state c s s' : term_wf s -> put_post c s s' -> s' = put_state s c.
Proof.
  intros Hs (Hw & Hp & Hc & Hcol & Hh). unfold put_state.
  rewrite <-Hp, position_row by done. rewrite <-Hc, <-Hcol.
  assert (position s' mod VGA_WIDTH = terminal_column s') as ->.
  { destruct Hw as (_ & ? & _). unfold position, VGA_WIDTH in *.
    rewrite Z.add_comm, Z.mod_add by lia. by rewrite Z.mod_small by lia. }
  destruct Hs as (_ & _ & _ & -> & _), Hw as (_ & _ & _ & Hb & _).
  rewrite Hp, <-Hh, <-Hb. by destruct s'.
Qed.

Lemma putchar_state c s : term_wf s ->
  wp (terminal_putchar c) s (fun _ s' => s' = put_state s c /\ term_wf s').
Proof.
  intros Hw. eapply wp_mono; [by apply terminal_putchar_wp|]. intros [] s' Hp.
  split; [by apply put_post_state|apply Hp].
Qed.

Lemma terminal_write_wp str n s : term_wf s -> (n <= length str)%nat -> Z.of_nat n < 4294967295 ->
  wp (terminal_write str (Z.of_nat n)) s (fun _ s' => s' = type_all (take n str) s /\ term_wf s').
Proof.
  intros Hw Hn Hn32. unfold terminal_write.
  apply (wp_for_loop _ _ _ (fun i s' => s' = type_all (take (Z.to_nat i) str) s /\ term_wf s'));
    [lia|lia|apply Z.mod_1_r|lia|done| |].
  - intros i s' Hi _ [-> Hw']. destruct (lookup_lt_is_Some_2 str (Z.to_nat i)) as [c Hc]; [lia|].
    replace i with (Z.of_nat (Z.to_nat i)) at 1 by lia. wp_step. eapply char_at_in; [exact Hc|].
    eapply wp_mono; [by apply putchar_state|]. intros [] s'' [-> Hw'']. split; [|done].
    replace (Z.to_nat (i + 1)) with (S (Z.to_nat i)) by lia.
    rewrite (take_S_r _ _ _ Hc). unfold type_all. by rewrite foldl_app.
  - intros s'. by rewrite Nat2Z.id.
Qed.

Lemma terminal_writestring_wp str s : term_wf s -> cstring str ->
  wp (terminal_writestring str) s (fun _ s' => s' = type_all str s /\ term_wf s').
Proof.
  intros Hw Hs. unfold terminal_writestring. wp_step.
  eapply wp_mono; [by apply strlen_wp|]. intros n ? [-> ->].
  eapply wp_mono; [apply terminal_write_wp; [done|done|apply Hs]|]. intros [] s' [-> ?].
  by rewrite firstn_all in *.
Qed.
