(* ===== verification/Kprintf.v ===== *)
(** * Formatted output ([kernel/kprintf.c])

    The conversions and the format interpreter, written against an interface for the
    device that shows a character.  The same conversions are compiled a second time in
    [kernel/serial.c] and a third time in [kernel/shell.c]. *)

From stdpp Require Import base gmap list numbers option strings.
From Stdlib Require Import ZArith Lia.
From S2P Require Import Prelude Machine Terminal.

(** Something that takes characters one by one. *)
Class Sink (S : Type) := out_char : Z -> M S unit.

(** What a sink promises: every character is shown, in order. *)
Class SinkLaws (S : Type) `{Sink S} := {
  sink_ok : S -> Prop;
  shown : S -> list Z -> S -> Prop;
  shown_nil s : shown s [] s;
  shown_app s l1 s1 l2 s2 : shown s l1 s1 -> shown s1 l2 s2 -> shown s (l1 ++ l2) s2;
  out_char_ok s c : sink_ok s -> wp (out_char c) s (fun _ s' => sink_ok s' /\ shown s [c] s');
}.

Section Print.
Context {S : Type} `{Sink S}.

(** A local [char buffer[cap]] that is filled from the front. *)
Definition push (cap : Z) (v : Z) (buffer : list Z) : M S (list Z) :=
  if Z.of_nat (length buffer) <? cap then ret (buffer ++ [u8 v])
  else stop_with (OutOfBounds cap).

(** [while (--i >= 0) putchar(buffer[i]);] *)
Definition put_reverse (buffer : list Z) : M S unit :=
  loop (fun i =>
    let i' := i - 1 in
    if 0 <=? i' then c <- char_at buffer i' ;; out_char c ;;; ret (inl i')
    else ret (inr tt)) (Z.of_nat (length buffer)).

Definition print_uint (num : Z) : M S unit :=
  if num =? 0 then out_char 48 else
  buffer <- loop (fun '(num, buffer) =>
    if 0 <? num then
      buffer' <- push 12 (48 + num mod 10) buffer ;;
      ret (inl (num / 10, buffer'))
    else ret (inr buffer)) (num, []) ;;
  put_reverse buffer.

(** [-num] on [int32_t]. *)
Definition neg32 (num : Z) : M S Z :=
  if num =? -2147483648 then stop_with Undefined else ret (- num).

Definition print_int (num : Z) : M S unit :=
  if num <? 0 then
    out_char 45 ;;;
    num' <- neg32 num ;;
    print_uint (u32 num')
  else print_uint (u32 num).

Definition hex_char (digit : Z) : Z := if digit <? 10 then 48 + digit else 65 + digit - 10.

Definition print_hex (num : Z) : M S unit :=
  if num =? 0 then out_char 48 else
  buffer <- loop (fun '(num, buffer) =>
    if 0 <? num then
      let digit := Z.land num 0xF in
      buffer' <- push 8 (hex_char digit) buffer ;;
      ret (inl (Z.shiftr num 4, buffer'))
    else ret (inr buffer)) (num, []) ;;
  put_reverse buffer.

(** [va_arg]: the next argument at the type the conversion asks for. *)
Definition va_int (args : list karg) : M S (Z * list karg) :=
  match args with KInt v :: r => ret (v, r) | _ => stop_with Undefined end.
Definition va_str (args : list karg) : M S (list Z * list karg) :=
  match args with KStr s :: r => ret (bytes_of s, r) | _ => stop_with Undefined end.

(** The loop of [kprintf] and [serial_printf] over the format, which are the same but
    for the [switch] on the character after a [%].  The state of the loop is the
    position in the format and the arguments left. *)
Definition printf_step (conv : Z -> list karg -> M S (list karg)) (format : list Z)
    (st : Z * list karg) : M S (Z * list karg + unit) :=
  let '(i, args) := st in
  c <- char_at format i ;;
  if c =? 0 then ret (inr tt) else
  if c =? 37 then
    let i := i + 1 in
    c <- char_at format i ;;
    args <- conv c args ;;
    ret (inl (i + 1, args))
  else
    out_char c ;;; ret (inl (i + 1, args)).

Definition printf_loop (conv : Z -> list karg -> M S (list karg)) (format : list Z)
    (args : list karg) : M S unit :=
  loop (printf_step conv format) (0, args).
End Print.

#[export] Instance terminal_sink : Sink csys := terminal_putchar.

(** The [switch] of [kprintf] on the character after a [%]. *)
Definition kprintf_conv (c : Z) (args : list karg) : M csys (list karg) :=
  if c =? 100 then
    va <- va_int args ;; print_int (s32 (u32 va.1)) ;;; ret va.2
  else if c =? 117 then
    va <- va_int args ;; print_uint (u32 va.1) ;;; ret va.2
  else if c =? 120 then
    va <- va_int args ;; print_hex (u32 va.1) ;;; ret va.2
  else if c =? 115 then
    va <- va_str args ;; terminal_writestring va.1 ;;; ret va.2
  else if c =? 37 then
    terminal_putchar 37 ;;; terminal_putchar c ;;; ret args
  else ret args.

(** [kprintf], with its effect on the screen. *)
Definition kprintf_screen (format : list Z) (args : list karg) : M csys unit :=
  printf_loop kprintf_conv format args.

(** The terminal's own conversion in [kernel.c], which counts down with a [for] loop. *)
Definition terminal_print_int (num : Z) : M csys unit :=
  if num =? 0 then terminal_putchar 48 else
  buffer <- loop (fun '(num, buffer) =>
    if 0 <? num then
      buffer' <- push 12 (48 + num mod 10) buffer ;;
      ret (inl (num / 10, buffer'))
    else ret (inr buffer)) (num, []) ;;
  loop (fun j =>
    if 0 <=? j then c <- char_at buffer j ;; terminal_putchar c ;;; ret (inl (j - 1))
    else ret (inr tt)) (Z.of_nat (length buffer) - 1).

(** ** Numerals *)

(** The digits of a number, most significant first; 32 digits are enough for 32 bits
    in any base. *)
Fixpoint digits (base : Z) (fuel : nat) (n : Z) : list Z :=
  match fuel with
  | O => []
  | S k => if n <=? 0 then [] else digits base k (n / base) ++ [n mod base]
  end.

Definition numeral (base : Z) (ch : Z -> Z) (n : Z) : list Z :=
  if n =? 0 then [48] else ch <$> digits base 32 n.

Definition decimal : Z -> list Z := numeral 10 (fun d => 48 + d).
Definition hexadecimal : Z -> list Z := numeral 16 hex_char.

(** Reading a list of digits. *)
Definition digits_value (base : Z) (ds : list Z) : Z := foldl (fun acc d => acc * base + d) 0 ds.

Lemma digits_fuel base k n : 2 <= base -> n < base ^ Z.of_nat k ->
  digits base (S k) n = digits base k n.
Proof.
  intros Hb. revert n. induction k as [|k IH]; intros n Hn.
  - cbn in Hn. cbn. by rewrite (proj2 (Z.leb_le n 0)) by lia.
  - change (digits base (S (S k)) n) with
      (if n <=? 0 then [] else digits base (S k) (n / base) ++ [n mod base]).
    change (digits base (S k) n) with (if n <=? 0 then [] else digits base k (n / base) ++ [n mod base]).
    destruct (n <=? 0); [done|]. rewrite IH; [done|].
    rewrite Nat2Z.inj_succ, Z.pow_succ_r in Hn by lia. apply Z.div_lt_upper_bound; lia.
Qed.

Lemma pow_32 base : 2 <= base -> 4294967296 <= base ^ 32.
Proof. intros. change 4294967296 with (2 ^ 32). apply Z.pow_le_mono_l. lia. Qed.

Lemma digits_step base n : 2 <= base -> 0 < n < 4294967296 ->
  digits base 32 n = digits base 32 (n / base) ++ [n mod base].
Proof.
  intros Hb Hn. rewrite <-(digits_fuel base 32 n) by (done || (pose proof (pow_32 base Hb); cbn; lia)).
  change (digits base 33 n) with (if n <=? 0 then [] else digits base 32 (n / base) ++ [n mod base]).
  by rewrite (proj2 (Z.leb_gt n 0)) by lia.
Qed.

Lemma digits_zero base k : digits base k 0 = [].
Proof. by destruct k. Qed.

Lemma digits_length base fuel k n : 2 <= base -> n < base ^ Z.of_nat k ->
  (length (digits base fuel n) <= k)%nat.
Proof.
  intros Hb. revert k n. induction fuel as [|fuel IH]; intros k n Hn; cbn; [lia|].
  destruct (Z.leb_spec n 0); cbn; [lia|]. destruct k as [|k]; [cbn in Hn; lia|].
  rewrite length_app. cbn. rewrite Nat2Z.inj_succ, Z.pow_succ_r in Hn by lia.
  specialize (IH k (n / base)). assert (n / base < base ^ Z.of_nat k) by (apply Z.div_lt_upper_bound; lia).
  specialize (IH ltac:(done)). lia.
Qed.

Lemma digits_value_ok base n : 2 <= base -> 0 <= n < 4294967296 ->
  digits_value base (digits base 32 n) = n.
Proof.
  intros Hb Hn. assert (forall fuel m, 0 <= m < base ^ Z.of_nat fuel ->
    digits_value base (digits base fuel m) = m) as H.
  { intros fuel. induction fuel as [|k IH]; intros m Hm; [cbn in *; lia|]. cbn [digits].
    destruct (Z.leb_spec m 0); [cbn; lia|]. unfold digits_value in *. rewrite foldl_app. cbn [foldl].
    rewrite IH.
    - pose proof (Z.div_mod m base ltac:(lia)). lia.
    - rewrite Nat2Z.inj_succ, Z.pow_succ_r in Hm by lia.
      split; [apply Z.div_pos|apply Z.div_lt_upper_bound]; lia. }
  apply H. pose proof (pow_32 base Hb). change (Z.of_nat 32) with 32. lia.
Qed.

Section PrintProofs.
Context {S : Type} `{SL : SinkLaws S}.

(** Showing a whole list. *)
Definition outputs (l : list Z) (s s' : S) : Prop := sink_ok s' /\ shown s l s'.

Lemma outputs_app l1 l2 s s1 s2 : outputs l1 s s1 -> outputs l2 s1 s2 -> outputs (l1 ++ l2) s s2.
Proof. intros [_ H1] [H2 H3]. split; [done|by eapply shown_app]. Qed.

Lemma outputs_nil s : sink_ok s -> outputs [] s s.
Proof. split; [done|apply shown_nil]. Qed.

Lemma put_reverse_wp buf s : sink_ok s -> (length buf <= 12)%nat -> wp (put_reverse buf) s (fun _ s' => outputs (rev buf) s s').
Proof.
  intros Hs Hlen. unfold put_reverse.
  apply (wp_loop _ (fun i s' => exists k : nat, i = Z.of_nat k /\ (k <= length buf)%nat /\
           outputs (rev (drop k buf)) s s') (fun i _ => i)).
  2:{ exists (length buf). split_and!; [done|lia|]. rewrite drop_all. split; [done|apply shown_nil]. }
  2:{ lia. }
  intros i s' (k & -> & Hk & Ho). cbv zeta. wp_step; bools.
  - destruct k as [|k]; [lia|]. replace (Z.of_nat (Datatypes.S k) - 1) with (Z.of_nat k) in * by lia.
    destruct (lookup_lt_is_Some_2 buf k) as [c Hc]; [lia|].
    wp_step. eapply char_at_in; [exact Hc|]. wp_step.
    eapply wp_mono; [apply out_char_ok, Ho|]. intros [] s'' Ho'. wp_step.
    split; [|lia]. exists k. split_and!; [done|lia|].
    rewrite (drop_S _ _ _ Hc). cbn. by eapply outputs_app.
  - assert (k = 0%nat) as -> by lia. wp_step. by rewrite drop_0 in Ho.
Qed.

(** The loop that collects digits, in the form both conversions have. *)
Lemma collect_wp base cap (ch : Z -> Z) (body : Z * list Z -> M S (Z * list Z + list Z)) n s :
  2 <= base -> (Z.of_nat cap <= 12) -> 4294967296 <= base ^ Z.of_nat cap ->
  (forall d, 0 <= d < base -> 0 <= ch d < 256) -> 0 <= n < 4294967296 ->
  (forall num buf, 0 <= num < 4294967296 -> body (num, buf) =
     if 0 <? num then buf' <- push (Z.of_nat cap) (ch (num mod base)) buf ;; ret (inl (num / base, buf'))
     else ret (inr buf)) ->
  wp (loop body (n, [])) s (fun buf s' => s' = s /\ rev buf = ch <$> digits base 32 n).
Proof.
  intros Hb Hcap Hpow Hch Hn Hbody.
  apply (wp_loop _ (fun '(num, buf) s' => s' = s /\ 0 <= num <= n /\
           (ch <$> digits base 32 num) ++ rev buf = ch <$> digits base 32 n)
           (fun st _ => st.1)).
  2:{ cbn [rev]. rewrite app_nil_r. split_and!; [done|lia|lia|done]. }
  2:{ cbn. lia. }
  intros [num buf] ? (-> & Hnum & Heq). rewrite Hbody by lia. wp_step; bools.
  - rewrite digits_step in Heq by lia. wp_step. unfold push.
    assert (0 <= num mod base < base) as Hd by (apply Z.mod_pos_bound; lia).
    pose proof (f_equal length Heq) as Hlen.
    rewrite fmap_app, !length_app, !length_fmap, length_rev in Hlen. cbn [length fmap list_fmap] in Hlen.
    pose proof (digits_length base 32 cap n Hb ltac:(lia)) as Hl.
    wp_step; bools; [|lia]. do 2 wp_step.
    rewrite u8_small by (by apply Hch).
    assert (0 <= num / base < num) by (split; [apply Z.div_pos|apply Z.div_lt]; lia).
    split; [|cbn; lia]. split_and!; [done|lia|lia|].
    rewrite rev_app_distr. rewrite fmap_app, <-app_assoc in Heq. exact Heq.
  - wp_step. assert (num = 0) as -> by lia. rewrite digits_zero in Heq. by split.
Qed.

Lemma numeral_wp base cap ch body n s :
  2 <= base -> (Z.of_nat cap <= 12) -> 4294967296 <= base ^ Z.of_nat cap ->
  (forall d, 0 <= d < base -> 0 <= ch d < 256) -> 0 <= n < 4294967296 -> sink_ok s ->
  (forall num buf, 0 <= num < 4294967296 -> body (num, buf) =
     if 0 <? num then buf' <- push (Z.of_nat cap) (ch (num mod base)) buf ;; ret (inl (num / base, buf'))
     else ret (inr buf)) ->
  wp (if n =? 0 then out_char 48 else buffer <- loop body (n, []) ;; put_reverse buffer) s
     (fun _ s' => outputs (numeral base ch n) s s').
Proof.
  intros Hb Hcap Hpow Hch Hn Hs Hbody. unfold numeral. wp_step; bools; [by apply out_char_ok|].
  wp_step. eapply wp_mono; [by eapply collect_wp|]. intros buf ? [-> Hbuf]. rewrite <-Hbuf.
  apply put_reverse_wp; [done|].
  pose proof (f_equal length Hbuf) as Hlen. rewrite length_rev, length_fmap in Hlen.
  pose proof (digits_length base 32 cap n Hb ltac:(lia)). lia.
Qed.

Lemma print_uint_wp n s : 0 <= n < 4294967296 -> sink_ok s ->
  wp (print_uint n) s (fun _ s' => outputs (decimal n) s s').
Proof.
  intros Hn Hs. apply (numeral_wp 10 12 (fun d => 48 + d)); try done.
  intros d Hd. lia.
Qed.

Lemma print_hex_wp n s : 0 <= n < 4294967296 -> sink_ok s ->
  wp (print_hex n) s (fun _ s' => outputs (hexadecimal n) s s').
Proof.
  intros Hn Hs. apply (numeral_wp 16 8 hex_char); try done.
  - intros d Hd. unfold hex_char. destruct (d <? 10); lia.
  - intros num buf _. cbv zeta. change 15 with (Z.ones 4).
    rewrite Z.land_ones, Z.shiftr_div_pow2 by lia. done.
Qed.

(** The signed numeral. *)
Definition signed (n : Z) : list Z := if n <? 0 then 45 :: decimal (- n) else decimal n.

Lemma print_int_wp n s : -2147483648 < n < 2147483648 -> sink_ok s ->
  wp (print_int n) s (fun _ s' => outputs (signed n) s s').
Proof.
  intros Hn Hs. unfold print_int, signed. wp_step; bools.
  - wp_step. eapply wp_mono; [by apply out_char_ok|]. intros [] s1 Ho. unfold neg32.
    rewrite (proj2 (Z.eqb_neq _ _)) by lia. wp_step. wp_step. rewrite u32_small by (unfold is32; lia).
    eapply wp_mono; [apply print_uint_wp; [lia|apply Ho]|]. intros [] s2 Ho2.
    by apply (outputs_app [45] _ _ s1).
  - rewrite u32_small by (unfold is32; lia). apply print_uint_wp; [lia|done].
Qed.
End PrintProofs.

(** ** The interpreter *)

(** The text of a call, given the text of every conversion.  [None]: the call has
    undefined behaviour (an argument is missing or of the other kind, or the format ends
    in [%]). *)
Fixpoint render (text : Z -> list karg -> option (list Z * list karg))
    (format : list Z) (args : list karg) : option (list Z) :=
  match format with
  | [] => Some []
  | c :: r =>
      if c =? 37 then
        match r with
        | [] => None
        | c' :: r' => '(l, args') ← text c' args; app l <$> render text r' args'
        end
      else cons c <$> render text r args
  end.

Section Interpreter.
Context {S : Type} `{SL : SinkLaws S}.
Context (conv : Z -> list karg -> M S (list karg)).
Context (text : Z -> list karg -> option (list Z * list karg)).

Hypothesis conv_ok : forall c args l args' s, sink_ok s -> text c args = Some (l, args') ->
  wp (conv c args) s (fun a s' => a = args' /\ outputs l s s').

Lemma printf_loop_wp format args out s : sink_ok s -> cstring format ->
  render text format args = Some out ->
  wp (printf_loop conv format args) s (fun _ s' => outputs out s s').
Proof.
  intros Hs [Hnz Hlen] Hr. unfold printf_loop.
  apply (wp_loop _ (fun st s' => exists (k : nat) out1 out2, st.1 = Z.of_nat k /\
      (k <= length format)%nat /\ render text (drop k format) st.2 = Some out2 /\
      out = out1 ++ out2 /\ outputs out1 s s')
      (fun st _ => Z.of_nat (length format) - st.1)).
  2:{ exists 0%nat, [], out. cbn [fst snd]. rewrite drop_0. split_and!; try done; [lia|by apply outputs_nil]. }
  2:{ cbn. lia. }
  intros [i a] s' (k & out1 & out2 & Hk & Hkl & Hr' & -> & Ho). cbn [fst snd] in *.
  subst i. unfold printf_step. destruct (decide (k = length format)) as [->|Hne].
  { wp_step. apply char_at_end. wp_step; [|done]. wp_step.
    rewrite drop_all in Hr'. injection Hr' as <-. by rewrite app_nil_r. }
  destruct (lookup_lt_is_Some_2 format k) as [c Hc]; [lia|].
  assert (c <> 0) as Hc0 by (by eapply (Forall_lookup_1 (fun c => c <> 0))).
  rewrite (drop_S _ _ _ Hc) in Hr'. cbn [render] in Hr'. wp_step. eapply char_at_in; [exact Hc|].
  rewrite (proj2 (Z.eqb_neq c 0)) by done. destruct (c =? 37).
  - destruct (decide (Datatypes.S k = length format)) as [El|Hne2].
    { by rewrite El, drop_all in Hr'. }
    destruct (lookup_lt_is_Some_2 format (Datatypes.S k)) as [c2 Hc2]; [lia|].
    rewrite (drop_S _ _ _ Hc2) in Hr'. cbv zeta.
    replace (Z.of_nat k + 1) with (Z.of_nat (Datatypes.S k)) by lia.
    apply bind_Some in Hr' as ([l args'] & Ht & (out' & Hr' & ->)%fmap_Some).
    wp_step. eapply char_at_in; [exact Hc2|]. wp_step.
    eapply wp_mono; [eapply conv_ok; [apply Ho|exact Ht]|]. intros a' s'' [-> Ho']. wp_step.
    split; [|cbn; lia]. exists (Datatypes.S (Datatypes.S k)), (out1 ++ l), out'. cbn [fst snd].
    split_and!; [lia|lia|done|by rewrite <-app_assoc|by apply (outputs_app _ _ _ s')].
  - apply fmap_Some in Hr' as (out' & Hr' & ->).
    wp_step. eapply wp_mono; [apply out_char_ok, Ho|]. intros [] s'' Ho'. wp_step.
    split; [|cbn; lia]. exists (Datatypes.S k), (out1 ++ [c]), out'. cbn [fst snd].
    split_and!; [lia|lia|done|by rewrite <-app_assoc|by apply (outputs_app _ _ _ s')].
Qed.
End Interpreter.

(** The text of the conversions both interpreters share. *)
Definition int_text (args : list karg) : option (list Z * list karg) :=
  match args with
  | KInt v :: r => let n := s32 (u32 v) in
      if n =? -2147483648 then None else Some (signed n, r)
  | _ => None
  end.
Definition uint_text (args : list karg) : option (list Z * list karg) :=
  match args with KInt v :: r => Some (decimal (u32 v), r) | _ => None end.
Definition hex_text (args : list karg) : option (list Z * list karg) :=
  match args with KInt v :: r => Some (hexadecimal (u32 v), r) | _ => None end.
Definition str_text (args : list karg) : option (list Z * list karg) :=
  match args with
  | KStr t :: r =>
      if forallb (fun b => negb (b =? 0)) (bytes_of t) && (Z.of_nat (String.length t) <? 4294967295)
      then Some (bytes_of t, r) else None
  | _ => None
  end.

Lemma bytes_length t : length (bytes_of t) = String.length t.
Proof.
  unfold bytes_of. rewrite length_fmap. induction t as [|a t IH]; cbn; [done|]. by rewrite IH.
Qed.

Lemma str_text_cstring args l args' : str_text args = Some (l, args') ->
  exists t, args = KStr t :: args' /\ l = bytes_of t /\ cstring l.
Proof.
  unfold str_text. destruct args as [|[v|t] r]; try done. destruct (_ && _) eqn:E; [|done].
  intros [= <- <-]. exists t. split_and!; [done|done|]. bools.
  split; [|by rewrite bytes_length].
  apply Forall_forall. intros b Hb%list_elem_of_In.
  pose proof (proj1 (forallb_forall _ _) H b Hb) as Hnz. cbn beta in Hnz. by bools.
Qed.

Lemma s32_range x : -2147483648 <= s32 (u32 x) < 2147483648.
Proof.
  pose proof (u32_range x) as H. unfold is32 in H. unfold s32. destruct (Z.ltb_spec (u32 x) 2147483648); lia.
Qed.

Section SharedConversions.
Context {S : Type} `{SL : SinkLaws S}.

Lemma int_conv_wp args l args' s : sink_ok s -> int_text args = Some (l, args') ->
  wp (va <- va_int args ;; print_int (s32 (u32 va.1)) ;;; ret va.2) s
     (fun a s' => a = args' /\ outputs l s s').
Proof.
  intros Hs Ht. unfold int_text in Ht. destruct args as [|[v|t] r]; try done.
  destruct (Z.eqb_spec (s32 (u32 v)) (-2147483648)); [done|]. injection Ht as <- <-.
  pose proof (s32_range v). wp_step. cbn [va_int]. do 2 wp_step. cbn [fst snd].
  eapply wp_mono; [apply print_int_wp; [lia|done]|]. intros [] s' Ho. by wp_step.
Qed.

Lemma uint_conv_wp args l args' s : sink_ok s -> uint_text args = Some (l, args') ->
  wp (va <- va_int args ;; print_uint (u32 va.1) ;;; ret va.2) s
     (fun a s' => a = args' /\ outputs l s s').
Proof.
  intros Hs Ht. unfold uint_text in Ht. destruct args as [|[v|t] r]; try done. injection Ht as <- <-.
  wp_step. cbn [va_int]. do 2 wp_step.
  eapply wp_mono; [apply print_uint_wp; [apply u32_range|done]|]. intros [] s' Ho. by wp_step.
Qed.

Lemma hex_conv_wp args l args' s : sink_ok s -> hex_text args = Some (l, args') ->
  wp (va <- va_int args ;; print_hex (u32 va.1) ;;; ret va.2) s
     (fun a s' => a = args' /\ outputs l s s').
Proof.
  intros Hs Ht. unfold hex_text in Ht. destruct args as [|[v|t] r]; try done. injection Ht as <- <-.
  wp_step. cbn [va_int]. do 2 wp_step.
  eapply wp_mono; [apply print_hex_wp; [apply u32_range|done]|]. intros [] s' Ho. by wp_step.
Qed.
End SharedConversions.

(** What the conversions that [kprintf] and [serial_printf] offer denote: signed and
    unsigned decimal, hexadecimal (with capital digits), a string, and the percent sign
    itself.  Another conversion has no meaning. *)
Definition printf_text (c : Z) (args : list karg) : option (list Z * list karg) :=
  if c =? 100 then int_text args
  else if c =? 117 then uint_text args
  else if c =? 120 then hex_text args
  else if c =? 115 then str_text args
  else if c =? 37 then Some ([37], args)
  else None.

(** The format has a [%%]. *)
Fixpoint literal_percent (format : list Z) : bool :=
  match format with
  | [] => false
  | c :: r =>
      if c =? 37 then
        match r with
        | [] => false
        | c' :: r' => (c' =? 37) || literal_percent r'
        end
      else literal_percent r
  end.

(** The text of a call depends on the conversions the format has. *)
Lemma render_agrees (t1 t2 : Z -> list karg -> option (list Z * list karg)) (ok : Z -> bool) format args out :
  (forall c a l a', ok c = true -> t1 c a = Some (l, a') -> t2 c a = Some (l, a')) ->
  (forall c, ok c = false -> c = 37) -> (forall c, ok c = true) \/ literal_percent format = false ->
  render t1 format args = Some out -> render t2 format args = Some out.
Proof.
  intros Ht Hok. remember (length format) as n eqn:Hn. revert format args out Hn.
  induction n as [n IH] using lt_wf_ind. intros [|c r] args out Hn Hp Hr; [done|].
  cbn [render literal_percent] in *. destruct (c =? 37).
  - destruct r as [|c' r']; [done|]. apply bind_Some in Hr as ([l args'] & E & (out' & Hr & ->)%fmap_Some).
    assert (ok c' = true /\ ((forall c, ok c = true) \/ literal_percent r' = false)) as [Hc Hp'].
    { destruct Hp as [Hp|Hp]; [by auto|]. apply orb_false_iff in Hp as [H1 H2].
      split; [|by right]. apply not_false_iff_true. intros H%Hok. subst c'. done. }
    rewrite (Ht _ _ _ _ Hc E). cbn. rewrite (IH (length r') ltac:(cbn in Hn; lia) r' args' out' eq_refl Hp' Hr). done.
  - apply fmap_Some in Hr as (out' & Hr & ->). rewrite (IH (length r) ltac:(cbn in Hn; lia) r args out' eq_refl Hp Hr). done.
Qed.

(** A format whose conversions are [%u] and [%x], for [n] arguments. *)
Fixpoint unsigned_format (format : list Z) (n : nat) : bool :=
  match format with
  | [] => true
  | c :: r =>
      if c =? 37 then
        match r, n with
        | c' :: r', S n' => ((c' =? 117) || (c' =? 120)) && unsigned_format r' n'
        | _, _ => false
        end
      else unsigned_format r n
  end.

Lemma unsigned_renders (text : Z -> list karg -> option (list Z * list karg)) format vs :
  (forall v a, text 117 (KInt v :: a) = uint_text (KInt v :: a)) ->
  (forall v a, text 120 (KInt v :: a) = hex_text (KInt v :: a)) ->
  unsigned_format format (length vs) = true -> exists out, render text format (KInt <$> vs) = Some out.
Proof.
  intros Hu Hx. remember (length format) as n eqn:Hn. revert format vs Hn.
  induction n as [n IH] using lt_wf_ind. intros [|c r] vs Hn Hf; [by eexists|].
  cbn [render unsigned_format] in *. destruct (c =? 37).
  - destruct r as [|c' r'], vs as [|v vs]; try done. apply andb_true_iff in Hf as [Hc Hf].
    destruct (IH (length r') ltac:(cbn in Hn; lia) r' vs eq_refl Hf) as [out Ho].
    apply orb_true_iff in Hc as [Hc|Hc]; apply Z.eqb_eq in Hc; subst c';
      change (KInt <$> v :: vs) with (KInt v :: (KInt <$> vs)); rewrite ?Hu, ?Hx; cbn; rewrite Ho; by eexists.
  - destruct (IH (length r) ltac:(cbn in Hn; lia) r vs eq_refl Hf) as [out ->]. by eexists.
Qed.

(** ** The terminal as a sink *)

#[export] Instance terminal_sink_laws : SinkLaws csys.
Proof.
  refine {| sink_ok := term_wf; shown s l s' := s' = type_all l s |}.
  - done.
  - intros s l1 s1 l2 s2 -> ->. unfold type_all. by rewrite foldl_app.
  - intros s c Hs. eapply wp_mono; [by apply putchar_state|]. intros [] s' [-> ?]. done.
Defined.

(** What the [switch] of [kprintf] shows for a conversion, where it departs from
    [printf_text]: two percent signs for [%%], nothing for an unknown conversion. *)
Definition kprintf_conv_text (c : Z) (args : list karg) : option (list Z * list karg) :=
  if c =? 100 then int_text args
  else if c =? 117 then uint_text args
  else if c =? 120 then hex_text args
  else if c =? 115 then str_text args
  else if c =? 37 then Some ([37; 37], args)
  else Some ([], args).

Lemma kprintf_conv_wp c args l args' s : term_wf s -> kprintf_conv_text c args = Some (l, args') ->
  wp (kprintf_conv c args) s (fun a s' => a = args' /\ outputs l s s').
Proof.
  intros Hs Ht. unfold kprintf_conv_text in Ht. unfold kprintf_conv. wp_step; [by apply int_conv_wp|].
  wp_step; [by apply uint_conv_wp|]. wp_step; [by apply hex_conv_wp|].
  wp_step; [|wp_step; bools].
  - apply str_text_cstring in Ht as (t & -> & -> & Hc). wp_step. cbn [va_str]. do 2 wp_step.
    eapply wp_mono; [by apply terminal_writestring_wp|]. intros [] s' [-> ?]. by wp_step.
  - injection Ht as <- <-. subst c.
    wp_step. eapply wp_mono; [by apply putchar_state|]. intros [] s1 [-> Hs1].
    wp_step. eapply wp_mono; [by apply putchar_state|]. intros [] s2 [-> Hs2]. by wp_step.
  - injection Ht as <- <-. wp_step. split; [done|]. by split.
Qed.

Lemma kprintf_screen_wp format args out s : term_wf s -> cstring format ->
  render kprintf_conv_text format args = Some out ->
  wp (kprintf_screen format args) s (fun _ s' => s' = type_all out s /\ term_wf s').
Proof.
  intros Hs Hf Hr. eapply wp_mono; [eapply printf_loop_wp; [apply kprintf_conv_wp|done..]|].
  intros [] s' [? ->]. done.
Qed.

(** But for [%%], a format with a meaning is shown as it is meant. *)
Lemma kprintf_agrees format args out : literal_percent format = false ->
  render printf_text format args = Some out -> render kprintf_conv_text format args = Some out.
Proof.
  intros Hp. apply (render_agrees _ _ (fun c => negb (c =? 37))); [|by intros c ?; bools|by right].
  intros c a l a' Hc. unfold printf_text, kprintf_conv_text. apply negb_true_iff in Hc. rewrite Hc.
  repeat destruct (_ =? _); done.
Qed.

(** The terminal's copy of the conversion is the one of [kprintf]. *)
Lemma terminal_print_int_eq n s : terminal_print_int n s = print_uint n s.
Proof.
  unfold terminal_print_int, print_uint. destruct (n =? 0); [done|]. apply bind_ext. intros buf s'. unfold put_reverse.
  apply (loop_rename (fun i => i - 1) _
           (fun j => if 0 <=? j then c <- char_at buf j ;; terminal_putchar c ;;; ret (inl (j - 1))
                     else ret (inr tt)) ).
  intros i t. cbv beta zeta. destruct (0 <=? i - 1); [|done].
  unfold bind, ret, out_char, terminal_sink. destruct (char_at buf (i - 1) t) as [c t'|]; [|done].
  by destruct (terminal_putchar c t').
Qed.
