(* ===== verification/Serial.v ===== *)
(** * The serial port ([kernel/serial.c])

    COM1 is polled: bit 5 of the line status register says that the transmit buffer is
    empty.  What the device answers is given by the machine's [device]. *)

From stdpp Require Import base gmap list numbers option strings.
From Stdlib Require Import ZArith Lia.
From S2P Require Import Prelude Machine Terminal Kprintf.

Definition COM1 : Z := 0x3F8.

Definition serial_is_transmit_empty : M machine Z :=
  v <- inb (COM1 + 5) ;; ret (Z.land v 0x20).

Definition serial_init : M machine unit :=
  outb (COM1 + 1) 0x00 ;;;
  outb (COM1 + 3) 0x80 ;;;
  outb (COM1 + 0) 0x03 ;;;
  outb (COM1 + 1) 0x00 ;;;
  outb (COM1 + 3) 0x03 ;;;
  outb (COM1 + 2) 0xC7 ;;;
  outb (COM1 + 4) 0x0B.

Definition serial_putchar (c : Z) : M machine unit :=
  loop (fun _ : unit =>
    e <- serial_is_transmit_empty ;;
    ret (if e =? 0 then inl tt else inr tt)) tt ;;;
  outb COM1 c.

Definition serial_writestring (str : list Z) : M machine unit :=
  loop (fun i =>
    c <- char_at str i ;;
    if negb (c =? 0) then serial_putchar c ;;; ret (inl (i + 1)) else ret (inr tt)) 0.

#[export] Instance serial_sink : Sink machine := serial_putchar.

Definition serial_print_uint (num : Z) : M machine unit := print_uint num.
Definition serial_print_int (num : Z) : M machine unit := print_int num.
Definition serial_print_hex (num : Z) : M machine unit := print_hex num.

(** The [switch] of [serial_printf]. *)
Definition serial_conv (c : Z) (args : list karg) : M machine (list karg) :=
  if c =? 100 then
    va <- va_int args ;; serial_print_int (s32 (u32 va.1)) ;;; ret va.2
  else if c =? 117 then
    va <- va_int args ;; serial_print_uint (u32 va.1) ;;; ret va.2
  else if c =? 120 then
    va <- va_int args ;; serial_print_hex (u32 va.1) ;;; ret va.2
  else if c =? 115 then
    va <- va_str args ;; serial_writestring va.1 ;;; ret va.2
  else if c =? 37 then
    serial_putchar 37 ;;; ret args
  else
    serial_putchar 37 ;;; serial_putchar c ;;; ret args.

(** [serial_printf], with its effect on the port. *)
Definition serial_printf_port (format : list Z) (args : list karg) : M machine unit :=
  printf_loop serial_conv format args.

(** ** What goes over the line *)

(** The bytes written to the data register, in order. *)
Fixpoint sent (t : list event) : list Z :=
  match t with
  | [] => []
  | OutB p v :: r => if p =? COM1 then sent r ++ [v] else sent r
  | _ :: r => sent r
  end.

(** The device never stays busy for [2^32] polls. *)
Definition responsive (h : machine) : Prop :=
  forall n : nat, exists k : nat, Z.of_nat k < 4294967295 /\
    has_bits (u8 (device h (COM1 + 5) (n + k))) 0x20 = true.

(** Every byte in the events [es], newest first, was written directly after the line
    status register had been read and had reported an empty transmit buffer. *)
Fixpoint paced (es : list event) : bool :=
  match es with
  | [] => true
  | OutB p v :: r =>
      (negb (p =? COM1) ||
       match r with InB q x :: _ => (q =? COM1 + 5) && has_bits x 0x20 | _ => false end) && paced r
  | _ :: r => paced r
  end.

(** From [h] to [h'] the line has carried [l], at the pace of the device. *)
Definition transmitted (h : machine) (l : list Z) (h' : machine) : Prop :=
  (exists es, trace h' = es ++ trace h /\ sent es = u8 <$> l /\ paced es = true) /\
  device h' = device h /\ ram h' = ram h /\ cr3 h' = cr3 h.

Lemma sent_app es t : sent (es ++ t) = sent t ++ sent es.
Proof.
  induction es as [|[] es IH]; cbn; rewrite ?app_nil_r; try done.
  destruct (port =? COM1); [|done]. by rewrite IH, app_assoc.
Qed.

Lemma paced_app es t : paced es = true -> paced t = true -> paced (es ++ t) = true.
Proof.
  intros He Ht. induction es as [|e es IH]; [done|]. destruct e; cbn in *; auto.
  apply andb_true_iff in He as [Hp He]. rewrite (IH He), andb_true_r.
  destruct (port =? COM1); [|done]. cbn in *. by destruct es as [|[] ?].
Qed.

(** Polling only adds reads to the record. *)
Definition polled (h h' : machine) : Prop :=
  (exists es, trace h' = es ++ trace h /\ sent es = [] /\ paced es = true) /\
  device h' = device h /\ ram h' = ram h /\ cr3 h' = cr3 h.

Lemma serial_putchar_wp c h : responsive h ->
  wp (serial_putchar c) h (fun _ h' => responsive h' /\ transmitted h [c] h').
Proof.
  intros Hr. unfold serial_putchar. wp_step. destruct (Hr (reads h)) as (k & Hk & Hbit).
  apply (wp_loop _ (fun _ h' => polled h h' /\ (reads h <= reads h' <= reads h + k)%nat)
                   (fun _ h' => Z.of_nat (reads h + k) - Z.of_nat (reads h'))).
  2:{ split; [|lia]. split; [by exists []|done]. }
  2:{ lia. }
  intros [] h1 [((es & H1 & Hs & Hp) & H2 & H3 & H4) Hrd]. unfold serial_is_transmit_empty. wp_step. wp_step.
  eapply wp_eq; [reflexivity|]. do 2 wp_step.
  change (u16 (COM1 + 5)) with (COM1 + 5).
  destruct (Z.eqb_spec (Z.land (u8 (device h1 (COM1 + 5) (reads h1))) 32) 0) as [E|E].
  - destruct (decide (reads h1 = reads h + k)%nat) as [Eq|Hne].
    + exfalso. rewrite Eq, H2 in E. unfold has_bits in Hbit. rewrite E in Hbit. done.
    + split; [|cbn; lia]. split; [|cbn; lia]. split; [|done].
      eexists (_ :: es). cbn. by rewrite H1.
  - unfold loop_post, outb, emit. wp_step. split.
    + intros n. cbn. rewrite H2. apply Hr.
    + split; [|done]. eexists (_ :: _ :: es). cbn. rewrite H1, Hs, Hp. split; [done|]. split; [done|].
      unfold has_bits. rewrite !andb_true_r. apply negb_true_iff, Z.eqb_neq, E.
Qed.

#[export] Instance serial_sink_laws : SinkLaws machine.
Proof.
  refine {| sink_ok := responsive; shown := transmitted |}.
  - intros h. split; [by exists []|done].
  - intros h l1 h1 l2 h2 ((e1 & A1 & S1 & P1) & A2 & A3 & A4) ((e2 & B1 & S2 & P2) & B2 & B3 & B4).
    split; [|split_and!; congruence]. exists (e2 ++ e1).
    rewrite B1, A1, app_assoc, sent_app, S1, S2, fmap_app. split; [done|]. split; [done|by apply paced_app].
  - intros h c. apply serial_putchar_wp.
Defined.

Lemma serial_writestring_wp str h : responsive h -> cstring str ->
  wp (serial_writestring str) h (fun _ h' => outputs str h h').
Proof.
  intros Hr [Hnz Hlen]. unfold serial_writestring.
  apply (wp_loop _ (fun i h' => exists k : nat, i = Z.of_nat k /\ (k <= length str)%nat /\
           outputs (take k str) h h') (fun i _ => Z.of_nat (length str) - i)).
  2:{ exists 0%nat. split_and!; [done|lia|by apply outputs_nil]. }
  2:{ lia. }
  intros i h' (k & -> & Hk & Ho). wp_step. destruct (decide (k = length str)) as [->|Hne].
  - apply char_at_end. wp_step; [done|]. wp_step. by rewrite firstn_all in Ho.
  - destruct (lookup_lt_is_Some_2 str k) as [c Hc]; [lia|].
    assert (c <> 0) as Hc0 by (by eapply (Forall_lookup_1 (fun c => c <> 0))).
    eapply char_at_in; [exact Hc|]. rewrite (proj2 (Z.eqb_neq c 0)) by done. cbn [negb].
    wp_step. eapply wp_mono; [apply serial_putchar_wp, Ho|]. intros [] h'' Ho'. wp_step.
    split; [|lia]. exists (k + 1)%nat. split_and!; [lia|lia|].
    rewrite Nat.add_1_r, (take_S_r _ _ _ Hc). by apply (outputs_app _ _ _ h').
Qed.

(** What [serial_printf] sends for a conversion. *)
Definition serial_text (c : Z) (args : list karg) : option (list Z * list karg) :=
  if c =? 100 then int_text args
  else if c =? 117 then uint_text args
  else if c =? 120 then hex_text args
  else if c =? 115 then str_text args
  else if c =? 37 then Some ([37], args)
  else Some ([37; c], args).

Lemma serial_conv_wp c args l args' h : responsive h -> serial_text c args = Some (l, args') ->
  wp (serial_conv c args) h (fun a h' => a = args' /\ outputs l h h').
Proof.
  intros Hs Ht. unfold serial_text in Ht. unfold serial_conv. wp_step; [by apply int_conv_wp|].
  wp_step; [by apply uint_conv_wp|]. wp_step; [by apply hex_conv_wp|].
  wp_step; [|wp_step; bools].
  - apply str_text_cstring in Ht as (t & -> & -> & Hc). wp_step. cbn [va_str]. do 2 wp_step.
    eapply wp_mono; [by apply serial_writestring_wp|]. intros [] s' Ho. by wp_step.
  - injection Ht as <- <-. wp_step. eapply wp_mono; [by apply serial_putchar_wp|]. intros [] h1 Ho.
    by wp_step.
  - injection Ht as <- <-. wp_step. eapply wp_mono; [by apply serial_putchar_wp|]. intros [] h1 Ho.
    wp_step. eapply wp_mono; [apply serial_putchar_wp, Ho|]. intros [] h2 Ho2. wp_step.
    split; [done|]. by apply (outputs_app [37] [c] _ h1).
Qed.

Lemma serial_printf_wp format args out h : responsive h -> cstring format ->
  render serial_text format args = Some out ->
  wp (serial_printf_port format args) h (fun _ h' => outputs out h h').
Proof. intros Hs Hf Hr. eapply printf_loop_wp; [apply serial_conv_wp|done..]. Qed.

(** A format with a meaning is sent as it is meant. *)
Lemma serial_agrees format args out : render printf_text format args = Some out ->
  render serial_text format args = Some out.
Proof.
  apply (render_agrees _ _ (fun _ => true)); [|done|by left]. intros c a l a' _.
  unfold printf_text, serial_text. repeat destruct (_ =? _); done.
Qed.
