(* ===== verification/Shell.v ===== *)
(** * The shell ([kernel/shell.c])

    A line editor over a fixed buffer, and a table of commands that the finished line is
    compared with. *)

From stdpp Require Import base gmap list numbers option strings.
From Stdlib Require Import ZArith Lia.
From S2P Require Import Prelude Machine Terminal Kprintf.

Definition MAX_CMD_LENGTH : Z := 256.

(** [ticks] is the counter of [kernel/timer.c] that [cmd_ticks] shows. *)
Record ssys := Ssys {
  s_c : csys;
  cmd_buffer : list Z;
  cmd_length : Z;
  ticks : Z;
}.

Definition s_lens : lens ssys csys :=
  Lens s_c (fun c s => Ssys c (cmd_buffer s) (cmd_length s) (ticks s)).

#[export] Instance s_lens_laws : LensLaws s_lens.
Proof. split; by intros; try destruct s. Qed.

Definition set_cmd_length (n : Z) (s : ssys) : ssys := Ssys (s_c s) (cmd_buffer s) n (ticks s).

Definition timer_get_ticks : M ssys Z := get ticks.

(** [cmd_buffer[i]] as an lvalue and as a value. *)
Definition cmd_write (i v : Z) : M ssys unit :=
  fun s => match cmd_buffer s !! Z.to_nat i with
           | Some _ => Ok tt (Ssys (s_c s) (<[Z.to_nat i := v]> (cmd_buffer s)) (cmd_length s) (ticks s))
           | None => Stop (OutOfBounds i) s
           end.
Definition cmd_read (i : Z) : M ssys Z :=
  fun s => match cmd_buffer s !! Z.to_nat i with
           | Some v => Ok v s
           | None => Stop (OutOfBounds i) s
           end.

(** [strcmp], on two ways of reading a character. *)
Definition strcmp {S} (s1 s2 : Z -> M S Z) : M S Z :=
  loop (fun i =>
    a <- s1 i ;;
    b <- (if a =? 0 then ret 0 else s2 i) ;;
    if negb (a =? 0) && (a =? b) then ret (inl (i + 1))
    else a' <- s1 i ;; b' <- s2 i ;; ret (inr (u8 a' - u8 b'))) 0.

Definition writes_string (t : string) : M ssys unit := zoom s_lens (terminal_writestring (bytes_of t)).

Definition shell_prompt : M ssys unit := writes_string "> ".

Definition cmd_help : M ssys unit :=
  writes_string ("Available commands:" +:+ nl) ;;;
  writes_string ("help - Show this message" +:+ nl) ;;;
  writes_string ("clear - Clear the screen" +:+ nl) ;;;
  writes_string ("ticks - Show number of timer ticks since boot" +:+ nl) ;;;
  writes_string ("about - About TupleOS" +:+ nl).

Definition cmd_clear : M ssys unit := zoom s_lens terminal_initialize.

Definition cmd_about : M ssys unit :=
  writes_string ("TupleOS v0.1" +:+ nl) ;;;
  writes_string ("A simple hobby OS written in C" +:+ nl) ;;;
  writes_string ("Created by Aaron Grant and Val Petrov" +:+ nl).

(** The shell's own copy of [print_uint]. *)
Definition shell_print_uint (num : Z) : M ssys unit := zoom s_lens (print_uint num).

Definition cmd_ticks : M ssys unit :=
  writes_string "Ticks since boot: " ;;;
  t <- timer_get_ticks ;;
  shell_print_uint t ;;;
  zoom s_lens (terminal_putchar NEWLINE).

Definition shell_init : M ssys unit :=
  writes_string ("Welcome To The TupleOS Shell" +:+ nl) ;;;
  writes_string ("Type 'help' for a list of commands" +:+ nl) ;;;
  shell_prompt.

(** The functions of the command table. *)
Inductive cmd_fn := CmdHelp | CmdClear | CmdAbout | CmdTicks.

Definition run_command (f : cmd_fn) : M ssys unit :=
  match f with
  | CmdHelp => cmd_help
  | CmdClear => cmd_clear
  | CmdAbout => cmd_about
  | CmdTicks => cmd_ticks
  end.

Definition commands : list (string * cmd_fn) :=
  [("help", CmdHelp); ("clear", CmdClear); ("about", CmdAbout); ("ticks", CmdTicks)].

(** The search of [shell_execute] through the table. *)
Fixpoint search (table : list (string * cmd_fn)) : M ssys (option cmd_fn) :=
  match table with
  | [] => ret None
  | (name, fn) :: r =>
      d <- strcmp cmd_read (char_at (bytes_of name)) ;;
      if d =? 0 then ret (Some fn) else search r
  end.

(** [terminal_writestring(cmd_buffer)]: the buffer up to its terminator. *)
Definition write_buffer : M ssys unit :=
  n <- loop (fun len => c <- cmd_read len ;; ret (if negb (c =? 0) then inl (len +u 1) else inr len)) 0 ;;
  for_loop n 1 (fun i => c <- cmd_read i ;; zoom s_lens (terminal_putchar c)) 0.

Definition shell_execute : M ssys unit :=
  n <- get cmd_length ;;
  cmd_write n 0 ;;;
  found <- search commands ;;
  match found with
  | Some fn =>
      run_command fn ;;;
      modify (set_cmd_length 0) ;;;
      shell_prompt
  | None =>
      writes_string "Unknown command: " ;;;
      write_buffer ;;;
      zoom s_lens (terminal_putchar NEWLINE) ;;;
      modify (set_cmd_length 0) ;;;
      shell_prompt
  end.

Definition shell_handle_key (c : Z) : M ssys unit :=
  if c =? NEWLINE then
    zoom s_lens (terminal_putchar NEWLINE) ;;;
    shell_execute
  else if c =? BACKSPACE then
    n <- get cmd_length ;;
    when (0 <? n) (modify (set_cmd_length (n -u 1)) ;;; zoom s_lens (terminal_putchar BACKSPACE))
  else
    n <- get cmd_length ;;
    when (n <? MAX_CMD_LENGTH - 1)
      (cmd_write n c ;;; modify (set_cmd_length (n +u 1)) ;;; zoom s_lens (terminal_putchar c)).

(** ** The line editor *)

(** A character a key can produce. *)
Definition key_char (c : Z) : Prop := 0 < c < 256.

(** The line typed so far. *)
Definition line (s : ssys) : list Z := take (Z.to_nat (cmd_length s)) (cmd_buffer s).

Definition shell_wf (s : ssys) : Prop :=
  term_wf (s_c s) /\ length (cmd_buffer s) = 256%nat /\ 0 <= cmd_length s < MAX_CMD_LENGTH /\
  Forall key_char (line s) /\ is32 (ticks s).

(** The command a line names. *)
Fixpoint lookup_command (table : list (string * cmd_fn)) (l : list Z) : option cmd_fn :=
  match table with
  | [] => None
  | (name, fn) :: r => if decide (bytes_of name = l) then Some fn else lookup_command r l
  end.

Definition prompt_text : list Z := bytes_of "> ".

Definition help_text : list Z :=
  bytes_of ("Available commands:" +:+ nl) ++ bytes_of ("help - Show this message" +:+ nl) ++
  bytes_of ("clear - Clear the screen" +:+ nl) ++
  bytes_of ("ticks - Show number of timer ticks since boot" +:+ nl) ++
  bytes_of ("about - About TupleOS" +:+ nl).

Definition about_text : list Z :=
  bytes_of ("TupleOS v0.1" +:+ nl) ++ bytes_of ("A simple hobby OS written in C" +:+ nl) ++
  bytes_of ("Created by Aaron Grant and Val Petrov" +:+ nl).

Definition ticks_text (t : Z) : list Z := bytes_of "Ticks since boot: " ++ decimal t ++ [NEWLINE].

(** The screen [terminal_initialize] leaves. *)
Definition cleared (c : csys) : csys := Csys (c_hw c) 0 0 7 0xC00B8000 (replicate 2000 (blank_entry 7)).

(** What a command does to the screen. *)
Definition command_screen (f : cmd_fn) (t : Z) (c : csys) : csys :=
  match f with
  | CmdHelp => type_all help_text c
  | CmdClear => cleared c
  | CmdAbout => type_all about_text c
  | CmdTicks => type_all (ticks_text t) c
  end.

Definition reply (l : list Z) (t : Z) (c : csys) : csys :=
  type_all prompt_text
    match lookup_command commands l with
    | Some f => command_screen f t c
    | None => type_all (bytes_of "Unknown command: " ++ l ++ [NEWLINE]) c
    end.

(** One key on a line and a screen: the specification of [shell_handle_key]. *)
Definition edit (c : Z) (t : Z) (l : list Z) (scr : csys) : list Z * csys :=
  if c =? NEWLINE then ([], reply l t (put_state scr NEWLINE))
  else if c =? BACKSPACE then
    match l with
    | [] => (l, scr)
    | _ => (removelast l, put_state scr BACKSPACE)
    end
  else if Z.of_nat (length l) <? MAX_CMD_LENGTH - 1 then (l ++ [c], put_state scr c)
  else (l, scr).

(** ** Output through the terminal *)

(** [s'] is [s] with another screen. *)
Definition with_screen (c : csys) (s : ssys) : ssys := update s_lens c s.

Lemma literal_cstring t : forallb (fun b => negb (b =? 0)) (bytes_of t) = true ->
  Z.of_nat (String.length t) < 4294967295 -> cstring (bytes_of t).
Proof.
  intros Hz Hl. split; [|by rewrite bytes_length].
  apply Forall_forall. intros b Hb%list_elem_of_In.
  pose proof (proj1 (forallb_forall _ _) Hz b Hb) as Hnz. cbn beta in Hnz. by bools.
Qed.

Lemma writes_string_wp t s (Q : unit -> ssys -> Prop) E : term_wf (s_c s) -> cstring (bytes_of t) ->
  (term_wf (type_all (bytes_of t) (s_c s)) -> Q tt (with_screen (type_all (bytes_of t) (s_c s)) s)) ->
  wpe (writes_string t) s Q E.
Proof.
  intros Hw Hc HQ. apply wp_total. unfold writes_string. wp_step.
  eapply wp_mono; [by apply terminal_writestring_wp|]. intros [] c [-> Hw']. by apply HQ.
Qed.

Lemma put_wp c s (Q : unit -> ssys -> Prop) E : term_wf (s_c s) ->
  (term_wf (put_state (s_c s) c) -> Q tt (with_screen (put_state (s_c s) c) s)) ->
  wpe (zoom s_lens (terminal_putchar c)) s Q E.
Proof.
  intros Hw HQ. apply wp_total. wp_step. eapply wp_mono; [by apply putchar_state|].
  intros [] c' [-> Hw']. by apply HQ.
Qed.

Lemma type_all_app l1 l2 c : type_all (l1 ++ l2) c = type_all l2 (type_all l1 c).
Proof. unfold type_all. by rewrite foldl_app. Qed.

(** The strings the shell prints are C strings. *)
Ltac literal := apply literal_cstring; [vm_compute; reflexivity|vm_compute; reflexivity].

Ltac say := wp_step; apply writes_string_wp; [done|literal|intros ?].

Lemma cleared_wf c : screen_mapped (c_hw c) -> term_wf (cleared c).
Proof.
  intros Hm. unfold term_wf, screen_ok, VGA_HEIGHT, VGA_WIDTH.
  cbn [cleared terminal_row terminal_column terminal_buffer cells c_hw].
  rewrite length_replicate. by split_and!.
Qed.

Lemma run_command_wp f s : shell_wf s ->
  wp (run_command f) s (fun _ s' => s' = with_screen (command_screen f (ticks s) (s_c s)) s /\
    term_wf (s_c s')).
Proof.
  intros (Hw & _ & _ & _ & Ht). destruct f; cbn [run_command command_screen].
  - unfold cmd_help. do 4 say. apply writes_string_wp; [done|literal|intros ?].
    unfold help_text. rewrite !type_all_app. done.
  - unfold cmd_clear. wp_step. eapply wp_mono; [apply terminal_initialize_wp; apply Hw|].
    intros [] c ->. split; [done|apply cleared_wf, Hw].
  - unfold cmd_about. do 2 say. apply writes_string_wp; [done|literal|intros ?].
    unfold about_text. rewrite !type_all_app. done.
  - unfold cmd_ticks, timer_get_ticks. say. do 3 wp_step. unfold shell_print_uint. wp_step.
    eapply wp_mono; [apply (print_uint_wp (SL := terminal_sink_laws)); [exact Ht|done]|].
    intros [] c [Hw' ->]. apply put_wp; [done|]. intros ?. unfold ticks_text.
    rewrite !type_all_app. done.
Qed.

(** ** Comparing the line with a name *)

(** The buffer holds the line [l] and its terminator. *)
Definition terminated (s : ssys) (l : list Z) : Prop :=
  cmd_buffer s !! length l = Some 0 /\ take (length l) (cmd_buffer s) = l /\ Forall key_char l.

Lemma cmd_read_wp s (i : nat) v (Q : Z -> ssys -> Prop) E : cmd_buffer s !! i = Some v ->
  Q v s -> wpe (cmd_read (Z.of_nat i)) s Q E.
Proof. intros Hi HQ. unfold wpe, cmd_read. by rewrite Nat2Z.id, Hi. Qed.

(** Reading a C string at an index up to its terminator. *)
Definition str_nth (l : list Z) (k : nat) : Z := default 0 (l !! k).

Lemma terminated_read s l k : terminated s l -> (k <= length l)%nat ->
  cmd_buffer s !! k = Some (str_nth l k).
Proof.
  intros (H0 & Ht & _) Hk. unfold str_nth. destruct (decide (k = length l)) as [->|Hne].
  - by rewrite (lookup_ge_None_2 l) by lia.
  - destruct (lookup_lt_is_Some_2 l k) as [c Hc]; [lia|]. rewrite Hc. cbn.
    rewrite <-Ht in Hc. by apply lookup_take_Some in Hc as [? _].
Qed.

Lemma char_at_nth {S} l k (Q : Z -> S -> Prop) E s : (k <= length l)%nat -> Q (str_nth l k) s ->
  wpe (char_at l (Z.of_nat k)) s Q E.
Proof.
  intros Hk HQ. destruct (decide (k = length l)) as [->|Hne].
  - apply char_at_end. unfold str_nth in HQ. by rewrite lookup_ge_None_2 in HQ by lia.
  - destruct (lookup_lt_is_Some_2 l k) as [c Hc]; [lia|]. eapply char_at_in; [exact Hc|].
    unfold str_nth in HQ. by rewrite Hc in HQ.
Qed.

Lemma str_nth_key l k : Forall key_char l -> 0 <= str_nth l k < 256 /\
  (str_nth l k = 0 <-> (length l <= k)%nat).
Proof.
  intros Hl. unfold str_nth. destruct (l !! k) as [c|] eqn:Hc; cbn.
  - assert (key_char c) as Hkc by (by eapply (Forall_lookup_1 key_char)). unfold key_char in Hkc.
    pose proof (lookup_lt_Some _ _ _ Hc). lia.
  - apply lookup_ge_None_1 in Hc. lia.
Qed.

(** Equal prefixes that end together. *)
Lemma prefix_total (l1 l2 : list Z) k : take k l1 = take k l2 ->
  (length l1 <= k)%nat -> (length l2 <= k)%nat -> l1 = l2.
Proof. intros E H1 H2. by rewrite !take_ge in E by lia. Qed.

Lemma prefix_differs (l1 l2 : list Z) k : str_nth l1 k <> str_nth l2 k -> l1 <> l2.
Proof. by intros H ->. Qed.

Lemma take_next (l1 l2 : list Z) k : take k l1 = take k l2 -> (k < length l1)%nat -> (k < length l2)%nat ->
  str_nth l1 k = str_nth l2 k -> take (S k) l1 = take (S k) l2.
Proof.
  intros E H1 H2 En. destruct (lookup_lt_is_Some_2 l1 k) as [a Ha]; [done|].
  destruct (lookup_lt_is_Some_2 l2 k) as [b Hb]; [done|]. unfold str_nth in En.
  rewrite Ha, Hb in En. cbn in En. subst b. by rewrite (take_S_r _ _ _ Ha), (take_S_r _ _ _ Hb), E.
Qed.

Lemma strcmp_wp s l name : terminated s l -> Forall key_char name -> (length l < 256)%nat ->
  wp (strcmp cmd_read (char_at name)) s (fun d s' => s' = s /\ (d = 0 <-> name = l)).
Proof.
  intros Hl Hn Hlen. pose proof Hl as (_ & _ & Hk). unfold strcmp.
  apply (wp_loop _ (fun i s' => s' = s /\ exists k : nat, i = Z.of_nat k /\ (k <= length l)%nat /\
           (k <= length name)%nat /\ take k name = take k l) (fun i _ => Z.of_nat (length l) - i)).
  2:{ split; [done|]. exists 0%nat. split_and!; [done|lia|lia|done]. }
  2:{ lia. }
  intros i ? (-> & k & -> & Hkl & Hkn & Heq).
  pose proof (terminated_read s l k Hl Hkl) as Hrd.
  destruct (str_nth_key l k Hk) as [Ra Za], (str_nth_key name k Hn) as [Rb Zb].
  wp_step. eapply cmd_read_wp; [exact Hrd|]. wp_step.
  apply (wp_mono _ _ _ (fun b s' => s' = s /\ b = if str_nth l k =? 0 then 0 else str_nth name k)).
  { wp_step; [by wp_step|]. by apply char_at_nth. }
  intros b ? [-> ->]. wp_step; bools.
  - rewrite (proj2 (Z.eqb_neq (str_nth l k) 0)) in H0 by done. wp_step.
    assert (k < length l)%nat by (destruct (decide (length l <= k)%nat); [tauto|lia]).
    assert (k < length name)%nat by (destruct (decide (length name <= k)%nat); [lia|lia]).
    split; [|lia]. split; [done|]. exists (k + 1)%nat. split_and!; [lia|lia|lia|].
    rewrite Nat.add_1_r. by apply take_next.
  - wp_step. eapply cmd_read_wp; [exact Hrd|]. wp_step. apply char_at_nth; [done|]. wp_step.
    split; [done|]. rewrite !u8_small by done. destruct (Z.eqb_spec (str_nth l k) 0) as [E0|E0].
    + rewrite E0. split.
      * intros Hd. apply (prefix_total _ _ k); [done|apply Zb; lia|by apply Za].
      * intros ->. lia.
    + cbn in E. bools. split; [lia|]. intros ->. done.
Qed.

Lemma names_keys name f : In (name, f) commands -> Forall key_char (bytes_of name).
Proof.
  intros Hin. assert (forallb (fun b => (0 <? b) && (b <? 256)) (bytes_of name) = true) as Hb.
  { repeat destruct Hin as [[= <- <-]|Hin]; [by vm_compute..|done]. }
  apply Forall_forall. intros b Hel%list_elem_of_In.
  pose proof (proj1 (forallb_forall _ _) Hb b Hel) as Hc. cbn beta in Hc. bools. done.
Qed.

Lemma search_wp s l table : terminated s l -> (length l < 256)%nat ->
  (forall name f, In (name, f) table -> Forall key_char (bytes_of name)) ->
  wp (search table) s (fun o s' => s' = s /\ o = lookup_command table l).
Proof.
  intros Hl Hlen. induction table as [|[name f] r IH]; intros Hn; cbn [search lookup_command].
  - by wp_step.
  - wp_step. eapply wp_mono; [apply strcmp_wp; [done|by apply (Hn name f); left|done]|].
    intros d ? [-> Hd]. wp_step; bools.
    + wp_step. by rewrite decide_True by tauto.
    + rewrite decide_False by tauto. apply IH. intros n' f' Hin. by apply (Hn n' f'); right.
Qed.

(** ** Executing a line *)

Lemma cmd_write_wp s i v (Q : unit -> ssys -> Prop) E : length (cmd_buffer s) = 256%nat ->
  0 <= i < 256 ->
  Q tt (Ssys (s_c s) (<[Z.to_nat i := v]> (cmd_buffer s)) (cmd_length s) (ticks s)) ->
  wpe (cmd_write i v) s Q E.
Proof.
  intros Hl Hi HQ. unfold wpe, cmd_write.
  destruct (lookup_lt_is_Some_2 (cmd_buffer s) (Z.to_nat i)) as [c ->]; [lia|done].
Qed.

Lemma line_length s : shell_wf s -> length (line s) = Z.to_nat (cmd_length s).
Proof.
  intros (_ & Hl & Hn & _). unfold line, MAX_CMD_LENGTH in *. rewrite length_take. lia.
Qed.

(** The state after the terminator was written. *)
Lemma terminate s : shell_wf s ->
  let s1 := Ssys (s_c s) (<[Z.to_nat (cmd_length s) := 0]> (cmd_buffer s)) (cmd_length s) (ticks s) in
  terminated s1 (line s) /\ shell_wf s1.
Proof.
  intros Hwf s1. pose proof (line_length s Hwf) as Hll. destruct Hwf as (Hw & Hl & Hn & Hk & Ht).
  unfold MAX_CMD_LENGTH in Hn.
  assert (take (Z.to_nat (cmd_length s)) (cmd_buffer s1) = line s) as Htake.
  { cbn. unfold line. rewrite take_insert_ge by lia. done. }
  split.
  - unfold terminated. rewrite Hll, Htake. refine (conj _ (conj eq_refl Hk)).
    apply list_lookup_insert_eq. lia.
  - refine (conj Hw (conj _ (conj Hn (conj _ Ht)))); [cbn; by rewrite length_insert|].
    change (line s1) with (take (Z.to_nat (cmd_length s)) (cmd_buffer s1)). by rewrite Htake.
Qed.

Lemma terminated_screen s c l : terminated s l -> terminated (with_screen c s) l.
Proof. done. Qed.

Lemma write_buffer_wp s l : terminated s l -> term_wf (s_c s) -> (length l < 256)%nat ->
  wp write_buffer s (fun _ s' => s' = with_screen (type_all l (s_c s)) s /\ term_wf (s_c s')).
Proof.
  intros Hl Hw Hlen. pose proof Hl as (_ & _ & Hk). unfold write_buffer. wp_step.
  apply (wp_mono _ _ _ (fun n s' => s' = s /\ n = Z.of_nat (length l))).
  { apply (wp_loop _ (fun n s' => s' = s /\ exists k : nat, n = Z.of_nat k /\ (k <= length l)%nat)
                     (fun n _ => Z.of_nat (length l) - n)).
    2:{ split; [done|]. exists 0%nat. split; [done|lia]. }
    2:{ lia. }
    intros n ? (-> & k & -> & Hkl). wp_step.
    eapply cmd_read_wp; [by apply terminated_read|]. wp_step.
    destruct (str_nth_key l k Hk) as [_ Hz]. destruct (Z.eqb_spec (str_nth l k) 0) as [E|E]; cbn [negb].
    - split; [done|]. f_equal. apply Hz in E. lia.
    - rewrite u32_small by (unfold is32; lia).
      assert (k < length l)%nat by (destruct (decide (length l <= k)%nat); [tauto|lia]).
      split; [|lia]. split; [done|]. exists (k + 1)%nat. lia. }
  intros n ? [-> ->].
  apply (wp_for_loop _ _ _ (fun i s' => s' = with_screen (type_all (take (Z.to_nat i) l) (s_c s)) s /\
           term_wf (s_c s'))); [lia|lia|apply Z.mod_1_r|lia| | |].
  - split; [by destruct s|done].
  - intros i s' Hi _ [-> Hw']. replace i with (Z.of_nat (Z.to_nat i)) at 1 by lia.
    destruct (lookup_lt_is_Some_2 l (Z.to_nat i)) as [c Hc]; [lia|].
    wp_step. eapply cmd_read_wp.
    { apply (terminated_read _ l); [done|lia]. }
    unfold str_nth. rewrite Hc. cbn [default from_option id]. apply put_wp; [done|]. intros ?.
    split; [|done]. replace (Z.to_nat (i + 1)) with (S (Z.to_nat i)) by lia.
    rewrite (take_S_r _ _ _ Hc), type_all_app. done.
  - intros s'. by rewrite Nat2Z.id, firstn_all.
Qed.

Lemma empty_line s' scr t : cmd_length s' = 0 -> length (cmd_buffer s') = 256%nat ->
  term_wf (s_c s') -> is32 t -> ticks s' = t -> s_c s' = scr ->
  shell_wf s' /\ line s' = [] /\ s_c s' = scr /\ ticks s' = t.
Proof.
  intros Hn Hl Hw Ht <- <-. assert (line s' = []) as El by (unfold line; by rewrite Hn).
  split; [|done]. unfold shell_wf. rewrite El, Hn. unfold MAX_CMD_LENGTH. split_and!; done.
Qed.

(** The outcome of [shell_execute]: an empty line, and the reply on the screen. *)
Lemma shell_execute_wp s : shell_wf s ->
  wp shell_execute s (fun _ s' => shell_wf s' /\ line s' = [] /\
    s_c s' = reply (line s) (ticks s) (s_c s) /\ ticks s' = ticks s).
Proof.
  intros Hwf. destruct (terminate s Hwf) as [Hterm Hwf1]. pose proof (line_length s Hwf) as Hll.
  pose proof Hwf as (Hw & Hl & Hn & _ & Ht). unfold MAX_CMD_LENGTH in Hn.
  unfold shell_execute. wp_step. wp_step. wp_step. apply cmd_write_wp; [done|done|].
  set (s1 := Ssys _ _ _ _) in *. wp_step.
  eapply wp_mono; [apply (search_wp s1 (line s)); [done|lia|apply names_keys]|].
  intros o ? [-> ->]. unfold reply.
  pose proof Hwf1 as (_ & Hl1 & _).
  destruct (lookup_command commands (line s)) as [f|].
  - wp_step. eapply wp_mono; [by apply run_command_wp|]. intros [] s2 [-> Hw2]. do 2 wp_step.
    apply writes_string_wp; [done|literal|]. intros Hw3. apply empty_line; done.
  - say. wp_step. eapply wp_mono; [apply (write_buffer_wp _ (line s)); [done|done|lia]|].
    intros [] s2 [-> Hw2]. wp_step. apply put_wp; [done|]. intros Hw3. do 2 wp_step.
    apply writes_string_wp; [done|literal|]. intros Hw4. rewrite !type_all_app.
    apply empty_line; done.
Qed.

(** ** Keys *)

Lemma line_push s c : shell_wf s -> cmd_length s < 255 -> key_char c ->
  let s' := Ssys (put_state (s_c s) c) (<[Z.to_nat (cmd_length s) := c]> (cmd_buffer s))
              (cmd_length s + 1) (ticks s) in
  term_wf (put_state (s_c s) c) -> shell_wf s' /\ line s' = line s ++ [c].
Proof.
  intros (Hw & Hl & Hn & Hk & Ht) Hlt Hc s' Hw'. unfold MAX_CMD_LENGTH in Hn.
  assert (line s' = line s ++ [c]) as El.
  { unfold line, s'. cbn. replace (Z.to_nat (cmd_length s + 1)) with (S (Z.to_nat (cmd_length s))) by lia.
    rewrite (take_S_r _ _ c) by (apply list_lookup_insert_eq; lia). by rewrite take_insert_ge by lia. }
  split; [|done]. unfold shell_wf. rewrite El. cbn. rewrite length_insert. unfold MAX_CMD_LENGTH.
  split_and!; try done; try lia. apply Forall_app. split; [done|by apply Forall_singleton].
Qed.

Lemma line_pop s : shell_wf s -> 0 < cmd_length s ->
  let s' := Ssys (put_state (s_c s) BACKSPACE) (cmd_buffer s) (cmd_length s - 1) (ticks s) in
  term_wf (put_state (s_c s) BACKSPACE) -> shell_wf s' /\ line s' = removelast (line s).
Proof.
  intros Hwf Hlt s' Hw'. pose proof (line_length s Hwf) as Hll. destruct Hwf as (Hw & Hl & Hn & Hk & Ht).
  unfold MAX_CMD_LENGTH in Hn.
  assert (line s' = removelast (line s)) as El.
  { unfold line, s' in *. cbn in *. rewrite removelast_firstn_len, Hll, take_take. f_equal. lia. }
  split; [|done]. unfold shell_wf. rewrite El. unfold MAX_CMD_LENGTH. cbn. split_and!; try done; try lia.
  rewrite removelast_firstn_len. by apply Forall_take.
Qed.

Lemma shell_handle_key_wp c s : shell_wf s -> key_char c ->
  wp (shell_handle_key c) s (fun _ s' => shell_wf s' /\ ticks s' = ticks s /\
    (line s', s_c s') = edit c (ticks s) (line s) (s_c s)).
Proof.
  intros Hwf Hc. pose proof Hwf as (Hw & Hl & Hn & Hk & Ht). pose proof (line_length s Hwf) as Hll.
  unfold shell_handle_key, edit. wp_step; bools; [|wp_step; bools].
  - wp_step. apply put_wp; [done|]. intros Hw1.
    eapply wp_mono; [by apply shell_execute_wp|]. intros [] s' (H1 & H2 & H3 & H4).
    split_and!; [done|done|]. by rewrite H2, H3.
  - wp_step. wp_step. unfold MAX_CMD_LENGTH in Hn. apply wp_when; intros E1; bools.
    + do 2 wp_step. apply put_wp; [done|]. intros Hw1. rewrite u32_small by (unfold is32; lia).
      destruct (line_pop s Hwf E1 Hw1) as [H1 H2].
      destruct (line s) as [|x l] eqn:El; [cbn in Hll; lia|]. split_and!; [exact H1|done|].
      rewrite <-H2. done.
    + assert (line s = []) as -> by (apply nil_length_inv; lia). done.
  - wp_step. wp_step. unfold MAX_CMD_LENGTH in *. change (256 - 1) with 255.
    rewrite Hll, Z2Nat.id by lia. apply wp_when; intros E1; rewrite E1; bools.
    + wp_step. apply cmd_write_wp; [done|lia|]. do 2 wp_step. apply put_wp; [done|]. intros Hw1.
      rewrite u32_small by (unfold is32; lia).
      destruct (line_push s c Hwf E1 Hc Hw1) as [H1 H2]. split_and!; [exact H1|done|].
      rewrite <-H2. done.
    + done.
Qed.
