(* ===== verification/Keyboard.v ===== *)
(** * The keyboard driver ([kernel/keyboard.c])

    Scan codes are read from port [0x60] in the interrupt handler, translated with the
    shift state and given to the shell. *)

From stdpp Require Import base gmap list numbers option strings.
From Stdlib Require Import ZArith Lia.
From S2P Require Import Prelude Machine Terminal Kprintf Shell.

Definition KEYBOARD_DATA_PORT : Z := 0x60.
Definition LEFT_SHIFT_PRESSED : Z := 0x2A.
Definition LEFT_SHIFT_RELEASED : Z := 0xAA.
Definition RIGHT_SHIFT_PRESSED : Z := 0x36.
Definition RIGHT_SHIFT_RELEASED : Z := 0xB6.

(** A table of 128 characters of which the first are given. *)
Definition table128 (l : list Z) : list Z := l ++ replicate (128 - length l) 0.

Definition scancode_to_ascii : list Z := table128
  ([0; 0] ++ bytes_of "1234567890-=" ++ [8; 9] ++
   bytes_of "qwertyuiop[]" ++ [10; 0] ++
   bytes_of "asdfghjkl;'`" ++ [0] ++ bytes_of "\" ++
   bytes_of "zxcvbnm,./" ++ [0; 42; 0; 32; 0] ++
   [0; 0; 0; 0; 0; 0; 0; 0; 0; 0; 0; 0] ++
   bytes_of "789-456+1230." ++
   [0; 0; 0; 0; 0]).

Definition scancode_to_ascii_shifted : list Z := table128
  ([0; 0] ++ bytes_of "!@#$%^&*()_+" ++ [8; 9] ++
   bytes_of "QWERTYUIOP{}" ++ [10; 0] ++
   bytes_of "ASDFGHJKL:" ++ [34] ++ bytes_of "~" ++ [0] ++ bytes_of "|" ++
   bytes_of "ZXCVBNM<>?" ++ [0; 42; 0; 32; 0] ++
   [0; 0; 0; 0; 0; 0; 0; 0; 0; 0; 0; 0] ++
   bytes_of "789-456+1230." ++
   [0; 0; 0; 0; 0]).

Record ksys := Ksys {
  k_s : ssys;
  shift_held : bool;
}.

Definition k_lens : lens ksys ssys := Lens k_s (fun t s => Ksys t (shift_held s)).

#[export] Instance k_lens_laws : LensLaws k_lens.
Proof. split; by intros; try destruct s. Qed.

Definition set_shift (b : bool) (s : ksys) : ksys := Ksys (k_s s) b.

Definition table_read {S} (t : list Z) (i : Z) : M S Z :=
  match t !! Z.to_nat i with Some c => ret c | None => stop_with (OutOfBounds i) end.

Definition keyboard_handler : M ksys unit :=
  scancode <- zoom k_lens (zoom s_lens (zoom c_lens (inb KEYBOARD_DATA_PORT))) ;;
  if (scancode =? LEFT_SHIFT_PRESSED) || (scancode =? RIGHT_SHIFT_PRESSED) then
    modify (set_shift true)
  else if (scancode =? LEFT_SHIFT_RELEASED) || (scancode =? RIGHT_SHIFT_RELEASED) then
    modify (set_shift false)
  else if has_bits scancode 0x80 then ret tt
  else if scancode <? 128 then
    shift <- get shift_held ;;
    c <- (if shift : bool then table_read scancode_to_ascii_shifted scancode
          else table_read scancode_to_ascii scancode) ;;
    when (negb (c =? 0)) (zoom k_lens (shell_handle_key c))
  else ret tt.

(** ** Translation *)

(** What a scan code means. *)
Inductive key_event :=
  | ShiftKey (pressed : bool)
  | CharKey (c : Z)
  | NoKey.

Definition key_of (shift : bool) (sc : Z) : key_event :=
  if (sc =? 0x2A) || (sc =? 0x36) then ShiftKey true
  else if (sc =? 0xAA) || (sc =? 0xB6) then ShiftKey false
  else if 128 <=? sc then NoKey
  else
    let c := (if shift then scancode_to_ascii_shifted else scancode_to_ascii) !!! Z.to_nat sc in
    if c =? 0 then NoKey else CharKey c.

(** The driver on the abstract shell: line, screen and shift state. *)
Definition key_step (sc : Z) (t : Z) (shift : bool) (l : list Z) (scr : csys) : bool * list Z * csys :=
  match key_of shift sc with
  | ShiftKey b => (b, l, scr)
  | CharKey c => let '(l', scr') := edit c t l scr in (shift, l', scr')
  | NoKey => (shift, l, scr)
  end.

Lemma high_bit sc : 0 <= sc < 256 -> has_bits sc 0x80 = (128 <=? sc).
Proof.
  intros Hsc. change 128 with (Z.shiftl 1 7) at 1. rewrite has_bits_shiftl1 by lia.
  rewrite Z.testbit_odd, Z.shiftr_div_pow2 by lia. change (2 ^ 7) with 128.
  destruct (Z.leb_spec 128 sc).
  - assert (sc / 128 = 1) as -> by (symmetry; apply (Z.div_unique sc 128 1 (sc - 128)); lia). done.
  - by rewrite Z.div_small by lia.
Qed.

(** Every entry of the tables is a character or 0. *)
Lemma table_entries : Forall (fun c => 0 <= c < 128) scancode_to_ascii /\
  Forall (fun c => 0 <= c < 128) scancode_to_ascii_shifted.
Proof.
  assert (forall l, forallb (fun c => (0 <=? c) && (c <? 128)) l = true -> Forall (fun c => 0 <= c < 128) l) as H.
  { intros l Hl. apply Forall_forall. intros b Hb%list_elem_of_In.
    pose proof (proj1 (forallb_forall _ _) Hl b Hb) as Hc. cbn beta in Hc. by bools. }
  split; apply H; by vm_compute.
Qed.

Lemma table_lengths : length scancode_to_ascii = 128%nat /\ length scancode_to_ascii_shifted = 128%nat.
Proof. by vm_compute. Qed.

Lemma table_read_wp {S} (shift : bool) sc (Q : Z -> S -> Prop) E s : 0 <= sc < 128 ->
  (forall c, c = (if shift then scancode_to_ascii_shifted else scancode_to_ascii) !!! Z.to_nat sc ->
     0 <= c < 128 -> Q c s) ->
  wpe (if shift then table_read scancode_to_ascii_shifted sc else table_read scancode_to_ascii sc) s Q E.
Proof.
  intros Hsc HQ. destruct table_entries as [E1 E2], table_lengths as [L1 L2].
  destruct shift; unfold table_read.
  - destruct (lookup_lt_is_Some_2 scancode_to_ascii_shifted (Z.to_nat sc)) as [c Hc]; [lia|].
    rewrite Hc. wp_step. apply HQ; [by rewrite (list_lookup_total_correct _ _ _ Hc)|].
    apply (Forall_lookup_1 _ _ _ _ E2 Hc).
  - destruct (lookup_lt_is_Some_2 scancode_to_ascii (Z.to_nat sc)) as [c Hc]; [lia|].
    rewrite Hc. wp_step. apply HQ; [by rewrite (list_lookup_total_correct _ _ _ Hc)|].
    apply (Forall_lookup_1 _ _ _ _ E1 Hc).
Qed.

(** The screen after the handler's own port access. *)
Definition after_read (c : csys) : csys :=
  let h := c_hw c in
  let v := u8 (device h 0x60 (reads h)) in
  update c_lens (Machine (ram h) (cr3 h) (device h) (S (reads h)) (InB 0x60 v :: trace h)) c.

Lemma keyboard_handler_wp s : shell_wf (k_s s) ->
  let sc := u8 (device (c_hw (s_c (k_s s))) 0x60 (reads (c_hw (s_c (k_s s))))) in
  wp keyboard_handler s (fun _ s' => shell_wf (k_s s') /\
    (shift_held s', line (k_s s'), s_c (k_s s')) =
    key_step sc (ticks (k_s s)) (shift_held s) (line (k_s s)) (after_read (s_c (k_s s)))).
Proof.
  intros Hwf sc. pose proof (u8_range (device (c_hw (s_c (k_s s))) 0x60 (reads (c_hw (s_c (k_s s)))))) as Hsc.
  fold sc in Hsc. unfold keyboard_handler. do 4 wp_step.
  eapply wp_eq; [reflexivity|]. cbn [view update k_lens s_lens c_lens].
  change (u16 KEYBOARD_DATA_PORT) with 0x60. fold sc. cbv zeta.
  set (s1 := Ksys _ _). assert (shell_wf (k_s s1)) as Hwf1 by exact Hwf.
  unfold key_step, key_of.
  change LEFT_SHIFT_PRESSED with 0x2A. change RIGHT_SHIFT_PRESSED with 0x36.
  change LEFT_SHIFT_RELEASED with 0xAA. change RIGHT_SHIFT_RELEASED with 0xB6.
  wp_step; [by wp_step|]. wp_step; [by wp_step|]. rewrite high_bit by done.
  destruct (Z.leb_spec 128 sc); [by wp_step|].
  rewrite (proj2 (Z.ltb_lt sc 128)) by lia. do 3 wp_step.
  apply table_read_wp; [lia|]. intros c -> Hc. change (shift_held s1) with (shift_held s) in *.
  set (c := _ !!! _) in *. apply wp_when; intros Ec; bools.
  - wp_step. eapply wp_mono; [apply shell_handle_key_wp; [done|unfold key_char; lia]|].
    intros [] s2 (Hwf2 & _ & Hed). rewrite (proj2 (Z.eqb_neq c 0)) by done.
    change (ticks (view k_lens s1)) with (ticks (k_s s)) in Hed.
    change (line (view k_lens s1)) with (line (k_s s)) in Hed.
    change (s_c (view k_lens s1)) with (after_read (s_c (k_s s))) in Hed. rewrite <-Hed. done.
  - rewrite Ec. done.
Qed.
