(* ===== verification/Gdt.v ===== *)
(** * Segment descriptors ([kernel/gdt.c], [kernel/gdt.h], [boot/gdt_flush.asm])

    The fields the code scatters base and limit into, and the descriptor the processor
    reads back from the eight bytes of an entry. *)

From stdpp Require Import base gmap list numbers option strings.
From Stdlib Require Import ZArith Lia.
From S2P Require Import Prelude Machine.

Record gdt_entry := GdtEntry {
  limit_low : Z;
  base_low : Z;
  base_middle : Z;
  access : Z;
  granularity : Z;
  base_high : Z;
}.

(** The table, the operand of [lgdt] and the segment registers. *)
Record dsys := Dsys {
  d_hw : machine;
  gdt : list gdt_entry;
  gp_limit : Z;
  gp_base : Z;
  seg_cs : Z;
  seg_data : Z;
}.

Definition d_lens : lens dsys machine :=
  Lens d_hw (fun h s => Dsys h (gdt s) (gp_limit s) (gp_base s) (seg_cs s) (seg_data s)).

Definition gdt_write (i : Z) (f : gdt_entry -> gdt_entry) : M dsys unit :=
  fun s => match gdt s !! Z.to_nat i with
           | Some e => Ok tt (Dsys (d_hw s) (<[Z.to_nat i := f e]> (gdt s)) (gp_limit s) (gp_base s)
                                   (seg_cs s) (seg_data s))
           | None => Stop (OutOfBounds i) s
           end.

Definition gdt_set_entry (index base limit acc gran : Z) : M dsys unit :=
  gdt_write index (fun e => GdtEntry (limit_low e) (u16 (Z.land base 0xFFFF)) (base_middle e)
                              (access e) (granularity e) (base_high e)) ;;;
  gdt_write index (fun e => GdtEntry (limit_low e) (base_low e) (u8 (Z.land (Z.shiftr base 16) 0xFF))
                              (access e) (granularity e) (base_high e)) ;;;
  gdt_write index (fun e => GdtEntry (limit_low e) (base_low e) (base_middle e) (access e)
                              (granularity e) (u8 (Z.land (Z.shiftr base 24) 0xFF))) ;;;
  gdt_write index (fun e => GdtEntry (u16 (Z.land limit 0xFFFF)) (base_low e) (base_middle e)
                              (access e) (granularity e) (base_high e)) ;;;
  gdt_write index (fun e => GdtEntry (limit_low e) (base_low e) (base_middle e) (access e)
                              (u8 (Z.land (Z.shiftr limit 16) 0x0F)) (base_high e)) ;;;
  gdt_write index (fun e => GdtEntry (limit_low e) (base_low e) (base_middle e) (access e)
                              (u8 (Z.lor (granularity e) (Z.land gran 0xF0))) (base_high e)) ;;;
  gdt_write index (fun e => GdtEntry (limit_low e) (base_low e) (base_middle e) (u8 acc)
                              (granularity e) (base_high e)).

Section Gdt.
(** The link address of [gdt]. *)
Context (sym_gdt : Z).

(** [gdt_flush]: [lgdt], the data segment registers, and the far jump. *)
Definition gdt_flush : M dsys unit :=
  lim <- get gp_limit ;;
  base <- get gp_base ;;
  zoom d_lens (emit (Lgdt lim base)) ;;;
  modify (fun s => Dsys (d_hw s) (gdt s) (gp_limit s) (gp_base s) (seg_cs s) 0x10) ;;;
  modify (fun s => Dsys (d_hw s) (gdt s) (gp_limit s) (gp_base s) 0x08 (seg_data s)).

Definition gdt_init : M dsys unit :=
  modify (fun s => Dsys (d_hw s) (gdt s) (u16 (8 * 3 - 1)) (gp_base s) (seg_cs s) (seg_data s)) ;;;
  modify (fun s => Dsys (d_hw s) (gdt s) (gp_limit s) sym_gdt (seg_cs s) (seg_data s)) ;;;
  gdt_set_entry 0 0 0 0 0 ;;;
  gdt_set_entry 1 0 0xFFFFFFFF 0x9A 0xCF ;;;
  gdt_set_entry 2 0 0xFFFFFFFF 0x92 0xCF ;;;
  gdt_flush.
End Gdt.

(** ** The processor's view *)

(** The bytes of an entry in memory ([packed], little-endian). *)
Definition entry_bytes (e : gdt_entry) : list Z :=
  [limit_low e mod 256; limit_low e / 256; base_low e mod 256; base_low e / 256;
   base_middle e; access e; granularity e; base_high e].

(** A segment as the processor decodes it from a descriptor's eight bytes. *)
Record segment := Segment {
  sg_base : Z;
  sg_limit : Z;
  sg_present : bool;
  sg_dpl : Z;
  sg_code : bool;
  sg_big : bool;
}.

Definition decode (b : list Z) : option segment :=
  match b with
  | [l0; l1; b0; b1; b2; acc; gr; b3] =>
      let limit20 := l0 + 256 * l1 + 65536 * (gr mod 16) in
      Some (Segment (b0 + 256 * b1 + 65536 * b2 + 16777216 * b3)
                    (if Z.testbit gr 7 then limit20 * 4096 + 4095 else limit20)
                    (Z.testbit acc 7) ((acc / 32) mod 4) (Z.testbit acc 3) (Z.testbit gr 6))
  | _ => None
  end.

(** The entry the seven stores leave. *)
Definition make_entry (base limit acc gran : Z) : gdt_entry :=
  GdtEntry (limit mod 65536) (base mod 65536) ((base / 65536) mod 256) (acc mod 256)
           (Z.lor ((limit / 65536) mod 16) (Z.land gran 0xF0)) (base / 16777216).


Lemma gran_byte lim gran : 0 <= Z.lor (lim mod 16) (Z.land gran 0xF0) < 256.
Proof.
  assert (Z.lor (lim mod 16) (Z.land gran 0xF0) =
          Z.land (Z.lor (lim mod 16) (Z.land gran 0xF0)) (Z.ones 8)) as E.
  { rewrite Z.land_lor_distr_l, <-Z.land_assoc. change (Z.land 240 (Z.ones 8)) with 240.
    f_equal. rewrite Z.land_ones by lia. symmetry. apply Z.mod_small.
    pose proof (Z.mod_pos_bound lim 16). change (2 ^ 8) with 256. lia. }
  rewrite E, Z.land_ones by lia. by apply Z.mod_pos_bound.
Qed.

Lemma gdt_set_entry_run i base limit acc gran s e : is32 base -> is32 limit ->
  gdt s !! Z.to_nat i = Some e ->
  gdt_set_entry i base limit acc gran s =
  Ok tt (Dsys (d_hw s) (<[Z.to_nat i := make_entry base limit acc gran]> (gdt s)) (gp_limit s)
              (gp_base s) (seg_cs s) (seg_data s)).
Proof.
  intros Hb Hl He. unfold is32 in *. pose proof (lookup_lt_Some _ _ _ He) as Hlt.
  unfold gdt_set_entry, bind, gdt_write. rewrite He. cbn [gdt d_hw gp_limit gp_base seg_cs seg_data].
  do 6 (rewrite list_lookup_insert_eq by (by rewrite ?length_insert);
        cbn [gdt d_hw gp_limit gp_base seg_cs seg_data];
        rewrite ?list_insert_insert_eq).
  cbn [limit_low base_low base_middle access granularity base_high].
  unfold make_entry, u16, u8. rewrite !land_ffff, !land_ff, !land_f.
  rewrite !Z.shiftr_div_pow2 by lia. change (2 ^ 16) with 65536. change (2 ^ 24) with 16777216.
  rewrite !Z.mod_mod by lia.
  rewrite (Z.mod_small (base / 16777216)) by (Z.to_euclidean_division_equations; lia).
  rewrite (Z.mod_small ((limit / 65536) mod 16)) by (pose proof (Z.mod_pos_bound (limit / 65536) 16); lia).
  rewrite (Z.mod_small (Z.lor _ _)) by apply gran_byte. done.
Qed.

Lemma gran_low lim gran : 0 <= lim < 16 -> Z.lor lim (Z.land gran 0xF0) mod 16 = lim.
Proof.
  intros H. change 16 with (2 ^ 4). rewrite <-Z.land_ones, Z.land_lor_distr_l by lia.
  rewrite <-Z.land_assoc. change (Z.land 240 (Z.ones 4)) with 0. rewrite Z.land_0_r, Z.lor_0_r.
  rewrite Z.land_ones by lia. by apply Z.mod_small.
Qed.

Lemma gran_high lim gran k : 0 <= lim < 16 -> 4 <= k < 8 ->
  Z.testbit (Z.lor lim (Z.land gran 0xF0)) k = Z.testbit gran k.
Proof.
  intros Hl Hk. rewrite Z.lor_spec, Z.land_spec.
  replace (Z.testbit lim k) with false.
  2:{ symmetry. destruct (Z.eq_dec lim 0) as [->|]; [by rewrite Z.bits_0|].
      apply Z.bits_above_log2; [lia|]. apply Z.log2_lt_pow2; [lia|].
      apply Z.lt_le_trans with (2 ^ 4); [lia|]. apply Z.pow_le_mono_r; lia. }
  replace (Z.testbit 240 k) with true; [by rewrite andb_true_r|].
  assert (k = 4 \/ k = 5 \/ k = 6 \/ k = 7) as [->|[->|[->| ->]]] by lia; done.
Qed.

(** Scattering and decoding are inverse. *)
Lemma decode_make_entry base limit acc gran : is32 base -> is32 limit ->
  decode (entry_bytes (make_entry base limit acc gran)) =
  Some (Segment base
          (if Z.testbit gran 7 then limit mod 1048576 * 4096 + 4095 else limit mod 1048576)
          (Z.testbit acc 7) ((acc / 32) mod 4) (Z.testbit acc 3) (Z.testbit gran 6)).
Proof.
  intros Hb Hl. unfold is32 in *. pose proof (Z.mod_pos_bound (limit / 65536) 16 ltac:(lia)) as Hg.
  unfold decode, entry_bytes, make_entry.
  cbn [limit_low base_low base_middle access granularity base_high].
  rewrite gran_low, !gran_high by lia.
  f_equal. f_equal.
  - Z.to_euclidean_division_equations. lia.
  - assert (limit mod 65536 mod 256 + 256 * (limit mod 65536 / 256) + 65536 * ((limit / 65536) mod 16)
            = limit mod 1048576) as E by (Z.to_euclidean_division_equations; lia).
    by rewrite E.
  - change 256 with (2 ^ 8). by rewrite Z.mod_pow2_bits_low by lia.
  - Z.to_euclidean_division_equations. lia.
  - change 256 with (2 ^ 8). by rewrite Z.mod_pow2_bits_low by lia.
Qed.
