(* ===== verification/Idt.v ===== *)
(** * Interrupts ([kernel/idt.c], [kernel/idt.h], [boot/interrupts.asm])

    The descriptor table, the remapping of the interrupt controllers, the registration
    of handlers and the dispatch with its end-of-interrupt protocol. *)

From stdpp Require Import base gmap list numbers option strings.
From Stdlib Require Import ZArith Lia.
From S2P Require Import Prelude Machine.

Definition IDT_ENTRIES : Z := 256.

Record idt_entry := IdtEntry {
  i_base_low : Z;
  i_selector : Z;
  i_zero : Z;
  i_flags : Z;
  i_base_high : Z;
}.

(** The functions that are registered as handlers. *)
Inductive handler := TimerHandler | KeyboardHandler | PageFaultHandler.

#[export] Instance handler_eq_dec : EqDecision handler.
Proof. solve_decision. Defined.

Record isys := Isys {
  i_hw : machine;
  idt : list idt_entry;
  idtp_limit : Z;
  idtp_base : Z;
  handlers : list (option handler);
}.

Definition i_lens : lens isys machine :=
  Lens i_hw (fun h s => Isys h (idt s) (idtp_limit s) (idtp_base s) (handlers s)).

#[export] Instance i_lens_laws : LensLaws i_lens.
Proof. split; by intros; try destruct s. Qed.

Definition idt_set_entry (index base selector flags : Z) : M isys unit :=
  let index := u8 index in
  fun s => match idt s !! Z.to_nat index with
           | Some _ =>
               Ok tt (Isys (i_hw s)
                 (<[Z.to_nat index := IdtEntry (u16 (Z.land base 0xFFFF)) (u16 selector) 0 (u8 flags)
                                        (u16 (Z.land (Z.shiftr base 16) 0xFFFF))]> (idt s))
                 (idtp_limit s) (idtp_base s) (handlers s))
           | None => Stop (OutOfBounds index) s
           end.

Definition pic_remap : M machine unit :=
  mask_master <- inb 0x21 ;;
  mask_slave <- inb 0xA1 ;;
  outb 0x20 0x11 ;;; io_wait ;;;
  outb 0xA0 0x11 ;;; io_wait ;;;
  outb 0x21 0x20 ;;; io_wait ;;;
  outb 0xA1 0x28 ;;; io_wait ;;;
  outb 0x21 0x04 ;;; io_wait ;;;
  outb 0xA1 0x02 ;;; io_wait ;;;
  outb 0x21 0x01 ;;; io_wait ;;;
  outb 0xA1 0x01 ;;; io_wait ;;;
  outb 0x21 mask_master ;;;
  outb 0xA1 mask_slave.

Definition idt_register_handler (interrupt : Z) (h : handler) : M isys unit :=
  let interrupt := u8 interrupt in
  fun s => match handlers s !! Z.to_nat interrupt with
           | Some _ => Ok tt (Isys (i_hw s) (idt s) (idtp_limit s) (idtp_base s)
                                   (<[Z.to_nat interrupt := Some h]> (handlers s)))
           | None => Stop (OutOfBounds interrupt) s
           end.

Section IdtInit.
(** Link addresses: of [idt] and of the stubs of [boot/interrupts.asm]. *)
Context (sym_idt : Z) (isr irq : Z -> Z).

(** The calls of [idt_set_entry] in [idt_init], in their order. *)
Definition gates : list (Z * Z) :=
  [ (0, isr 0); (1, isr 1); (2, isr 2); (3, isr 3); (4, isr 4); (5, isr 5); (6, isr 6); (7, isr 7);
    (8, isr 8); (9, isr 9); (10, isr 10); (11, isr 11); (12, isr 12); (13, isr 13); (14, isr 14);
    (15, isr 15); (16, isr 16); (17, isr 17); (18, isr 18); (19, isr 19); (20, isr 20);
    (21, isr 21); (22, isr 22); (23, isr 23); (24, isr 24); (25, isr 25); (26, isr 26);
    (27, isr 27); (28, isr 28); (29, isr 29); (30, isr 30); (31, isr 31);
    (32, irq 0); (33, irq 1); (34, irq 2); (35, irq 3); (36, irq 4); (37, irq 5); (38, irq 6);
    (39, irq 7); (40, irq 8); (41, irq 9); (42, irq 10); (43, irq 11); (44, irq 12);
    (45, irq 13); (46, irq 14); (47, irq 15) ].

Fixpoint install (l : list (Z * Z)) : M isys unit :=
  match l with
  | [] => ret tt
  | (n, stub) :: r => idt_set_entry n stub 0x08 0x8E ;;; install r
  end.

Definition idt_init : M isys unit :=
  zoom i_lens pic_remap ;;;
  modify (fun s => Isys (i_hw s) (idt s) (u16 (8 * IDT_ENTRIES - 1)) (idtp_base s) (handlers s)) ;;;
  modify (fun s => Isys (i_hw s) (idt s) (idtp_limit s) sym_idt (handlers s)) ;;;
  install gates ;;;
  lim <- get idtp_limit ;;
  base <- get idtp_base ;;
  zoom i_lens (emit (Lidt lim base)) ;;;
  zoom i_lens (emit Sti).
End IdtInit.

(** ** Dispatch

    Written over any state that has a machine and the table of handlers; [run] calls a
    handler. *)
Section Dispatch.
Context {S : Type} (hw_lens : lens S machine) (table : S -> list (option handler)).
Context (run : handler -> M S unit).

Definition send_eoi (n : Z) : M S unit :=
  when ((32 <=? n) && (n <=? 47))
    (when (40 <=? n) (zoom hw_lens (outb 0xA0 0x20)) ;;;
     zoom hw_lens (outb 0x20 0x20)).

(** [if (handlers[n] != NULL) handlers[n](frame);] *)
Definition call_handler (interrupt_number : Z) : M S unit :=
  h <- (fun s => match table s !! Z.to_nat interrupt_number with
                 | Some h => Ok h s
                 | None => Stop (OutOfBounds interrupt_number) s
                 end) ;;
  match h with
  | Some f => run f
  | None => ret tt
  end.

(** For a frame that the handler leaves alone. *)
Definition interrupt_handler (interrupt_number : Z) : M S unit :=
  call_handler interrupt_number ;;; send_eoi interrupt_number.
End Dispatch.

(** ** Gates *)

(** What the processor finds in an entry. *)
Record gate := Gate {
  gt_offset : Z;
  gt_selector : Z;
  gt_present : bool;
  gt_dpl : Z;
  gt_type : Z;
}.

Definition decode_gate (e : idt_entry) : gate :=
  Gate (i_base_low e + 65536 * i_base_high e) (i_selector e) (Z.testbit (i_flags e) 7)
       ((i_flags e / 32) mod 4) (i_flags e mod 32).

(** An interrupt gate of ring 0 for [stub]; type 14 is the 32-bit interrupt gate, which
    clears the interrupt flag. *)
Definition kernel_gate (stub : Z) : gate := Gate stub 0x08 true 0 14.

Definition made_entry (stub : Z) : idt_entry :=
  IdtEntry (stub mod 65536) 0x08 0 0x8E (stub / 65536).

Lemma idt_set_entry_run n stub s : length (idt s) = 256%nat -> 0 <= n < 256 -> is32 stub ->
  idt_set_entry n stub 0x08 0x8E s =
  Ok tt (Isys (i_hw s) (<[Z.to_nat n := made_entry stub]> (idt s)) (idtp_limit s) (idtp_base s) (handlers s)).
Proof.
  intros Hl Hn H32. unfold idt_set_entry, is32 in *. rewrite u8_small by lia.
  destruct (lookup_lt_is_Some_2 (idt s) (Z.to_nat n)) as [e ->]; [lia|].
  unfold made_entry, u16. rewrite !land_ffff, Z.shiftr_div_pow2, !Z.mod_mod by lia.
  change (2 ^ 16) with 65536. rewrite (Z.mod_small (stub / 65536)); [done|].
  Z.to_euclidean_division_equations. lia.
Qed.

Lemma decode_made_entry stub : decode_gate (made_entry stub) = kernel_gate stub.
Proof.
  unfold decode_gate, made_entry, kernel_gate. cbn. f_equal.
  pose proof (Z.div_mod stub 65536 ltac:(lia)). lia.
Qed.

Lemma install_run l s : length (idt s) = 256%nat ->
  Forall (fun g => 0 <= g.1 < 256 /\ is32 g.2) l ->
  install l s = Ok tt (Isys (i_hw s) (foldl (fun t g => <[Z.to_nat g.1 := made_entry g.2]> t) (idt s) l)
                            (idtp_limit s) (idtp_base s) (handlers s)).
Proof.
  intros Hl Hg. revert s Hl. induction Hg as [|[n stub] l [Hn H32] _ IH]; intros s Hl; [by destruct s|].
  cbn [install]. unfold bind. rewrite idt_set_entry_run by done. rewrite IH; [done|].
  cbn. by rewrite length_insert.
Qed.

(** ** The interrupt controllers

    An 8259: a command with bit 4 set starts the initialisation, the next three bytes to
    the data port are the vector base, the wiring and the mode; after that the data port
    sets the interrupt mask. *)

Record pic := Pic {
  pic_step : Z;
  pic_base : Z;
  pic_wiring : Z;
  pic_mode : Z;
  pic_mask : Z;
}.

Definition pic_command (v : Z) (p : pic) : pic :=
  if Z.testbit v 4 then Pic 1 (pic_base p) (pic_wiring p) (pic_mode p) 0 else p.

Definition pic_data (v : Z) (p : pic) : pic :=
  if pic_step p =? 1 then Pic 2 v (pic_wiring p) (pic_mode p) (pic_mask p)
  else if pic_step p =? 2 then Pic 3 (pic_base p) v (pic_mode p) (pic_mask p)
  else if pic_step p =? 3 then Pic 0 (pic_base p) (pic_wiring p) v (pic_mask p)
  else Pic 0 (pic_base p) (pic_wiring p) (pic_mode p) v.

(** The controller at [port] after the accesses of a trace, from power-on state [p]. *)
Fixpoint pic_after (port : Z) (p : pic) (t : list event) : pic :=
  match t with
  | [] => p
  | OutB q v :: r =>
      if q =? port then pic_command v (pic_after port p r)
      else if q =? port + 1 then pic_data v (pic_after port p r)
      else pic_after port p r
  | _ :: r => pic_after port p r
  end.

(** The vector the processor is given for an interrupt line. *)
Definition irq_vector (master slave : pic) (line : Z) : Z :=
  if line <? 8 then pic_base master + line else pic_base slave + (line - 8).

(** The accesses of [pic_remap], given the masks it reads. *)
Definition remap_events (m s : Z) : list event :=
  [OutB 0xA1 s; OutB 0x21 m; OutB 0x80 0; OutB 0xA1 0x01; OutB 0x80 0; OutB 0x21 0x01;
   OutB 0x80 0; OutB 0xA1 0x02; OutB 0x80 0; OutB 0x21 0x04; OutB 0x80 0; OutB 0xA1 0x28;
   OutB 0x80 0; OutB 0x21 0x20; OutB 0x80 0; OutB 0xA0 0x11; OutB 0x80 0; OutB 0x20 0x11;
   InB 0xA1 s; InB 0x21 m].

Definition remapped (h : machine) : machine :=
  let m := u8 (device h 0x21 (reads h)) in
  let s := u8 (device h 0xA1 (S (reads h))) in
  Machine (ram h) (cr3 h) (device h) (S (S (reads h))) (remap_events m s ++ trace h).

Lemma pic_remap_run h : pic_remap h = Ok tt (remapped h).
Proof.
  enough (wp pic_remap h (fun _ h' => h' = remapped h)) as H.
  { by apply wp_ok in H as ([] & ? & ? & ->). }
  unfold pic_remap. wp_step. eapply wp_eq; [reflexivity|]. wp_step. eapply wp_eq; [reflexivity|].
  cbn [device reads ram cr3 trace]. change (u16 33) with 33. change (u16 161) with 161.
  unfold io_wait. repeat (wp_step; apply wp_outb). apply wp_outb. rewrite !emitted_app. cbn [app].
  unfold remapped, remap_events, emitted. cbn [ram cr3 device reads trace app].
  rewrite !(u8_small (u8 _)) by apply u8_range. done.
Qed.

Lemma idt_init_run sym_idt isr irq s : length (idt s) = 256%nat ->
  (forall n, is32 (isr n)) -> (forall n, is32 (irq n)) ->
  idt_init sym_idt isr irq s = Ok tt
    (Isys (Machine (ram (i_hw s)) (cr3 (i_hw s)) (device (i_hw s)) (reads (remapped (i_hw s)))
             (Sti :: Lidt 2047 sym_idt :: trace (remapped (i_hw s))))
          (foldl (fun t g => <[Z.to_nat g.1 := made_entry g.2]> t) (idt s) (gates isr irq))
          2047 sym_idt (handlers s)).
Proof.
  intros Hl H1 H2. unfold idt_init. unfold bind at 1, zoom at 1. cbn [view i_lens].
  rewrite pic_remap_run. unfold bind at 1, modify at 1. unfold bind at 1, modify at 1.
  unfold bind at 1. rewrite install_run; [done| |].
  - done.
  - repeat constructor; try apply H1; try apply H2; done.
Qed.
