(* ===== verification/Timer.v ===== *)
(** * The interval timer ([kernel/timer.c]) and the two registrations at boot

    [timer_init] programs channel 0 of the PIT and registers the handler of IRQ 0;
    [keyboard_init] ([kernel/keyboard.c]) registers the handler of IRQ 1.  The handler of
    the timer itself switches threads and is part of [Scheduler.v]. *)

From stdpp Require Import base gmap list numbers option strings.
From Stdlib Require Import ZArith Lia.
From S2P Require Import Prelude Machine Idt.

Definition PIT_FREQUENCY : Z := 1193182.
Definition PIT_CHANNEL0 : Z := 0x40.
Definition PIT_COMAND : Z := 0x43.
Definition TIMER_IRQ : Z := 32.
Definition KEYBOARD_IRQ : Z := 33.

(** [a / b] on [uint32_t]; the processor raises a divide error for 0. *)
Definition udiv {S} (a b : Z) : M S Z := if b =? 0 then stop_with DivideError else ret (a / b).

Definition timer_init (frequency : Z) : M isys unit :=
  divisor <- udiv PIT_FREQUENCY frequency ;;
  let divisor := if 65535 <? divisor then 65535 else divisor in
  let divisor := if divisor <? 1 then 1 else divisor in
  zoom i_lens (outb PIT_COMAND 0x36) ;;;
  zoom i_lens (outb PIT_CHANNEL0 (u8 (Z.land divisor 0xFF))) ;;;
  zoom i_lens (outb PIT_CHANNEL0 (u8 (Z.land (Z.shiftr divisor 8) 0xFF))) ;;;
  idt_register_handler TIMER_IRQ TimerHandler.

Definition keyboard_init : M isys unit := idt_register_handler KEYBOARD_IRQ KeyboardHandler.

(** ** The device *)

(** Channel 0 of the PIT: a command 0x36 selects "low byte, then high byte" and mode 3;
    two bytes to the data port are the reload value.  [pit_pending] is the low byte when one
    was written. *)
Record pit := Pit { pit_mode : Z; pit_pending : option Z; pit_reload : Z }.

Definition pit_write (port v : Z) (p : pit) : pit :=
  if port =? 0x43 then Pit v None (pit_reload p)
  else if port =? 0x40 then
    match pit_pending p with
    | None => Pit (pit_mode p) (Some v) (pit_reload p)
    | Some lo => Pit (pit_mode p) None (lo + 256 * v)
    end
  else p.

Fixpoint pit_after (p : pit) (t : list event) : pit :=
  match t with
  | [] => p
  | OutB port v :: r => pit_write port v (pit_after p r)
  | _ :: r => pit_after p r
  end.

(** The divisor for a frequency that is not 0. *)
Definition pit_divisor (frequency : Z) : Z := Z.max 1 (Z.min 65535 (PIT_FREQUENCY / frequency)).

Lemma divisor_code n : (if (if 65535 <? n then 65535 else n) <? 1 then 1
                        else if 65535 <? n then 65535 else n) = Z.max 1 (Z.min 65535 n).
Proof.
  destruct (Z.ltb_spec 65535 n).
  - change (65535 <? 1) with false. cbn [negb]. lia.
  - destruct (Z.ltb_spec n 1); lia.
Qed.

Lemma register_run n h s : length (handlers s) = 256%nat -> 0 <= n < 256 ->
  idt_register_handler n h s =
  Ok tt (Isys (i_hw s) (idt s) (idtp_limit s) (idtp_base s) (<[Z.to_nat n := Some h]> (handlers s))).
Proof.
  intros Hl Hn. unfold idt_register_handler. rewrite u8_small by lia.
  destruct (lookup_lt_is_Some_2 (handlers s) (Z.to_nat n)) as [x ->]; [lia|done].
Qed.

Lemma timer_init_run f s : 0 < f -> length (handlers s) = 256%nat ->
  let d := pit_divisor f in
  timer_init f s = Ok tt
    (Isys (emitted [OutB 0x40 (d / 256); OutB 0x40 (d mod 256); OutB 0x43 0x36] (i_hw s))
          (idt s) (idtp_limit s) (idtp_base s) (<[32%nat := Some TimerHandler]> (handlers s))).
Proof.
  intros Hf Hl d. unfold timer_init, bind at 1, udiv. destruct (Z.eqb_spec f 0); [lia|]. cbv beta iota delta [ret].
  cbv zeta. rewrite divisor_code. fold (pit_divisor f). fold d.
  assert (1 <= d <= 65535) by (unfold d, pit_divisor; lia).
  assert (0 <= d / 256 < 256) by (split; [apply Z.div_pos|apply Z.div_lt_upper_bound]; lia).
  pose proof (Z.mod_pos_bound d 256 ltac:(lia)).
  rewrite Z.shiftr_div_pow2 by lia. rewrite !land_ff. change (2 ^ 8) with 256.
  rewrite (Z.mod_small (d / 256)) by lia. rewrite !(u8_small) by lia.
  unfold bind, zoom, outb, emit, modify. cbn [view update i_lens i_hw idt idtp_limit idtp_base handlers].
  rewrite register_run by done. cbn. by rewrite !u8_small by lia.
Qed.
