(* ===== verification/ConsoleSpec.v ===== *)
(** * What the console guarantees

    The properties of the VGA terminal ([kernel/kernel.c]), of formatted output on the
    screen and on the serial line ([kernel/kprintf.c], [kernel/serial.c]), and of the way
    from a scan code to the reply of the shell ([kernel/keyboard.c], [kernel/shell.c]). *)

From stdpp Require Import base gmap list numbers option strings.
From Stdlib Require Import ZArith Lia.
From S2P Require Import Prelude Machine Terminal Kprintf Serial Shell Keyboard.

(** ** Terminal *)

(** C30: [terminal_putchar] implements a typewriter on a tape of 2000 cells: a character
    is put at the position, which advances; a backspace moves back one cell, across row
    ends, and blanks it; a newline goes to the next row; behind the last cell the screen
    moves up one row.  Row and column stay on the screen, and after anything but a newline
    the hardware cursor shows the new position. *)
Theorem terminal_putchar_tape c s : term_wf s ->
  wp (terminal_putchar c) s (fun _ s' =>
    let pl := tape_put c (position s) (cells s) (terminal_color s) in
    term_wf s' /\ position s' = pl.1 /\ cells s' = pl.2 /\
    (c <> NEWLINE -> hw_cursor (trace (c_hw s')) = Some pl.1) /\
    (c = NEWLINE -> hw_cursor (trace (c_hw s')) = hw_cursor (trace (c_hw s)))).
Proof.
  intros Hwf. eapply wp_mono; [by apply terminal_putchar_wp|].
  intros [] s' (Hwf' & Hp & Hc & _ & Hh). cbv zeta. split_and!; [done|done|done| |].
  - intros Hne. rewrite Hh. destruct (Z.eqb_spec c NEWLINE); [done|]. apply cursor_events_hw.
  - intros ->. by rewrite Hh.
Qed.

(** A terminal somewhere in its last row; a page table at 0x2000 maps its buffer. *)
Definition demo_terminal : csys :=
  Csys (Machine (st32 (st32 ∅ 0x1C00 0x2003) 0x22E0 0xB8003) 0x1000 (fun _ _ => 0x20) 0 [])
    24 79 7 0xC00B8000 (replicate 2000 (blank_entry 7)).

Lemma demo_terminal_wf : term_wf demo_terminal.
Proof. unfold term_wf, screen_ok, demo_terminal. cbn [terminal_row terminal_column cells c_hw terminal_buffer].
  rewrite length_replicate. by vm_compute. Qed.

Lemma terminal_putchar_tape_witness :
  wp (terminal_putchar 65) demo_terminal (fun _ s' =>
    let pl := tape_put 65 (position demo_terminal) (cells demo_terminal) (terminal_color demo_terminal) in
    term_wf s' /\ position s' = pl.1 /\ cells s' = pl.2 /\
    (65 <> NEWLINE -> hw_cursor (trace (c_hw s')) = Some pl.1) /\
    (65 = NEWLINE -> hw_cursor (trace (c_hw s')) = hw_cursor (trace (c_hw demo_terminal)))).
Proof. exact (terminal_putchar_tape 65 demo_terminal demo_terminal_wf). Defined.

(** ** Formatted output *)

(** The decimal value a list of characters denotes. *)
Definition parse (base : Z) (value : Z -> Z) (l : list Z) : Z := digits_value base (value <$> l).

Definition hex_value (c : Z) : Z := if c <? 58 then c - 48 else c - 55.

Lemma digits_range base fuel n d : 0 < base -> d ∈ digits base fuel n -> 0 <= d < base.
Proof.
  intros Hb. revert n. induction fuel as [|k IH]; intros n; cbn [digits]; [by intros ?%not_elem_of_nil|].
  destruct (n <=? 0); [by intros ?%not_elem_of_nil|].
  intros [H|H%list_elem_of_singleton]%elem_of_app; [by eapply IH|]. subst. by apply Z.mod_pos_bound.
Qed.

Lemma numeral_parse base ch value n : 2 <= base -> 0 <= n < 4294967296 ->
  (forall d, 0 <= d < base -> value (ch d) = d) -> value 48 = 0 ->
  parse base value (numeral base ch n) = n.
Proof.
  intros Hb Hn Hv H0. unfold parse, numeral. destruct (Z.eqb_spec n 0) as [->|].
  - cbn. rewrite H0. lia.
  - rewrite <-list_fmap_compose.
    rewrite (list_fmap_ext _ id); [rewrite list_fmap_id; by apply digits_value_ok|].
    intros i d Hd. cbn. apply Hv. eapply digits_range; [lia|by eapply list_elem_of_lookup_2].
Qed.

(** For every 32-bit number [print_uint] and [print_hex] return without leaving their
    buffers, and the characters they show, read in base 10 and 16, are the number.  This
    holds on every device that shows characters in order, so for [kprintf.c] and for the
    copies in [serial.c] and [shell.c]. *)
Theorem print_roundtrip {S} `{SL : SinkLaws S} n (s : S) : 0 <= n < 4294967296 -> sink_ok s ->
  wp (print_uint n) s (fun _ s' => exists l, outputs l s s' /\ parse 10 (fun c => c - 48) l = n) /\
  wp (print_hex n) s (fun _ s' => exists l, outputs l s s' /\ parse 16 hex_value l = n).
Proof.
  intros Hn Hs. split.
  - eapply wp_mono; [by apply print_uint_wp|]. intros [] s' Hout. eexists. split; [exact Hout|].
    apply numeral_parse; [lia|done| |done]. intros; lia.
  - eapply wp_mono; [by apply print_hex_wp|]. intros [] s' Hout. eexists. split; [exact Hout|].
    apply numeral_parse; [lia|done| |done]. intros d Hd. unfold hex_char, hex_value.
    destruct (Z.ltb_spec d 10).
    + destruct (Z.ltb_spec (48 + d) 58); lia.
    + destruct (Z.ltb_spec (65 + d - 10) 58); lia.
Qed.

Lemma print_roundtrip_witness :
  wp (print_uint 4294967295) demo_terminal (fun _ s' =>
    exists l, outputs l demo_terminal s' /\ parse 10 (fun c => c - 48) l = 4294967295) /\
  wp (print_hex 4294967295) demo_terminal (fun _ s' =>
    exists l, outputs l demo_terminal s' /\ parse 16 hex_value l = 4294967295).
Proof. apply (print_roundtrip 4294967295 demo_terminal); [lia|exact demo_terminal_wf]. Defined.

(** C31: [kprintf] shows exactly the text that the format and the arguments denote,
    character by character on the tape: decimal, signed decimal, hexadecimal with capital
    digits and strings, with the rest of the format between them; the format is read to its
    end and every argument once.  The format has only conversions that exist, and no [%%],
    which [kprintf] shows as two percent signs. *)
Theorem kprintf_renders format args out s : term_wf s -> cstring format ->
  literal_percent format = false -> render printf_text format args = Some out ->
  wp (kprintf_screen format args) s (fun _ s' => s' = type_all out s /\ term_wf s').
Proof. intros Hs Hc Hp Hr. apply kprintf_screen_wp; [done|done|by apply kprintf_agrees]. Qed.

Definition demo_format : list Z := bytes_of "%s: %u frames at 0x%x (%d)".
Definition demo_args : list karg := [KStr "PMM"; KInt 1772; KInt 0x114000; KInt (-5)].

Lemma demo_format_ok : cstring demo_format.
Proof. split; [|by vm_compute]. unfold demo_format. cbn. repeat constructor; done. Qed.

Lemma kprintf_renders_witness :
  wp (kprintf_screen demo_format demo_args) demo_terminal (fun _ s' =>
    s' = type_all (bytes_of "PMM: 1772 frames at 0x114000 (-5)") demo_terminal /\ term_wf s').
Proof.
  apply (kprintf_renders demo_format demo_args); [exact demo_terminal_wf|exact demo_format_ok|reflexivity|].
  vm_compute. reflexivity.
Defined.

(** [%%] in a format of [kprintf] shows two percent signs (the [case] calls
    [terminal_putchar] twice), where [serial_printf] sends one; a conversion character
    neither knows is dropped by [kprintf] and sent by [serial_printf]. *)
Theorem percent_differs s h : term_wf s -> responsive h ->
  wp (kprintf_screen (bytes_of "100%%") []) s (fun _ s' => s' = type_all (bytes_of "100%%") s) /\
  wp (serial_printf_port (bytes_of "100%%") []) h (fun _ h' =>
    sent (trace h') = sent (trace h) ++ bytes_of "100%") /\
  wp (kprintf_screen (bytes_of "%c!") []) s (fun _ s' => s' = type_all (bytes_of "!") s) /\
  wp (serial_printf_port (bytes_of "%c!") []) h (fun _ h' =>
    sent (trace h') = sent (trace h) ++ bytes_of "%c!").
Proof.
  assert (Hc : forall t, forallb (fun b => negb (b =? 0)) (bytes_of t) = true ->
            Z.of_nat (String.length t) < 4294967295 -> cstring (bytes_of t)) by apply literal_cstring.
  intros Hs Hh. split; [|split; [|split]].
  - eapply wp_mono; [apply (kprintf_screen_wp _ _ (bytes_of "100%%")); [done|by apply Hc|done]|].
    by intros ? ? [-> _].
  - eapply wp_mono; [apply (serial_printf_wp _ _ (bytes_of "100%")); [done|by apply Hc|done]|].
    intros ? ? [_ [(es & -> & E & _) _]]. by rewrite sent_app, E.
  - eapply wp_mono; [apply (kprintf_screen_wp _ _ (bytes_of "!")); [done|by apply Hc|done]|].
    by intros ? ? [-> _].
  - eapply wp_mono; [apply (serial_printf_wp _ _ (bytes_of "%c!")); [done|by apply Hc|done]|].
    intros ? ? [_ [(es & -> & E & _) _]]. by rewrite sent_app, E.
Qed.

(** A machine whose serial device is ready every second time. *)
Definition demo_line : machine :=
  Machine ∅ 0 (fun _ n => if Nat.even n then 0x20 else 0) 0 [].

Lemma demo_line_responsive : responsive demo_line.
Proof.
  intros n. exists (if Nat.even n then 0%nat else 1%nat). cbn [demo_line device].
  split; [by destruct (Nat.even n)|].
  rewrite Nat.even_add. by destruct (Nat.even n).
Qed.

Lemma percent_differs_witness :
  wp (kprintf_screen (bytes_of "100%%") []) demo_terminal (fun _ s' =>
    s' = type_all (bytes_of "100%%") demo_terminal) /\
  wp (serial_printf_port (bytes_of "100%%") []) demo_line (fun _ h' =>
    sent (trace h') = sent (trace demo_line) ++ bytes_of "100%") /\
  wp (kprintf_screen (bytes_of "%c!") []) demo_terminal (fun _ s' =>
    s' = type_all (bytes_of "!") demo_terminal) /\
  wp (serial_printf_port (bytes_of "%c!") []) demo_line (fun _ h' =>
    sent (trace h') = sent (trace demo_line) ++ bytes_of "%c!").
Proof. exact (percent_differs demo_terminal demo_line demo_terminal_wf demo_line_responsive). Defined.

(** C32: [serial_printf] returns when the device becomes ready now and then, and has then
    written to the data register of COM1 exactly the text the format and the arguments
    denote, in order, each byte directly after a read of the line status register that
    reported an empty transmit buffer. *)
Theorem serial_printf_transmits format args out h : responsive h -> cstring format ->
  render printf_text format args = Some out ->
  wp (serial_printf_port format args) h (fun _ h' =>
    (exists es, trace h' = es ++ trace h /\ sent es = u8 <$> out /\ paced es = true) /\
    ram h' = ram h /\ cr3 h' = cr3 h /\ responsive h').
Proof.
  intros Hr Hc Ho. eapply wp_mono; [by apply serial_printf_wp, serial_agrees|].
  intros [] h' [Hr' (Hs & _ & Hm & Hcr)]. done.
Qed.

Lemma serial_printf_transmits_witness :
  wp (serial_printf_port demo_format demo_args) demo_line (fun _ h' =>
    (exists es, trace h' = es ++ trace demo_line /\
       sent es = u8 <$> bytes_of "PMM: 1772 frames at 0x114000 (-5)" /\ paced es = true) /\
    ram h' = ram demo_line /\ cr3 h' = cr3 demo_line /\ responsive h').
Proof.
  apply (serial_printf_transmits demo_format demo_args); [exact demo_line_responsive|exact demo_format_ok|].
  vm_compute. reflexivity.
Defined.

(** ** The shell *)

(** The shell called for a run of keys. *)
Fixpoint handle_keys (ks : list Z) : M ssys unit :=
  match ks with
  | [] => ret tt
  | c :: r => shell_handle_key c ;;; handle_keys r
  end.

Definition edit_all (t : Z) (ks : list Z) (x : list Z * csys) : list Z * csys :=
  foldl (fun x c => edit c t x.1 x.2) x ks.

Lemma handle_keys_wp ks s : shell_wf s -> Forall key_char ks ->
  wp (handle_keys ks) s (fun _ s' => shell_wf s' /\ ticks s' = ticks s /\
    (line s', s_c s') = edit_all (ticks s) ks (line s, s_c s)).
Proof.
  revert s. induction ks as [|c ks IH]; intros s Hwf Hk; cbn [handle_keys]; [wp_step; done|].
  inversion Hk as [|? ? Hc Hks]. subst. wp_step. eapply wp_mono; [by apply shell_handle_key_wp|].
  intros [] s1 (Hwf1 & Ht & E). cbv beta. eapply wp_mono; [by apply IH|].
  intros [] s2 (Hwf2 & Ht2 & E2). split; [done|]. split; [congruence|].
  rewrite E2, Ht. unfold edit_all. cbn [foldl]. by rewrite E.
Qed.

(** C33: for every run of keys the shell implements a line editor with a command table:
    printable keys extend the line up to 255 characters and are echoed, a backspace takes
    the last one away but never the prompt, a newline replaces the line by the reply of the
    command it names, or by a message that quotes it, and a prompt.  The buffer is never
    left. *)
Theorem shell_session ks s : shell_wf s -> Forall key_char ks ->
  wp (handle_keys ks) s (fun _ s' =>
    (line s', s_c s') = edit_all (ticks s) ks (line s, s_c s) /\
    Z.of_nat (length (line s')) < MAX_CMD_LENGTH /\ shell_wf s').
Proof.
  intros Hwf Hk. eapply wp_mono; [by apply handle_keys_wp|]. intros [] s' (Hwf' & _ & E).
  split; [done|]. split; [|done]. rewrite (line_length s' Hwf').
  destruct Hwf' as (_ & _ & ? & _). lia.
Qed.

Definition demo_shell : ssys := Ssys demo_terminal (replicate 256 0) 0 42.

Lemma demo_shell_wf : shell_wf demo_shell.
Proof.
  split; [exact demo_terminal_wf|]. split; [apply length_replicate|]. split; [done|].
  split; [constructor|done].
Qed.

(** Typing "hex", backspace, "lp" and enter. *)
Definition demo_keys : list Z := bytes_of "hex" ++ [8] ++ bytes_of "lp" ++ [10].

Lemma demo_keys_ok : Forall key_char demo_keys.
Proof. unfold demo_keys. cbn. repeat constructor; done. Qed.

Lemma shell_session_witness :
  wp (handle_keys demo_keys) demo_shell (fun _ s' =>
    (line s', s_c s') = edit_all (ticks demo_shell) demo_keys (line demo_shell, s_c demo_shell) /\
    Z.of_nat (length (line s')) < MAX_CMD_LENGTH /\ shell_wf s').
Proof. exact (shell_session demo_keys demo_shell demo_shell_wf demo_keys_ok). Defined.

(** C34: the keyboard interrupt reads one scan code and acts on it: the shift keys set and
    clear the shift state, other releases do nothing, and a press gives the shell the
    character the table of the current shift state has for it, if any. *)
Theorem keyboard_handler_refines s : shell_wf (k_s s) ->
  let sc := u8 (device (c_hw (s_c (k_s s))) 0x60 (reads (c_hw (s_c (k_s s))))) in
  wp keyboard_handler s (fun _ s' => shell_wf (k_s s') /\
    (shift_held s', line (k_s s'), s_c (k_s s')) =
    key_step sc (ticks (k_s s)) (shift_held s) (line (k_s s)) (after_read (s_c (k_s s)))).
Proof. apply keyboard_handler_wp. Qed.

Lemma keyboard_handler_refines_witness :
  wp keyboard_handler (Ksys demo_shell true) (fun _ s' => shell_wf (k_s s') /\
    (shift_held s', line (k_s s'), s_c (k_s s')) =
    key_step 0x20 42 true [] (after_read (s_c demo_shell))).
Proof. exact (keyboard_handler_refines (Ksys demo_shell true) demo_shell_wf). Defined.
