(* ===== verification/InterruptSpec.v ===== *)
(** * What the descriptor tables, the interrupt controllers and the timer guarantee

    The properties of [kernel/gdt.c], [kernel/idt.c] and [kernel/timer.c] as the processor
    and the devices see them: descriptors and gates are decoded from the bytes the code
    stores, the controllers and the PIT from the port writes it makes. *)

From stdpp Require Import base gmap list numbers option strings.
From Stdlib Require Import ZArith Lia.
From S2P Require Import Prelude Machine Gdt Idt Timer.

(** ** Segments *)

(** A segment of ring 0 over the whole address space. *)
Definition flat (code : bool) : segment := Segment 0 0xFFFFFFFF true 0 code true.

Lemma gdt_init_run sym s a b c : gdt s = [a; b; c] ->
  gdt_init sym s = Ok tt
    (Dsys (emitted [Lgdt 23 sym] (d_hw s))
          [make_entry 0 0 0 0; make_entry 0 0xFFFFFFFF 0x9A 0xCF; make_entry 0 0xFFFFFFFF 0x92 0xCF]
          23 sym 0x08 0x10).
Proof.
  intros Hg. unfold gdt_init, bind at 1 2, modify. cbn [d_hw gdt gp_limit gp_base seg_cs seg_data].
  rewrite Hg. change (u16 (8 * 3 - 1)) with 23. unfold bind at 1.
  rewrite (gdt_set_entry_run 0 _ _ _ _ _ a) by done.
  unfold bind at 1. rewrite (gdt_set_entry_run 1 _ _ _ _ _ b) by done.
  unfold bind at 1. rewrite (gdt_set_entry_run 2 _ _ _ _ _ c) by done. reflexivity.
Qed.

(** [gdt_init] loads a table in which selector 0x08 names a present ring-0 code segment
    and selector 0x10 a present ring-0 data segment, both from 0 to 4 GB, after a null
    descriptor; the limit given to [lgdt] covers exactly these three, and the segment
    registers hold the two selectors. *)
Theorem gdt_init_flat sym s : length (gdt s) = 3%nat ->
  exists s', gdt_init sym s = Ok tt s' /\
    trace (d_hw s') = Lgdt (8 * 3 - 1) sym :: trace (d_hw s) /\
    seg_cs s' = 0x08 /\ seg_data s' = 0x10 /\
    (e ← gdt s' !! 0%nat; Some (entry_bytes e)) = Some (replicate 8 0) /\
    (e ← gdt s' !! 1%nat; decode (entry_bytes e)) = Some (flat true) /\
    (e ← gdt s' !! 2%nat; decode (entry_bytes e)) = Some (flat false).
Proof.
  intros Hl. destruct (gdt s) as [|a [|b [|c [|]]]] eqn:E; try done.
  eexists. split; [by eapply gdt_init_run|]. split_and!; by vm_compute.
Qed.

Definition demo_segments : dsys :=
  Dsys (Machine ∅ 0 (fun _ _ => 0) 0 []) (replicate 3 (GdtEntry 0 0 0 0 0 0)) 0 0 0 0.

Lemma gdt_init_flat_witness :
  exists s', gdt_init 0xC0105000 demo_segments = Ok tt s' /\
    trace (d_hw s') = Lgdt (8 * 3 - 1) 0xC0105000 :: trace (d_hw demo_segments) /\
    seg_cs s' = 0x08 /\ seg_data s' = 0x10 /\
    (e ← gdt s' !! 0%nat; Some (entry_bytes e)) = Some (replicate 8 0) /\
    (e ← gdt s' !! 1%nat; decode (entry_bytes e)) = Some (flat true) /\
    (e ← gdt s' !! 2%nat; decode (entry_bytes e)) = Some (flat false).
Proof. apply (gdt_init_flat 0xC0105000 demo_segments). reflexivity. Defined.

(** The fields [gdt_set_entry] scatters base, limit and flags into are decoded by the
    processor to what was asked for, for every base, every 20-bit limit and every access and
    granularity byte. *)
Theorem gdt_set_entry_roundtrip i base limit acc gran s : is32 base -> 0 <= limit < 1048576 ->
  (Z.to_nat i < length (gdt s))%nat ->
  exists s', gdt_set_entry i base limit acc gran s = Ok tt s' /\
    (e ← gdt s' !! Z.to_nat i; decode (entry_bytes e)) =
      Some (Segment base (if Z.testbit gran 7 then limit * 4096 + 4095 else limit)
              (Z.testbit acc 7) ((acc / 32) mod 4) (Z.testbit acc 3) (Z.testbit gran 6)) /\
    (forall j, j <> Z.to_nat i -> gdt s' !! j = gdt s !! j).
Proof.
  intros Hb Hlim Hi. destruct (lookup_lt_is_Some_2 _ _ Hi) as [e He].
  assert (is32 limit) as Hl by (unfold is32; lia).
  eexists. split; [by apply gdt_set_entry_run with e|]. cbn [gdt]. split.
  - rewrite list_lookup_insert_eq by done. cbn [mbind option_bind].
    rewrite decode_make_entry by done. by rewrite (Z.mod_small limit) by lia.
  - intros j Hj. by rewrite list_lookup_insert_ne by congruence.
Qed.

Lemma gdt_set_entry_roundtrip_witness :
  exists s', gdt_set_entry 2 0x12345678 0xABCDE 0xF2 0x40 demo_segments = Ok tt s' /\
    (e ← gdt s' !! Z.to_nat 2; decode (entry_bytes e)) =
      Some (Segment 0x12345678 0xABCDE true 3 false true) /\
    (forall j, j <> Z.to_nat 2 -> gdt s' !! j = gdt demo_segments !! j).
Proof.
  apply (gdt_set_entry_roundtrip 2 0x12345678 0xABCDE 0xF2 0x40 demo_segments);
    [by unfold is32|lia|by vm_compute; lia].
Defined.

(** ** Gates *)

(** Entering the gates of a list leaves every other vector alone. *)
Definition enter (l : list (Z * Z)) (t : list idt_entry) : list idt_entry :=
  foldl (fun t g => <[Z.to_nat g.1 := made_entry g.2]> t) t l.

Lemma enter_cons g l t : enter (g :: l) t = enter l (<[Z.to_nat g.1 := made_entry g.2]> t).
Proof. reflexivity. Qed.

Lemma enter_other l t n : (forall g, g ∈ l -> 0 <= g.1) -> (0 <= n) -> (forall g, g ∈ l -> g.1 <> n) ->
  enter l t !! Z.to_nat n = t !! Z.to_nat n.
Proof.
  intros Hpos Hn. revert t. induction l as [|g l IH]; intros t Hne; [done|].
  rewrite enter_cons, IH.
  - rewrite list_lookup_insert_ne; [done|]. intros E.
    apply (Hne g); [left|]. specialize (Hpos g ltac:(left)). lia.
  - intros; apply Hpos; by right.
  - intros; apply Hne; by right.
Qed.

Lemma enter_in l t n stub : (forall g, g ∈ l -> 0 <= g.1 < 256) -> length t = 256%nat ->
  NoDup l.*1 -> (n, stub) ∈ l -> enter l t !! Z.to_nat n = Some (made_entry stub).
Proof.
  intros Hpos Hlen Hnd Hin. revert t Hlen. induction l as [|g l IH]; intros t Hlen.
  - by apply not_elem_of_nil in Hin.
  - inversion Hnd as [|? ? Hg Hnd']. subst.
    apply elem_of_cons in Hin as [<-|Hin]; rewrite enter_cons.
    + rewrite (enter_other l).
      * apply list_lookup_insert_eq. specialize (Hpos (n, stub) ltac:(left)). cbn in *. lia.
      * intros g Hgl. specialize (Hpos g ltac:(by right)). lia.
      * specialize (Hpos (n, stub) ltac:(left)). cbn in *. lia.
      * intros g Hgl E. apply Hg. apply list_elem_of_fmap. exists g. split; [by rewrite E|done].
    + apply IH; [|done|done|by rewrite length_insert]. intros; apply Hpos; by right.
Qed.

(** The table of [idt_init] is: exceptions 0 to 31, then the sixteen interrupt lines. *)
Definition gate_list (isr irq : Z -> Z) : list (Z * Z) :=
  ((fun n => (n, isr n)) <$> seqZ 0 32) ++ ((fun k => (32 + k, irq k)) <$> seqZ 0 16).

Lemma gates_eq isr irq : gates isr irq = gate_list isr irq.
Proof. reflexivity. Qed.

Lemma gate_list_facts isr irq :
  (forall g, g ∈ gate_list isr irq -> 0 <= g.1 < 256 /\ g.1 < 48) /\ NoDup (gate_list isr irq).*1 /\
  (forall n, 0 <= n < 32 -> (n, isr n) ∈ gate_list isr irq) /\
  (forall k, 0 <= k < 16 -> (32 + k, irq k) ∈ gate_list isr irq).
Proof.
  split_and!.
  - intros g [(n & -> & Hn%elem_of_seqZ)%list_elem_of_fmap|(n & -> & Hn%elem_of_seqZ)%list_elem_of_fmap]%elem_of_app;
      cbn; lia.
  - change ((gate_list isr irq).*1) with (seqZ 0 48). apply NoDup_seqZ.
  - intros n Hn. apply elem_of_app. left. apply list_elem_of_fmap. exists n. by rewrite elem_of_seqZ.
  - intros k Hk. apply elem_of_app. right. apply list_elem_of_fmap. exists k. by rewrite elem_of_seqZ.
Qed.

(** C35: after [idt_init] the vectors 0 to 31 are interrupt gates of ring 0 to their
    exception stubs and the vectors 32 to 47 to the stubs of the sixteen interrupt lines; no
    other vector was touched.  Interrupts are enabled only after the finished table was
    loaded, and the limit given to [lidt] covers exactly 256 entries. *)
Theorem idt_init_gates sym_idt isr irq s : length (idt s) = 256%nat ->
  (forall n, is32 (isr n)) -> (forall n, is32 (irq n)) ->
  exists s', idt_init sym_idt isr irq s = Ok tt s' /\
    (forall n, 0 <= n < 32 -> decode_gate <$> idt s' !! Z.to_nat n = Some (kernel_gate (isr n))) /\
    (forall k, 0 <= k < 16 -> decode_gate <$> idt s' !! Z.to_nat (32 + k) = Some (kernel_gate (irq k))) /\
    (forall n, 48 <= n < 256 -> idt s' !! Z.to_nat n = idt s !! Z.to_nat n) /\
    handlers s' = handlers s /\
    trace (i_hw s') = Sti :: Lidt (8 * 256 - 1) sym_idt :: trace (remapped (i_hw s)).
Proof.
  intros Hl Hisr Hirq. eexists. split; [by apply idt_init_run|]. cbn [idt handlers i_hw trace].
  rewrite gates_eq. fold (enter (gate_list isr irq) (idt s)).
  destruct (gate_list_facts isr irq) as (Hr & Hnd & H1 & H2).
  assert (forall g, g ∈ gate_list isr irq -> 0 <= g.1 < 256) as Hr' by (intros; by apply Hr).
  split_and!.
  - intros n Hn. rewrite (enter_in _ _ n (isr n)); [|done..|by apply H1]. cbn. by rewrite decode_made_entry.
  - intros k Hk. rewrite (enter_in _ _ (32 + k) (irq k)); [|done..|by apply H2]. cbn. by rewrite decode_made_entry.
  - intros n Hn. apply enter_other; [intros; by apply Hr'|lia|]. intros g Hg E.
    destruct (Hr g Hg). lia.
  - done.
  - done.
Qed.

Definition demo_interrupts : isys :=
  Isys (Machine ∅ 0 (fun _ _ => 0xB8) 0 []) (replicate 256 (IdtEntry 0 0 0 0 0)) 0 0 (replicate 256 None).

Lemma idt_init_gates_witness :
  exists s', idt_init 0xC0106000 (fun n => 0xC0100400 + 16 * (n mod 32)) (fun n => 0xC0100800 + 16 * (n mod 16))
               demo_interrupts = Ok tt s' /\
    decode_gate <$> idt s' !! Z.to_nat 14 = Some (kernel_gate 0xC01004E0) /\
    decode_gate <$> idt s' !! Z.to_nat 33 = Some (kernel_gate 0xC0100810).
Proof.
  destruct (idt_init_gates 0xC0106000 (fun n => 0xC0100400 + 16 * (n mod 32))
              (fun n => 0xC0100800 + 16 * (n mod 16)) demo_interrupts) as (s' & E & H1 & H2 & _).
  - reflexivity.
  - intros n. unfold is32. pose proof (Z.mod_pos_bound n 32 ltac:(lia)). lia.
  - intros n. unfold is32. pose proof (Z.mod_pos_bound n 16 ltac:(lia)). lia.
  - exists s'. split; [exact E|]. split; [exact (H1 14 ltac:(lia))|exact (H2 1 ltac:(lia))].
Defined.

(** ** The interrupt controllers *)

(** Whatever state the two controllers were in, after [pic_remap] both are initialised
    in 8086 mode with the slave on line 2, the sixteen interrupt lines have the vectors 32
    to 47, which no processor exception uses, and the interrupt masks are the ones that were
    set before. *)
Theorem pic_remap_vectors p q h :
  let m := u8 (device h 0x21 (reads h)) in
  let s := u8 (device h 0xA1 (S (reads h))) in
  exists h', pic_remap h = Ok tt h' /\
    pic_after 0x20 p (trace h') = Pic 0 0x20 4 1 m /\
    pic_after 0xA0 q (trace h') = Pic 0 0x28 2 1 s /\
    forall line, 0 <= line < 16 ->
      irq_vector (pic_after 0x20 p (trace h')) (pic_after 0xA0 q (trace h')) line = 32 + line.
Proof.
  cbv zeta. exists (remapped h). split; [apply pic_remap_run|].
  assert (pic_after 0x20 p (trace (remapped h)) =
            Pic 0 0x20 4 1 (u8 (device h 0x21 (reads h)))) as -> by reflexivity.
  assert (pic_after 0xA0 q (trace (remapped h)) =
            Pic 0 0x28 2 1 (u8 (device h 0xA1 (S (reads h))))) as -> by reflexivity.
  split; [done|]. split; [done|]. intros line Hl. unfold irq_vector. cbn [pic_base].
  destruct (Z.ltb_spec line 8); lia.
Qed.

(** ** Dispatch *)

(** The acknowledgements an interrupt needs, newest first. *)
Definition eoi_events (n : Z) : list event :=
  if (32 <=? n) && (n <=? 47)
  then OutB 0x20 0x20 :: (if 40 <=? n then [OutB 0xA0 0x20] else []) else [].

Section Dispatch.
Context {S : Type} (l : lens S machine) `{!LensLaws l}.
Context (table : S -> list (option handler)) (run : handler -> M S unit).

Lemma send_eoi_run n s :
  send_eoi l n s = Ok tt (update l (emitted (eoi_events n) (view l s)) s).
Proof.
  unfold send_eoi, eoi_events, when. destruct ((32 <=? n) && (n <=? 47)).
  - destruct (40 <=? n); unfold bind, zoom, ret; cbn [outb emit modify];
      rewrite ?view_update, ?update_update; reflexivity.
  - unfold ret. by rewrite emitted_nil, update_view.
Qed.

Lemma call_handler_run n s h s1 : table s !! Z.to_nat n = Some h ->
  match h with Some f => run f s = Ok tt s1 | None => s1 = s end ->
  call_handler table run n s = Ok tt s1.
Proof.
  intros Ht Hh. unfold call_handler, bind. rewrite Ht. destruct h as [f|]; [done|by subst s1].
Qed.

Lemma interrupt_dispatched n s h s1 : table s !! Z.to_nat n = Some h ->
  match h with Some f => run f s = Ok tt s1 | None => s1 = s end ->
  interrupt_handler l table run n s =
    Ok tt (update l (emitted (eoi_events n) (view l s1)) s1).
Proof.
  intros Ht Hh. unfold interrupt_handler, bind. rewrite (call_handler_run n s h s1 Ht Hh). apply send_eoi_run.
Qed.

(** [interrupt_handler] calls the handler registered for the vector, if there is one,
    and then acknowledges: a line of the master once at the master, a line of the slave at
    the slave and at the master, an exception nowhere. *)
Theorem interrupt_dispatch n s h s1 : table s !! Z.to_nat n = Some h ->
  match h with Some f => run f s = Ok tt s1 | None => s1 = s end ->
  interrupt_handler l table run n s =
    Ok tt (update l (emitted (eoi_events n) (view l s1)) s1).
Proof. apply interrupt_dispatched. Qed.
End Dispatch.

Lemma interrupt_dispatch_witness :
  interrupt_handler i_lens handlers (fun _ => ret tt) 44 demo_interrupts =
    Ok tt (update i_lens (emitted [OutB 0x20 0x20; OutB 0xA0 0x20] (i_hw demo_interrupts)) demo_interrupts).
Proof.
  apply (interrupt_dispatch i_lens handlers (fun _ => ret tt) 44 demo_interrupts None); reflexivity.
Defined.

(** ** The timer *)

(** [timer_init] programs channel 0 of the PIT with the largest 16-bit divisor whose
    rate is at least the requested frequency, whatever the PIT did before, and registers the
    handler of vector 32; a frequency of 0 raises a divide error. *)
Theorem timer_init_programs f p s : length (handlers s) = 256%nat -> 0 <= f < 4294967296 ->
  if decide (f = 0) then timer_init f s = Stop DivideError s
  else exists s', timer_init f s = Ok tt s' /\
    pit_after p (trace (i_hw s')) = Pit 0x36 None (pit_divisor f) /\
    1 <= pit_divisor f <= 65535 /\
    (19 <= f <= PIT_FREQUENCY ->
       pit_divisor f * f <= PIT_FREQUENCY < (pit_divisor f + 1) * f) /\
    handlers s' = <[32%nat := Some TimerHandler]> (handlers s).
Proof.
  intros Hl Hf. case_decide as E; [by subst|].
  eexists. split; [apply timer_init_run; [lia|done]|].
  assert (Hd : 1 <= pit_divisor f <= 65535) by (unfold pit_divisor; lia).
  cbn [i_hw handlers trace emitted app pit_after]. split; [|split; [done|split; [|done]]].
  - unfold pit_write. cbn. f_equal. pose proof (Z.div_mod (pit_divisor f) 256 ltac:(lia)). lia.
  - intros Hr. unfold pit_divisor, PIT_FREQUENCY in *.
    pose proof (Z.div_mod 1193182 f ltac:(lia)). pose proof (Z.mod_pos_bound 1193182 f ltac:(lia)).
    assert (1 <= 1193182 / f) by (apply Z.div_le_lower_bound; lia).
    assert (1193182 / f <= 1193182 / 19) by (apply Z.div_le_compat_l; lia).
    change (1193182 / 19) with 62799 in *. rewrite Z.min_r, Z.max_r by lia. nia.
Qed.

Lemma timer_init_programs_witness :
  exists s', timer_init 100 demo_interrupts = Ok tt s' /\
    pit_after (Pit 0 None 0) (trace (i_hw s')) = Pit 0x36 None 11931 /\
    1 <= 11931 <= 65535 /\
    (19 <= 100 <= PIT_FREQUENCY -> 11931 * 100 <= PIT_FREQUENCY < (11931 + 1) * 100) /\
    handlers s' = <[32%nat := Some TimerHandler]> (handlers demo_interrupts).
Proof. apply (timer_init_programs 100 (Pit 0 None 0) demo_interrupts); [reflexivity|lia]. Defined.
