(* ===== verification/Trap.v ===== *)
(** * Interrupt entry and exit ([boot/interrupts.asm], [struct interrupt_frame] of [kernel/idt.h])

    What happens between an interrupt and the call of [interrupt_handler], and on the way
    back: the words the processor pushes, the 48 stubs, and [isr_common].  The code is a list
    of instructions; memory is anything that implements the interface of word memory. *)

From stdpp Require Import base gmap list numbers option strings.
From Stdlib Require Import ZArith Lia.
From S2P Require Import Prelude Machine HeapList Idt.

(** ** The processor *)

Record tcpu := Tcpu {
  t_eax : Z; t_ecx : Z; t_edx : Z; t_ebx : Z; t_esp : Z; t_ebp : Z; t_esi : Z; t_edi : Z;
  t_eip : Z; t_cs : Z; t_eflags : Z;
  t_ds : Z; t_es : Z; t_fs : Z; t_gs : Z;
}.

Definition with_gpr (eax ecx edx ebx esp ebp esi edi : Z) (c : tcpu) : tcpu :=
  Tcpu eax ecx edx ebx esp ebp esi edi (t_eip c) (t_cs c) (t_eflags c) (t_ds c) (t_es c) (t_fs c) (t_gs c).
Definition with_sp (v : Z) (c : tcpu) : tcpu :=
  with_gpr (t_eax c) (t_ecx c) (t_edx c) (t_ebx c) v (t_ebp c) (t_esi c) (t_edi c) c.
Definition with_eax (v : Z) (c : tcpu) : tcpu :=
  with_gpr v (t_ecx c) (t_edx c) (t_ebx c) (t_esp c) (t_ebp c) (t_esi c) (t_edi c) c.
Definition with_control (eip cs eflags : Z) (c : tcpu) : tcpu :=
  Tcpu (t_eax c) (t_ecx c) (t_edx c) (t_ebx c) (t_esp c) (t_ebp c) (t_esi c) (t_edi c) eip cs eflags
       (t_ds c) (t_es c) (t_fs c) (t_gs c).
Definition with_segments (ds es fs gs : Z) (c : tcpu) : tcpu :=
  Tcpu (t_eax c) (t_ecx c) (t_edx c) (t_ebx c) (t_esp c) (t_ebp c) (t_esi c) (t_edi c)
       (t_eip c) (t_cs c) (t_eflags c) ds es fs gs.

(** [%ax] is the low half of [%eax]. *)
Definition set_ax (v eax : Z) : Z := Z.lor (Z.land eax 0xFFFF0000) (u16 v).

Inductive sreg := DS | ES | FS | GS.

Definition set_sreg (r : sreg) (v : Z) (c : tcpu) : tcpu :=
  match r with
  | DS => with_segments v (t_es c) (t_fs c) (t_gs c) c
  | ES => with_segments (t_ds c) v (t_fs c) (t_gs c) c
  | FS => with_segments (t_ds c) (t_es c) v (t_gs c) c
  | GS => with_segments (t_ds c) (t_es c) (t_fs c) v c
  end.

(** The vectors for which the processor pushes an error code. *)
Definition pushes_error (n : Z) : bool :=
  (n =? 8) || ((10 <=? n) && (n <=? 14)) || (n =? 17) || (n =? 21) || (n =? 29) || (n =? 30).

(** TF, IF, NT, RF and VM, which an interrupt gate clears. *)
Definition gate_flags : Z := 0x34300.

(** ** The code *)

Inductive instr :=
  | Push_imm (v : Z)
  | Pusha | Popa
  | Mov_ds_ax | Push_eax | Pop_eax
  | Mov_imm_ax (v : Z) | Mov_ax_seg (r : sreg)
  | Push_esp | Call_interrupt_handler | Add_esp (v : Z)
  | Iret.

(** The stubs [isr0] to [isr31] and [irq0] to [irq15], up to the jump to [isr_common]. *)
Definition stubs : list (list instr) :=
  [[Push_imm 0; Push_imm 0]; [Push_imm 0; Push_imm 1]; [Push_imm 0; Push_imm 2];
   [Push_imm 0; Push_imm 3]; [Push_imm 0; Push_imm 4]; [Push_imm 0; Push_imm 5];
   [Push_imm 0; Push_imm 6]; [Push_imm 0; Push_imm 7]; [Push_imm 8];
   [Push_imm 0; Push_imm 9]; [Push_imm 10]; [Push_imm 11]; [Push_imm 12]; [Push_imm 13];
   [Push_imm 14]; [Push_imm 0; Push_imm 15]; [Push_imm 0; Push_imm 16]; [Push_imm 17];
   [Push_imm 0; Push_imm 18]; [Push_imm 0; Push_imm 19]; [Push_imm 0; Push_imm 20];
   [Push_imm 21]; [Push_imm 0; Push_imm 22]; [Push_imm 0; Push_imm 23];
   [Push_imm 0; Push_imm 24]; [Push_imm 0; Push_imm 25]; [Push_imm 0; Push_imm 26];
   [Push_imm 0; Push_imm 27]; [Push_imm 0; Push_imm 28]; [Push_imm 29]; [Push_imm 30];
   [Push_imm 0; Push_imm 31];
   [Push_imm 0; Push_imm 32]; [Push_imm 0; Push_imm 33]; [Push_imm 0; Push_imm 34];
   [Push_imm 0; Push_imm 35]; [Push_imm 0; Push_imm 36]; [Push_imm 0; Push_imm 37];
   [Push_imm 0; Push_imm 38]; [Push_imm 0; Push_imm 39]; [Push_imm 0; Push_imm 40];
   [Push_imm 0; Push_imm 41]; [Push_imm 0; Push_imm 42]; [Push_imm 0; Push_imm 43];
   [Push_imm 0; Push_imm 44]; [Push_imm 0; Push_imm 45]; [Push_imm 0; Push_imm 46];
   [Push_imm 0; Push_imm 47]].

Definition isr_common : list instr :=
  [Pusha; Mov_ds_ax; Push_eax;
   Mov_imm_ax 0x10; Mov_ax_seg DS; Mov_ax_seg ES; Mov_ax_seg FS; Mov_ax_seg GS;
   Push_esp; Call_interrupt_handler; Add_esp 4;
   Pop_eax; Mov_ax_seg DS; Mov_ax_seg ES; Mov_ax_seg FS; Mov_ax_seg GS;
   Popa; Add_esp 8; Iret].

(** [struct interrupt_frame]. *)
Record interrupt_frame := Frame {
  f_ds : Z;
  f_edi : Z; f_esi : Z; f_ebp : Z; f_esp : Z; f_ebx : Z; f_edx : Z; f_ecx : Z; f_eax : Z;
  f_interrupt_number : Z;
  f_error_code : Z;
  f_eip : Z; f_cs : Z; f_eflags : Z;
  f_user_esp : Z; f_user_ss : Z;
}.

(** ** Execution *)

Record tsys (W : Type) := Tsys { t_cpu : tcpu; t_mem : W }.
Arguments Tsys {W}.
Arguments t_cpu {W}.
Arguments t_mem {W}.

Section Exec.
Context {W : Type} `{WordMem W}.
(** [interrupt_handler] of [idt.c], compiled: it is given the pointer to the frame and
    returns with the registers its caller does not expect back, and the flags, in any state. *)
Context (handler : Z -> M W unit) (clobber : tcpu -> Z * Z * Z * Z).
(** The address after the call. *)
Context (ret_isr : Z).

Definition t_lens : lens (tsys W) W := Lens t_mem (fun m s => Tsys (t_cpu s) m).
Definition set_cpu (f : tcpu -> tcpu) : M (tsys W) unit := modify (fun s => Tsys (f (t_cpu s)) (t_mem s)).

Definition tpush (v : Z) : M (tsys W) unit :=
  sp <- get (fun s => t_esp (t_cpu s)) ;;
  zoom t_lens (stw (sp -u 4) v) ;;;
  set_cpu (with_sp (sp -u 4)).

Definition tpop : M (tsys W) Z :=
  sp <- get (fun s => t_esp (t_cpu s)) ;;
  v <- zoom t_lens (ldw sp) ;;
  set_cpu (with_sp (sp +u 4)) ;;;
  ret v.

Fixpoint push_all (vs : list Z) : M (tsys W) unit :=
  match vs with [] => ret tt | v :: r => tpush v ;;; push_all r end.

Definition clobbered (c : tcpu) : tcpu :=
  let '(a, cx, d, fl) := clobber c in
  with_control (t_eip c) (t_cs c) fl
    (with_gpr a cx d (t_ebx c) (t_esp c) (t_ebp c) (t_esi c) (t_edi c) c).

Definition exec (i : instr) : M (tsys W) unit :=
  c <- get t_cpu ;;
  match i with
  | Push_imm v => tpush v
  | Pusha => push_all [t_eax c; t_ecx c; t_edx c; t_ebx c; t_esp c; t_ebp c; t_esi c; t_edi c]
  | Popa =>
      di <- tpop ;; si <- tpop ;; bp <- tpop ;; _ <- tpop ;; bx <- tpop ;; d <- tpop ;; cx <- tpop ;; a <- tpop ;;
      set_cpu (fun c => with_gpr a cx d bx (t_esp c) bp si di c)
  | Mov_ds_ax => set_cpu (with_eax (set_ax (t_ds c) (t_eax c)))
  | Push_eax => tpush (t_eax c)
  | Pop_eax => v <- tpop ;; set_cpu (with_eax v)
  | Mov_imm_ax v => set_cpu (with_eax (set_ax v (t_eax c)))
  | Mov_ax_seg r => set_cpu (set_sreg r (u16 (t_eax c)))
  | Push_esp => tpush (t_esp c)
  | Call_interrupt_handler =>
      tpush ret_isr ;;;
      frame <- zoom t_lens (ldw (t_esp c)) ;;
      zoom t_lens (handler frame) ;;;
      set_cpu clobbered ;;;
      tpop ;;; ret tt
  | Add_esp v => set_cpu (with_sp (t_esp c +u v))
  | Iret =>
      ip <- tpop ;; cs <- tpop ;; fl <- tpop ;;
      set_cpu (with_control ip (u16 cs) fl)
  end.

Fixpoint run_code (l : list instr) : M (tsys W) unit :=
  match l with [] => ret tt | i :: r => exec i ;;; run_code r end.

(** The processor delivers vector [n] through the gate [g], at the same privilege level. *)
Definition deliver (g : gate) (n error : Z) : M (tsys W) unit :=
  c <- get t_cpu ;;
  push_all [t_eflags c; t_cs c; t_eip c] ;;;
  when (pushes_error n) (tpush error) ;;;
  set_cpu (with_control (gt_offset g) (gt_selector g)
             (if gt_type g =? 14 then Z.ldiff (t_eflags c) gate_flags else t_eflags c)).

(** From the interrupt to the return from it. *)
Definition take_interrupt (g : gate) (n error : Z) : M (tsys W) unit :=
  deliver g n error ;;;
  match stubs !! Z.to_nat n with
  | Some stub => run_code (stub ++ isr_common)
  | None => stop_with Undefined
  end.
End Exec.

(** [interrupt_handler] with the frame it is given: it reads [frame->interrupt_number],
    passes the frame on, and reads the number again for the acknowledgement. *)
Definition handle_frame {W : Type} `{WordMem W} (hw_lens : lens W machine)
    (table : W -> list (option handler)) (run : handler -> Z -> M W unit) (frame : Z) : M W unit :=
  n <- ldw (frame +u 36) ;;
  call_handler table (fun h => run h frame) n ;;;
  n <- ldw (frame +u 36) ;;
  send_eoi hw_lens n.

(** ** Memory inside a larger state *)

Section Lift.
Context {T W : Type} (l : lens T W) `{!LensLaws l} `{WordMem W}.

Definition lift_mem : WordMem T := {|
  ldw a := zoom l (ldw a);
  stw a v := zoom l (stw a v);
|}.

Definition lift_laws {WL : WordMemLaws W} : @WordMemLaws T lift_mem.
Proof.
  refine {| rd := fun t => rd (view l t); valid := fun t => valid (view l t);
            framed := fun t t' => exists w, t' = update l w t /\ framed (view l t) w |}.
  - intros t. exists (view l t). split; [by rewrite update_view|apply framed_refl].
  - intros t1 ? ? (w1 & -> & F1) (w2 & -> & F2). rewrite view_update in F2. exists w2.
    split; [by rewrite update_update|by eapply framed_trans].
  - intros t a. apply rd_32.
  - intros t a Hv. cbn. unfold zoom. rewrite ldw_ok by done. by rewrite update_view.
  - intros t a v Hv H32. cbn. destruct (stw_ok _ _ v Hv H32) as (w & E & F & V & R).
    exists (update l w t). unfold zoom. rewrite E. rewrite view_update. split_and!; [done| |done|done].
    by exists w.
Defined.
End Lift.
