(* ===== verification/TrapSpec.v ===== *)
(** * What interrupt entry and exit guarantee

    The frame every vector leaves for [interrupt_handler], and that the interrupted code
    continues as if nothing had happened. *)

From stdpp Require Import base gmap list numbers option strings.
From Stdlib Require Import ZArith Lia.
From S2P Require Import Prelude Machine HeapList Idt Timer InterruptSpec Trap.

(** ** Stepping through the code *)

Ltac cpu_simpl := cbn [t_cpu t_mem with_sp with_gpr with_eax with_control with_segments set_sreg
  t_eax t_ecx t_edx t_ebx t_esp t_ebp t_esi t_edi t_eip t_cs t_eflags t_ds t_es t_fs t_gs length app run_code].
Ltac cpu_simpl_all := cbn [t_cpu t_mem with_sp with_gpr with_eax with_control with_segments set_sreg
  t_eax t_ecx t_edx t_ebx t_esp t_ebp t_esi t_edi t_eip t_cs t_eflags t_ds t_es t_fs t_gs length app run_code] in *.
Ltac next_instr := wp_step; unfold exec at 1; wp_step; wp_step; cpu_simpl.
Ltac cpu_step := next_instr; unfold set_cpu at 1; wp_step; cpu_simpl.

(** ** The stubs *)

(** Every stub pushes its number, after a dummy error code exactly when the processor
    pushed none. *)
Lemma stub_uniform n : 0 <= n < 48 ->
  stubs !! Z.to_nat n = Some (if pushes_error n then [Push_imm n] else [Push_imm 0; Push_imm n]).
Proof.
  intros Hn.
  assert (forall k : nat, (k < 48)%nat -> stubs !! k =
    Some (if pushes_error (Z.of_nat k) then [Push_imm (Z.of_nat k)] else [Push_imm 0; Push_imm (Z.of_nat k)])) as H.
  { intros k Hk. do 48 (destruct k as [|k]; [reflexivity|]). lia. }
  specialize (H (Z.to_nat n) ltac:(lia)). by rewrite Z2Nat.id in H by lia.
Qed.

Section Stack.
Context {W : Type} `{WL : WordMemLaws W}.

(** [n] words can be pushed below [sp]. *)
Definition room (m : W) (sp n : Z) : Prop :=
  4 * n <= sp < 4294967296 /\ forall k, 0 <= k < n -> valid m (sp - 4 * (k + 1)).

(** [m] is [m0] with the words [vs] pushed from [sp] on. *)
Record stacked (m0 : W) (sp : Z) (vs : list Z) (m : W) : Prop := {
  sk_framed : framed m0 m;
  sk_valid : forall b, valid m0 b -> valid m b;
  sk_word : forall k v, vs !! k = Some v -> rd m (sp - 4 * (Z.of_nat k + 1)) = v;
  sk_other : forall b, valid m0 b -> b + 4 <= sp - 4 * Z.of_nat (length vs) \/ sp <= b -> rd m b = rd m0 b;
}.

Lemma stacked_nil m sp : stacked m sp [] m.
Proof. split; [apply framed_refl|done..]. Qed.

Lemma wp_tpush m0 sp n vs m c v (Q : unit -> tsys W -> Prop) E : stacked m0 sp vs m ->
  room m0 sp n -> Z.of_nat (length vs) < n -> is32 v -> t_esp c = sp - 4 * Z.of_nat (length vs) ->
  (forall m', stacked m0 sp (vs ++ [v]) m' -> Q tt (Tsys (with_sp (sp - 4 * Z.of_nat (length (vs ++ [v]))) c) m')) ->
  wpe (tpush v) (Tsys c m) Q E.
Proof.
  intros [Hfr Hva Hw Ho] [Hr Hv] Hn H32 Hsp HQ. set (j := Z.of_nat (length vs)) in *.
  unfold tpush. wp_step. wp_step. cbn [t_cpu]. rewrite Hsp, u32_small by (unfold is32; lia).
  replace (sp - 4 * j - 4) with (sp - 4 * (j + 1)) by lia.
  pose proof (Hv j ltac:(lia)) as Hvj. wp_step. wp_step. cbn [view t_lens t_mem].
  destruct (stw_ok m _ v (Hva _ Hvj) H32) as (m' & E1 & Hf1 & Hva' & Hrd). eapply wp_eq; [exact E1|].
  unfold set_cpu. wp_step. cbn [update t_lens t_cpu t_mem].
  rewrite length_app, Nat2Z.inj_add in HQ. apply HQ. split.
  - by eapply framed_trans.
  - intros b Hb. by apply Hva', Hva.
  - intros k w Hk. apply lookup_snoc_Some in Hk as [[Hlt Hk]|[-> <-]].
    + rewrite Hrd.
      * rewrite decide_False by lia. by apply Hw.
      * apply Hva. apply Hv. lia.
    + rewrite Hrd by (by apply Hva). by rewrite decide_True.
  - intros b Hb Hout. rewrite length_app, Nat2Z.inj_add in Hout. cbn in Hout.
    rewrite Hrd by (by apply Hva). rewrite decide_False by lia. apply Ho; [done|lia].
Qed.

Lemma wp_push_all m0 sp n vs m c ws (Q : unit -> tsys W -> Prop) E : stacked m0 sp vs m ->
  room m0 sp n -> Z.of_nat (length vs + length ws) <= n -> Forall is32 ws ->
  t_esp c = sp - 4 * Z.of_nat (length vs) ->
  (forall m', stacked m0 sp (vs ++ ws) m' -> Q tt (Tsys (with_sp (sp - 4 * Z.of_nat (length (vs ++ ws))) c) m')) ->
  wpe (push_all ws) (Tsys c m) Q E.
Proof.
  revert vs m c. induction ws as [|w ws IH]; intros vs m c Hs Hroom Hn Hws Hsp HQ.
  - cbn [push_all]. wp_step. rewrite app_nil_r, <-Hsp in HQ. specialize (HQ m Hs). by destruct c.
  - apply Forall_cons in Hws as [Hw Hws]. cbn [push_all length] in *. wp_step.
    apply (wp_tpush m0 sp n vs m); [exact Hs|exact Hroom|lia|done|done|]. intros m' Hs'.
    apply (IH (vs ++ [w])); [done|done|rewrite length_app; cbn; lia|done|done|].
    intros m2 Hs2. rewrite <-app_assoc in *. exact (HQ m2 Hs2).
Qed.

Lemma wp_tpop m c v (Q : Z -> tsys W -> Prop) E : valid m (t_esp c) -> rd m (t_esp c) = v ->
  0 <= t_esp c < 4294967292 -> Q v (Tsys (with_sp (t_esp c + 4) c) m) -> wpe tpop (Tsys c m) Q E.
Proof.
  intros Hv Hrd Hr HQ. unfold tpop. wp_step. wp_step. cbn [t_cpu]. wp_step. wp_step. cbn [view t_lens t_mem].
  eapply wp_eq; [by apply ldw_ok|]. unfold set_cpu. wp_step. wp_step. cbn [update t_lens t_cpu t_mem].
  wp_step. rewrite u32_small by (unfold is32; lia). by rewrite Hrd.
Qed.

(** ** Entry *)

(** Values the registers can have. *)
Record cpu_ok (c : tcpu) : Prop := {
  co_gpr : Forall is32 [t_eax c; t_ecx c; t_edx c; t_ebx c; t_esp c; t_ebp c; t_esi c; t_edi c];
  co_control : is32 (t_eip c) /\ is32 (t_eflags c) /\ 0 <= t_cs c < 65536;
  co_ds : 0 <= t_ds c < 65536;
}.

(** The error code the frame has. *)
Definition frame_error (n e : Z) : Z := if pushes_error n then e else 0.

(** The words below the interrupted stack pointer when the common code starts. *)
Definition entry_words (c : tcpu) (n e : Z) : list Z :=
  [t_eflags c; t_cs c; t_eip c; frame_error n e; n].

Context (handler : Z -> M W unit) (clobber : tcpu -> Z * Z * Z * Z) (ret_isr : Z).

Lemma wp_entry g n e c m (Q : unit -> tsys W -> Prop) E : cpu_ok c -> room m (t_esp c) 16 ->
  0 <= n < 48 -> is32 e ->
  (forall m', stacked m (t_esp c) (entry_words c n e) m' ->
     wpe (run_code handler clobber ret_isr isr_common)
       (Tsys (with_sp (t_esp c - 20) (with_control (gt_offset g) (gt_selector g)
                (if gt_type g =? 14 then Z.ldiff (t_eflags c) gate_flags else t_eflags c) c)) m') Q E) ->
  wpe (take_interrupt handler clobber ret_isr g n e) (Tsys c m) Q E.
Proof.
  intros Hc Hroom Hn He HQ. pose proof (stub_uniform n Hn) as Hst. destruct Hc as [Hg (Hip & Hfl & Hcs) _].
  assert (is32 (t_cs c)) as Hcs32 by (unfold is32; lia).
  assert (is32 n) as Hn32 by (unfold is32; lia).
  unfold take_interrupt, deliver. rewrite Hst. wp_step. wp_step. wp_step. wp_step.
  apply (wp_push_all m (t_esp c) 16 [] m); [apply stacked_nil|done|cbn; lia|rewrite !Forall_cons; by split_and!|cbn; lia|].
  cbn [t_cpu app length]. intros m1 H1. wp_step.
  unfold entry_words, frame_error in HQ. destruct (pushes_error n); cbn [when].
  - eapply wp_tpush; [exact H1|exact Hroom|cbn; lia|done|cbn; lia|]. cbn [length app]. intros m2 H2.
    unfold set_cpu. wp_step. cbn [run_code app]. wp_step. unfold exec at 1. wp_step. wp_step.
    eapply wp_tpush; [exact H2|exact Hroom|cbn; lia|done|cbn; lia|]. cbn [length app]. intros m3 H3.
    exact (HQ m3 H3).
  - wp_step. unfold set_cpu. wp_step. cbn [run_code app].
    wp_step. unfold exec at 1. wp_step. wp_step.
    eapply wp_tpush; [exact H1|exact Hroom|cbn; lia|done|cbn; lia|]. cbn [length app]. intros m2 H2.
    wp_step. unfold exec at 1. wp_step. wp_step.
    eapply wp_tpush; [exact H2|exact Hroom|cbn; lia|done|cbn; lia|]. cbn [length app]. intros m3 H3.
    exact (HQ m3 H3).
Qed.

(** ** The common code *)

(** The words of the frame, in the order they are pushed. *)
Definition frame_words (c : tcpu) (n e : Z) : list Z :=
  entry_words c n e ++
  [t_eax c; t_ecx c; t_edx c; t_ebx c; t_esp c - 20; t_ebp c; t_esi c; t_edi c; set_ax (t_ds c) (t_eax c)].

(** Memory when [interrupt_handler] is called. *)
Definition at_call (c : tcpu) (n e : Z) (m m' : W) : Prop :=
  stacked m (t_esp c) (frame_words c n e ++ [t_esp c - 56; ret_isr]) m'.

(** A C function gives back the frame and its return address. *)
Definition frame_kept (sp : Z) (m m' : W) : Prop :=
  forall b, b = sp - 64 \/ (sp - 56 <= b /\ b + 4 <= sp) -> valid m b -> valid m' b /\ rd m' b = rd m b.

(** The registers after the return: the data segments are all the one of [%ds]. *)
Definition returned (c : tcpu) : tcpu := with_segments (t_ds c) (t_ds c) (t_ds c) (t_ds c) c.

Lemma set_ax_range v a : is32 (set_ax v a).
Proof.
  unfold set_ax, u16, is32. pose proof (Z.mod_pos_bound v 65536 ltac:(lia)).
  assert (Z.land a 0xFFFF0000 = Z.land (a / 65536) 0xFFFF * 2 ^ 16) as ->.
  { rewrite <-Z.shiftl_mul_pow2 by lia. change 0xFFFF0000 with (Z.shiftl 0xFFFF 16).
    change 65536 with (2 ^ 16). rewrite <-Z.shiftr_div_pow2 by lia. apply Z.bits_inj'. intros i Hi.
    rewrite Z.land_spec, !Z.shiftl_spec by lia. destruct (Z.lt_ge_cases i 16).
    - rewrite (Z.testbit_neg_r 0xFFFF) by lia. rewrite (Z.testbit_neg_r (Z.land _ _)) by lia. by rewrite andb_false_r.
    - rewrite Z.land_spec, Z.shiftr_spec by lia. do 2 f_equal. lia. }
  rewrite (lor_low _ _ 16) by lia. rewrite land_ffff.
  pose proof (Z.mod_pos_bound (a / 65536) 65536 ltac:(lia)). lia.
Qed.

Lemma set_ax_low v a : 0 <= v < 65536 -> u16 (set_ax v a) = v.
Proof.
  intros Hv. unfold u16, set_ax. rewrite <-land_ffff, Z.land_lor_distr_l, <-Z.land_assoc.
  change (Z.land 0xFFFF0000 0xFFFF) with 0. rewrite Z.land_0_r, Z.lor_0_l, land_ffff.
  unfold u16. rewrite Z.mod_mod by lia. by apply Z.mod_small.
Qed.

(** Entry of the common code up to the call. *)
Lemma wp_save_frame c n e m c1 m1 rest (Q : unit -> tsys W -> Prop) E : cpu_ok c ->
  room m (t_esp c) 16 -> is32 ret_isr ->
  stacked m (t_esp c) (entry_words c n e) m1 ->
  with_control 0 0 0 c1 = with_control 0 0 0 (with_sp (t_esp c - 20) c) ->
  (forall a m2, at_call c n e m m2 -> 
     wpe (zoom t_lens (handler (t_esp c - 56)) ;;; set_cpu (clobbered clobber) ;;; tpop ;;; ret tt) 
       (Tsys (with_segments 0x10 0x10 0x10 0x10 (with_sp (t_esp c - 64) (with_eax a c1))) m2)
       (fun _ s => wpe (run_code handler clobber ret_isr rest) s Q E) E) ->
  wpe (run_code handler clobber ret_isr
        ([Pusha; Mov_ds_ax; Push_eax; Mov_imm_ax 0x10; Mov_ax_seg DS; Mov_ax_seg ES; Mov_ax_seg FS;
          Mov_ax_seg GS; Push_esp; Call_interrupt_handler] ++ rest)) (Tsys c1 m1) Q E.
Proof.
  intros Hc Hroom Hra H1 Ec HQ. destruct Hc as [Hg _ _]. unfold at_call, frame_words, entry_words in HQ.
  destruct c as [a cx d b sp bp si di ip cs fl ds es fs gs].
  destruct c1 as [a1 cx1 d1 b1 sp1 bp1 si1 di1 ip1 cs1 fl1 ds1 es1 fs1 gs1].
  unfold entry_words in H1. cpu_simpl_all. injection Ec as -> -> -> -> -> -> -> -> -> -> -> ->.
  pose proof Hroom as [Hr Hv]. rewrite !Forall_cons in Hg. destruct Hg as (Ga & Gcx & Gd & Gb & Gsp & Gbp & Gsi & Gdi & _).
  cpu_simpl. next_instr. eapply wp_push_all; [exact H1|exact Hroom|cbn; lia| |cbn; lia|].
  { rewrite !Forall_cons. split_and!; try done. unfold is32. lia. }
  cbn [entry_words]. cpu_simpl. intros m2 H2. cpu_step. next_instr.
  eapply wp_tpush; [exact H2|exact Hroom|cbn; lia|apply set_ax_range|cbn; lia|]. cpu_simpl. intros m3 H3.
  cpu_step. do 4 cpu_step. next_instr.
  eapply wp_tpush; [exact H3|exact Hroom|cbn; lia|unfold is32; lia|cbn; lia|]. cpu_simpl. intros m4 H4.
  next_instr. wp_step.
  eapply wp_tpush; [exact H4|exact Hroom|cbn; lia|done|cbn; lia|]. cpu_simpl. intros m5 H5.
  change (4 * Z.of_nat 14) with 56 in *. change (4 * Z.of_nat 15) with 60 in *. change (4 * Z.of_nat 16) with 64 in *.
  wp_step. wp_step. pose proof (Hv 14 ltac:(lia)) as V14. replace (sp - 4 * (14 + 1)) with (sp - 60) in V14 by lia.
  eapply wp_eq; [apply ldw_ok, (sk_valid _ _ _ _ H5), V14|]. cbn [view update t_lens t_mem t_cpu].
  pose proof (sk_word _ _ _ _ H5 14 _ eq_refl) as E14. replace (sp - 4 * (Z.of_nat 14 + 1)) with (sp - 60) in E14 by lia.
  rewrite E14. rewrite !(set_ax_low 16) by lia. exact (HQ (set_ax 16 (set_ax ds a)) m5 H5).
Qed.

(** The words of the frame are in memory. *)
Definition frame_there (c : tcpu) (n e : Z) (m : W) : Prop :=
  forall k v, frame_words c n e !! k = Some v ->
    valid m (t_esp c - 4 * (Z.of_nat k + 1)) /\ rd m (t_esp c - 4 * (Z.of_nat k + 1)) = v.

(** Popping the word that was pushed as number [k]. *)
Lemma wp_pop_frame_word c n e m c2 k v (Q : Z -> tsys W -> Prop) E : frame_there c n e m ->
  64 <= t_esp c < 4294967296 -> frame_words c n e !! k = Some v ->
  t_esp c2 = t_esp c - 4 * (Z.of_nat k + 1) ->
  Q v (Tsys (with_sp (t_esp c - 4 * Z.of_nat k) c2) m) -> wpe tpop (Tsys c2 m) Q E.
Proof.
  intros Hf Hr Hk Hsp HQ. destruct (Hf k v Hk) as [Hv Hrd]. pose proof (lookup_lt_Some _ _ _ Hk) as Hlt. cbn in Hlt.
  eapply wp_tpop; rewrite Hsp; [done|exact Hrd|lia|].
  by replace (t_esp c - 4 * (Z.of_nat k + 1) + 4) with (t_esp c - 4 * Z.of_nat k) by lia.
Qed.

(** The common code after the call. *)
Lemma wp_restore c n e m c2 (Q : unit -> tsys W -> Prop) E : cpu_ok c -> 64 <= t_esp c < 4294967296 ->
  frame_there c n e m -> t_esp c2 = t_esp c - 60 -> Q tt (Tsys (returned c) m) ->
  wpe (run_code handler clobber ret_isr
        [Add_esp 4; Pop_eax; Mov_ax_seg DS; Mov_ax_seg ES; Mov_ax_seg FS; Mov_ax_seg GS; Popa; Add_esp 8; Iret])
    (Tsys c2 m) Q E.
Proof.
  intros Hc Hr Hf Hsp HQ. destruct Hc as [_ (_ & _ & Hcs) Hds].
  cbn [run_code]. cpu_step. rewrite Hsp, u32_small by (unfold is32; lia).
  next_instr. wp_step. eapply (wp_pop_frame_word c n e m _ 13); [done|done|done|cpu_simpl; lia|].
  unfold set_cpu at 1. wp_step. cpu_simpl. do 4 cpu_step. rewrite !set_ax_low by done. next_instr.
  wp_step. eapply (wp_pop_frame_word c n e m _ 12); [done|done|done|cpu_simpl; lia|].
  wp_step. eapply (wp_pop_frame_word c n e m _ 11); [done|done|done|cpu_simpl; lia|].
  wp_step. eapply (wp_pop_frame_word c n e m _ 10); [done|done|done|cpu_simpl; lia|].
  wp_step. eapply (wp_pop_frame_word c n e m _ 9); [done|done|done|cpu_simpl; lia|].
  wp_step. eapply (wp_pop_frame_word c n e m _ 8); [done|done|done|cpu_simpl; lia|].
  wp_step. eapply (wp_pop_frame_word c n e m _ 7); [done|done|done|cpu_simpl; lia|].
  wp_step. eapply (wp_pop_frame_word c n e m _ 6); [done|done|done|cpu_simpl; lia|].
  wp_step. eapply (wp_pop_frame_word c n e m _ 5); [done|done|done|cpu_simpl; lia|].
  unfold set_cpu at 1. wp_step. cpu_simpl.
  cpu_step. rewrite u32_small by (unfold is32; lia). next_instr.
  wp_step. eapply (wp_pop_frame_word c n e m _ 2); [done|done|done|cpu_simpl; lia|].
  wp_step. eapply (wp_pop_frame_word c n e m _ 1); [done|done|done|cpu_simpl; lia|].
  wp_step. eapply (wp_pop_frame_word c n e m _ 0); [done|done|done|cpu_simpl; lia|].
  unfold set_cpu at 1. wp_step. cpu_simpl. unfold u16 at 1. rewrite (Z.mod_small (t_cs c)) by lia.
  wp_step. replace (t_esp c - 4 * Z.of_nat 0) with (t_esp c) by lia. unfold returned in HQ.
  destruct c. exact HQ.
Qed.

Lemma at_call_there c n e m m2 m3 : room m (t_esp c) 16 -> at_call c n e m m2 ->
  frame_kept (t_esp c) m2 m3 -> frame_there c n e m3.
Proof.
  intros [Hr Hv] [_ Hva Hw _] Hk k v Hf. pose proof (lookup_lt_Some _ _ _ Hf) as Hlt. cbn in Hlt.
  assert (valid m2 (t_esp c - 4 * (Z.of_nat k + 1))) as Hvk by (apply Hva, Hv; lia).
  destruct (Hk (t_esp c - 4 * (Z.of_nat k + 1))) as [? E]; [lia|done|]. split; [done|].
  rewrite E. apply Hw. by apply lookup_app_l_Some.
Qed.

(** An interrupt from beginning to end. *)
Lemma take_interrupt_wp g n e c m (R : W -> W -> Prop) : cpu_ok c -> room m (t_esp c) 16 ->
  0 <= n < 48 -> is32 e -> is32 ret_isr ->
  (forall m2, at_call c n e m m2 ->
     wp (handler (t_esp c - 56)) m2 (fun _ m3 => frame_kept (t_esp c) m2 m3 /\ R m2 m3)) ->
  wp (take_interrupt handler clobber ret_isr g n e) (Tsys c m) (fun _ s =>
    t_cpu s = returned c /\ exists m2, at_call c n e m m2 /\ R m2 (t_mem s)).
Proof.
  intros Hc Hroom Hn He Hra Hh. pose proof Hroom as [Hr Hv].
  apply wp_entry; [done|done|done|done|]. intros m1 H1.
  apply (wp_save_frame c n e m _ m1 [Add_esp 4; Pop_eax; Mov_ax_seg DS; Mov_ax_seg ES; Mov_ax_seg FS;
    Mov_ax_seg GS; Popa; Add_esp 8; Iret]); [done|done|done|done|by destruct c|].
  intros a m2 H2. wp_step. wp_step. cbn [view t_lens t_mem]. eapply wp_mono; [by apply Hh|].
  intros [] m3 [Hk HR]. cbn [update t_lens t_cpu]. unfold set_cpu at 1. wp_step. wp_step. cpu_simpl.
  set (c2 := with_segments _ _ _ _ _). assert (t_esp (clobbered clobber c2) = t_esp c - 64) as Esp.
  { unfold clobbered. destruct (clobber c2) as [[[? ?] ?] ?]. done. }
  wp_step. assert (valid m2 (t_esp c - 64)) as Hv64.
  { apply (sk_valid _ _ _ _ H2). specialize (Hv 15 ltac:(lia)).
    by replace (t_esp c - 64) with (t_esp c - 4 * (15 + 1)) by lia. }
  destruct (Hk (t_esp c - 64)) as [Hv3 _]; [by left|done|].
  eapply wp_tpop; rewrite Esp; [done|done|lia|]. wp_step.
  apply (wp_restore c n e); [done|lia|by eapply at_call_there|cpu_simpl; lia|].
  cbn [t_cpu t_mem]. split; [done|]. by exists m2.
Qed.

(** ** The frame as the C code sees it *)

Definition frame_of (m : W) (p : Z) : interrupt_frame :=
  Frame (rd m p) (rd m (p + 4)) (rd m (p + 8)) (rd m (p + 12)) (rd m (p + 16)) (rd m (p + 20))
    (rd m (p + 24)) (rd m (p + 28)) (rd m (p + 32)) (rd m (p + 36)) (rd m (p + 40)) (rd m (p + 44))
    (rd m (p + 48)) (rd m (p + 52)) (rd m (p + 56)) (rd m (p + 60)).

(** The frame of vector [n] with error code [e], taken at [c]; the last two fields are words
    of the interrupted stack. *)
Definition interrupted (c : tcpu) (n e : Z) (m : W) : interrupt_frame :=
  Frame (set_ax (t_ds c) (t_eax c)) (t_edi c) (t_esi c) (t_ebp c) (t_esp c - 20) (t_ebx c) (t_edx c)
    (t_ecx c) (t_eax c) n (frame_error n e) (t_eip c) (t_cs c) (t_eflags c)
    (rd m (t_esp c)) (rd m (t_esp c + 4)).

Lemma at_call_frame c n e m m2 : at_call c n e m m2 -> frame_of m2 (t_esp c - 56) = interrupted c n e m2.
Proof.
  intros [_ _ Hw _].
  assert (forall k v a, (frame_words c n e ++ [t_esp c - 56; ret_isr]) !! k = Some v ->
    a = t_esp c - 4 * (Z.of_nat k + 1) -> rd m2 a = v) as Hk by (intros k v a Hk ->; by apply Hw).
  unfold frame_of, interrupted. f_equal;
    [apply (Hk 13%nat)|apply (Hk 12%nat)|apply (Hk 11%nat)|apply (Hk 10%nat)|apply (Hk 9%nat)|apply (Hk 8%nat)
    |apply (Hk 7%nat)|apply (Hk 6%nat)|apply (Hk 5%nat)|apply (Hk 4%nat)|apply (Hk 3%nat)|apply (Hk 2%nat)
    |apply (Hk 1%nat)|apply (Hk 0%nat)|f_equal; lia|f_equal; lia]; (done || lia).
Qed.
End Stack.

(** ** Claims *)

Section Claims.
Context {W : Type} `{WL : WordMemLaws W}.
Context (clobber : tcpu -> Z * Z * Z * Z) (ret_isr : Z).

(** C20: [struct interrupt_frame] describes the stack for every one of the 48 vectors: when
    [interrupt_handler] is called, by a handler that only shows its argument, its argument
    points to a frame whose fields hold the interrupted registers, the vector, the error code
    of the processor or 0, and the return state; the data segments are the kernel's and
    interrupts are disabled. *)
Theorem interrupt_frame_layout g n e c m : cpu_ok c -> room m (t_esp c) 16 -> 0 <= n < 48 ->
  is32 e -> is32 ret_isr -> gt_type g = 14 ->
  wpe (take_interrupt (fun p => stop_with (OutOfBounds p)) clobber ret_isr g n e) (Tsys c m)
    (fun _ _ => False) (fun st s =>
      st = OutOfBounds (t_esp c - 56) /\
      frame_of (t_mem s) (t_esp c - 56) = interrupted c n e (t_mem s) /\
      (t_ds (t_cpu s) = 0x10 /\ t_es (t_cpu s) = 0x10 /\ t_fs (t_cpu s) = 0x10 /\ t_gs (t_cpu s) = 0x10) /\
      Z.testbit (t_eflags (t_cpu s)) 9 = false).
Proof.
  intros Hc Hroom Hn He Hra Hg. apply wp_entry; [done|done|done|done|]. intros m1 H1.
  apply (wp_save_frame _ _ _ c n e m _ m1 [Add_esp 4; Pop_eax; Mov_ax_seg DS; Mov_ax_seg ES; Mov_ax_seg FS;
    Mov_ax_seg GS; Popa; Add_esp 8; Iret]); [done|done|done|done|by destruct c|].
  intros a m2 H2. wp_step. wp_step. apply wp_stop. split; [done|].
  split; [by eapply at_call_frame|]. split; [done|]. cpu_simpl. cbn [t_cpu update t_lens]. cpu_simpl.
  rewrite Hg. cbn [Z.eqb Pos.eqb]. rewrite Z.ldiff_spec. by rewrite andb_false_r.
Qed.

(** Memory at the call of the handler: the frame is there, and nothing above the interrupted
    stack pointer or 64 bytes below it has changed. *)
Record called (c : tcpu) (n e : Z) (m m2 : W) : Prop := {
  ca_framed : framed m m2;
  ca_frame : frame_of m2 (t_esp c - 56) = interrupted c n e m2;
  ca_other : forall b, valid m b -> b + 4 <= t_esp c - 64 \/ t_esp c <= b -> rd m2 b = rd m b;
}.

(** Port accesses leave the words of memory alone. *)
Definition io_neutral (l : lens W machine) : Prop := forall m es b, valid m b ->
  valid (update l (emitted es (view l m)) m) b /\ rd (update l (emitted es (view l m)) m) b = rd m b.

Lemma kept_io l sp m m' es : io_neutral l -> frame_kept sp m m' ->
  frame_kept sp m (update l (emitted es (view l m')) m').
Proof.
  intros Hio Hk b Hb Hv. destruct (Hk b Hb Hv) as [Hv' E]. destruct (Hio m' es b Hv') as [? E'].
  split; [done|]. by rewrite E'.
Qed.

(** C9: an interrupt is transparent to the interrupted code.  For every vector, whatever the
    C code leaves in the registers it may use: the handler registered for the vector runs,
    once, on the frame of the interrupted code, and returns with that frame unchanged; the
    controllers get their acknowledgements; and the interrupted code continues with its
    general registers, stack pointer, flags, CS:EIP and DS as they were.  ES, FS and GS come
    back with the value of DS, the only data segment register [isr_common] saves. *)
Theorem interrupt_transparent (l : lens W machine) `{!LensLaws l} table run g n e c m :
  cpu_ok c -> room m (t_esp c) 16 -> 0 <= n < 48 -> is32 e -> is32 ret_isr -> io_neutral l ->
  (forall m2, called c n e m m2 -> exists h, table m2 !! Z.to_nat n = Some h /\
     match h with
     | Some f => wp (run f (t_esp c - 56)) m2 (fun _ m3 => frame_kept (t_esp c) m2 m3)
     | None => True
     end) ->
  wp (take_interrupt (handle_frame l table run) clobber ret_isr g n e) (Tsys c m) (fun _ s =>
    t_cpu s = returned c /\
    exists m2 m3 h, called c n e m m2 /\ table m2 !! Z.to_nat n = Some h /\
      match h with Some f => run f (t_esp c - 56) m2 = Ok tt m3 | None => m3 = m2 end /\
      t_mem s = update l (emitted (eoi_events n) (view l m3)) m3).
Proof.
  intros Hc Hroom Hn He Hra Hio Hh. pose proof Hroom as [Hr Hv]. eapply wp_mono.
  { apply (take_interrupt_wp _ clobber ret_isr g n e c m (fun m2 m4 => exists m3 h,
      called c n e m m2 /\ table m2 !! Z.to_nat n = Some h /\
      match h with Some f => run f (t_esp c - 56) m2 = Ok tt m3 | None => m3 = m2 end /\
      m4 = update l (emitted (eoi_events n) (view l m3)) m3)); [done..|].
    intros m2 H2. pose proof (at_call_frame _ _ _ _ _ _ H2) as Hfr.
    assert (called c n e m m2) as Hcall.
    { split; [apply H2|done|]. intros b Hb Hout. by apply (sk_other _ _ _ _ H2). }
    destruct (Hh m2 Hcall) as (h & Ht & Hrun). unfold handle_frame.
    rewrite u32_small by (unfold is32; lia).
    assert (valid m2 (t_esp c - 56 + 36)) as Hv2.
    { apply (sk_valid _ _ _ _ H2). specialize (Hv 4 ltac:(lia)).
      by replace (t_esp c - 56 + 36) with (t_esp c - 4 * (4 + 1)) by lia. }
    wp_step. eapply wp_eq; [by apply ldw_ok|].
    assert (rd m2 (t_esp c - 56 + 36) = n) as En by exact (f_equal f_interrupt_number Hfr). rewrite En.
    assert (exists m3, match h with Some f => run f (t_esp c - 56) m2 = Ok tt m3 | None => m3 = m2 end /\
              frame_kept (t_esp c) m2 m3) as (m3 & Hrun3 & Hk).
    { destruct h as [f|]; [|by exists m2]. apply wp_ok in Hrun as ([] & m3 & E & Hk). by exists m3. }
    wp_step. eapply wp_eq; [by apply (call_handler_run table (fun h => run h (t_esp c - 56)) n m2 h m3)|].
    destruct (Hk (t_esp c - 56 + 36)) as [Hv3 E3]; [right; lia|done|]. rewrite En in E3.
    wp_step. eapply wp_eq; [by apply ldw_ok|]. rewrite E3. eapply wp_eq; [apply (send_eoi_run l)|].
    split; [by apply kept_io|]. by exists m3, h. }
  intros [] s (Ec & m2 & _ & m3 & h & Hrest). split; [done|]. by exists m2, m3, h.
Qed.
End Claims.

(** ** Witnesses *)

(** Memory of words without translation, beside the interrupt tables. *)
Record flat := Flat { fl_words : Z -> Z; fl_i : isys }.

#[local] Instance flat_mem : WordMem flat := {
  ldw a := fun s => Ok (fl_words s a) s;
  stw a v := fun s => Ok tt (Flat (fun b => if decide (b = a) then v else fl_words s b) (fl_i s));
}.

#[local] Instance flat_laws : WordMemLaws flat.
Proof.
  refine {| rd := fl_words; valid := fun s a => is32 (fl_words s a); framed := fun s s' => fl_i s' = fl_i s |};
    try done; [by intros ? ? ? -> ->|].
  intros s a v _ Hv. eexists. split; [done|]. split; [done|]. split; [|done].
  intros b Hb. cbn. by case_decide.
Defined.

Definition fl_lens : lens flat machine :=
  Lens (fun s => i_hw (fl_i s)) (fun h s => Flat (fl_words s) (update i_lens h (fl_i s))).

#[local] Instance fl_lens_laws : LensLaws fl_lens.
Proof. split; by intros; try destruct s as [? []]. Qed.

Definition demo_cpu : tcpu :=
  Tcpu 0xAABBCCDD 1 2 3 0xC0410000 5 6 7 0xC0101234 0x08 0x202 0x10 0x10 0x10 0x10.
Definition demo_flat : flat := Flat (fun _ => 0) demo_interrupts.

Lemma demo_cpu_ok : cpu_ok demo_cpu /\ room demo_flat (t_esp demo_cpu) 16.
Proof.
  split.
  - split; [rewrite !Forall_cons; split_and!; done|done|done].
  - split; [done|]. intros k Hk. done.
Qed.

Lemma interrupt_frame_layout_witness :
  wpe (take_interrupt (fun p => stop_with (OutOfBounds p)) (fun _ => (0, 0, 0, 0)) 0xC0100900
         (kernel_gate 0xC01004E0) 14 2) (Tsys demo_cpu demo_flat)
    (fun _ _ => False) (fun st s =>
      st = OutOfBounds 0xC040FFC8 /\
      frame_of (t_mem s) 0xC040FFC8 =
        Frame 0xAABB0010 7 6 5 0xC040FFEC 3 2 1 0xAABBCCDD 14 2 0xC0101234 0x08 0x202
          (fl_words (t_mem s) 0xC0410000) (fl_words (t_mem s) 0xC0410004) /\
      (t_ds (t_cpu s) = 0x10 /\ t_es (t_cpu s) = 0x10 /\ t_fs (t_cpu s) = 0x10 /\ t_gs (t_cpu s) = 0x10) /\
      Z.testbit (t_eflags (t_cpu s)) 9 = false).
Proof.
  destruct demo_cpu_ok as [H1 H2].
  exact (interrupt_frame_layout (fun _ => (0, 0, 0, 0)) 0xC0100900 (kernel_gate 0xC01004E0) 14 2 demo_cpu demo_flat
    H1 H2 ltac:(lia) ltac:(by unfold is32) ltac:(by unfold is32) eq_refl).
Defined.

(** The same machine with a handler for the keyboard, which reads a word of the frame and
    writes to a port. *)
Definition demo_keyed : flat :=
  Flat (fun _ => 0) (Isys (i_hw demo_interrupts) (idt demo_interrupts) (idtp_limit demo_interrupts)
    (idtp_base demo_interrupts) (<[33%nat := Some KeyboardHandler]> (handlers demo_interrupts))).
Definition demo_handler (h : handler) (frame : Z) : M flat unit :=
  v <- ldw (frame + 36) ;; zoom fl_lens (outb 0xE9 v).

Lemma interrupt_transparent_witness :
  wp (take_interrupt (handle_frame fl_lens (fun s => handlers (fl_i s)) demo_handler) (fun _ => (9, 9, 9, 9))
        0xC0100900 (kernel_gate 0xC0100840) 33 0) (Tsys demo_cpu demo_keyed) (fun _ s =>
    t_cpu s = demo_cpu /\
    trace (i_hw (fl_i (t_mem s))) = [OutB 0x20 0x20; OutB 0xE9 33] ++ trace (i_hw demo_interrupts)).
Proof.
  destruct demo_cpu_ok as [H1 _]. eapply wp_mono.
  { apply (interrupt_transparent (fun _ => (9, 9, 9, 9)) 0xC0100900 fl_lens (fun s => handlers (fl_i s))
      demo_handler (kernel_gate 0xC0100840) 33 0 demo_cpu demo_keyed H1).
    - split; [done|]. intros k Hk. done.
    - lia.
    - by unfold is32.
    - by unfold is32.
    - intros m es b Hb. by split.
    - intros m2 [Hm _ _]. exists (Some KeyboardHandler). cbn in Hm |- *. rewrite Hm. split; [done|].
      intros b _ Hb. by split. }
  intros [] s [E (m2 & m3 & h & [Hm Hf _] & Ht & Hr & ->)]. split; [exact E|].
  cbn in Hm, Ht. rewrite Hm in Ht. injection Ht as <-. injection Hr as <-. cbn. rewrite Hm.
  injection Hf as _ _ _ _ _ _ _ _ _ Hn _. cbn in Hn. by rewrite Hn.
Defined.
