(* ===== verification/Process.v ===== *)
(** * Processes ([kernel/process.c], [kernel/process.h])

    The table of process control blocks, the allocation of a block with its kernel stack,
    its release, and the stack frame a new kernel thread starts from.  A pointer to a
    [process_t] is a slot of the table; [NULL] is [None]. *)

From stdpp Require Import base gmap list numbers option strings.
From Stdlib Require Import ZArith Lia.
From S2P Require Import Prelude Machine Pmm Paging HeapList Kheap Vmm Terminal.

Definition MAX_PROCESSES : Z := 64.
Definition PROCESS_NAME_LEN : Z := 32.
Definition KERNEL_STACK_SIZE : Z := 8192.

Inductive process_state :=
  | PROCESS_UNUSED | PROCESS_READY | PROCESS_RUNNING | PROCESS_BLOCKED | PROCESS_ZOMBIE.

#[export] Instance process_state_eq_dec : EqDecision process_state.
Proof. solve_decision. Defined.

(** [process_t]; the seventeen words of [registers] are cleared and never used. *)
Record pcb := Pcb {
  pid : Z;
  state : process_state;
  name : list Z;
  registers : list Z;
  p_directory : Z;
  address_space : option sptr;
  kernel_stack : Z;
  kernel_esp : Z;
  priority : Z;
  parent_pid : Z;
  exit_code : Z;
}.

(** The callee-saved registers, the stack pointer and the instruction pointer. *)
Record cpu := Cpu { edi : Z; esi : Z; ebx : Z; ebp : Z; esp : Z; eip : Z }.

(** The statics of [process.c], [scheduler.c] and [timer.c], and the registers. *)
Record osys := Osys {
  o_v : vsys;
  process_table : list pcb;
  next_pid : Z;
  current_process : option nat;
  scheduler_enabled : bool;
  timer_ticks : Z;
  regs : cpu;
}.

Definition o_lens : lens osys vsys :=
  Lens o_v (fun v s => Osys v (process_table s) (next_pid s) (current_process s)
                            (scheduler_enabled s) (timer_ticks s) (regs s)).

#[export] Instance o_lens_laws : LensLaws o_lens.
Proof. split; by intros; try destruct s. Qed.

Definition set_table (t : list pcb) (s : osys) : osys :=
  Osys (o_v s) t (next_pid s) (current_process s) (scheduler_enabled s) (timer_ticks s) (regs s).
Definition set_next_pid (n : Z) (s : osys) : osys :=
  Osys (o_v s) (process_table s) n (current_process s) (scheduler_enabled s) (timer_ticks s) (regs s).
Definition set_current_process (p : option nat) (s : osys) : osys :=
  Osys (o_v s) (process_table s) (next_pid s) p (scheduler_enabled s) (timer_ticks s) (regs s).
Definition set_enabled (b : bool) (s : osys) : osys :=
  Osys (o_v s) (process_table s) (next_pid s) (current_process s) b (timer_ticks s) (regs s).
Definition set_ticks (n : Z) (s : osys) : osys :=
  Osys (o_v s) (process_table s) (next_pid s) (current_process s) (scheduler_enabled s) n (regs s).
Definition set_regs (c : cpu) (s : osys) : osys :=
  Osys (o_v s) (process_table s) (next_pid s) (current_process s) (scheduler_enabled s) (timer_ticks s) c.

(** Lower layers. *)
Definition o_hw {A} (m : M machine A) : M osys A := zoom o_lens (v_hw m).
Definition o_heap {A} (m : M hsys A) : M osys A := zoom o_lens (zoom v_lens m).
Definition o_kprintf (fmt : string) (args : list karg) : M osys unit := o_hw (kprintf fmt args).

(** Stacks are words of virtual memory. *)
#[export] Instance stack_mem : WordMem osys := {
  ldw a := zoom o_lens (zoom v_lens (ldw a));
  stw a v := zoom o_lens (zoom v_lens (stw a v));
}.

(** [process_table[i]], read and written. *)
Definition rd_proc (i : nat) : M osys pcb :=
  fun s => match process_table s !! i with
           | Some p => Ok p s
           | None => Stop (OutOfBounds (Z.of_nat i)) s
           end.
Definition wr_proc (i : nat) (f : pcb -> pcb) : M osys unit :=
  fun s => match process_table s !! i with
           | Some p => Ok tt (set_table (<[i := f p]> (process_table s)) s)
           | None => Stop (OutOfBounds (Z.of_nat i)) s
           end.

Definition set_pid (v : Z) (p : pcb) : pcb :=
  Pcb v (state p) (name p) (registers p) (p_directory p) (address_space p) (kernel_stack p)
      (kernel_esp p) (priority p) (parent_pid p) (exit_code p).
Definition set_state (v : process_state) (p : pcb) : pcb :=
  Pcb (pid p) v (name p) (registers p) (p_directory p) (address_space p) (kernel_stack p)
      (kernel_esp p) (priority p) (parent_pid p) (exit_code p).
Definition set_name (v : list Z) (p : pcb) : pcb :=
  Pcb (pid p) (state p) v (registers p) (p_directory p) (address_space p) (kernel_stack p)
      (kernel_esp p) (priority p) (parent_pid p) (exit_code p).
Definition set_directory (v : Z) (p : pcb) : pcb :=
  Pcb (pid p) (state p) (name p) (registers p) v (address_space p) (kernel_stack p)
      (kernel_esp p) (priority p) (parent_pid p) (exit_code p).
Definition set_space (v : option sptr) (p : pcb) : pcb :=
  Pcb (pid p) (state p) (name p) (registers p) (p_directory p) v (kernel_stack p)
      (kernel_esp p) (priority p) (parent_pid p) (exit_code p).
Definition set_stack (v : Z) (p : pcb) : pcb :=
  Pcb (pid p) (state p) (name p) (registers p) (p_directory p) (address_space p) v
      (kernel_esp p) (priority p) (parent_pid p) (exit_code p).
Definition set_esp (v : Z) (p : pcb) : pcb :=
  Pcb (pid p) (state p) (name p) (registers p) (p_directory p) (address_space p) (kernel_stack p)
      v (priority p) (parent_pid p) (exit_code p).
Definition set_priority (v : Z) (p : pcb) : pcb :=
  Pcb (pid p) (state p) (name p) (registers p) (p_directory p) (address_space p) (kernel_stack p)
      (kernel_esp p) v (parent_pid p) (exit_code p).
Definition set_parent (v : Z) (p : pcb) : pcb :=
  Pcb (pid p) (state p) (name p) (registers p) (p_directory p) (address_space p) (kernel_stack p)
      (kernel_esp p) (priority p) v (exit_code p).
Definition set_exit_code (v : Z) (p : pcb) : pcb :=
  Pcb (pid p) (state p) (name p) (registers p) (p_directory p) (address_space p) (kernel_stack p)
      (kernel_esp p) (priority p) (parent_pid p) v.

(** A block all of whose bytes are zero, as [zero_memory] leaves it. *)
Definition zero_pcb : pcb :=
  Pcb 0 PROCESS_UNUSED (replicate 32 0) (replicate 17 0) 0 None 0 0 0 0 0.

(** [zero_memory(&process_table[i], sizeof(process_t))]. *)
Definition zero_memory (i : nat) : M osys unit := wr_proc i (fun _ => zero_pcb).

(** [dest[i] = v] in a buffer of characters. *)
Definition buf_write {S} (dest : list Z) (i v : Z) : M S (list Z) :=
  match dest !! Z.to_nat i with
  | Some _ => ret (<[Z.to_nat i := v]> dest)
  | None => stop_with (OutOfBounds i)
  end.

(** [copy_name]: the source is read with [src]; the buffer after the copy is returned. *)
Definition copy_name {S} (dest : list Z) (src : Z -> M S Z) (max_len : Z) : M S (list Z) :=
  st <- loop (fun '(i, dest) =>
    if i <? max_len -u 1 then
      c <- src i ;;
      if negb (c =? 0) then
        c' <- src i ;;
        dest' <- buf_write dest i c' ;;
        ret (inl (i +u 1, dest'))
      else ret (inr (i, dest))
    else ret (inr (i, dest))) (0, dest) ;;
  buf_write st.2 st.1 0.

(** The C string in a buffer: what precedes the first null character. *)
Fixpoint c_string (b : list Z) : string :=
  match b with
  | [] => EmptyString
  | c :: r => if c =? 0 then EmptyString else String (Ascii.ascii_of_N (Z.to_N c)) (c_string r)
  end.

(** Reading a buffer of characters. *)
Definition buf_read {S} (b : list Z) (i : Z) : M S Z :=
  match b !! Z.to_nat i with Some c => ret c | None => stop_with (OutOfBounds i) end.

Definition process_current : M osys (option nat) := get current_process.
Definition process_set_current (p : option nat) : M osys unit := modify (set_current_process p).

Definition process_get_by_slot (slot : Z) : M osys (option nat) :=
  if (slot <? 0) || (MAX_PROCESSES <=? slot) then ret None else
  p <- rd_proc (Z.to_nat slot) ;;
  ret (if bool_decide (state p = PROCESS_UNUSED) then None else Some (Z.to_nat slot)).

(** A scan of the table from slot 0 for the first slot that satisfies a condition. *)
Definition scan_table (cond : nat -> M osys bool) : M osys (option nat) :=
  loop (fun i =>
    if i <? MAX_PROCESSES then
      b <- cond (Z.to_nat i) ;;
      ret (if b : bool then inr (Some (Z.to_nat i)) else inl (i + 1))
    else ret (inr None)) 0.

Definition process_get (p : Z) : M osys (option nat) :=
  scan_table (fun i =>
    x <- rd_proc i ;;
    ret (negb (bool_decide (state x = PROCESS_UNUSED)) && (pid x =? p))).

Section Process.
Context {L : Layout}.

Definition process_init : M osys unit :=
  for_loop MAX_PROCESSES 1 (fun i => zero_memory (Z.to_nat i)) 0 ;;;
  wr_proc 0 (set_pid 0) ;;;
  wr_proc 0 (set_state PROCESS_RUNNING) ;;;
  p <- rd_proc 0 ;;
  n <- copy_name (name p) (char_at (bytes_of "kernel")) PROCESS_NAME_LEN ;;
  wr_proc 0 (set_name n) ;;;
  wr_proc 0 (set_directory paging_get_directory) ;;;
  wr_proc 0 (set_space (Some vmm_get_kernel_space)) ;;;
  wr_proc 0 (set_stack 0) ;;;
  wr_proc 0 (set_esp 0) ;;;
  wr_proc 0 (set_priority 0) ;;;
  wr_proc 0 (set_parent 0) ;;;
  wr_proc 0 (set_exit_code 0) ;;;
  modify (set_next_pid 1) ;;;
  modify (set_current_process (Some 0%nat)) ;;;
  o_kprintf ("[PROCESS] Subsystem initialized, PID 0 (kernel) active" +:+ nl) [].

Definition process_alloc : M osys (option nat) :=
  slot <- scan_table (fun i => x <- rd_proc i ;; ret (bool_decide (state x = PROCESS_UNUSED))) ;;
  match slot with
  | None =>
      o_kprintf ("[PROCESS] Table full! (max %d)" +:+ nl) [KInt MAX_PROCESSES] ;;; ret None
  | Some i =>
      zero_memory i ;;;
      n <- get next_pid ;;
      modify (set_next_pid (n +u 1)) ;;;
      wr_proc i (set_pid n) ;;;
      wr_proc i (set_state PROCESS_READY) ;;;
      cur <- get current_process ;;
      parent <- match cur with Some c => x <- rd_proc c ;; ret (pid x) | None => ret 0 end ;;
      wr_proc i (set_parent parent) ;;;
      stack <- o_heap (kmalloc_aligned KERNEL_STACK_SIZE) ;;
      wr_proc i (set_stack stack) ;;;
      p <- rd_proc i ;;
      if kernel_stack p =? 0 then
        o_kprintf ("[PROCESS] Failed to allocate kernel stack for PID %u" +:+ nl) [KInt (pid p)] ;;;
        wr_proc i (set_state PROCESS_UNUSED) ;;;
        ret None
      else
        wr_proc i (set_esp (kernel_stack p +u KERNEL_STACK_SIZE)) ;;;
        o_kprintf ("[PROCESS] Allocated PID %u (slot %d, kstack @ 0x%x)" +:+ nl)
          [KInt (pid p); KInt (Z.of_nat i); KInt (kernel_stack p)] ;;;
        ret (Some i)
  end.

Definition process_free (proc : option nat) : M osys unit :=
  match proc with
  | None => ret tt
  | Some i =>
      p <- rd_proc i ;;
      if pid p =? 0 then
        o_kprintf ("[PROCESS] BUG: Tried to free PID 0 (kernel)!" +:+ nl) []
      else
        name_copy <- copy_name (replicate 32 0) (buf_read (name p)) PROCESS_NAME_LEN ;;
        when (negb (kernel_stack p =? 0)) (o_heap (kfree (kernel_stack p))) ;;;
        when (bool_decide (is_Some (address_space p)))
          (zoom o_lens (vmm_destroy_address_space (address_space p))) ;;;
        zero_memory i ;;;
        wr_proc i (set_state PROCESS_UNUSED) ;;;
        o_kprintf ("[PROCESS] Freed PID %u (%s)" +:+ nl)
          [KInt (pid p); KStr (c_string name_copy)]
  end.

(** The link address of [kthread_trampoline]. *)
Context (sym_trampoline : Z).

(** [*(--sp) = v] *)
Definition push_word (sp v : Z) : M osys Z :=
  let sp' := sp -u 4 in stw sp' v ;;; ret sp'.

(** The initial stack of a thread: what [context_switch] pops, then the word above. *)
Definition build_stack (sp entry : Z) : M osys Z :=
  sp <- push_word sp 0 ;;
  sp <- push_word sp sym_trampoline ;;
  sp <- push_word sp 0 ;;
  sp <- push_word sp entry ;;
  sp <- push_word sp 0 ;;
  push_word sp 0.

Definition kthread_create (entry : Z) (nm : list Z) : M osys (option nat) :=
  proc <- process_alloc ;;
  match proc with
  | None => ret None
  | Some i =>
      p <- rd_proc i ;;
      n <- copy_name (name p) (char_at nm) PROCESS_NAME_LEN ;;
      wr_proc i (set_name n) ;;;
      wr_proc i (set_directory paging_get_directory) ;;;
      wr_proc i (set_space (Some vmm_get_kernel_space)) ;;;
      q <- rd_proc i ;;
      sp <- build_stack (kernel_stack q +u KERNEL_STACK_SIZE) entry ;;
      wr_proc i (set_esp sp) ;;;
      o_kprintf ("[KTHREAD] Created '%s' (PID %u, entry @ 0x%x)" +:+ nl)
        [KStr (c_string n); KInt (pid q); KInt entry] ;;;
      ret (Some i)
  end.
End Process.
