(* ===== verification/Scheduler.v ===== *)
(** * The scheduler ([kernel/scheduler.c], [boot/context_switch.asm])

    Round robin over the process table, the swap of kernel stacks, the exit of a kernel
    thread ([kernel/process.c]) and the handler of the timer interrupt ([kernel/timer.c]),
    which are the two callers of [schedule].

    [regs] of the state holds the registers at the call of [context_switch].  A call that
    switches threads ends with the registers of the other thread: [schedule] returns [true]
    and the code at [eip] runs next; when it returns [false] its caller goes on. *)

From stdpp Require Import base gmap list numbers option strings.
From Stdlib Require Import ZArith Lia.
From S2P Require Import Prelude Machine Pmm Paging HeapList Kheap Vmm Process.

Definition with_esp (v : Z) (c : cpu) : cpu := Cpu (edi c) (esi c) (ebx c) (ebp c) v (eip c).

(** [push] and [pop]. *)
Definition push (v : Z) : M osys unit :=
  c <- get regs ;;
  let sp := esp c -u 4 in
  stw sp v ;;;
  modify (set_regs (with_esp sp c)).

Definition pop : M osys Z :=
  c <- get regs ;;
  v <- ldw (esp c) ;;
  modify (set_regs (with_esp (esp c +u 4) c)) ;;;
  ret v.

Definition set_reg (f : cpu -> cpu) : M osys unit := modify (fun s => set_regs (f (regs s)) s).

(** The instructions of [context_switch] before it saves the stack pointer, after the call
    has pushed the return address [ra]. *)
Definition push_frame (ra : Z) : M osys unit :=
  push ra ;;;
  c <- get regs ;;
  push (ebp c) ;;;
  push (ebx c) ;;;
  push (esi c) ;;;
  push (edi c).

(** Its instructions after it has loaded the new stack pointer. *)
Definition pop_frame : M osys unit :=
  v <- pop ;;
  set_reg (fun c => Cpu v (esi c) (ebx c) (ebp c) (esp c) (eip c)) ;;;
  v <- pop ;;
  set_reg (fun c => Cpu (edi c) v (ebx c) (ebp c) (esp c) (eip c)) ;;;
  v <- pop ;;
  set_reg (fun c => Cpu (edi c) (esi c) v (ebp c) (esp c) (eip c)) ;;;
  v <- pop ;;
  set_reg (fun c => Cpu (edi c) (esi c) (ebx c) v (esp c) (eip c)) ;;;
  v <- pop ;;
  set_reg (fun c => Cpu (edi c) (esi c) (ebx c) (ebp c) (esp c) v).

Definition scheduler_init : M osys unit :=
  modify (set_enabled true) ;;;
  o_kprintf ("[SCHEDULER] Round Robin scheduler initialized" +:+ nl) [].

Section Scheduler.
(** The address of the instruction after [schedule]'s call of [context_switch]. *)
Context (ret_schedule : Z).

(** [context_switch(&process_table[old].kernel_esp, new_esp)], the call instruction
    included; the two arguments lie above the return address. *)
Definition context_switch (old : nat) (new_esp : Z) : M osys unit :=
  push_frame ret_schedule ;;;
  sp <- get (fun s => esp (regs s)) ;;
  wr_proc old (set_esp sp) ;;;
  set_reg (with_esp new_esp) ;;;
  pop_frame.

(** The two searches of [schedule]. *)
Definition find_slot (current : nat) : M osys (option nat) :=
  scan_table (fun i =>
    p <- process_get_by_slot (Z.of_nat i) ;; ret (bool_decide (p = Some current))).

Definition slot_after (current_slot i : nat) : nat :=
  Z.to_nat (Z.rem (Z.of_nat current_slot + Z.of_nat i) MAX_PROCESSES).

Definition find_next (current_slot : nat) : M osys (option nat) :=
  i <- scan_table (fun i =>
    proc <- process_get_by_slot (Z.of_nat (slot_after current_slot i)) ;;
    match proc with
    | None => ret false
    | Some p => x <- rd_proc p ;; ret (bool_decide (state x = PROCESS_READY))
    end) ;;
  ret (slot_after current_slot <$> i).

Definition deref_proc (p : option nat) : M osys nat :=
  match p with Some i => ret i | None => stop_with (PageFault 0) end.

(** The rest of [schedule] once the next slot is known. *)
Definition switch_to (current next_slot : nat) : M osys unit :=
  nx <- process_get_by_slot (Z.of_nat next_slot) ;;
  cur <- rd_proc current ;;
  when (bool_decide (state cur = PROCESS_RUNNING)) (wr_proc current (set_state PROCESS_READY)) ;;;
  next <- deref_proc nx ;;
  wr_proc next (set_state PROCESS_RUNNING) ;;;
  process_set_current (Some next) ;;;
  n <- rd_proc next ;;
  c <- rd_proc current ;;
  when (negb (p_directory n =? p_directory c))
    (zoom o_lens (vmm_switch_address_space (address_space n))) ;;;
  n <- rd_proc next ;;
  context_switch current (kernel_esp n).

Definition schedule : M osys bool :=
  enabled <- get scheduler_enabled ;;
  if negb enabled then ret false else
  cur <- process_current ;;
  match cur with
  | None => ret false
  | Some current =>
      slot <- find_slot current ;;
      match slot with
      | None => ret false
      | Some current_slot =>
          next <- find_next current_slot ;;
          match next with
          | None => ret false
          | Some next_slot => switch_to current next_slot ;;; ret true
          end
      end
  end.

(** [kthread_exit]: after a switch this thread does not run again; without one it halts. *)
Definition kthread_exit : M osys unit :=
  o_hw (emit Cli) ;;;
  cur <- process_current ;;
  match cur with
  | None => ret tt
  | Some i =>
      p <- rd_proc i ;;
      o_kprintf ("[KTHREAD] '%s' (PID %u) exited" +:+ nl) [KStr (c_string (name p)); KInt (pid p)] ;;;
      wr_proc i (set_state PROCESS_ZOMBIE)
  end ;;;
  switched <- schedule ;;
  if switched : bool then ret tt else stop_with Halted.

Definition timer_handler : M osys bool :=
  t <- get timer_ticks ;;
  modify (set_ticks (t +u 1)) ;;;
  o_hw (outb 0x20 0x20) ;;;
  schedule.
End Scheduler.

Definition timer_get_ticks : M osys Z := get timer_ticks.
