(* ===== verification/SchedInv.v ===== *)
(** * The scheduler against its memory and its table

    The round robin of [kernel/scheduler.c] as a choice on the list of process states, the
    searches of the code as that choice, and the swap of stacks as a save and a restore of
    registers. *)

From stdpp Require Import base gmap list numbers option strings.
From Stdlib Require Import ZArith Lia.
From S2P Require Import Prelude Machine Pmm Paging HeapList Kheap Vmm Process Scheduler.

#[local] Open Scope nat_scope.

(** ** Searching *)

(** The smallest [i < n] with [f i]. *)
Fixpoint first_below (f : nat -> bool) (n : nat) : option nat :=
  match n with
  | O => None
  | S m => match first_below f m with
           | Some i => Some i
           | None => if f m then Some m else None
           end
  end.

Lemma first_below_none f n : first_below f n = None <-> forall i, i < n -> f i = false.
Proof.
  induction n as [|n IH]; cbn; [split; [lia|done]|].
  destruct (first_below f n) as [i|] eqn:E.
  - split; [done|]. intros H. destruct IH as [_ IH]. discriminate IH. intros j Hj. apply H. lia.
  - destruct IH as [IH _]. specialize (IH eq_refl). destruct (f n) eqn:Ef.
    + split; [done|]. intros H. rewrite H in Ef by lia. done.
    + split; [|done]. intros _ i Hi. destruct (decide (i = n)) as [->|]; [done|]. apply IH. lia.
Qed.

Lemma first_below_some f n i :
  first_below f n = Some i <-> i < n /\ f i = true /\ forall j, j < i -> f j = false.
Proof.
  induction n as [|n IH]; cbn; [split; [done|lia]|].
  destruct (first_below f n) as [k|] eqn:E.
  - rewrite IH. split; [intros (? & ? & ?); split_and!; [lia|done|done]|].
    intros (Hi & Hf & Hlt). destruct IH as [IH _].
    destruct (decide (i = n)) as [->|]; [|split_and!; [lia|done|done]].
    enough (first_below f n = None) as E2 by (rewrite E2 in E; done).
    by apply first_below_none.
  - pose proof (proj1 (first_below_none f n) E) as Hn. destruct (f n) eqn:Ef.
    + split; [intros [= <-]; split_and!; [lia|done|done]|]. intros (Hi & Hf & Hlt).
      destruct (decide (i = n)) as [->|]; [done|]. rewrite Hn in Hf by lia. done.
    + split; [done|]. intros (Hi & Hf & _).
      destruct (decide (i = n)) as [->|]; [congruence|]. rewrite Hn in Hf by lia. done.
Qed.

Lemma first_below_ext f g n : (forall i, i < n -> f i = g i) -> first_below f n = first_below g n.
Proof.
  induction n as [|n IH]; intros H; cbn; [done|].
  rewrite IH by (intros; apply H; lia). by rewrite H by lia.
Qed.

(** ** Round robin *)

Definition ready (ss : list process_state) (j : nat) : bool :=
  bool_decide (ss !! j = Some PROCESS_READY).

(** How many slots [j] comes after [c] on the circle. *)
Definition dist (c j : nat) : nat := (j + 64 - c) mod 64.

(** The first slot from [c] on, on the circle, that is READY. *)
Definition rr_next (ss : list process_state) (c : nat) : option nat :=
  (fun i => (c + i) mod 64) <$> first_below (fun i => ready ss ((c + i) mod 64)) 64.

Lemma dist_after c i : c < 64 -> i < 64 -> dist c ((c + i) mod 64) = i.
Proof.
  intros. unfold dist. destruct (decide (c + i < 64)).
  - rewrite (Nat.mod_small (c + i)) by lia. replace (c + i + 64 - c) with (i + 1 * 64) by lia.
    rewrite Nat.Div0.mod_add. by apply Nat.mod_small.
  - replace (c + i) with (c + i - 64 + 1 * 64) at 1 by lia. rewrite Nat.Div0.mod_add.
    rewrite (Nat.mod_small (c + i - 64)) by lia.
    replace (c + i - 64 + 64 - c) with i by lia. by apply Nat.mod_small.
Qed.

Lemma after_dist c j : c < 64 -> j < 64 -> (c + dist c j) mod 64 = j.
Proof.
  intros. unfold dist. rewrite Nat.Div0.add_mod_idemp_r.
  replace (c + (j + 64 - c)) with (j + 1 * 64) by lia. rewrite Nat.Div0.mod_add.
  by apply Nat.mod_small.
Qed.

Lemma dist_lt c j : dist c j < 64.
Proof. unfold dist. apply Nat.mod_upper_bound. lia. Qed.

Lemma rr_next_none ss c : c < 64 -> length ss = 64 ->
  rr_next ss c = None <-> forall j, ss !! j <> Some PROCESS_READY.
Proof.
  intros Hc Hl. unfold rr_next. rewrite fmap_None, first_below_none. split.
  - intros H j Hj. assert (j < 64) by (rewrite <-Hl; by eapply lookup_lt_Some).
    specialize (H (dist c j) (dist_lt c j)). rewrite after_dist in H by done.
    unfold ready in H. by apply bool_decide_eq_false in H.
  - intros H i Hi. unfold ready. by apply bool_decide_eq_false.
Qed.

Lemma rr_next_some ss c n : c < 64 -> length ss = 64 ->
  rr_next ss c = Some n <-> ss !! n = Some PROCESS_READY /\
    forall j, ss !! j = Some PROCESS_READY -> dist c n <= dist c j.
Proof.
  intros Hc Hl. unfold rr_next. rewrite fmap_Some. unfold ready. split.
  - intros (i & Hi & ->). apply first_below_some in Hi as (Hi & Hr & Hlt).
    apply bool_decide_eq_true in Hr. split; [done|]. intros j Hj. rewrite dist_after by done.
    assert (j < 64) by (rewrite <-Hl; by eapply lookup_lt_Some).
    destruct (decide (dist c j < i)) as [Hd|]; [|lia]. specialize (Hlt _ Hd).
    rewrite after_dist in Hlt by done. by apply bool_decide_eq_false in Hlt.
  - intros [Hn Hmin]. assert (n < 64) by (rewrite <-Hl; by eapply lookup_lt_Some).
    exists (dist c n). rewrite after_dist by done. split; [|done].
    apply first_below_some. split; [apply dist_lt|]. rewrite after_dist by done.
    split; [by apply bool_decide_eq_true|]. intros j Hj. apply bool_decide_eq_false. intros Hr.
    specialize (Hmin _ Hr). rewrite dist_after in Hmin; pose proof (dist_lt c n); lia.
Qed.

(** Moving to a slot that is nearer brings a third one nearer by that much. *)
Lemma dist_step c n j : c < 64 -> n < 64 -> j < 64 -> dist c n <= dist c j ->
  dist n j = dist c j - dist c n.
Proof.
  intros Hc Hn Hj Hle. pose proof (dist_lt c n). pose proof (dist_lt c j).
  rewrite <-(after_dist c j Hc Hj) at 1. rewrite <-(after_dist c n Hc Hn) at 1.
  set (a := dist c n) in *. set (b := dist c j) in *.
  replace (c + b) with (c + a + (b - a)) by lia.
  rewrite <-(Nat.Div0.add_mod_idemp_l (c + a)).
  apply dist_after; [apply Nat.mod_upper_bound; lia|lia].
Qed.

(** ** The searches of the code *)

Definition states (s : osys) : list process_state := state <$> process_table s.
Definition table_ok (s : osys) : Prop := length (process_table s) = 64.

Lemma states_length s : table_ok s -> length (states s) = 64.
Proof. intros H. unfold states. by rewrite length_fmap. Qed.

Lemma rd_proc_run i p s : process_table s !! i = Some p -> rd_proc i s = Ok p s.
Proof. intros H. unfold rd_proc. by rewrite H. Qed.

Lemma wr_proc_run i f p s : process_table s !! i = Some p ->
  wr_proc i f s = Ok tt (set_table (<[i := f p]> (process_table s)) s).
Proof. intros H. unfold wr_proc. by rewrite H. Qed.

Lemma wp_rd_proc i p s (Q : pcb -> osys -> Prop) E :
  process_table s !! i = Some p -> Q p s -> wpe (rd_proc i) s Q E.
Proof. intros H HQ. eapply wp_eq; [by apply rd_proc_run|done]. Qed.

Lemma wp_wr_proc i f p s (Q : unit -> osys -> Prop) E :
  process_table s !! i = Some p -> Q tt (set_table (<[i := f p]> (process_table s)) s) ->
  wpe (wr_proc i f) s Q E.
Proof. intros H HQ. eapply wp_eq; [by eapply wr_proc_run|done]. Qed.

Lemma wp_scan_table cond f s (Q : option nat -> osys -> Prop) E :
  (forall i, i < 64 -> cond i s = Ok (f i) s) -> Q (first_below f 64) s ->
  wpe (scan_table cond) s Q E.
Proof.
  intros Hc HQ. unfold scan_table.
  apply (wp_loop _ (fun i s' => s' = s /\ (0 <= i <= 64)%Z /\ first_below f (Z.to_nat i) = None)
           (fun i _ => 64 - i)%Z); [|split_and!; [done|lia|lia|done]|lia].
  intros i ? (-> & Hi & Hnone). unfold MAX_PROCESSES. wp_step; bools.
  - wp_step. eapply wp_eq; [apply Hc; lia|]. wp_step. unfold loop_post.
    destruct (f (Z.to_nat i)) eqn:Ef.
    + replace (first_below f 64) with (Some (Z.to_nat i)) in HQ; [exact HQ|]. symmetry.
      apply first_below_some. split; [lia|]. split; [done|]. by apply first_below_none.
    + split; [|lia]. split; [done|]. split; [lia|]. replace (Z.to_nat (i + 1)) with (S (Z.to_nat i)) by lia.
      cbn. by rewrite Hnone, Ef.
  - wp_step. unfold loop_post. replace (Z.to_nat i) with 64 in Hnone by lia. by rewrite Hnone in HQ.
Qed.

Definition used (s : osys) (i : nat) : Prop :=
  exists p, process_table s !! i = Some p /\ state p <> PROCESS_UNUSED.

Lemma used_lt s i : table_ok s -> used s i -> i < 64.
Proof. intros Hl (p & Hp & _). rewrite <-Hl. by eapply lookup_lt_Some. Qed.

Lemma table_lookup s i : table_ok s -> i < 64 -> exists p, process_table s !! i = Some p.
Proof. intros Hl Hi. apply lookup_lt_is_Some_2. rewrite Hl. lia. Qed.

Lemma get_by_slot_run s i p : table_ok s -> process_table s !! i = Some p ->
  process_get_by_slot (Z.of_nat i) s =
  Ok (if bool_decide (state p = PROCESS_UNUSED) then None else Some i) s.
Proof.
  intros Hl Hp. assert (i < 64) by (rewrite <-Hl; by eapply lookup_lt_Some).
  unfold process_get_by_slot, MAX_PROCESSES.
  rewrite (proj2 (Z.ltb_ge (Z.of_nat i) 0)), (proj2 (Z.leb_gt 64 (Z.of_nat i))) by lia.
  cbn [orb]. unfold bind. rewrite Nat2Z.id, (rd_proc_run i p) by done. done.
Qed.

Lemma wp_find_slot s c (Q : option nat -> osys -> Prop) E : table_ok s -> used s c ->
  Q (Some c) s -> wpe (find_slot c) s Q E.
Proof.
  intros Hl Hu HQ. pose proof (used_lt s c Hl Hu). unfold find_slot.
  apply (wp_scan_table _ (fun i => bool_decide (i = c))).
  - intros i Hi. destruct (table_lookup s i Hl Hi) as [p Hp]. unfold bind.
    rewrite (get_by_slot_run s i p) by done. unfold ret. f_equal. apply bool_decide_ext.
    case_bool_decide as Hs; [|by split; [intros [= ->]|intros ->]]. split; [done|]. intros ->.
    destruct Hu as (q & Hq & Hne). congruence.
  - replace (first_below _ 64) with (Some c); [exact HQ|]. symmetry.
    apply first_below_some. split; [done|]. split; [by apply bool_decide_eq_true|].
    intros j Hj. apply bool_decide_eq_false. lia.
Qed.

Lemma slot_after_mod c i : slot_after c i = (c + i) mod 64.
Proof.
  unfold slot_after, MAX_PROCESSES. rewrite <-Nat2Z.inj_add.
  rewrite Z.rem_mod_nonneg by lia. change 64%Z with (Z.of_nat 64).
  by rewrite <-Nat2Z.inj_mod, Nat2Z.id.
Qed.

Lemma wp_find_next s c (Q : option nat -> osys -> Prop) E : table_ok s ->
  Q (rr_next (states s) c) s -> wpe (find_next c) s Q E.
Proof.
  intros Hl HQ. unfold find_next. wp_step.
  apply (wp_scan_table _ (fun i => ready (states s) ((c + i) mod 64))).
  - intros i Hi. rewrite slot_after_mod. set (j := (c + i) mod 64).
    assert (j < 64) as Hj by (apply Nat.mod_upper_bound; lia).
    destruct (table_lookup s j Hl Hj) as [p Hp]. unfold bind.
    rewrite (get_by_slot_run s j p) by done. unfold ready, states. rewrite list_lookup_fmap, Hp. cbn.
    case_bool_decide as Hs.
    + unfold ret. f_equal. symmetry. apply bool_decide_eq_false. congruence.
    + rewrite (rd_proc_run j p) by done. unfold ret. f_equal. apply bool_decide_ext. split; congruence.
  - wp_step. unfold rr_next in HQ. destruct (first_below _ 64) as [i|]; cbn in *; [|exact HQ].
    rewrite slot_after_mod. exact HQ.
Qed.

(** ** The swap of stacks *)

#[local] Open Scope Z_scope.

(** The part of the state that holds memory, and a state with memory and registers
    replaced. *)
Definition hs (s : osys) : hsys := v_h (o_v s).
Definition cfg (h : hsys) (c : cpu) (s : osys) : osys :=
  set_regs c (update o_lens (update v_lens h (o_v s)) s).

Lemma cfg_same s : cfg (hs s) (regs s) s = s.
Proof. by destruct s as [[]]. Qed.

Definition cpu32 (c : cpu) : Prop := is32 (edi c) /\ is32 (esi c) /\ is32 (ebx c) /\ is32 (ebp c).

Section Switch.
Context {WL : WordMemLaws hsys}.

(** The words [context_switch] pops when it is given [sp]: four registers and the address
    it returns to. *)
Record frame_at (h : hsys) (sp : Z) (c : cpu) (ra : Z) : Prop := {
  fr_range : 0 <= sp /\ sp + 20 < 4294967296;
  fr_valid : forall k, 0 <= k < 5 -> valid h (sp + 4 * k);
  fr_edi : rd h sp = edi c;
  fr_esi : rd h (sp + 4) = esi c;
  fr_ebx : rd h (sp + 8) = ebx c;
  fr_ebp : rd h (sp + 12) = ebp c;
  fr_ret : rd h (sp + 16) = ra;
}.

(** Five words can be pushed below [sp]. *)
Definition stack_room (h : hsys) (sp : Z) : Prop :=
  20 <= sp < 4294967296 /\ forall k, 0 <= k < 5 -> valid h (sp - 20 + 4 * k).

(** The stores of [context_switch] at [sp], the latest first. *)
Definition pushed (sp : Z) (c : cpu) (ra : Z) : list (Z * Z) :=
  [(sp - 20, edi c); (sp - 16, esi c); (sp - 12, ebx c); (sp - 8, ebp c); (sp - 4, ra)].

Lemma wp_push h0 ws h c s v (Q : unit -> osys -> Prop) E : writes h0 ws h ->
  4 <= esp c < 4294967296 -> valid h0 (esp c - 4) -> is32 v ->
  (forall h', writes h0 ((esp c - 4, v) :: ws) h' -> Q tt (cfg h' (with_esp (esp c - 4) c) s)) ->
  wpe (push v) (cfg h c s) Q E.
Proof.
  intros Hw Hsp Hv H32 HQ. unfold push. wp_step. wp_step. cbn [regs cfg set_regs].
  rewrite u32_small by (unfold is32; lia). cbv zeta. wp_step. cbn [stw stack_mem]. wp_step. wp_step.
  apply (wp_write h0 ws h); [exact Hw|done|done|]. intros h' Hw'. wp_step. by apply HQ.
Qed.

Lemma wp_pop h0 ws h c s (Q : Z -> osys -> Prop) E : writes h0 ws h ->
  0 <= esp c < 4294967292 -> valid h0 (esp c) ->
  Q (over ws (esp c) (rd h0 (esp c))) (cfg h (with_esp (esp c + 4) c) s) ->
  wpe pop (cfg h c s) Q E.
Proof.
  intros Hw Hsp Hv HQ. unfold pop. wp_step. wp_step. cbn [regs cfg set_regs].
  wp_step. cbn [ldw stack_mem]. wp_step. wp_step.
  apply (wp_read h0 ws h); [exact Hw|done|]. wp_step. wp_step.
  rewrite u32_small by (unfold is32; lia). by wp_step.
Qed.

Lemma frame_word h sp c ra k v : frame_at h sp c ra -> (0 <= k < 5) ->
  rd h (sp + 4 * k) = v -> forall ws h', writes h ws h' ->
  Forall (fun w => w.1 + 4 <= sp \/ sp + 20 <= w.1) ws ->
  valid h (sp + 4 * k) /\ over ws (sp + 4 * k) (rd h (sp + 4 * k)) = v.
Proof.
  intros Hf Hk Hv ws h' Hw Hout. split; [by apply Hf|]. rewrite over_out; [done|].
  eapply Forall_impl; [exact Hout|]. cbn. lia.
Qed.

(** Stores elsewhere keep a saved frame. *)
Lemma frame_writes h ws h' sp c ra : frame_at h sp c ra -> writes h ws h' ->
  Forall (fun w => w.1 + 4 <= sp \/ sp + 20 <= w.1) ws -> frame_at h' sp c ra.
Proof.
  intros Hf Hw Hout. pose proof Hf as [Hr Hv E0 E1 E2 E3 E4].
  assert (forall k v, 0 <= k < 5 -> rd h (sp + 4 * k) = v -> rd h' (sp + 4 * k) = v) as Hk.
  { intros k v Hk Hrd. destruct (frame_word _ _ _ _ _ _ Hf Hk Hrd _ _ Hw Hout) as [Hva Ho].
    by rewrite (wr_rd _ _ _ Hw). }
  split; [done| | |by apply (Hk 1)|by apply (Hk 2)|by apply (Hk 3)|by apply (Hk 4)].
  - intros k Hkr. apply (wr_valid _ _ _ Hw). by apply Hv.
  - specialize (Hk 0 (edi c)). rewrite Z.add_0_r in Hk. by apply Hk.
Qed.

(** What was pushed is a frame. *)
Lemma frame_pushed h ws h' sp c ra : stack_room h sp -> writes h (pushed sp c ra ++ ws) h' ->
  frame_at h' (sp - 20) c ra.
Proof.
  intros [Hr Hv] Hw.
  assert (forall k v, 0 <= k < 5 -> over (pushed sp c ra ++ ws) (sp - 20 + 4 * k) (rd h (sp - 20 + 4 * k)) = v ->
            rd h' (sp - 20 + 4 * k) = v) as Hk.
  { intros k v Hkr Ho. rewrite (wr_rd _ _ _ Hw) by (by apply Hv). done. }
  assert (forall k v, 0 <= k < 5 -> (pushed sp c ra).*2 !! Z.to_nat k = Some v ->
            rd h' (sp - 20 + 4 * k) = v) as Hk'.
  { intros k v Hkr Hl. apply Hk; [done|].
    assert (k = 0 \/ k = 1 \/ k = 2 \/ k = 3 \/ k = 4) as Hcases by lia. unfold pushed in *.
    destruct Hcases as [->|[->|[->|[->| ->]]]]; injection Hl as <-; cbn [over app];
      repeat case_decide; try done; lia. }
  split; [lia| | | | | |].
  - intros k Hkr. apply (wr_valid _ _ _ Hw). by apply Hv.
  - specialize (Hk' 0 (edi c)). rewrite Z.add_0_r in Hk'. apply Hk'; done.
  - apply (Hk' 1); done.
  - apply (Hk' 2); done.
  - apply (Hk' 3); done.
  - apply (Hk' 4); done.
Qed.

(** The registers after returning through a frame. *)
Definition resumed (sp : Z) (c : cpu) (ra : Z) : cpu := Cpu (edi c) (esi c) (ebx c) (ebp c) (sp + 20) ra.

Lemma wp_push_frame ra s (Q : unit -> osys -> Prop) E :
  stack_room (hs s) (esp (regs s)) -> cpu32 (regs s) -> is32 ra ->
  (forall h', writes (hs s) (pushed (esp (regs s)) (regs s) ra) h' ->
     Q tt (cfg h' (with_esp (esp (regs s) - 20) (regs s)) s)) ->
  wpe (push_frame ra) s Q E.
Proof.
  intros [Hr Hv] (H1 & H2 & H3 & H4) Hra HQ.
  rewrite <-(cfg_same s) at 1. set (c := regs s) in *. set (sp := esp c) in *. unfold push_frame.
  assert (forall k, 0 <= k < 5 -> valid (hs s) (sp - 4 * (k + 1))) as Hv'.
  { intros k Hk. replace (sp - 4 * (k + 1)) with (sp - 20 + 4 * (4 - k)) by lia. apply Hv. lia. }
  wp_step. apply (wp_push (hs s) [] (hs s)); [apply writes_nil|lia|by apply (Hv' 0)|done|]. intros h1 W1.
  fold sp in W1 |- *.
  do 2 wp_step. cbn [regs cfg set_regs with_esp ebp ebx esi edi].
  wp_step. eapply (wp_push (hs s) _ h1); [exact W1|cbn; lia| |done|]; cbn [esp with_esp].
  { replace (sp - 4 - 4) with (sp - 4 * (1 + 1)) by lia. by apply Hv'. } intros h2 W2.
  wp_step. eapply (wp_push (hs s) _ h2); [exact W2|cbn; lia| |done|]; cbn [esp with_esp].
  { replace (sp - 4 - 4 - 4) with (sp - 4 * (2 + 1)) by lia. by apply Hv'. } intros h3 W3.
  wp_step. eapply (wp_push (hs s) _ h3); [exact W3|cbn; lia| |done|]; cbn [esp with_esp].
  { replace (sp - 4 - 4 - 4 - 4) with (sp - 4 * (3 + 1)) by lia. by apply Hv'. } intros h4 W4.
  eapply (wp_push (hs s) _ h4); [exact W4|cbn; lia| |done|]; cbn [esp with_esp].
  { replace (sp - 4 - 4 - 4 - 4 - 4) with (sp - 4 * (4 + 1)) by lia. by apply Hv'. } intros h5 W5.
  unfold pushed in HQ. specialize (HQ h5).
  replace (sp - 4 - 4 - 4 - 4 - 4) with (sp - 20) in * by lia.
  replace (sp - 4 - 4 - 4 - 4) with (sp - 16) in W5 by lia.
  replace (sp - 4 - 4 - 4) with (sp - 12) in W5 by lia.
  replace (sp - 4 - 4) with (sp - 8) in W5 by lia. exact (HQ W5).
Qed.

Lemma wp_pop_frame h c sp c' ra s (Q : unit -> osys -> Prop) E :
  frame_at h sp c' ra -> esp c = sp -> Q tt (cfg h (resumed sp c' ra) s) ->
  wpe pop_frame (cfg h c s) Q E.
Proof.
  intros [Hr Hv E0 E1 E2 E3 E4] Hsp HQ. unfold pop_frame, set_reg.
  pose proof (Hv 0 ltac:(lia)) as V0. rewrite Z.add_0_r in V0.
  pose proof (Hv 1 ltac:(lia)) as V1. pose proof (Hv 2 ltac:(lia)) as V2.
  pose proof (Hv 3 ltac:(lia)) as V3. pose proof (Hv 4 ltac:(lia)) as V4.
  wp_step. apply (wp_pop h [] h); [apply writes_nil|lia|by rewrite Hsp|]. rewrite Hsp. cbn [over].
  rewrite E0. do 2 wp_step.
  wp_step. apply (wp_pop h [] h); [apply writes_nil|cbn; lia|done|]. cbn [over esp with_esp regs cfg set_regs].
  rewrite E1. do 2 wp_step.
  wp_step. apply (wp_pop h [] h); [apply writes_nil|cbn; lia|cbn|].
  { by replace (sp + 4 + 4) with (sp + 4 * 2) by lia. }
  cbn [over esp with_esp regs cfg set_regs]. replace (sp + 4 + 4) with (sp + 8) by lia. rewrite E2. do 2 wp_step.
  wp_step. apply (wp_pop h [] h); [apply writes_nil|cbn; lia|cbn|].
  { by replace (sp + 8 + 4) with (sp + 4 * 3) by lia. }
  cbn [over esp with_esp regs cfg set_regs]. replace (sp + 8 + 4) with (sp + 12) by lia. rewrite E3. do 2 wp_step.
  wp_step. apply (wp_pop h [] h); [apply writes_nil|cbn; lia|cbn|].
  { by replace (sp + 12 + 4) with (sp + 4 * 4) by lia. }
  cbn [over esp with_esp regs cfg set_regs]. replace (sp + 12 + 4) with (sp + 16) by lia. rewrite E4. wp_step.
  cbn [esp with_esp regs cfg set_regs edi esi ebx ebp eip]. unfold resumed in HQ.
  replace (sp + 16 + 4) with (sp + 20) by lia. exact HQ.
Qed.

(** [context_switch] saves the registers and the return address below the stack pointer,
    saves the stack pointer in the old block and resumes what the new one saved. *)
Lemma wp_context_switch ra old new_esp c' ra' p s (Q : unit -> osys -> Prop) E :
  process_table s !! old = Some p -> cpu32 (regs s) -> is32 ra ->
  stack_room (hs s) (esp (regs s)) -> frame_at (hs s) new_esp c' ra' ->
  new_esp + 20 <= esp (regs s) - 20 \/ esp (regs s) <= new_esp ->
  (forall h', writes (hs s) (pushed (esp (regs s)) (regs s) ra) h' ->
     Q tt (cfg h' (resumed new_esp c' ra')
             (set_table (<[old := set_esp (esp (regs s) - 20) p]> (process_table s)) s))) ->
  wpe (context_switch ra old new_esp) s Q E.
Proof.
  intros Hp Hc Hra Hroom Hf Hdis HQ.
  unfold context_switch.
  wp_step. apply wp_push_frame; [done|done|done|]. intros h' W. do 2 wp_step.
  wp_step. eapply wp_wr_proc; [exact Hp|]. unfold set_reg. wp_step. wp_step.
  match goal with |- wpe _ ?x _ _ => change x with
    (cfg h' (with_esp new_esp (with_esp (esp (regs s) - 20) (regs s)))
       (set_table (<[old := set_esp (esp (regs s) - 20) p]> (process_table s)) s)) end.
  apply (wp_pop_frame h' _ new_esp c' ra').
  - eapply frame_writes; [exact Hf|exact W|]. unfold pushed.
    destruct Hroom as [Hr _]. repeat (apply Forall_cons; split; [cbn; lia|]). done.
  - done.
  - exact (HQ h' W).
Qed.
End Switch.

(** ** Partial correctness

    Whatever lower layers and the stack hold, an operation that returns leaves the table
    as it says. *)

Definition anything (e : stop) (s : osys) : Prop := True.

(** A state whose memory and registers are not known. *)
Definition blur (v : vsys) (r : cpu) (s : osys) : osys := set_regs r (update o_lens v s).

Lemma pwp_lower {A} (m : M vsys A) s (Q : A -> osys -> Prop) :
  (forall a v, Q a (blur v (regs s) s)) -> wpe (zoom o_lens m) s Q anything.
Proof.
  intros H. unfold wpe, zoom. destruct (m _) as [a v|e v]; [exact (H a v)|done].
Qed.

Lemma pwp_push x s (Q : unit -> osys -> Prop) :
  (forall v r, Q tt (blur v r s)) -> wpe (push x) s Q anything.
Proof.
  intros H. unfold push. wp_step. wp_step. cbv zeta. wp_step. cbn [stw stack_mem].
  apply pwp_lower. intros [] v. wp_step. exact (H v _).
Qed.

Lemma pwp_pop s (Q : Z -> osys -> Prop) :
  (forall x v r, Q x (blur v r s)) -> wpe pop s Q anything.
Proof.
  intros H. unfold pop. wp_step. wp_step. wp_step. cbn [ldw stack_mem].
  apply pwp_lower. intros x v. wp_step. wp_step. wp_step. exact (H x v _).
Qed.

Lemma pwp_push_frame ra s (Q : unit -> osys -> Prop) :
  (forall v r, Q tt (blur v r s)) -> wpe (push_frame ra) s Q anything.
Proof.
  intros H. unfold push_frame. wp_step. apply pwp_push. intros. wp_step. wp_step.
  do 3 (wp_step; apply pwp_push; intros). apply pwp_push. intros v' r'. exact (H v' r').
Qed.

Lemma pwp_pop_frame s (Q : unit -> osys -> Prop) :
  (forall v r, Q tt (blur v r s)) -> wpe pop_frame s Q anything.
Proof.
  intros H. unfold pop_frame, set_reg. do 4 (wp_step; apply pwp_pop; intros; wp_step; wp_step).
  wp_step. apply pwp_pop. intros x5 v' r'. wp_step. exact (H v' _).
Qed.

Lemma wp_wr_alter i f s (Q : unit -> osys -> Prop) E :
  (i < length (process_table s))%nat -> Q tt (set_table (alter f i (process_table s)) s) ->
  wpe (wr_proc i f) s Q E.
Proof.
  intros Hi HQ. destruct (lookup_lt_is_Some_2 _ _ Hi) as [p Hp]. eapply wp_wr_proc; [exact Hp|].
  replace (<[i := f p]> _) with (alter f i (process_table s)); [exact HQ|].
  apply list_eq. intros j. destruct (decide (i = j)) as [<-|Hne].
  - rewrite list_lookup_alter_eq, list_lookup_insert_eq by done. by rewrite Hp.
  - by rewrite list_lookup_alter_ne, list_lookup_insert_ne by done.
Qed.

Lemma pwp_context_switch ra old new_esp s (Q : unit -> osys -> Prop) :
  (old < length (process_table s))%nat ->
  (forall v r sp, Q tt (blur v r (set_table (alter (set_esp sp) old (process_table s)) s))) ->
  wpe (context_switch ra old new_esp) s Q anything.
Proof.
  intros Hp HQ. unfold context_switch, set_reg. wp_step. apply pwp_push_frame. intros v r.
  do 2 wp_step. wp_step. apply wp_wr_alter; [exact Hp|]. do 2 wp_step. apply pwp_pop_frame.
  intros v' r'. exact (HQ v' r' _).
Qed.

(** ** The change of the table by a switch *)

Definition demote (p : pcb) : pcb :=
  if bool_decide (state p = PROCESS_RUNNING) then set_state PROCESS_READY p else p.

Definition dispatch (c n : nat) (t : list pcb) : list pcb :=
  alter (set_state PROCESS_RUNNING) n (alter demote c t).

Lemma length_dispatch c n t : length (dispatch c n t) = length t.
Proof. unfold dispatch. by rewrite !length_alter. Qed.

Lemma set_table_table s : set_table (process_table s) s = s.
Proof. by destruct s. Qed.

(** [switch_to] on a table where the next slot is READY and no directory is changed. *)
Lemma wp_switch_to ra c n pc pn s (Q : unit -> osys -> Prop) E :
  table_ok s -> process_table s !! c = Some pc -> process_table s !! n = Some pn -> c <> n ->
  state pn = PROCESS_READY -> p_directory pn = p_directory pc ->
  wpe (context_switch ra c (kernel_esp pn))
      (set_current_process (Some n) (set_table (dispatch c n (process_table s)) s)) Q E ->
  wpe (switch_to ra c n) s Q E.
Proof.
  intros Hl Hc Hn Hne Hr Hd HQ. unfold switch_to. wp_step.
  eapply wp_eq; [by apply (get_by_slot_run s n pn)|]. rewrite bool_decide_eq_false_2 by congruence.
  wp_step. eapply wp_rd_proc; [exact Hc|]. wp_step.
  apply (wp_mono _ _ _ (fun _ s' => s' = set_table (alter demote c (process_table s)) s)).
  { apply wp_when; unfold demote; intros Hst.
    - eapply wp_wr_proc; [exact Hc|]. f_equal. apply list_eq. intros j.
      destruct (decide (c = j)) as [<-|Hj].
      + rewrite list_lookup_alter_eq, Hc, list_lookup_insert_eq by (by eapply lookup_lt_Some).
        cbn. by rewrite Hst.
      + by rewrite list_lookup_alter_ne, list_lookup_insert_ne by done.
    - rewrite <-(set_table_table s) at 1. f_equal. apply list_eq. intros j.
      destruct (decide (c = j)) as [<-|Hj].
      + rewrite list_lookup_alter_eq, Hc. cbn. by rewrite Hst.
      + by rewrite list_lookup_alter_ne by done. }
  intros [] ? ->. wp_step. unfold deref_proc. wp_step. wp_step. apply wp_wr_alter.
  { cbn. rewrite length_alter. by eapply lookup_lt_Some. }
  wp_step. unfold process_set_current. wp_step. wp_step. cbn [process_table set_table set_current_process].
  assert (dispatch c n (process_table s) !! n = Some (set_state PROCESS_RUNNING pn)) as Hn'.
  { unfold dispatch. by rewrite list_lookup_alter_eq, list_lookup_alter_ne, Hn by done. }
  assert (dispatch c n (process_table s) !! c = Some (demote pc)) as Hc'.
  { unfold dispatch. by rewrite list_lookup_alter_ne, list_lookup_alter_eq, Hc by done. }
  eapply wp_rd_proc; [exact Hn'|]. wp_step. eapply wp_rd_proc; [exact Hc'|]. wp_step.
  assert (p_directory (demote pc) = p_directory pc) as -> by (unfold demote; by case_bool_decide).
  cbn [p_directory set_state]. rewrite Hd, Z.eqb_refl. cbn [negb]. apply wp_when; [done|]. intros _.
  wp_step. eapply wp_rd_proc; [exact Hn'|]. exact HQ.
Qed.
