(* ===== verification/ProcInv.v ===== *)
(** * The process table under its operations

    The invariant of the table of [kernel/process.c] and what every operation of the
    process and scheduling code does to it, whatever the memory below holds. *)

From stdpp Require Import base gmap list numbers option strings.
From Stdlib Require Import ZArith Lia.
From S2P Require Import Prelude Machine Pmm Paging HeapList Kheap Vmm Terminal Process Scheduler SchedInv.

Section ProcInv.
Context {L : Layout}.

(** ** The invariant

    Only the slot [c] may be RUNNING; process identifiers are distinct and below the
    counter; slot 0 holds PID 0; every process runs in the kernel's directory. *)
Record table_inv (t : list pcb) (np : Z) (c : nat) : Prop := {
  ti_len : length t = 64%nat;
  ti_cur : exists p, t !! c = Some p /\ state p <> PROCESS_UNUSED;
  ti_one : forall j p, t !! j = Some p -> state p = PROCESS_RUNNING -> j = c;
  ti_pid : forall j p, t !! j = Some p -> state p <> PROCESS_UNUSED -> 0 <= pid p < np;
  ti_inj : forall i j p q, t !! i = Some p -> t !! j = Some q -> state p <> PROCESS_UNUSED ->
    state q <> PROCESS_UNUSED -> pid p = pid q -> i = j;
  ti_dir : forall j p, t !! j = Some p -> state p <> PROCESS_UNUSED ->
    p_directory p = paging_get_directory;
  ti_zero : exists p, t !! 0%nat = Some p /\ state p <> PROCESS_UNUSED /\ pid p = 0;
}.

Definition running (t : list pcb) (c : nat) : Prop :=
  exists p, t !! c = Some p /\ state p = PROCESS_RUNNING.

(** Changing a process without changing who it is. *)
Lemma ti_update t np c i f p : table_inv t np c -> t !! i = Some p ->
  state p <> PROCESS_UNUSED -> state (f p) <> PROCESS_UNUSED -> pid (f p) = pid p ->
  p_directory (f p) = p_directory p -> (state (f p) = PROCESS_RUNNING -> i = c) ->
  table_inv (alter f i t) np c.
Proof.
  intros [Hl Hc H1 Hp Hi Hd Hz] Hip Hu Hu' Ep Ed Hr.
  assert (forall j q, alter f i t !! j = Some q -> exists q0, t !! j = Some q0 /\
    pid q = pid q0 /\ p_directory q = p_directory q0 /\
    (state q <> PROCESS_UNUSED -> state q0 <> PROCESS_UNUSED) /\
    (state q0 <> PROCESS_UNUSED -> state q <> PROCESS_UNUSED) /\
    (state q = PROCESS_RUNNING -> j = c)) as Hback.
  { intros j q. rewrite list_lookup_alter. case_decide as E.
    - subst j. rewrite Hip. intros [= <-]. exists p. naive_solver.
    - intros Hq. exists q. naive_solver. }
  assert (forall j q0, t !! j = Some q0 -> exists q, alter f i t !! j = Some q) as Hfwd.
  { intros j q0 Hq. apply lookup_lt_is_Some_2. rewrite length_alter. by eapply lookup_lt_Some. }
  split.
  - by rewrite length_alter.
  - destruct Hc as (pc & Hc & Hcu). destruct (Hfwd _ _ Hc) as [q Hq]. exists q. split; [done|].
    destruct (Hback _ _ Hq) as (q0 & ? & _ & _ & _ & Hb & _). apply Hb. congruence.
  - intros j q Hq. by destruct (Hback _ _ Hq) as (q0 & _ & _ & _ & _ & _ & Hb).
  - intros j q Hq Hqu. destruct (Hback _ _ Hq) as (q0 & Hq0 & -> & _ & Hb & _). eauto.
  - intros a b q1 q2 Hq1 Hq2 Hu1 Hu2 Eq.
    destruct (Hback _ _ Hq1) as (r1 & ? & ? & _ & ? & _), (Hback _ _ Hq2) as (r2 & ? & ? & _ & ? & _).
    eapply Hi; eauto. congruence.
  - intros j q Hq Hqu. destruct (Hback _ _ Hq) as (q0 & Hq0 & _ & -> & Hb & _). eauto.
  - destruct Hz as (p0 & H0 & H0u & E0). destruct (Hfwd _ _ H0) as [q Hq]. exists q. split; [done|].
    destruct (Hback _ _ Hq) as (q0 & ? & -> & _ & _ & Hb & _).
    assert (q0 = p0) as -> by congruence. auto.
Qed.

(** When nothing runs any used slot can become the current one. *)
Lemma ti_move t np c n p : table_inv t np c -> t !! n = Some p -> state p <> PROCESS_UNUSED ->
  (forall q, t !! c = Some q -> state q <> PROCESS_RUNNING) -> table_inv t np n.
Proof.
  intros [Hl Hc H1 Hp Hi Hd Hz] Hn Hu Hnr. split; try done; [by eauto|].
  intros j q Hq Hr. pose proof (H1 _ _ Hq Hr). subst j. by destruct (Hnr _ Hq).
Qed.

(** A new process in an unused slot, under the next identifier. *)
Lemma ti_new t np c i p p' : table_inv t np c -> t !! i = Some p -> state p = PROCESS_UNUSED ->
  0 <= np -> pid p' = np -> state p' = PROCESS_READY -> p_directory p' = paging_get_directory ->
  table_inv (<[i := p']> t) (np + 1) c.
Proof.
  intros [Hl Hc H1 Hp Hi Hd Hz] Hip Hun Hnp Epid Est Edir.
  assert (forall j q, <[i := p']> t !! j = Some q -> (j = i /\ q = p') \/ (j <> i /\ t !! j = Some q)) as Hb.
  { intros j q Hq. apply list_lookup_insert_Some in Hq. naive_solver. }
  assert (forall j q, t !! j = Some q -> state q <> PROCESS_UNUSED -> <[i := p']> t !! j = Some q) as Hf.
  { intros j q Hq Hu. rewrite list_lookup_insert_ne; [done|]. intros ->. congruence. }
  split.
  - by rewrite length_insert.
  - destruct Hc as (pc & ? & ?). eauto.
  - intros j q Hq Hr. destruct (Hb _ _ Hq) as [[-> ->]|[? ?]]; [congruence|eauto].
  - intros j q Hq Hu. destruct (Hb _ _ Hq) as [[-> ->]|[? Hq']]; [lia|].
    pose proof (Hp _ _ Hq' Hu). lia.
  - intros a b q1 q2 Hq1 Hq2 Hu1 Hu2 Eq.
    destruct (Hb _ _ Hq1) as [[-> ->]|[? Hq1']], (Hb _ _ Hq2) as [[-> ->]|[? Hq2']]; [done| | |by eauto].
    + pose proof (Hp _ _ Hq2' Hu2). lia.
    + pose proof (Hp _ _ Hq1' Hu1). lia.
  - intros j q Hq Hu. destruct (Hb _ _ Hq) as [[-> ->]|[? ?]]; [done|eauto].
  - destruct Hz as (p0 & ? & ? & ?). eauto.
Qed.

(** A slot becomes, or stays, unused. *)
Lemma ti_unused t np np' c i p' : table_inv t np c -> np <= np' -> i <> c -> i <> 0%nat ->
  state p' = PROCESS_UNUSED -> table_inv (<[i := p']> t) np' c.
Proof.
  intros [Hl Hc H1 Hp Hi Hd Hz] Hnp Hic Hi0 Hun.
  assert (forall j q, <[i := p']> t !! j = Some q -> state q <> PROCESS_UNUSED ->
            t !! j = Some q) as Hb.
  { intros j q Hq Hu. apply list_lookup_insert_Some in Hq. naive_solver. }
  split.
  - by rewrite length_insert.
  - destruct Hc as (pc & ? & ?). exists pc. by rewrite list_lookup_insert_ne by done.
  - intros j q Hq Hr. eapply H1; [apply Hb; [done|congruence]|done].
  - intros j q Hq Hu. pose proof (Hp _ _ (Hb _ _ Hq Hu) Hu). lia.
  - intros a b q1 q2 Hq1 Hq2 Hu1 Hu2 Eq. eapply Hi; [by apply Hb|by apply Hb|done..].
  - intros j q Hq Hu. eapply Hd; [by apply Hb|done].
  - destruct Hz as (p0 & ? & ? & ?). exists p0. by rewrite list_lookup_insert_ne by done.
Qed.

(** The table after a switch from [c] to [n]. *)
Lemma ti_dispatch t np c n sp pn : table_inv t np c -> t !! n = Some pn -> state pn = PROCESS_READY ->
  c <> n -> table_inv (alter (set_esp sp) c (dispatch c n t)) np n /\
            running (alter (set_esp sp) c (dispatch c n t)) n.
Proof.
  intros Hinv Hn Hr Hne. destruct (ti_cur _ _ _ Hinv) as (pc & Hc & Hcu). unfold dispatch.
  assert (table_inv (alter demote c t) np c) as H1.
  { eapply ti_update; [done|exact Hc|done|..]; unfold demote; case_bool_decide; cbn; done || congruence. }
  assert (alter demote c t !! n = Some pn) as Hn1 by (by rewrite list_lookup_alter_ne).
  assert (alter demote c t !! c = Some (demote pc)) as Hc1 by (by rewrite list_lookup_alter_eq, Hc).
  assert (table_inv (alter demote c t) np n) as H2.
  { eapply ti_move; [done|exact Hn1|congruence|]. intros q. rewrite Hc1. intros [= <-].
    unfold demote. case_bool_decide; cbn; congruence. }
  assert (table_inv (alter (set_state PROCESS_RUNNING) n (alter demote c t)) np n) as H3.
  { eapply ti_update; [done|exact Hn1|congruence|done..]. }
  assert (alter (set_state PROCESS_RUNNING) n (alter demote c t) !! c = Some (demote pc)) as Hc2.
  { by rewrite list_lookup_alter_ne by done. }
  assert (state (demote pc) <> PROCESS_UNUSED /\ state (demote pc) <> PROCESS_RUNNING) as [Hd1 Hd2].
  { unfold demote. case_bool_decide; cbn; [done|]. split; done. }
  split.
  - eapply ti_update; [done|exact Hc2|done..].
  - exists (set_state PROCESS_RUNNING pn). by rewrite list_lookup_alter_ne, list_lookup_alter_eq, Hn1.
Qed.

(** ** Scheduling *)

Definition proc_part (s : osys) : list pcb * Z * option nat * bool :=
  (process_table s, next_pid s, current_process s, scheduler_enabled s).

(** The effect of [schedule] when [c] is the current slot. *)
Definition sched_post (s : osys) (c : nat) (b : bool) (s' : osys) : Prop :=
  if b then exists n sp, rr_next (states s) c = Some n /\
    proc_part s' = (alter (set_esp sp) c (dispatch c n (process_table s)), next_pid s, Some n,
                    scheduler_enabled s)
  else s' = s /\ (scheduler_enabled s = true -> rr_next (states s) c = None).

Lemma rr_next_ready s c n : table_ok s -> (c < 64)%nat -> rr_next (states s) c = Some n ->
  exists pn, process_table s !! n = Some pn /\ state pn = PROCESS_READY.
Proof.
  intros Hl Hc Hn. apply rr_next_some in Hn as [Hn _]; [|done|by apply states_length].
  unfold states in Hn. rewrite list_lookup_fmap in Hn. destruct (process_table s !! n) as [pn|]; [|done].
  exists pn. split; [done|]. by injection Hn.
Qed.

(** [schedule], given what the switch itself does. *)
Lemma wp_schedule ra s c pc (Q : bool -> osys -> Prop) E :
  table_inv (process_table s) (next_pid s) c -> current_process s = Some c ->
  process_table s !! c = Some pc -> state pc <> PROCESS_READY ->
  (scheduler_enabled s = false -> Q false s) ->
  (scheduler_enabled s = true -> rr_next (states s) c = None -> Q false s) ->
  (forall n pn, scheduler_enabled s = true -> rr_next (states s) c = Some n ->
     process_table s !! n = Some pn -> state pn = PROCESS_READY -> c <> n ->
     wpe (context_switch ra c (kernel_esp pn))
         (set_current_process (Some n) (set_table (dispatch c n (process_table s)) s))
         (fun _ s' => Q true s') E) ->
  wpe (schedule ra) s Q E.
Proof.
  intros Hinv Hcur Hc Hst Hoff Hnone Hsome.
  pose proof (ti_len _ _ _ Hinv) as Hl. assert (c < 64)%nat by (rewrite <-Hl; by eapply lookup_lt_Some).
  pose proof (ti_cur _ _ _ Hinv) as Hu. unfold schedule. wp_step. wp_step.
  destruct (scheduler_enabled s) eqn:Een; cbn [negb]; [|wp_step; by apply Hoff].
  wp_step. unfold process_current. wp_step. rewrite Hcur. wp_step.
  apply wp_find_slot; [done|exact Hu|]. wp_step. apply wp_find_next; [done|].
  destruct (rr_next (states s) c) as [n|] eqn:En; [|wp_step; by apply Hnone].
  destruct (rr_next_ready s c n Hl ltac:(done) En) as (pn & Hn & Hr).
  assert (c <> n) as Hne by congruence. wp_step.
  eapply wp_switch_to; [done|exact Hc|exact Hn|done|done| |].
  - rewrite (ti_dir _ _ _ Hinv n pn), (ti_dir _ _ _ Hinv c pc); [done|done| |done|congruence].
    destruct Hu as (q & Hq & ?). congruence.
  - eapply wp_mono; [by apply (Hsome n pn)|]. intros [] s' HQ. by wp_step.
Qed.

Lemma pwp_schedule ra s c pc : table_inv (process_table s) (next_pid s) c ->
  current_process s = Some c -> process_table s !! c = Some pc -> state pc <> PROCESS_READY ->
  wpe (schedule ra) s (sched_post s c) anything.
Proof.
  intros Hinv Hcur Hc Hst. eapply wp_schedule; [done..| | |].
  - intros E. split; [done|]. by rewrite E.
  - intros E En. by split.
  - intros n pn E En Hn Hr Hne. apply pwp_context_switch.
    + cbn. rewrite length_dispatch. by eapply lookup_lt_Some.
    + intros v r sp. exists n, sp. by split.
Qed.

(** ** Invariant of the whole *)

Definition os_inv (s : osys) : Prop :=
  exists c, current_process s = Some c /\ table_inv (process_table s) (next_pid s) c /\
            running (process_table s) c.

Lemma os_inv_part s s' : proc_part s' = proc_part s -> os_inv s -> os_inv s'.
Proof. unfold os_inv, proc_part. intros [= -> -> -> _]. done. Qed.

Lemma sched_post_inv s c b s' : table_inv (process_table s) (next_pid s) c ->
  (c < 64)%nat -> (forall p, process_table s !! c = Some p -> state p <> PROCESS_READY) ->
  sched_post s c b s' ->
  if b then os_inv s' /\ scheduler_enabled s' = scheduler_enabled s else s' = s.
Proof.
  intros Hinv Hlt Hst. destruct b; [|by intros [-> _]]. intros (n & sp & En & Hp).
  destruct (rr_next_ready s c n (ti_len _ _ _ Hinv) Hlt En) as (pn & Hn & Hr).
  assert (c <> n) as Hne by (intros <-; by apply (Hst pn)).
  destruct (ti_dispatch _ _ _ n sp pn Hinv Hn Hr Hne) as [H1 H2].
  unfold proc_part in Hp. injection Hp as E1 E2 E3 E4. split; [|done].
  exists n. by rewrite E1, E2, E3.
Qed.

(** ** Allocation *)

(** The state with its memory replaced, and memory after a message. *)
Definition put (h : hsys) (s : osys) : osys := cfg h (regs s) s.
Definition say (fmt : string) (args : list karg) (h : hsys) : hsys :=
  update h_lens (set_hw (emitted [Kprintf fmt args] (g_hw (h_g h))) (h_g h)) h.

Lemma wp_o_kprintf fmt args s (Q : unit -> osys -> Prop) E :
  Q tt (put (say fmt args (hs s)) s) -> wpe (o_kprintf fmt args) s Q E.
Proof. done. Qed.

Lemma wp_o_heap {A} (m : M hsys A) s (Q : A -> osys -> Prop) E :
  wpe m (hs s) (fun a h => Q a (put h s)) (fun e _ => forall s', E e s') -> wpe (o_heap m) s Q E.
Proof. unfold wpe, o_heap, zoom, hs. cbn. destruct (m _); [done|]. intros H. apply H. Qed.

(** Reads and writes of a slot that was just written. *)
Lemma wp_wr_in t p i f s (Q : unit -> osys -> Prop) E :
  process_table s = <[i := p]> t -> (i < length t)%nat ->
  Q tt (set_table (<[i := f p]> t) s) -> wpe (wr_proc i f) s Q E.
Proof.
  intros Ht Hi HQ. eapply wp_wr_proc; [rewrite Ht; by apply list_lookup_insert_eq|].
  by rewrite Ht, list_insert_insert_eq.
Qed.

Lemma wp_rd_in t p i s (Q : pcb -> osys -> Prop) E :
  process_table s = <[i := p]> t -> (i < length t)%nat -> Q p s -> wpe (rd_proc i) s Q E.
Proof. intros Ht Hi HQ. eapply wp_rd_proc; [rewrite Ht; by apply list_lookup_insert_eq|done]. Qed.

(** The slot [process_alloc] takes. *)
Definition unused_slot (t : list pcb) : option nat :=
  first_below (fun i => bool_decide (state <$> t !! i = Some PROCESS_UNUSED)) 64.

Lemma unused_slot_spec t i : unused_slot t = Some i ->
  exists p, t !! i = Some p /\ state p = PROCESS_UNUSED.
Proof.
  intros Hi. apply first_below_some in Hi as (_ & Hi & _). apply bool_decide_eq_true in Hi.
  destruct (t !! i) as [p|]; [|done]. exists p. split; [done|]. by injection Hi.
Qed.

(** The block of a new process, and the block a failed allocation leaves. *)
Definition new_pcb (id parent stack : Z) : pcb :=
  Pcb id PROCESS_READY (replicate 32 0) (replicate 17 0) 0 None stack (stack +u KERNEL_STACK_SIZE)
      0 parent 0.
Definition failed_pcb (id parent : Z) : pcb :=
  Pcb id PROCESS_UNUSED (replicate 32 0) (replicate 17 0) 0 None 0 0 0 parent 0.

Definition alloc_result (s : osys) (i : nat) (parent k : Z) (h : hsys) : osys :=
  put h (set_next_pid (next_pid s +u 1)
    (set_table (<[i := if k =? 0 then failed_pcb (next_pid s) parent
                       else new_pcb (next_pid s) parent k]> (process_table s)) s)).

Lemma wp_process_alloc s c pc (Q : option nat -> osys -> Prop) E :
  table_ok s -> current_process s = Some c -> process_table s !! c = Some pc ->
  state pc <> PROCESS_UNUSED ->
  (unused_slot (process_table s) = None -> forall fmt args, Q None (put (say fmt args (hs s)) s)) ->
  (forall i, unused_slot (process_table s) = Some i ->
     wpe (kmalloc_aligned KERNEL_STACK_SIZE) (hs s) (fun k h => forall fmt args,
       Q (if k =? 0 then None else Some i) (alloc_result s i (pid pc) k (say fmt args h)))
       (fun e _ => forall s', E e s')) ->
  wpe process_alloc s Q E.
Proof.
  intros Hl Hcur Hc Hu Hnone Hsome. unfold process_alloc. wp_step.
  apply (wp_scan_table _ (fun i => bool_decide (state <$> process_table s !! i = Some PROCESS_UNUSED))).
  { intros i Hi. destruct (table_lookup s i Hl Hi) as [p Hp]. unfold bind.
    rewrite (rd_proc_run i p), Hp by done. unfold ret. f_equal. apply bool_decide_ext.
    cbn. split; congruence. }
  fold (unused_slot (process_table s)). destruct (unused_slot (process_table s)) as [i|] eqn:Ei.
  2:{ wp_step. apply wp_o_kprintf. wp_step. by apply Hnone. }
  destruct (unused_slot_spec _ _ Ei) as (p0 & Hp0 & Hun).
  pose proof (lookup_lt_Some _ _ _ Hp0) as Hlt. assert (i <> c) as Hic by congruence.
  set (t := process_table s) in *.
  wp_step. unfold zero_memory. eapply wp_wr_proc; [exact Hp0|]. do 4 wp_step.
  wp_step. apply (wp_wr_in t zero_pcb); [done|done|]. wp_step. eapply (wp_wr_in t); [done|done|].
  do 3 wp_step. cbn [current_process set_table set_next_pid]. rewrite Hcur.
  wp_step. apply (wp_rd_proc _ pc); [cbn; by rewrite list_lookup_insert_ne|]. wp_step.
  wp_step. eapply (wp_wr_in t); [done|done|]. wp_step. apply wp_o_heap.
  eapply wp_mono; [by apply (Hsome i)|]. intros k h HQ. cbv beta. cbv beta in HQ.
  wp_step. eapply (wp_wr_in t); [done|done|]. wp_step. eapply (wp_rd_in t); [done|done|].
  cbn [kernel_stack set_stack set_parent set_state set_pid zero_pcb].
  wp_step; unfold alloc_result in HQ; bools.
  - wp_step. apply wp_o_kprintf. wp_step. eapply (wp_wr_in t); [done|done|]. wp_step. subst k.
    cbn [Z.eqb] in HQ. exact (HQ _ _).
  - rewrite (proj2 (Z.eqb_neq k 0)) in HQ by done. wp_step. eapply (wp_wr_in t); [done|done|].
    wp_step. apply wp_o_kprintf. wp_step. exact (HQ _ _).
Qed.

(** ** Names *)

(** A buffer after [copy_name] of the string [nm] into it. *)
Definition named (dest nm : list Z) : list Z :=
  let k := (31 `min` length nm)%nat in take k nm ++ 0 :: drop (S k) dest.

Lemma copy_prefix (dest nm : list Z) k x : length dest = 32%nat -> (k < 32)%nat ->
  (k <= length nm)%nat -> <[k := x]> (take k nm ++ drop k dest) = take k nm ++ x :: drop (S k) dest.
Proof.
  intros Hd Hk Hn. rewrite insert_app_r_alt by (rewrite length_take; lia).
  rewrite length_take, Nat.min_l, Nat.sub_diag by lia.
  destruct (lookup_lt_is_Some_2 dest k) as [y Hy]; [lia|]. by rewrite (drop_S _ _ _ Hy).
Qed.

Lemma copy_name_wp {St} dest nm (s : St) : cstring nm -> length dest = 32%nat ->
  wp (copy_name dest (char_at nm) PROCESS_NAME_LEN) s (fun d s' => s' = s /\ d = named dest nm).
Proof.
  intros [Hnz Hnl] Hd. unfold copy_name, PROCESS_NAME_LEN. change (32 -u 1) with 31. wp_step.
  apply (wp_loop _ (fun '(i, d) s' => s' = s /\ exists k : nat, i = Z.of_nat k /\
                      (k <= 31 `min` length nm)%nat /\ d = take k nm ++ drop k dest)
           (fun '(i, _) _ => 31 - i)).
  2:{ split; [done|]. exists 0%nat. split; [done|]. split; [lia|done]. }
  2:{ lia. }
  intros [i d] ? (-> & k & -> & Hk & ->).
  assert (is_Some ((take k nm ++ drop k dest) !! k)) as [y Hy].
  { apply lookup_lt_is_Some_2. rewrite length_app, length_take, length_drop. lia. }
  assert (wp (buf_write (take k nm ++ drop k dest) (Z.of_nat k) 0) s (fun d s' =>
            s' = s /\ d = take k nm ++ 0 :: drop (S k) dest)) as Hfin.
  { unfold buf_write. rewrite Nat2Z.id, Hy. wp_step. split; [done|]. by apply copy_prefix; lia. }
  wp_step; bools.
  - wp_step. destruct (decide (k = length nm)) as [->|Hne].
    + apply char_at_end. cbn [negb Z.eqb]. wp_step. cbn [loop_post fst snd]. 
      unfold named. rewrite Nat.min_r by lia. exact Hfin.
    + destruct (lookup_lt_is_Some_2 nm k) as [x Hx]; [lia|]. eapply char_at_in; [exact Hx|].
      assert (x <> 0) as Hx0 by (by eapply (Forall_lookup_1 (fun c => c <> 0))).
      rewrite (proj2 (Z.eqb_neq x 0)) by done. cbn [negb]. wp_step. eapply char_at_in; [exact Hx|].
      wp_step. unfold buf_write. rewrite Nat2Z.id, Hy. wp_step. wp_step. unfold loop_post.
      rewrite copy_prefix by lia. rewrite u32_small by (unfold is32; lia).
      split; [|lia]. split; [done|]. exists (S k). split; [lia|]. split; [lia|].
      by rewrite (take_S_r _ _ _ Hx), <-app_assoc.
  - wp_step. cbn [loop_post fst snd]. unfold named. rewrite Nat.min_l by lia.
    assert (k = 31%nat) as -> by lia. exact Hfin.
Qed.

(** Copying between buffers touches nothing else. *)
Lemma pwp_copy_name dest b s (Q : list Z -> osys -> Prop) :
  (forall d, Q d s) -> wpe (copy_name dest (buf_read b) PROCESS_NAME_LEN) s Q anything.
Proof.
  intros HQ. unfold copy_name, PROCESS_NAME_LEN. change (32 -u 1) with 31. wp_step.
  assert (forall i (Q' : Z -> osys -> Prop), (forall x, Q' x s) -> wpe (buf_read b i) s Q' anything) as Hr.
  { intros i Q' H. unfold buf_read. destruct (b !! _); [by wp_step|done]. }
  assert (forall d i x (Q' : list Z -> osys -> Prop), (forall d, Q' d s) ->
            wpe (buf_write d i x) s Q' anything) as Hw.
  { intros d i x Q' H. unfold buf_write. destruct (d !! _); [by wp_step|done]. }
  apply (wp_loop _ (fun '(i, d) s' => s' = s /\ 0 <= i <= 31) (fun '(i, _) _ => 31 - i));
    [|by split; [done|lia]|lia].
  intros [i d] ? (-> & Hi). wp_step; bools; [|wp_step; by apply Hw].
  wp_step. apply Hr. intros x. wp_step; [|wp_step; by apply Hw].
  wp_step. apply Hr. intros y. wp_step. apply Hw. intros d'. wp_step. unfold loop_post.
  rewrite u32_small by (unfold is32; lia). split; [split; [done|lia]|lia].
Qed.

(** ** Threads *)

Context (sym_trampoline : Z).

Definition kthread_pcb (id parent stack : Z) (nm : list Z) (sp : Z) : pcb :=
  Pcb id PROCESS_READY (named (replicate 32 0) nm) (replicate 17 0) paging_get_directory
      (Some KernelSpace) stack sp 0 parent 0.

Lemma wp_kthread_create s c pc entry nm (Q : option nat -> osys -> Prop) E :
  table_ok s -> current_process s = Some c -> process_table s !! c = Some pc ->
  state pc <> PROCESS_UNUSED -> cstring nm ->
  (unused_slot (process_table s) = None -> forall fmt args, Q None (put (say fmt args (hs s)) s)) ->
  (forall i, unused_slot (process_table s) = Some i ->
     wpe (kmalloc_aligned KERNEL_STACK_SIZE) (hs s) (fun k h => forall fmt args,
       if k =? 0 then Q None (alloc_result s i (pid pc) k (say fmt args h)) else
       forall s1, hs s1 = say fmt args h ->
       wpe (build_stack sym_trampoline (k +u KERNEL_STACK_SIZE) entry) s1 (fun sp s2 =>
         exists h2, s2 = put h2 s1 /\ forall fmt args,
           Q (Some i) (put (say fmt args h2) (set_next_pid (next_pid s +u 1)
             (set_table (<[i := kthread_pcb (next_pid s) (pid pc) k nm sp]> (process_table s)) s))))
         E)
       (fun e _ => forall s', E e s')) ->
  wpe (kthread_create sym_trampoline entry nm) s Q E.
Proof.
  intros Hl Hcur Hc Hu Hnm Hnone Hsome. unfold kthread_create. wp_step.
  apply (wp_process_alloc s c pc); [done..| |].
  { intros Hn fmt args. wp_step. by apply Hnone. }
  intros i Hi. destruct (unused_slot_spec _ _ Hi) as (p0 & Hp0 & _).
  pose proof (lookup_lt_Some _ _ _ Hp0) as Hlt. set (t := process_table s) in *.
  eapply wp_mono; [by apply Hsome|]. intros k h HQ fmt args. specialize (HQ fmt args).
  destruct (k =? 0) eqn:Ek; [wp_step; exact HQ|].
  wp_step. unfold alloc_result. rewrite Ek.
  apply (wp_rd_in t (new_pcb (next_pid s) (pid pc) k)); [done|done|]. wp_step.
  eapply wp_mono; [apply wp_total, copy_name_wp; [done|done]|]. intros d s1 [-> ->].
  wp_step. eapply (wp_wr_in t); [done|done|]. wp_step. eapply (wp_wr_in t); [done|done|].
  wp_step. eapply (wp_wr_in t); [done|done|]. wp_step. eapply (wp_rd_in t); [done|done|].
  cbn [kernel_stack set_space set_directory set_name new_pcb]. wp_step.
  eapply wp_mono; [apply HQ; done|]. intros sp s2 (h2 & -> & HQ').
  wp_step. eapply (wp_wr_in t); [done|done|]. wp_step. apply wp_o_kprintf. wp_step. exact (HQ' _ _).
Qed.

Lemma pwp_push_word sp x s (Q : Z -> osys -> Prop) :
  (forall a h, Q a (put h s)) -> wpe (push_word sp x) s Q anything.
Proof.
  intros HQ. unfold push_word. cbv zeta. wp_step. cbn [stw stack_mem].
  apply (wp_o_heap (stw (sp -u 4) x)). unfold wpe at 1.
  destruct (stw (sp -u 4) x (hs s)) as [[] h|]; [|done]. wp_step. exact (HQ _ _).
Qed.

Lemma pwp_build_stack sp entry s (Q : Z -> osys -> Prop) :
  (forall a h, Q a (put h s)) -> wpe (build_stack sym_trampoline sp entry) s Q anything.
Proof.
  intros HQ. unfold build_stack. do 5 (wp_step; apply pwp_push_word; intros).
  apply pwp_push_word. intros a' h'. exact (HQ a' h').
Qed.

(** What an operation that is not a switch leaves alone: the current process and the blocks
    of the others. *)
Definition others_kept (s s' : osys) : Prop :=
  current_process s' = current_process s /\ scheduler_enabled s' = scheduler_enabled s /\
  forall j p q, process_table s !! j = Some p -> process_table s' !! j = Some q ->
    state p <> PROCESS_UNUSED -> state q <> PROCESS_UNUSED -> q = p.

Lemma others_insert s s' i p' : current_process s' = current_process s ->
  scheduler_enabled s' = scheduler_enabled s -> process_table s' = <[i := p']> (process_table s) ->
  (forall p, process_table s !! i = Some p -> state p = PROCESS_UNUSED \/ state p' = PROCESS_UNUSED) ->
  others_kept s s'.
Proof.
  intros E1 E2 E3 Hi. split; [done|]. split; [done|]. rewrite E3. intros j p q Hp Hq Hu Hu'.
  apply list_lookup_insert_Some in Hq as [(<- & <- & _)|(_ & Hq)]; [|congruence].
  destruct (Hi p Hp); congruence.
Qed.

Lemma others_refl s s' : proc_part s' = proc_part s -> others_kept s s'.
Proof. intros [= E1 _ E2 E3]. split; [done|]. split; [done|]. rewrite E1. naive_solver. Qed.

Lemma pwp_kthread_create s entry nm : os_inv s -> next_pid s + 1 < 4294967296 -> cstring nm ->
  wpe (kthread_create sym_trampoline entry nm) s (fun _ s' => os_inv s' /\ others_kept s s') anything.
Proof.
  intros (c & Hcur & Hinv & Hrun) Hnp Hnm. pose proof Hrun as (pc & Hc & Hst).
  pose proof Hinv as [Hl _ _ Hpid _ _ (p0 & H0 & H0u & H0p)].
  pose proof (Hpid _ _ H0 H0u). rewrite H0p in *.
  apply (wp_kthread_create s c pc); [done..|congruence|done| |].
  { intros _ fmt args. split; [|by apply others_refl]. exists c. by split. }
  intros i Hi. destruct (unused_slot_spec _ _ Hi) as (pi & Hpi & Hun).
  assert (i <> c) by congruence. assert (i <> 0%nat) by congruence.
  unfold wpe at 1. destruct (kmalloc_aligned _ _) as [k h|e h]; [|done]. intros fmt args.
  assert (next_pid s +u 1 = next_pid s + 1) as Enp by (apply u32_small; unfold is32; lia).
  assert (forall x, running (<[i := x]> (process_table s)) c) as Hrun'.
  { intros x. exists pc. by rewrite list_lookup_insert_ne. }
  destruct (k =? 0) eqn:Ek.
  - unfold alloc_result. rewrite Ek, Enp. split.
    + exists c. split; [done|]. split; [|apply Hrun'].
      apply (ti_unused (process_table s) (next_pid s) (next_pid s + 1)); [done|lia|done..].
    + eapply others_insert; [done..|]. by right.
  - intros s1 _. apply pwp_build_stack. intros sp h2. exists h2. split; [done|]. intros. rewrite Enp. split.
    + exists c. split; [done|]. split; [|apply Hrun'].
      apply (ti_new (process_table s) (next_pid s) c i pi); [done|done|done|lia|done..].
    + eapply others_insert; [done..|]. intros p Hp. left. congruence.
Qed.

(** ** Release *)

Lemma pwp_process_free s i : os_inv s -> current_process s <> Some i ->
  wpe (process_free (Some i)) s (fun _ s' => os_inv s' /\ others_kept s s') anything.
Proof.
  intros (c & Hcur & Hinv & Hrun) Hic. assert (i <> c) as Hne by congruence.
  unfold process_free, wpe, bind at 1, rd_proc at 1.
  destruct (process_table s !! i) as [p|] eqn:Hp; [|done]. fold (wpe (S := osys) (A := unit)).
  pose proof (lookup_lt_Some _ _ _ Hp) as Hlt.
  match goal with |- match ?m s with _ => _ end => change (wpe m s
    (fun _ s' => os_inv s' /\ others_kept s s') anything) end.
  wp_step; bools.
  { apply wp_o_kprintf. split; [|by apply others_refl]. exists c. by split. }
  assert (i <> 0%nat) as Hi0.
  { intros ->. destruct (ti_zero _ _ _ Hinv) as (p0 & ? & ? & ?). congruence. }
  wp_step. apply pwp_copy_name. intros d. wp_step.
  apply (wp_mono _ _ _ (fun _ s1 => exists v, s1 = blur v (regs s) s)).
  { apply wp_when; [|by exists (o_v s); destruct s]. intros _. unfold o_heap. apply pwp_lower. by eauto. }
  intros [] ? [v1 ->]. wp_step.
  apply (wp_mono _ _ _ (fun _ s1 => exists v, s1 = blur v (regs s) s)).
  { apply wp_when; [|by eauto]. intros _. apply pwp_lower. by eauto. }
  intros [] ? [v2 ->]. wp_step. unfold zero_memory. eapply wp_wr_proc; [exact Hp|]. wp_step.
  eapply (wp_wr_in (process_table s)); [done|done|]. apply wp_o_kprintf. split.
  - exists c. split; [done|]. split; [eapply ti_unused; [exact Hinv|reflexivity|done..]|].
    destruct Hrun as (pc & ? & ?). exists pc. cbn. by rewrite list_lookup_insert_ne.
  - eapply others_insert; [done..|]. by right.
Qed.

(** ** Initialisation *)

Definition kernel_pcb : pcb :=
  Pcb 0 PROCESS_RUNNING (named (replicate 32 0) (bytes_of "kernel")) (replicate 17 0)
      paging_get_directory (Some KernelSpace) 0 0 0 0 0.

Lemma zero_table_wp s : table_ok s ->
  wp (for_loop MAX_PROCESSES 1 (fun i => zero_memory (Z.to_nat i)) 0) s (fun _ s' =>
    s' = set_table (replicate 64 zero_pcb) s).
Proof.
  intros Hl. unfold table_ok in Hl.
  apply (wp_for_loop _ _ _ (fun i s' => s' =
    set_table (replicate (Z.to_nat i) zero_pcb ++ drop (Z.to_nat i) (process_table s)) s));
    unfold MAX_PROCESSES; try done; try lia.
  - by destruct s.
  - intros i ? Hi _ ->. set (k := Z.to_nat i). unfold zero_memory.
    destruct (lookup_lt_is_Some_2 (process_table s) k) as [p Hp]; [lia|].
    rewrite (drop_S _ _ _ Hp). eapply wp_wr_proc.
    { cbn. rewrite lookup_app_r, length_replicate, Nat.sub_diag; [done|]. by rewrite length_replicate. }
    cbn [process_table set_table]. rewrite insert_app_r_alt by (by rewrite length_replicate).
    rewrite length_replicate, Nat.sub_diag. replace (Z.to_nat (i + 1)) with (S k) by lia.
    rewrite replicate_S_end, <-app_assoc. done.
  - intros s' ->. change (Z.to_nat 64) with 64%nat. by rewrite drop_ge, app_nil_r by lia.
Qed.

Lemma process_init_wp s : table_ok s -> wp process_init s (fun _ s' =>
  proc_part s' = (kernel_pcb :: replicate 63 zero_pcb, 1, Some 0%nat, scheduler_enabled s) /\
  exists fmt args, o_v s' = update v_lens (say fmt args (hs s)) (o_v s)).
Proof.
  intros Hl. unfold process_init. wp_step. eapply wp_mono; [by apply zero_table_wp|].
  intros [] ? ->. set (t := replicate 64 zero_pcb).
  wp_step. apply (wp_wr_in t zero_pcb); [done|unfold t; rewrite length_replicate; lia|].
  assert (0 < length t)%nat as Hlt by (unfold t; rewrite length_replicate; lia).
  wp_step. eapply (wp_wr_in t); [done|done|]. wp_step. eapply (wp_rd_in t); [done|done|]. wp_step.
  eapply wp_mono; [apply copy_name_wp|].
  { split; [|done]. vm_compute. repeat constructor; done. }
  { done. }
  intros d ? [-> ->]. do 8 (wp_step; eapply (wp_wr_in t); [done|done|]).
  do 4 wp_step. apply wp_o_kprintf. split; [done|]. by eexists _, _.
Qed.

Lemma init_table_inv : table_inv (kernel_pcb :: replicate 63 zero_pcb) 1 0.
Proof.
  assert (forall j p, (kernel_pcb :: replicate 63 zero_pcb) !! j = Some p ->
            (j = 0%nat /\ p = kernel_pcb) \/ p = zero_pcb) as Hb.
  { intros [|j] p; cbn [lookup list_lookup]; [intros [= <-]; by left|]. intros [-> _]%lookup_replicate_1. by right. }
  split.
  - done.
  - by exists kernel_pcb.
  - intros j p Hp Hr. destruct (Hb _ _ Hp) as [[-> _]| ->]; done.
  - intros j p Hp Hu. destruct (Hb _ _ Hp) as [[_ ->]| ->]; done.
  - intros i j p q Hp Hq Hu1 Hu2 _.
    destruct (Hb _ _ Hp) as [[-> _]| ->], (Hb _ _ Hq) as [[-> _]| ->]; done.
  - intros j p Hp Hu. destruct (Hb _ _ Hp) as [[_ ->]| ->]; done.
  - by exists kernel_pcb.
Qed.
End ProcInv.
