(* ===== verification/ThreadInv.v ===== *)
(** * Thread stacks in the heap

    Stores into allocated blocks keep the heap's invariant, and the stack that
    [kthread_create] ([kernel/process.c]) builds in such a block is what
    [context_switch] ([boot/context_switch.asm]) expects to pop. *)

From stdpp Require Import base gmap list numbers option strings relations.
From Stdlib Require Import ZArith Lia.
From S2P Require Import Prelude Machine PageTables Pmm Paging PagingSpec HeapList Kheap HeapInv HeapSpec.
From S2P Require Import Vmm Terminal Process Scheduler SchedInv ProcInv.

(** Stores into the payload of allocated blocks keep every header. *)
Lemma seg_payload {S} `{WL : WordMemLaws S} (s : S) ws s' a bs e z : seg s a bs e z ->
  writes s ws s' -> Forall (fun w => live a bs w.1) ws -> seg s' a bs e z.
Proof.
  intros Hseg Hw.
  enough (forall a' r, (exists pre, bs = pre ++ r /\ a' = a + span pre) ->
    seg s a' r e z -> Forall (fun w => live a bs w.1) ws -> seg s' a' r e z) as Hall.
  { apply (Hall a bs); [|done]. exists []. cbn. split; [done|lia]. }
  pose proof (seg_sizes _ _ _ _ _ Hseg) as Hok.
  intros a' r. revert a'. induction r as [|[sz fr] r IH]; intros a' (pre & Ebs & ->); [done|].
  intros [Hh Hs] Hl. split.
  2:{ apply IH; [|done|done]. exists (pre ++ [(sz, fr)]). rewrite <-app_assoc. split; [done|].
      rewrite span_app. cbn. lia. }
  assert (forall k, 0 <= k < 12 -> Forall (fun w => w.1 <> a + span pre + k) ws) as Hk.
  { intros k Hk. eapply Forall_impl; [exact Hl|]. intros [w v] Hw' Ew. cbn in Hw', Ew. subst w.
    rewrite Ebs in Hw', Hok. apply Forall_app in Hok as [Hpre Hrest].
    apply live_app in Hw' as [Hb|Hb]; [apply live_bounds in Hb; [lia|done]|].
    apply Forall_cons in Hrest as [[Hsz _] Hrest]. cbn in Hb, Hsz. unfold HEADER_SIZE in Hb.
    destruct Hb as [[_ Hb]|Hb]; [lia|]. apply live_bounds in Hb; [lia|done]. }
  eapply hdr_writes; [exact Hw|apply Hh|apply Hh|apply Hh|..]; rewrite over_out; try apply Hh;
    [|by apply Hk..]. specialize (Hk 0 ltac:(lia)). by rewrite Z.add_0_r in Hk.
Qed.

Section ThreadInv.
Context {L : Layout} {LOk : LayoutOk L}.
Abbreviation START := HEAP_START_ADDR.
Abbreviation laws hi := (heap_laws START hi).

Lemma heap_writes_inv s bs ws s' : heap_inv s bs ->
  @writes _ _ (laws (heap_end s)) s ws s' -> Forall (fun w => live START bs w.1) ws ->
  heap_inv s' bs /\ heap_end s' = heap_end s.
Proof.
  intros Hinv Hw Hl. pose proof (wr_framed _ _ _ Hw) as Hf. cbn in Hf.
  destruct (framed_vars _ _ _ Hf) as (E1 & E2 & E3 & E4 & E5).
  pose proof (seg_payload (WL := laws (heap_end s)) _ _ _ _ _ _ _ (hi_blocks _ _ Hinv) Hw Hl) as Hseg.
  assert (START < heap_end s) as Hlt.
  { destruct (seg_bounds _ _ _ _ _ (hi_blocks _ _ Hinv) (hi_ne _ _ Hinv)). lia. }
  split; [|done]. split; rewrite ?E1, ?E2, ?E3, ?E4, ?E5.
  - apply (wr_valid _ _ _ Hw START). split; [apply Hinv|]. split; [lia|done].
  - eapply framed_tables; [exact Hf|apply Hinv].
  - apply (hi_vars _ _ Hinv).
  - exact Hseg.
  - apply (hi_ne _ _ Hinv).
  - apply (hi_alloc _ _ Hinv).
Qed.

(** Messages change no memory. *)
Lemma say_inv s bs fmt args : heap_inv s bs ->
  heap_inv (say fmt args s) bs /\ payload_kept s bs (say fmt args s).
Proof.
  intros Hinv. pose proof (heap_kprintf_wp s bs fmt args
    (fun _ s' => heap_inv s' bs /\ payload_kept s bs s') (fun _ _ => False) Hinv) as H.
  apply H. intros h _ _ H1 H2. by split.
Qed.

Lemma say_hrd s fmt args b : hrd (say fmt args s) b = hrd s b.
Proof. done. Qed.

(** ** The initial stack *)

Section Stack.
Context {WL : WordMemLaws hsys}.
Context (sym_trampoline : Z).

Lemma wp_push_word h0 ws h sp v s (Q : Z -> osys -> Prop) E : writes h0 ws h -> hs s = h ->
  4 <= sp < 4294967296 -> valid h0 (sp - 4) -> is32 v ->
  (forall h', writes h0 ((sp - 4, v) :: ws) h' -> Q (sp - 4) (put h' s)) ->
  wpe (push_word sp v) s Q E.
Proof.
  intros Hw Hh Hsp Hv H32 HQ. unfold push_word. cbv zeta. rewrite u32_small by (unfold is32; lia).
  wp_step. cbn [stw stack_mem]. wp_step. wp_step.
  change (view v_lens (view o_lens s)) with (hs s). rewrite Hh.
  apply (wp_write h0 ws h); [exact Hw|done|done|]. intros h' Hw'. wp_step. by apply HQ.
Qed.

(** The registers a new thread starts with. *)
Definition start_cpu (entry : Z) : cpu := Cpu 0 0 entry 0 0 0.

Lemma wp_build_stack top entry s (Q : Z -> osys -> Prop) E :
  24 <= top < 4294967296 -> (forall k, 0 <= k < 6 -> valid (hs s) (top - 24 + 4 * k)) ->
  is32 entry -> is32 sym_trampoline ->
  (forall h', writes (hs s) (pushed (top - 4) (start_cpu entry) sym_trampoline ++ [(top - 4, 0)]) h' ->
     Q (top - 24) (put h' s)) ->
  wpe (build_stack sym_trampoline top entry) s Q E.
Proof.
  intros Ht Hv He Hra HQ. unfold build_stack.
  assert (forall k, 0 <= k < 6 -> valid (hs s) (top - 4 * (k + 1))) as Hv'.
  { intros k Hk. replace (top - 4 * (k + 1)) with (top - 24 + 4 * (5 - k)) by lia. apply Hv. lia. }
  wp_step. apply (wp_push_word (hs s) [] (hs s)); [apply writes_nil|done|lia|by apply (Hv' 0)|done|]. intros h1 W1.
  wp_step. eapply (wp_push_word (hs s) _ h1); [exact W1|done|lia| |done|].
  { replace (top - 4 - 4) with (top - 4 * (1 + 1)) by lia. by apply Hv'. } intros h2 W2.
  wp_step. eapply (wp_push_word (hs s) _ h2); [exact W2|done|lia| |done|].
  { replace (top - 4 - 4 - 4) with (top - 4 * (2 + 1)) by lia. by apply Hv'. } intros h3 W3.
  wp_step. eapply (wp_push_word (hs s) _ h3); [exact W3|done|lia| |done|].
  { replace (top - 4 - 4 - 4 - 4) with (top - 4 * (3 + 1)) by lia. by apply Hv'. } intros h4 W4.
  wp_step. eapply (wp_push_word (hs s) _ h4); [exact W4|done|lia| |done|].
  { replace (top - 4 - 4 - 4 - 4 - 4) with (top - 4 * (4 + 1)) by lia. by apply Hv'. } intros h5 W5.
  eapply (wp_push_word (hs s) _ h5); [exact W5|done|lia| |done|].
  { replace (top - 4 - 4 - 4 - 4 - 4 - 4) with (top - 4 * (5 + 1)) by lia. by apply Hv'. } intros h6 W6.
  replace (top - 4 - 4 - 4 - 4 - 4 - 4) with (top - 24) in * by lia. apply HQ.
  unfold pushed, start_cpu. cbn [app edi esi ebx ebp].
  replace (top - 4 - 20) with (top - 24) by lia. replace (top - 4 - 16) with (top - 4 - 4 - 4 - 4 - 4) by lia.
  replace (top - 4 - 12) with (top - 4 - 4 - 4 - 4) by lia.
  replace (top - 4 - 8) with (top - 4 - 4 - 4) by lia. exact W6.
Qed.
End Stack.

(** ** The creation of a thread *)

Context (sym_trampoline : Z).

Lemma frame_transfer hi h h' sp c ra :
  (forall b, hvalid START hi h b -> hvalid START hi h' b /\ hrd h' b = hrd h b) ->
  @frame_at (laws hi) h sp c ra -> @frame_at (laws hi) h' sp c ra.
Proof.
  intros Hb [Hr Hv E0 E1 E2 E3 E4]. cbn in *.
  assert (forall k, 0 <= k < 5 -> hrd h' (sp + 4 * k) = hrd h (sp + 4 * k)) as Hk.
  { intros k Hk. by apply Hb, Hv. }
  split; [done| | |rewrite <-E1; by apply (Hk 1)|rewrite <-E2; by apply (Hk 2)
          |rewrite <-E3; by apply (Hk 3)|rewrite <-E4; by apply (Hk 4)].
  - intros k Hkr. by apply Hb, Hv.
  - rewrite <-E0. specialize (Hk 0 ltac:(lia)). by rewrite !Z.add_0_r in Hk.
Qed.

(** A stack of 8192 bytes in an allocated block at [k]. *)
Definition fresh_stack (bs bs' : list block) (k : Z) : Prop :=
  k mod 4096 = 0 /\ START < k /\
  forall b, k <= b < k + KERNEL_STACK_SIZE -> live START bs' b /\ ~ live START bs b.

Lemma stack_valid h bs bs' k : heap_inv h bs' -> fresh_stack bs bs' k ->
  k + KERNEL_STACK_SIZE <= heap_end h /\ heap_end h < 4294967296 /\
  forall b, k <= b < k + KERNEL_STACK_SIZE -> b mod 4 = 0 -> hvalid START (heap_end h) h b.
Proof.
  unfold KERNEL_STACK_SIZE. intros Hinv (_ & Hk & Hl).
  pose proof (seg_span _ _ _ _ _ (hi_blocks _ _ Hinv)) as Esp.
  destruct (seg_bounds _ _ _ _ _ (hi_blocks _ _ Hinv) (hi_ne _ _ Hinv)) as [_ He].
  assert (forall b, k <= b < k + 8192 -> START <= b < heap_end h) as Hr.
  { intros b Hb. destruct (Hl b Hb) as [Hl' _]. apply live_bounds in Hl'; [lia|by eapply inv_sizes]. }
  split; [specialize (Hr (k + 8191)); lia|]. split; [done|]. intros b Hb Hb4.
  split; [apply Hinv|]. specialize (Hr b Hb). done.
Qed.

Lemma stack_words k j : k mod 4096 = 0 -> (k + 8192 - 24 + 4 * j) mod 4 = 0.
Proof.
  intros Hk. apply Z.mod_divide in Hk as [x ->]; [|lia].
  replace (x * 4096 + 8192 - 24 + 4 * j) with ((x * 1024 + 2042 + j) * 4) by lia. apply Z.mod_mul. lia.
Qed.

(** The six stores of a thread's initial stack. *)
Definition stack_stores (k entry : Z) : list (Z * Z) :=
  pushed (k + KERNEL_STACK_SIZE - 4) (start_cpu entry) sym_trampoline ++
  [(k + KERNEL_STACK_SIZE - 4, 0)].

Lemma stack_stores_at k entry : Forall (fun w => k <= w.1 < k + KERNEL_STACK_SIZE) (stack_stores k entry).
Proof.
  unfold stack_stores, pushed, KERNEL_STACK_SIZE. cbn [app].
  repeat (apply Forall_cons; split; [cbn; lia|]). done.
Qed.

(** Memory once the stack is built. *)
Lemma stack_built h0 bs bs' h1 h2 k entry : payload_kept h0 bs h1 -> heap_end h0 <= heap_end h1 ->
  heap_inv h1 bs' -> fresh_stack bs bs' k ->
  @writes _ _ (laws (heap_end h1)) h1 (stack_stores k entry) h2 ->
  heap_inv h2 bs' /\ payload_kept h0 bs h2 /\ heap_end h2 = heap_end h1 /\
  @frame_at (laws (heap_end h2)) h2 (k + KERNEL_STACK_SIZE - 24) (start_cpu entry) sym_trampoline.
Proof.
  intros Hpay Hle Hinv Hst Hw. destruct (stack_valid _ _ _ _ Hinv Hst) as (Hke & He & Hv).
  destruct Hst as (Hk & Hks & Hlive).
  assert (Forall (fun w => live START bs' w.1) (stack_stores k entry)) as Hall.
  { eapply Forall_impl; [apply stack_stores_at|]. intros w Hw'. by apply Hlive. }
  destruct (heap_writes_inv _ _ _ _ Hinv Hw Hall) as [Hinv2 Ee]. rewrite Ee.
  split; [done|]. split; [|split; [done|]].
  - intros b Hb Hb4 Hl. rewrite <-(Hpay b Hb Hb4 Hl).
    assert (hvalid START (heap_end h1) h1 b) as Hvb by (split; [apply Hinv|lia]).
    pose proof (wr_rd _ _ _ Hw b Hvb) as E. cbn [rd heap_laws] in E. rewrite E. apply over_out.
    eapply Forall_impl; [apply stack_stores_at|]. intros w Hw' <-. by destruct (Hlive w.1 Hw').
  - replace (k + KERNEL_STACK_SIZE - 24) with (k + KERNEL_STACK_SIZE - 4 - 20) by lia.
    apply (@frame_pushed (laws (heap_end h1)) h1 [(k + KERNEL_STACK_SIZE - 4, 0)]); [|exact Hw].
    unfold KERNEL_STACK_SIZE in *. unfold HEAP_START_ADDR in Hks. split; [lia|]. intros j Hj.
    apply Hv; [lia|]. replace (k + 8192 - 4 - 20 + 4 * j) with (k + 8192 - 24 + 4 * j) by lia.
    by apply stack_words.
Qed.

(** What [kthread_create] promises.  Without a free slot nothing changes.  Without memory
    for the stack the slot stays unused, but its record has been cleared and holds the
    identifier and the parent, and the identifier is spent. *)
Definition thread_post (entry : Z) (nm : list Z) (s : osys) (bs : list block) (parent : Z)
    (r : option nat) (s' : osys) : Prop :=
  exists bs', heap_inv (hs s') bs' /\ payload_kept (hs s) bs (hs s') /\
    heap_end (hs s) <= heap_end (hs s') /\ o_v s' = update v_lens (hs s') (o_v s) /\
  match r with
  | None => bs' = bs /\ current_process s' = current_process s /\ states s' = states s /\
      match unused_slot (process_table s) with
      | None => process_table s' = process_table s /\ next_pid s' = next_pid s
      | Some i => alloc_list START bs (round8 (KERNEL_STACK_SIZE + PAGE_SIZE)) = None /\
          process_table s' = <[i := failed_pcb (next_pid s) parent]> (process_table s) /\
          next_pid s' = next_pid s +u 1
      end
  | Some i => unused_slot (process_table s) = Some i /\
      (exists p, bs' = kmalloc_blocks bs (KERNEL_STACK_SIZE + PAGE_SIZE) p) /\
      exists k, fresh_stack bs bs' k /\
      process_table s' = <[i := kthread_pcb (next_pid s) parent k nm (k + KERNEL_STACK_SIZE - 24)]>
                           (process_table s) /\
      next_pid s' = next_pid s +u 1 /\ current_process s' = current_process s /\
      @frame_at (laws (heap_end (hs s'))) (hs s') (k + KERNEL_STACK_SIZE - 24)
                (start_cpu entry) sym_trampoline
  end.

Lemma kthread_create_wp s bs c pc entry nm : table_ok s -> current_process s = Some c ->
  process_table s !! c = Some pc -> state pc <> PROCESS_UNUSED -> cstring nm ->
  heap_inv (hs s) bs ->
  (alloc_list START bs (round8 (KERNEL_STACK_SIZE + PAGE_SIZE)) = None ->
     can_grow (hs s) (growth (KERNEL_STACK_SIZE + PAGE_SIZE))) ->
  is32 entry -> is32 sym_trampoline ->
  wp (kthread_create sym_trampoline entry nm) s (thread_post entry nm s bs (pid pc)).
Proof.
  intros Hl Hcur Hc Hu Hnm Hinv Hgrow He Ht.
  apply (wp_kthread_create sym_trampoline s c pc); [done..| |].
  { intros Hnone fmt args. destruct (say_inv _ _ fmt args Hinv). exists bs. rewrite Hnone. by split_and!. }
  intros i Hi. destruct (unused_slot_spec _ _ Hi) as (p0 & Hp0 & Hun).
  apply wp_total. eapply wp_mono; [by apply (kmalloc_aligned_wp (hs s) bs KERNEL_STACK_SIZE)|].
  intros k h (q & bs' & Ebs & Hinv' & Hle & Hpay & Hk) fmt args.
  destruct (say_inv h bs' fmt args Hinv') as [Hinv1 _].
  assert (payload_kept (hs s) bs (say fmt args h)) as Hpay1 by exact Hpay.
  destruct (k =? 0) eqn:Ek; bools.
  { destruct Hk as [(_ & -> & Ha)|(_ & Hk & _)]; [|subst k; by vm_compute in Hk].
    exists bs. split; [done|]. split; [done|]. split; [done|]. split; [done|]. rewrite Hi. subst k.
    split; [done|]. split; [done|]. split; [|done]. unfold states. cbn. rewrite list_fmap_insert.
    apply list_insert_id. rewrite list_lookup_fmap, Hp0. cbn. by rewrite Hun. }
  destruct Hk as [[? _]|(Hk & Hks & Hlive)]; [done|].
  assert (fresh_stack bs bs' k) as Hst by done.
  destruct (stack_valid _ _ _ _ Hinv1 Hst) as (Hke & He1 & Hv).
  intros s1 Hs1. unfold KERNEL_STACK_SIZE, HEAP_START_ADDR in *.
  rewrite u32_small by (unfold is32; lia).
  eapply (@wp_build_stack (laws (heap_end (say fmt args h)))); [lia| |done|done|].
  { rewrite Hs1. intros j Hj. apply Hv; [lia|by apply stack_words]. }
  rewrite Hs1. intros h2 Hw. exists h2. split; [done|]. intros fmt' args'.
  destruct (stack_built (hs s) bs bs' (say fmt args h) h2 k entry) as (Hinv2 & Hpay2 & He2 & Hf); [done..|].
  destruct (say_inv h2 bs' fmt' args' Hinv2) as [Hinv3 _].
  exists bs'. split; [done|]. split; [exact Hpay2|].
  split; [change (heap_end (hs s) <= heap_end h2); by rewrite He2|]. split; [done|]. split; [done|].
  split; [by exists q|]. exists k. split; [done|].
  split; [done|]. split; [done|]. split; [done|]. revert Hf. apply frame_transfer.
  intros b (_ & Hb). split; [|done]. split; [apply Hinv3|done].
Qed.
End ThreadInv.
