(* ===== verification/SchedSpec.v ===== *)
(** * What the process and scheduling code guarantees

    Runs of [kernel/process.c], [kernel/scheduler.c] and the timer handler: the invariant of
    the process table, the choice of the scheduler, its fairness, and the swap of stacks
    from the creation of a thread on. *)

From stdpp Require Import base gmap list numbers option strings relations.
From Stdlib Require Import ZArith Lia.
From S2P Require Import Prelude Machine PageTables Pmm Paging PagingInit Boot PagingSpec.
From S2P Require Import HeapList Kheap HeapInv HeapSpec Vmm Terminal Process Scheduler SchedInv ProcInv ThreadInv.

Section SchedSpec.
Context {L : Layout}.
Context (ret_schedule sym_trampoline : Z).

(** ** Runs

    A thread runs (memory and registers change), the timer fires, a thread is created or
    exits, a block is released.  The label says whether the step calls [schedule]. *)
Inductive os_step : bool -> osys -> osys -> Prop :=
  | step_thread s v r : os_step false s (blur v r s)
  | step_tick s b s' : timer_handler ret_schedule s = Ok b s' -> os_step true s s'
  | step_create s entry nm r s' : next_pid s + 1 < 4294967296 -> cstring nm ->
      kthread_create sym_trampoline entry nm s = Ok r s' -> os_step false s s'
  | step_exit s s' : kthread_exit ret_schedule s = Ok tt s' -> os_step true s s'
  | step_free s i s' : current_process s <> Some i -> process_free (Some i) s = Ok tt s' ->
      os_step false s s'.

Definition any_step (s s' : osys) : Prop := exists b, os_step b s s'.

(** The state in which [schedule] is entered by the timer or by an exit. *)
Definition entered (s s1 : osys) (c : nat) : Prop :=
  current_process s1 = current_process s /\ next_pid s1 = next_pid s /\
  scheduler_enabled s1 = scheduler_enabled s /\
  table_inv (process_table s1) (next_pid s1) c /\
  (forall p, process_table s1 !! c = Some p -> state p <> PROCESS_READY) /\
  forall j, j <> c -> process_table s1 !! j = process_table s !! j.

(** A step that schedules: it entered [schedule] and left as that promises. *)
Definition sched_step (s : osys) (c : nat) (s' : osys) : Prop :=
  exists s1 b, entered s s1 c /\ sched_post s1 c b s' /\ (b = false -> running (process_table s1) c).

Lemma pwp_ok {A} (m : M osys A) s a s' (Q : A -> osys -> Prop) :
  wpe m s Q anything -> m s = Ok a s' -> Q a s'.
Proof. unfold wpe. intros H E. by rewrite E in H. Qed.

Lemma timer_step s b s' c : os_inv s -> current_process s = Some c ->
  timer_handler ret_schedule s = Ok b s' -> sched_step s c s'.
Proof.
  intros (c' & Hcur & Hinv & Hrun) Hc Hok. assert (c' = c) as -> by congruence.
  pose proof Hrun as (pc & Hpc & Hst).
  refine (pwp_ok (timer_handler ret_schedule) s b s' (fun _ s' => sched_step s c s') _ Hok).
  unfold timer_handler. wp_step. wp_step. wp_step. wp_step. wp_step.
  unfold o_hw. apply pwp_lower. intros [] v. cbv beta.
  eapply wp_mono; [eapply (pwp_schedule _ _ c pc); [exact Hinv|exact Hcur|exact Hpc|congruence]|].
  intros b' s2 Hpost. eexists _, b'. split; [|split; [exact Hpost|by intros _]].
  split; [done|]. split; [done|]. split; [done|]. split; [exact Hinv|]. split; [|done].
  cbn. intros p Hp. congruence.
Qed.

Lemma exit_step s s' c : os_inv s -> current_process s = Some c ->
  kthread_exit ret_schedule s = Ok tt s' -> sched_step s c s'.
Proof.
  intros (c' & Hcur & Hinv & Hrun) Hc Hok. assert (c' = c) as -> by congruence.
  pose proof Hrun as (pc & Hpc & Hst).
  refine (pwp_ok (kthread_exit ret_schedule) s tt s' (fun _ s' => sched_step s c s') _ Hok).
  unfold kthread_exit. wp_step. unfold o_hw. apply pwp_lower. intros [] v. wp_step.
  unfold process_current. wp_step. cbn [current_process blur set_regs update o_lens]. rewrite Hcur.
  wp_step. wp_step. eapply wp_rd_proc; [exact Hpc|]. wp_step. apply wp_o_kprintf.
  apply wp_wr_alter; [by eapply lookup_lt_Some|]. wp_step.
  assert (table_inv (alter (set_state PROCESS_ZOMBIE) c (process_table s)) (next_pid s) c) as Hinv'.
  { eapply ti_update; [exact Hinv|exact Hpc|congruence|done..]. }
  assert (alter (set_state PROCESS_ZOMBIE) c (process_table s) !! c =
            Some (set_state PROCESS_ZOMBIE pc)) as Hpc'.
  { by rewrite list_lookup_alter_eq, Hpc. }
  eapply wp_mono; [eapply (pwp_schedule _ _ c); [exact Hinv'|exact Hcur|exact Hpc'|done]|].
  intros b s2 Hpost. destruct b; [|done]. wp_step. eexists _, true.
  split; [|split; [exact Hpost|done]]. split; [done|]. split; [done|]. split; [done|].
  split; [exact Hinv'|]. split.
  - cbn. intros p. rewrite Hpc'. by intros [= <-].
  - cbn. intros j Hj. by rewrite list_lookup_alter_ne.
Qed.

(** What one step does to the table. *)
Lemma os_step_cases b s s' c : os_inv s -> current_process s = Some c -> os_step b s s' ->
  if b then sched_step s c s' else os_inv s' /\ others_kept s s'.
Proof.
  intros Hinv Hc Hst. destruct Hst as [s v r|s b s' Hok|s entry nm r s' Hnp Hnm Hok|s s' Hok|s i s' Hi Hok].
  - split; [by eapply os_inv_part|by apply others_refl].
  - by eapply timer_step.
  - exact (pwp_ok _ _ _ _ _ (pwp_kthread_create sym_trampoline s entry nm Hinv Hnp Hnm) Hok).
  - by eapply exit_step.
  - exact (pwp_ok _ _ _ _ _ (pwp_process_free s i Hinv Hi) Hok).
Qed.

Lemma inv_lt s c : table_inv (process_table s) (next_pid s) c -> (c < 64)%nat.
Proof.
  intros [Hl (p & Hp & _) _ _ _ _ _]. rewrite <-Hl. by eapply lookup_lt_Some.
Qed.

Lemma sched_step_inv s c s' : sched_step s c s' -> current_process s = Some c ->
  os_inv s' /\ scheduler_enabled s' = scheduler_enabled s.
Proof.
  intros (s1 & b & (E1 & E2 & E3 & Hinv & Hnr & _) & Hpost & Hb) Hc.
  pose proof (sched_post_inv s1 c b s' Hinv (inv_lt _ _ Hinv) Hnr Hpost) as H.
  destruct b; [by rewrite <-E3|]. subst s'. split; [|done]. exists c. split; [congruence|]. auto.
Qed.

Lemma os_step_inv s s' : os_inv s -> any_step s s' ->
  os_inv s' /\ scheduler_enabled s' = scheduler_enabled s.
Proof.
  intros Hinv [b Hst]. pose proof Hinv as (c & Hc & _).
  pose proof (os_step_cases b s s' c Hinv Hc Hst) as H. destruct b.
  - by eapply sched_step_inv.
  - destruct H as (? & _ & ? & _). done.
Qed.

Lemma os_run_inv s s' : rtc any_step s s' -> os_inv s ->
  os_inv s' /\ scheduler_enabled s' = scheduler_enabled s.
Proof.
  induction 1 as [|s s1 s' Hst _ IH]; intros Hinv; [done|].
  destruct (os_step_inv _ _ Hinv Hst) as [H1 E1]. destruct (IH H1) as [H2 E2]. split; [done|congruence].
Qed.

(** ** Fairness *)

Definition is_ready (s : osys) (j : nat) : Prop := states s !! j = Some PROCESS_READY.

Lemma is_ready_alt s j : is_ready s j <->
  exists p, process_table s !! j = Some p /\ state p = PROCESS_READY.
Proof.
  unfold is_ready, states. rewrite list_lookup_fmap.
  destruct (process_table s !! j) as [p|]; cbn; split.
  - intros [= E]. by exists p.
  - by intros (q & [= <-] & ->).
  - done.
  - by intros (q & ? & _).
Qed.

Lemma dist_pos c j : (c < 64)%nat -> (j < 64)%nat -> c <> j -> (0 < dist c j)%nat.
Proof.
  intros Hc Hj Hne. destruct (decide (dist c j = 0)%nat) as [E|]; [|lia]. exfalso. apply Hne.
  rewrite <-(after_dist c j) by done. rewrite E, Nat.add_0_r. symmetry. by apply Nat.mod_small.
Qed.

(** A call of [schedule] picks a READY process or brings its turn nearer. *)
Lemma sched_progress s c s' j : sched_step s c s' -> scheduler_enabled s = true ->
  is_ready s j -> j <> c ->
  exists n, current_process s' = Some n /\ (n = j \/ (is_ready s' j /\ (dist n j < dist c j)%nat)).
Proof.
  intros (s1 & b & (E1 & E2 & E3 & Hinv & Hnr & Hrest) & Hpost & Hb) Hen Hj Hne.
  pose proof (inv_lt _ _ Hinv) as Hc. pose proof (ti_len _ _ _ Hinv) as Hl.
  apply is_ready_alt in Hj as (p & Hp & Hr). rewrite <-(Hrest j Hne) in Hp.
  assert (states s1 !! j = Some PROCESS_READY) as Hj1.
  { unfold states. rewrite list_lookup_fmap, Hp. cbn. by rewrite Hr. }
  destruct b.
  2:{ destruct Hpost as [_ Hn]. specialize (Hn ltac:(congruence)).
      by destruct (proj1 (rr_next_none _ c Hc (states_length _ Hl)) Hn j). }
  destruct Hpost as (n & sp & En & Hpart). unfold proc_part in Hpart. injection Hpart as Et _ Ec _.
  exists n. split; [done|]. destruct (decide (n = j)) as [->|Hnj]; [by left|right].
  destruct (rr_next_ready s1 c n Hl Hc En) as (pn & Hpn & Hrn).
  assert (c <> n) as Hcn by (intros <-; by apply (Hnr pn)).
  assert (j < 64)%nat as Hj64 by (rewrite <-Hl; by eapply lookup_lt_Some).
  assert (n < 64)%nat as Hn64 by (rewrite <-Hl; by eapply lookup_lt_Some).
  apply rr_next_some in En as [_ Hmin]; [|done|by apply states_length]. specialize (Hmin j Hj1).
  split.
  - apply is_ready_alt. exists p. split; [|done]. rewrite Et. unfold dispatch.
    by rewrite !list_lookup_alter_ne by done.
  - rewrite (dist_step c n j) by done. pose proof (dist_pos c n Hc Hn64 Hcn). lia.
Qed.

Lemma step_progress b s s' c j : os_inv s -> scheduler_enabled s = true ->
  current_process s = Some c -> os_step b s s' -> is_ready s j -> used s' j ->
  exists n, current_process s' = Some n /\
    (n = j \/ (is_ready s' j /\ if b then (dist n j < dist c j)%nat else n = c)).
Proof.
  intros Hinv Hen Hc Hst Hj Hu. pose proof (os_step_cases b s s' c Hinv Hc Hst) as H. destruct b.
  - eapply sched_progress; [done|done|done|]. intros ->.
    destruct Hinv as (c' & Hc' & _ & (pc & Hpc & Hr)). assert (c' = c) as -> by congruence.
    apply is_ready_alt in Hj as (p & Hp & Hpr). congruence.
  - destruct H as (_ & Ecur & _ & Hkeep). exists c. split; [congruence|]. right. split; [|done].
    apply is_ready_alt in Hj as (p & Hp & Hr). destruct Hu as (q & Hq & Hqu).
    apply is_ready_alt. exists q. split; [done|].
    by rewrite (Hkeep j p q Hp Hq ltac:(congruence) Hqu).
Qed.

(** A run as the list of its steps; [calls] counts the calls of [schedule]. *)
Inductive os_trace : osys -> list (bool * osys) -> Prop :=
  | trace_nil s : os_trace s []
  | trace_cons b s s' l : os_step b s s' -> os_trace s' l -> os_trace s ((b, s') :: l).

Fixpoint calls (l : list (bool * osys)) : nat :=
  match l with [] => 0 | (b, _) :: r => (if b then 1 else 0) + calls r end.

Lemma trace_reaches s j l c : os_trace s l -> os_inv s -> scheduler_enabled s = true ->
  current_process s = Some c -> is_ready s j -> Forall (fun x => used x.2 j) l ->
  (dist c j <= calls l)%nat -> Exists (fun x => current_process x.2 = Some j) l.
Proof.
  intros Htr. revert c. induction Htr as [s|b s s' l Hst _ IH]; intros c Hinv Hen Hc Hj Hused Hcalls.
  - exfalso. destruct Hinv as (c' & Hc' & Hti & (pc & Hpc & Hr)). assert (c' = c) as -> by congruence.
    apply is_ready_alt in Hj as (p & Hp & Hpr).
    pose proof (dist_pos c j (inv_lt _ _ Hti)) as Hd. cbn [calls] in Hcalls.
    assert (j < 64)%nat by (rewrite <-(ti_len _ _ _ Hti); by eapply lookup_lt_Some).
    enough (0 < dist c j)%nat by lia. apply Hd; [done|]. congruence.
  - apply Forall_cons in Hused as [Hu Hused]. cbn in Hu.
    destruct (step_progress b s s' c j Hinv Hen Hc Hst Hj Hu) as (n & Hn & [->|[Hj' Hd]]); [by left|right].
    destruct (os_step_inv s s' Hinv) as [Hinv' Hen']; [by exists b|].
    apply (IH n); [done|congruence|done|done|done|]. cbn [calls] in Hcalls. destruct b; [lia|]. by subst n.
Qed.

(** ** The choice and the switch *)

Section Schedule.
Context {WL : WordMemLaws hsys}.

(** The registers that five words on a stack stand for. *)
Definition saved_cpu (h : hsys) (sp : Z) : cpu :=
  Cpu (rd h sp) (rd h (sp + 4)) (rd h (sp + 8)) (rd h (sp + 12)) (sp + 20) (rd h (sp + 16)).

Definition frame_valid (h : hsys) (sp : Z) : Prop :=
  (0 <= sp /\ sp + 20 < 4294967296) /\ forall k, 0 <= k < 5 -> valid h (sp + 4 * k).

Lemma frame_valid_at h sp : frame_valid h sp -> frame_at h sp (saved_cpu h sp) (rd h (sp + 16)).
Proof. intros [Hr Hv]. by split. Qed.

(** Two pieces of stack of five words do not overlap. *)
Definition apart (sp sp' : Z) : Prop := sp + 20 <= sp' \/ sp' + 20 <= sp.

(** The effect of [schedule] that switches from [c] to [n], whose stack pointer was [sp]. *)
Definition switched (s : osys) (c n : nat) (sp : Z) (s' : osys) : Prop :=
  process_table s' =
    alter (set_esp (esp (regs s) - 20)) c (dispatch c n (process_table s)) /\
  current_process s' = Some n /\ next_pid s' = next_pid s /\ timer_ticks s' = timer_ticks s /\
  scheduler_enabled s' = scheduler_enabled s /\
  regs s' = saved_cpu (hs s) sp /\
  frame_at (hs s') (esp (regs s) - 20) (regs s) ret_schedule /\
  (forall b, valid (hs s) b -> valid (hs s') b) /\
  (forall sp' c' ra', frame_at (hs s) sp' c' ra' -> apart sp' (esp (regs s) - 20) -> frame_at (hs s') sp' c' ra').

Lemma schedule_wp s c : table_inv (process_table s) (next_pid s) c -> current_process s = Some c ->
  running (process_table s) c -> scheduler_enabled s = true -> cpu32 (regs s) ->
  is32 ret_schedule -> stack_room (hs s) (esp (regs s)) ->
  (forall n p, rr_next (states s) c = Some n -> process_table s !! n = Some p ->
     frame_valid (hs s) (kernel_esp p) /\ apart (kernel_esp p) (esp (regs s) - 20)) ->
  wp (schedule ret_schedule) s (fun b s' =>
    match rr_next (states s) c with
    | None => b = false /\ s' = s
    | Some n => b = true /\ exists p, process_table s !! n = Some p /\
                  switched s c n (kernel_esp p) s'
    end).
Proof.
  intros Hinv Hcur (pc & Hpc & Hst) Hen Hcpu Hra Hroom Hnext.
  eapply (wp_schedule _ s c pc); [done|done|done|congruence|congruence| |].
  - intros _ ->. done.
  - intros n p _ En Hp Hr Hne. rewrite En. destruct (Hnext n p En Hp) as [Hf Hap].
    pose proof (frame_valid_at _ _ Hf) as Hfr.
    assert (dispatch c n (process_table s) !! c = Some (demote pc)) as Hc'.
    { unfold dispatch. by rewrite list_lookup_alter_ne, list_lookup_alter_eq, Hpc by done. }
    eapply wp_context_switch; [exact Hc'|exact Hcpu|exact Hra|exact Hroom|exact Hfr| |].
    { unfold apart in Hap. cbn [regs set_current_process set_table]. lia. }
    intros h' Hw. split; [done|]. exists p. split; [done|].
    assert (<[c := set_esp (esp (regs s) - 20) (demote pc)]> (dispatch c n (process_table s)) =
            alter (set_esp (esp (regs s) - 20)) c (dispatch c n (process_table s))) as E.
    { apply list_eq. intros j. destruct (decide (c = j)) as [<-|Hj].
      - rewrite list_lookup_alter_eq, Hc', list_lookup_insert_eq; [done|]. by eapply lookup_lt_Some.
      - by rewrite list_lookup_alter_ne, list_lookup_insert_ne. }
    split; [exact E|]. do 5 (split; [done|]). split.
    { apply (frame_pushed (hs s) []); [done|]. by rewrite app_nil_r. }
    split; [intros b; apply (wr_valid _ _ _ Hw)|]. intros sp' c' ra' Hf' Hap'.
    eapply frame_writes; [exact Hf'|exact Hw|]. unfold apart in Hap'. unfold pushed.
    repeat (apply Forall_cons; split; [cbn; lia|]). by apply Forall_nil.
Qed.
End Schedule.

(** Looking a process up by its identifier. *)
Lemma process_get_run s id : table_ok s -> wp (process_get id) s (fun r s' => s' = s /\
  match r with
  | Some i => exists p, process_table s !! i = Some p /\ state p <> PROCESS_UNUSED /\ pid p = id
  | None => forall i p, process_table s !! i = Some p -> state p <> PROCESS_UNUSED -> pid p <> id
  end).
Proof.
  intros Hl. unfold process_get.
  set (f := fun i => match process_table s !! i with
                     | Some p => negb (bool_decide (state p = PROCESS_UNUSED)) && (pid p =? id)
                     | None => false
                     end).
  apply (wp_scan_table _ f).
  - intros i Hi. destruct (table_lookup s i Hl Hi) as [p Hp]. unfold bind.
    rewrite (rd_proc_run i p) by done. unfold f, ret. by rewrite Hp.
  - split; [done|]. destruct (first_below f 64) as [i|] eqn:E.
    + apply first_below_some in E as (_ & Hf & _). unfold f in Hf.
      destruct (process_table s !! i) as [p|]; [|done]. apply andb_true_iff in Hf as [H1 H2].
      exists p. split; [done|]. apply negb_true_iff, bool_decide_eq_false in H1. bools. done.
    + intros i p Hp Hu Hid. assert (i < 64)%nat as Hi by (rewrite <-Hl; by eapply lookup_lt_Some).
      pose proof (proj1 (first_below_none f 64) E i Hi) as Hf. unfold f in Hf. rewrite Hp in Hf.
      rewrite (bool_decide_eq_false_2 _ Hu), (proj2 (Z.eqb_eq _ _) Hid) in Hf. done.
Qed.

(** ** Claims *)

(** C12: [process_init] returns, and in every run after it (threads running, timer ticks,
    creations, exits and releases in any order) exactly one process is RUNNING, it is the
    current one, process identifiers are distinct and below the counter, slot 0 holds PID 0
    and every process runs in the kernel's page directory. *)
Theorem process_table_runs s0 : table_ok s0 ->
  exists s, process_init s0 = Ok tt s /\
    forall s', rtc any_step s s' -> os_inv s' /\
      forall j p, process_table s' !! j = Some p ->
        (state p = PROCESS_RUNNING <-> current_process s' = Some j).
Proof.
  intros Hl. pose proof (process_init_wp s0 Hl) as W.
  apply wp_ok in W as ([] & s & E & Hpart & _). exists s. split; [done|]. intros s' Hrun.
  injection Hpart as E1 E2 E3 _.
  assert (os_inv s) as Hinv.
  { exists 0%nat. rewrite E1, E2. split; [done|]. split; [apply init_table_inv|]. by exists kernel_pcb. }
  destruct (os_run_inv s s' Hrun Hinv) as [Hinv' _]. split; [done|].
  destruct Hinv' as (c & Hc & Hti & (pc & Hpc & Hr)). intros j p Hp. rewrite Hc. split.
  - intros Hr'. f_equal. symmetry. by apply (ti_one _ _ _ Hti j p).
  - intros [= <-]. congruence.
Qed.

(** C11: fairness.  A READY process that is not released becomes the current one within as
    many calls of [schedule] as there are slots from the current one to it on the circle, 63
    at most, whatever else happens in the run. *)
Theorem schedule_fair s c j l : os_inv s -> scheduler_enabled s = true ->
  current_process s = Some c -> is_ready s j -> os_trace s l ->
  Forall (fun x => used x.2 j) l -> (dist c j <= calls l)%nat ->
  (dist c j <= 63)%nat /\ Exists (fun x => current_process x.2 = Some j) l.
Proof.
  intros Hinv Hen Hc Hj Htr Hu Hle. pose proof (dist_lt c j). split; [lia|].
  by apply (trace_reaches s j l c).
Qed.

(** C4: [schedule] implements round robin.  With a READY process in the table it gives the
    processor to the one with the nearest slot after the current one: that one becomes
    RUNNING and current, the old one READY, the registers are those the new one saved and
    the old ones are saved on the old stack.  With none it changes nothing. *)
Theorem schedule_refines {WL : WordMemLaws hsys} s c :
  table_inv (process_table s) (next_pid s) c -> current_process s = Some c ->
  running (process_table s) c -> scheduler_enabled s = true -> cpu32 (regs s) ->
  is32 ret_schedule -> stack_room (hs s) (esp (regs s)) ->
  (forall n p, rr_next (states s) c = Some n -> process_table s !! n = Some p ->
     frame_valid (hs s) (kernel_esp p) /\ apart (kernel_esp p) (esp (regs s) - 20)) ->
  wp (schedule ret_schedule) s (fun b s' =>
    match rr_next (states s) c with
    | None => b = false /\ s' = s
    | Some n => b = true /\
        (forall j, is_ready s j -> (dist c n <= dist c j)%nat) /\
        exists p, process_table s !! n = Some p /\ switched s c n (kernel_esp p) s'
    end).
Proof.
  intros Hinv Hcur Hrun Hen Hcpu Hra Hroom Hnext.
  eapply wp_mono; [by apply schedule_wp|]. intros b s'.
  destruct (rr_next (states s) c) as [n|] eqn:En; [|done]. intros [-> Hsw]. split; [done|].
  split; [|done]. apply rr_next_some in En as [_ Hmin]; [done|by eapply inv_lt|].
  apply states_length, (ti_len _ _ _ Hinv).
Qed.

(** A process that is switched away from continues as if nothing had happened.  Once
    [context_switch] has saved it, any switch to its saved stack pointer, from a state where
    its five saved words are still there, gives back its registers, its stack pointer and the
    address after its call. *)
Theorem context_switch_roundtrip {WL : WordMemLaws hsys} old new_esp s p c' ra' :
  process_table s !! old = Some p -> cpu32 (regs s) -> is32 ret_schedule ->
  stack_room (hs s) (esp (regs s)) -> frame_at (hs s) new_esp c' ra' ->
  apart new_esp (esp (regs s) - 20) ->
  wp (context_switch ret_schedule old new_esp) s (fun _ s1 =>
    regs s1 = resumed new_esp c' ra' /\
    forall s2 old2 p2 q, process_table s1 !! old = Some q ->
      (forall k, 0 <= k < 5 -> let b := esp (regs s) - 20 + 4 * k in
         valid (hs s2) b /\ rd (hs s2) b = rd (hs s1) b) ->
      process_table s2 !! old2 = Some p2 -> cpu32 (regs s2) ->
      stack_room (hs s2) (esp (regs s2)) -> apart (esp (regs s) - 20) (esp (regs s2) - 20) ->
      wp (context_switch ret_schedule old2 (kernel_esp q)) s2 (fun _ s3 =>
        regs s3 = Cpu (edi (regs s)) (esi (regs s)) (ebx (regs s)) (ebp (regs s)) (esp (regs s))
                      ret_schedule)).
Proof.
  intros Hp Hcpu Hra Hroom Hf Hap. unfold apart in *.
  eapply wp_context_switch; [done|done|done|done|exact Hf|lia|]. intros h' Hw. split; [done|].
  intros s2 old2 p2 q Hq Hkept Hp2 Hcpu2 Hroom2 Hap2.
  cbn in Hq. rewrite list_lookup_insert_eq in Hq by (by eapply lookup_lt_Some).
  injection Hq as <-. cbn [kernel_esp set_esp].
  assert (frame_at h' (esp (regs s) - 20) (regs s) ret_schedule) as Hfr.
  { apply (frame_pushed (hs s) []); [done|]. by rewrite app_nil_r. }
  assert (frame_at (hs s2) (esp (regs s) - 20) (regs s) ret_schedule) as Hfr2.
  { destruct Hfr as [Hr Hv E0 E1 E2 E3 E4]. change (hs (cfg h' _ _)) with h' in Hkept.
    split; [done| |rewrite <-E0; destruct (Hkept 0 ltac:(lia)) as [_ H]; by rewrite !Z.add_0_r in H
           |rewrite <-E1; by apply (Hkept 1)|rewrite <-E2; by apply (Hkept 2)
           |rewrite <-E3; by apply (Hkept 3)|rewrite <-E4; by apply (Hkept 4)].
    intros k Hk. by apply Hkept. }
  eapply wp_context_switch; [exact Hp2|done|done|done|exact Hfr2|lia|]. intros h3 _. cbn.
  unfold resumed. f_equal. lia.
Qed.
End SchedSpec.

Section Threads.
Context {L : Layout} {LOk : LayoutOk L}.
Context (ret_schedule sym_trampoline : Z).

(** C18: [kthread_create] takes the first unused slot and the next identifier, puts a stack
    of its own into memory that was in no allocated block, leaves every other block's
    contents alone, and fills the top of the stack so that [context_switch] resumes at the
    trampoline with the entry function in EBX.  It returns [NULL] when there is no slot, and
    nothing but the output has changed, or when the heap has no room and cannot grow: then
    the heap's blocks are as before, the slot is still unused but cleared, and its
    identifier is spent.  Like every allocation it is stated for a heap that has room or may
    grow ([can_grow]: not beyond the page tables at 0xC1000000). *)
Theorem kthread_create_starts s bs c pc entry nm : table_ok s -> current_process s = Some c ->
  process_table s !! c = Some pc -> state pc <> PROCESS_UNUSED -> cstring nm ->
  heap_inv (hs s) bs ->
  (alloc_list HEAP_START_ADDR bs (round8 (KERNEL_STACK_SIZE + PAGE_SIZE)) = None ->
     can_grow (hs s) (growth (KERNEL_STACK_SIZE + PAGE_SIZE))) ->
  is32 entry -> is32 sym_trampoline ->
  wp (kthread_create sym_trampoline entry nm) s
     (thread_post sym_trampoline entry nm s bs (pid pc)).
Proof. apply kthread_create_wp. Qed.

(** Memory after interrupts have been disabled. *)
Definition say_cli (h : hsys) : hsys :=
  update h_lens (set_hw (emitted [Cli] (g_hw (h_g h))) (h_g h)) h.

Lemma wp_o_cli s (Q : unit -> osys -> Prop) E :
  Q tt (put (say_cli (hs s)) s) -> wpe (o_hw (emit Cli)) s Q E.
Proof. done. Qed.

(** A thread that exits when no process is READY stops the machine: it is a zombie,
    interrupts have been disabled, and the processor halts without another tick. *)
Theorem kthread_exit_halts s c : os_inv s -> current_process s = Some c ->
  (forall j, states s !! j <> Some PROCESS_READY) ->
  exists s', kthread_exit ret_schedule s = Stop Halted s' /\
    states s' !! c = Some PROCESS_ZOMBIE /\
    exists t, trace (g_hw (h_g (hs s'))) = t ++ Cli :: trace (g_hw (h_g (hs s))) /\ ~ In Sti t.
Proof.
  intros (c' & Hcur & Hinv & Hrun) Hc Hnone. assert (c' = c) as -> by congruence.
  pose proof Hrun as (pc & Hpc & Hst). pose proof (inv_lt _ _ Hinv) as Hlt.
  set (post := fun e s' => e = Halted /\ states s' !! c = Some PROCESS_ZOMBIE /\
    exists t, trace (g_hw (h_g (hs s'))) = t ++ Cli :: trace (g_hw (h_g (hs s))) /\ ~ In Sti t).
  enough (wpe (kthread_exit ret_schedule) s (fun _ _ => False) post) as W.
  { unfold wpe in W. destruct (kthread_exit ret_schedule s) as [|e s']; [done|].
    destruct W as [-> W]. by exists s'. }
  unfold kthread_exit. wp_step. apply wp_o_cli. wp_step. unfold process_current. wp_step.
  change (current_process (put (say_cli (hs s)) s)) with (current_process s). rewrite Hcur. wp_step. wp_step.
  eapply wp_rd_proc; [exact Hpc|]. wp_step. apply wp_o_kprintf.
  apply wp_wr_alter; [by eapply lookup_lt_Some|]. wp_step.
  set (t := alter (set_state PROCESS_ZOMBIE) c (process_table s)).
  assert (table_inv t (next_pid s) c) as Hinv'.
  { eapply ti_update; [exact Hinv|exact Hpc|congruence|done..]. }
  assert (t !! c = Some (set_state PROCESS_ZOMBIE pc)) as Hpc'.
  { unfold t. by rewrite list_lookup_alter_eq, Hpc. }
  assert (forall j, (state <$> t) !! j <> Some PROCESS_READY) as Hnone'.
  { intros j. rewrite list_lookup_fmap. unfold t. destruct (decide (c = j)) as [<-|Hj].
    - by rewrite list_lookup_alter_eq, Hpc.
    - rewrite list_lookup_alter_ne by done. specialize (Hnone j). unfold states in Hnone.
      by rewrite list_lookup_fmap in Hnone. }
  assert (post Halted (put (say ("[KTHREAD] '%s' (PID %u) exited" +:+ nl)
    [KStr (c_string (name pc)); KInt (pid pc)] (say_cli (hs s))) (set_table t s))) as Hpost.
  { split; [done|]. split; [unfold states; cbn; by rewrite list_lookup_fmap, Hpc'|].
    eexists [_]. split; [reflexivity|]. intros [H|[]]. discriminate H. }
  eapply (wp_schedule _ _ c); [exact Hinv'|exact Hcur|exact Hpc'|done| | |].
  - intros _. wp_step. exact Hpost.
  - intros _ _. wp_step. exact Hpost.
  - intros n pn _ En. exfalso.
    assert (length (state <$> t) = 64%nat) as Hl' by (rewrite length_fmap; apply (ti_len _ _ _ Hinv')).
    pose proof (proj2 (rr_next_none (state <$> t) c Hlt Hl') Hnone') as En'.
    change (rr_next (state <$> t) c = Some n) in En. congruence.
Qed.
End Threads.

(** ** Witnesses *)

#[local] Existing Instance demo_layout.

Definition demo_vmm : vsys :=
  Vsys demo_heap (replicate 256 (Region 0 0 0 REGION_FREE None)) 0 (Space 0 None 0) ∅ None false.
Definition demo_os0 : osys :=
  Osys demo_vmm (replicate 64 zero_pcb) 0 None false 0 (Cpu 1 2 3 4 0xC0380000 0).

Definition demo_ret : Z := 0xC0101000.
Definition demo_trampoline : Z := 0xC0102000.
Definition demo_entry : Z := 0xC0103000.
Definition demo_name : list Z := bytes_of "worker".

(** The scheduler on, after [process_init] and one [kthread_create]. *)
Definition demo_os1 : osys := final (process_init demo_os0).
Definition demo_os2 : osys := final (kthread_create demo_trampoline demo_entry demo_name demo_os1).
Definition demo_os : osys := final (scheduler_init demo_os2).

Definition is_ok {S A} (r : result S A) : bool := match r with Ok _ _ => true | Stop _ _ => false end.

Lemma final_ok {S A} (m : M S A) s : is_ok (m s) = true -> exists a, m s = Ok a (final (m s)).
Proof. destruct (m s); [by eauto|done]. Qed.

(** One tick on the machine. *)
Definition demo_tick : osys := final (timer_handler demo_ret demo_os).

Lemma demo_run : is_ok (process_init demo_os0) = true /\
  is_ok (kthread_create demo_trampoline demo_entry demo_name demo_os1) = true /\
  is_ok (timer_handler demo_ret demo_os) = true /\
  take 3 (states demo_os) = [PROCESS_RUNNING; PROCESS_READY; PROCESS_UNUSED] /\
  take 3 (states demo_tick) = [PROCESS_READY; PROCESS_RUNNING; PROCESS_UNUSED] /\
  (next_pid demo_os1, current_process demo_os, scheduler_enabled demo_os) = (1, Some 0%nat, true) /\
  regs demo_tick = Cpu 0 0 demo_entry 0 0xC0402FFC demo_trampoline /\
  heap_end (hs demo_os) = 0xC0500000 /\ rr_next (states demo_os) 0 = Some 1%nat /\
  kernel_esp <$> process_table demo_os !! 1%nat = Some 0xC0402FE8.
Proof. vm_compute. repeat split. Qed.

Lemma wp_final_ex {S A} (m : M S A) s (Q : A -> S -> Prop) :
  wp m s Q -> exists a, Q a (final (m s)).
Proof. unfold wpe. destruct (m s); [by eauto|done]. Qed.

Lemma proc_part_inv s t n c e : proc_part s = (t, n, c, e) ->
  process_table s = t /\ next_pid s = n /\ current_process s = c /\ scheduler_enabled s = e.
Proof. by intros [= -> -> -> ->]. Qed.

Lemma demo_os1_part : proc_part demo_os1 = (kernel_pcb :: replicate 63 zero_pcb, 1, Some 0%nat, false) /\
  exists fmt args, hs demo_os1 = say fmt args demo_heap.
Proof.
  destruct (wp_final _ _ _ (process_init_wp demo_os0 eq_refl)) as [Hp (fmt & args & Ev)].
  split; [exact Hp|]. exists fmt, args. exact (f_equal v_h Ev).
Qed.

#[global] Opaque demo_os1.

Lemma say_end fmt args h : heap_end (say fmt args h) = heap_end h.
Proof. done. Qed.
Lemma say_max fmt args h : heap_max (say fmt args h) = heap_max h.
Proof. done. Qed.

Lemma demo_stack_grow fmt args :
  can_grow (say fmt args demo_heap) (growth (KERNEL_STACK_SIZE + PAGE_SIZE)).
Proof.
  unfold can_grow. rewrite say_end, say_max, demo_heap_end. split; [by vm_compute|left; by vm_compute].
Qed.

Lemma demo_name_ok : cstring demo_name.
Proof. split; [|done]. unfold demo_name. vm_compute. repeat constructor; done. Qed.

Lemma demo_entry32 : is32 demo_entry.
Proof. unfold is32, demo_entry. lia. Qed.

Lemma demo_trampoline32 : is32 demo_trampoline.
Proof. unfold is32, demo_trampoline. lia. Qed.

Lemma demo_os2_post : exists r, thread_post demo_trampoline demo_entry demo_name demo_os1 init_blocks 0 r demo_os2.
Proof.
  destruct demo_os1_part as [(E1 & E2 & E3 & _)%proc_part_inv (fmt & args & Eh)].
  destruct (say_inv demo_heap init_blocks fmt args demo_heap_inv) as [Hinv _].
  unfold demo_os2. apply wp_final_ex.
  apply (kthread_create_wp demo_trampoline demo_os1 init_blocks 0%nat kernel_pcb).
  - unfold table_ok. by rewrite E1.
  - exact E3.
  - by rewrite E1.
  - discriminate.
  - exact demo_name_ok.
  - by rewrite Eh.
  - rewrite Eh. exact (fun _ => demo_stack_grow fmt args).
  - exact demo_entry32.
  - exact demo_trampoline32.
Qed.

Lemma demo_os_heap : exists bs, heap_inv (hs demo_os) bs.
Proof.
  destruct demo_os2_post as (r & bs & Hinv & _). exists bs.
  apply (proj1 (say_inv _ _ _ _ Hinv)).
Qed.

Lemma init_inv s e : proc_part s = (kernel_pcb :: replicate 63 zero_pcb, 1, Some 0%nat, e) -> os_inv s.
Proof.
  intros (E1 & E2 & E3 & _)%proc_part_inv. exists 0%nat. rewrite E1, E2. split; [done|].
  split; [apply init_table_inv|]. by exists kernel_pcb.
Qed.

Lemma init_no_ready s e : proc_part s = (kernel_pcb :: replicate 63 zero_pcb, 1, Some 0%nat, e) ->
  forall j, states s !! j <> Some PROCESS_READY.
Proof.
  intros (E1 & _)%proc_part_inv j. unfold states. rewrite E1, list_lookup_fmap.
  destruct j as [|j]; [done|]. change ((kernel_pcb :: replicate 63 zero_pcb) !! S j) with (replicate 63 zero_pcb !! j).
  destruct (replicate 63 zero_pcb !! j) as [p|] eqn:E; [|done].
  apply lookup_replicate_1 in E as [-> _]. done.
Qed.

Lemma scheduler_init_inv s : os_inv s -> os_inv (final (scheduler_init s)).
Proof. done. Qed.

Lemma create_inv s : is_ok (kthread_create demo_trampoline demo_entry demo_name s) = true ->
  next_pid s = 1 -> os_inv s -> os_inv (final (kthread_create demo_trampoline demo_entry demo_name s)).
Proof.
  intros Hok Hn Hinv. destruct (final_ok _ _ Hok) as [r E].
  refine (proj1 (pwp_ok _ _ _ _ _ (pwp_kthread_create demo_trampoline s demo_entry demo_name Hinv _ _) E)).
  - rewrite Hn. done.
  - exact demo_name_ok.
Qed.

Lemma demo_os_inv : os_inv demo_os.
Proof.
  destruct demo_os1_part as [Hp _]. pose proof (init_inv _ _ Hp) as H1.
  destruct (proc_part_inv _ _ _ _ _ Hp) as (_ & E2 & _).
  unfold demo_os. apply scheduler_init_inv. unfold demo_os2. apply create_inv; [|exact E2|exact H1].
  exact (proj1 (proj2 demo_run)).
Qed.

Lemma no_ready_insert s i q t j p : process_table s = <[i := q]> t ->
  (forall j p, t !! j = Some p -> state p <> PROCESS_READY) ->
  process_table s !! j = Some p -> state p = PROCESS_READY -> j = i.
Proof.
  intros -> Ht Hp Hr. destruct (decide (j = i)) as [|Hj]; [done|]. rewrite list_lookup_insert_ne in Hp by done.
  by destruct (Ht j p Hp).
Qed.

Lemma scheduler_init_table s : process_table (final (scheduler_init s)) = process_table s.
Proof. done. Qed.

(** The new thread is the only one that waits. *)
Lemma demo_os_ready j p : process_table demo_os !! j = Some p -> state p = PROCESS_READY -> j = 1%nat.
Proof.
  destruct demo_os1_part as [(E1 & _)%proc_part_inv _].
  assert (process_table demo_os = process_table demo_os2) as -> by apply scheduler_init_table.
  assert (forall j p, process_table demo_os1 !! j = Some p -> state p <> PROCESS_READY) as Hnone.
  { rewrite E1. intros [|k] q; [by intros [= <-]|]. intros H.
    apply (lookup_replicate_1 63 zero_pcb) in H as [-> _]. discriminate. }
  assert (unused_slot (process_table demo_os1) = Some 1%nat) as Hun by (by rewrite E1).
  destruct demo_os2_post as (r & bs & _ & _ & _ & _ & Hr). destruct r as [i|].
  - destruct Hr as (Hi & _ & k & _ & Et & _). rewrite Hun in Hi. injection Hi as <-.
    by apply (no_ready_insert _ _ _ _ _ _ Et Hnone).
  - destruct Hr as (_ & _ & Est & _). intros Hp Hr. exfalso. apply (lookup_lt_Some _ _ _) in Hp as Hlt.
    assert (states demo_os2 !! j = Some PROCESS_READY) as Hj.
    { unfold states. rewrite list_lookup_fmap, Hp. cbn. by rewrite Hr. }
    rewrite Est in Hj. unfold states in Hj. rewrite list_lookup_fmap in Hj.
    destruct (process_table demo_os1 !! j) as [q|] eqn:Hq; [|done]. injection Hj as Hj. by destruct (Hnone j q Hq).
Qed.

#[global] Opaque demo_os2 demo_os demo_tick.

Lemma state_used s j st : states s !! j = Some st -> st <> PROCESS_UNUSED -> used s j.
Proof.
  unfold states. rewrite list_lookup_fmap. destruct (process_table s !! j) as [p|] eqn:E; [|done].
  intros [= <-] H. by exists p.
Qed.

Lemma take_state s k l j : take k (states s) = l -> (j < k)%nat -> states s !! j = l !! j.
Proof. intros <- H. by rewrite lookup_take_lt. Qed.

Lemma demo_states : is_ready demo_os 1 /\ used demo_tick 1 /\
  current_process demo_os = Some 0%nat /\ scheduler_enabled demo_os = true.
Proof.
  destruct demo_run as (_ & _ & _ & E1 & E2 & E3 & _ & _). split.
  { unfold is_ready. rewrite (take_state _ _ _ 1 E1) by lia. reflexivity. }
  split.
  { eapply state_used; [rewrite (take_state _ _ _ 1 E2) by lia; reflexivity|]. discriminate. }
  exact (conj (f_equal (fun x => snd (fst x)) E3) (f_equal snd E3)).
Qed.

Lemma demo_tick_step : os_step demo_ret demo_trampoline true demo_os demo_tick.
Proof.
  destruct (final_ok _ _ (proj1 (proj2 (proj2 demo_run)))) as [b E].
  exact (step_tick demo_ret demo_trampoline demo_os b demo_tick E).
Qed.

Lemma process_table_runs_witness :
  exists s, process_init demo_os0 = Ok tt s /\
    forall s', rtc (any_step demo_ret demo_trampoline) s s' -> os_inv s' /\
      forall j p, process_table s' !! j = Some p ->
        (state p = PROCESS_RUNNING <-> current_process s' = Some j).
Proof. exact (process_table_runs demo_ret demo_trampoline demo_os0 eq_refl). Defined.

Lemma schedule_fair_witness :
  (dist 0 1 <= 63)%nat /\ Exists (fun x => current_process x.2 = Some 1%nat) [(true, demo_tick)].
Proof.
  destruct demo_states as (H1 & H2 & H3 & H4).
  apply (schedule_fair demo_ret demo_trampoline demo_os 0 1 [(true, demo_tick)] demo_os_inv H4 H3 H1).
  - apply trace_cons; [exact demo_tick_step|apply trace_nil].
  - apply Forall_cons. split; [exact H2|apply Forall_nil; exact I].
  - vm_compute. apply le_n.
Defined.

Lemma kthread_exit_halts_witness :
  exists s', kthread_exit demo_ret demo_os1 = Stop Halted s' /\
    states s' !! 0%nat = Some PROCESS_ZOMBIE /\
    exists t, trace (g_hw (h_g (hs s'))) = t ++ Cli :: trace (g_hw (h_g (hs demo_os1))) /\ ~ In Sti t.
Proof.
  destruct demo_os1_part as [Hp _]. destruct (proc_part_inv _ _ _ _ _ Hp) as (_ & _ & E3 & _).
  exact (kthread_exit_halts demo_ret demo_os1 0%nat (init_inv _ _ Hp) E3 (init_no_ready _ _ Hp)).
Defined.

(** The same state with a stack pointer into the heap. *)
Definition demo_sched : osys := set_regs (Cpu 1 2 3 4 0xC0402000 0) demo_os.
Definition demo_laws : WordMemLaws hsys := heap_laws HEAP_START_ADDR 0xC0500000.

Lemma demo_numbers : heap_end (hs demo_os) = 0xC0500000 /\ rr_next (states demo_os) 0 = Some 1%nat /\
  kernel_esp <$> process_table demo_os !! 1%nat = Some 0xC0402FE8.
Proof. exact (proj2 (proj2 (proj2 (proj2 (proj2 (proj2 (proj2 demo_run))))))). Qed.

Lemma heap_words h bs hi sp : heap_inv h bs -> heap_end h = hi -> HEAP_START_ADDR <= sp ->
  sp + 20 <= hi -> sp mod 4 = 0 ->
  @frame_valid (heap_laws HEAP_START_ADDR hi) h sp /\ @stack_room (heap_laws HEAP_START_ADDR hi) h (sp + 20).
Proof.
  intros Hinv <- Hlo Hhi Hm. destruct (seg_bounds _ _ _ _ _ (hi_blocks _ _ Hinv) (hi_ne _ _ Hinv)) as [_ He].
  unfold HEAP_START_ADDR in Hlo.
  assert (forall k, 0 <= k < 5 -> hvalid HEAP_START_ADDR (heap_end h) h (sp + 4 * k)) as Hv.
  { intros k Hk. split; [apply Hinv|]. unfold HEAP_START_ADDR. split; [lia|].
    rewrite Z.mul_comm, Z.mod_add by lia. done. }
  split; (split; [lia|]); [exact Hv|]. intros k Hk.
  replace (sp + 20 - 20 + 4 * k) with (sp + 4 * k) by lia. by apply Hv.
Qed.

Lemma demo_words sp : HEAP_START_ADDR <= sp -> sp + 20 <= 0xC0500000 -> sp mod 4 = 0 ->
  @frame_valid demo_laws (hs demo_os) sp /\ @stack_room demo_laws (hs demo_os) (sp + 20).
Proof.
  destruct demo_os_heap as [bs Hinv]. exact (heap_words _ bs _ sp Hinv (proj1 demo_numbers)).
Qed.

Lemma demo_current : table_inv (process_table demo_os) (next_pid demo_os) 0 /\
  running (process_table demo_os) 0.
Proof.
  destruct demo_os_inv as (c & Hc & H). destruct demo_states as (_ & _ & Hc' & _).
  rewrite Hc' in Hc. injection Hc as <-. exact H.
Qed.

Lemma demo_next_at n p : rr_next (states demo_os) 0 = Some n -> process_table demo_os !! n = Some p ->
  kernel_esp p = 0xC0402FE8.
Proof.
  destruct demo_numbers as (_ & E1 & E2). rewrite E1. intros [= <-] Hp. rewrite Hp in E2.
  by injection E2.
Qed.

(** Everything but the registers is that of [demo_os]. *)
Lemma set_regs_keeps r s : process_table (set_regs r s) = process_table s /\
  next_pid (set_regs r s) = next_pid s /\ current_process (set_regs r s) = current_process s /\
  scheduler_enabled (set_regs r s) = scheduler_enabled s /\ hs (set_regs r s) = hs s /\
  states (set_regs r s) = states s /\ regs (set_regs r s) = r.
Proof. done. Qed.

Lemma demo_sched_keeps : process_table demo_sched = process_table demo_os /\
  next_pid demo_sched = next_pid demo_os /\ current_process demo_sched = current_process demo_os /\
  scheduler_enabled demo_sched = scheduler_enabled demo_os /\ hs demo_sched = hs demo_os /\
  states demo_sched = states demo_os /\ regs demo_sched = Cpu 1 2 3 4 0xC0402000 0.
Proof. exact (set_regs_keeps _ _). Qed.

#[global] Opaque demo_sched.

Lemma demo_cpu32 : cpu32 (Cpu 1 2 3 4 0xC0402000 0).
Proof. repeat split; cbn; lia. Qed.

Lemma demo_ret32 : is32 demo_ret.
Proof. unfold is32, demo_ret. lia. Qed.

Lemma demo_apart : apart 0xC0402FE8 (0xC0402000 - 20).
Proof. right. by vm_compute. Qed.

Lemma demo_room : @stack_room demo_laws (hs demo_os) 0xC0402000.
Proof. exact (proj2 (demo_words 0xC0401FEC ltac:(by vm_compute) ltac:(by vm_compute) eq_refl)). Qed.

Lemma demo_frame : @frame_valid demo_laws (hs demo_os) 0xC0402FE8.
Proof. exact (proj1 (demo_words 0xC0402FE8 ltac:(by vm_compute) ltac:(by vm_compute) eq_refl)). Qed.

Lemma schedule_refines_witness :
  wp (schedule demo_ret) demo_sched (fun b s' =>
    match rr_next (states demo_sched) 0 with
    | None => b = false /\ s' = demo_sched
    | Some n => b = true /\
        (forall j, is_ready demo_sched j -> (dist 0 n <= dist 0 j)%nat) /\
        exists p, process_table demo_sched !! n = Some p /\
          @switched demo_ret demo_laws demo_sched 0 n (kernel_esp p) s'
    end).
Proof.
  destruct demo_current as [H1 H2]. destruct demo_states as (_ & _ & H3 & H4).
  destruct demo_sched_keeps as (E1 & E2 & E3 & E4 & E5 & E6 & E7).
  apply (@schedule_refines demo_layout demo_ret demo_laws demo_sched 0).
  - rewrite E1, E2. exact H1.
  - rewrite E3. exact H3.
  - rewrite E1. exact H2.
  - rewrite E4. exact H4.
  - rewrite E7. exact demo_cpu32.
  - exact demo_ret32.
  - rewrite E5, E7. exact demo_room.
  - rewrite E1, E5, E6, E7. intros n p Hn Hp. rewrite (demo_next_at n p Hn Hp).
    exact (conj demo_frame demo_apart).
Defined.

Lemma context_switch_roundtrip_witness : exists p c' ra',
  process_table demo_sched !! 0%nat = Some p /\
  wp (context_switch demo_ret 0 0xC0402FE8) demo_sched (fun _ s1 =>
    regs s1 = resumed 0xC0402FE8 c' ra' /\
    forall s2 old2 p2 q, process_table s1 !! 0%nat = Some q ->
      (forall k, 0 <= k < 5 -> let b := esp (regs demo_sched) - 20 + 4 * k in
         demo_laws.(valid) (hs s2) b /\ demo_laws.(rd) (hs s2) b = demo_laws.(rd) (hs s1) b) ->
      process_table s2 !! old2 = Some p2 -> cpu32 (regs s2) ->
      @stack_room demo_laws (hs s2) (esp (regs s2)) ->
      apart (esp (regs demo_sched) - 20) (esp (regs s2) - 20) ->
      wp (context_switch demo_ret old2 (kernel_esp q)) s2 (fun _ s3 =>
        regs s3 = Cpu (edi (regs demo_sched)) (esi (regs demo_sched)) (ebx (regs demo_sched))
                      (ebp (regs demo_sched)) (esp (regs demo_sched)) demo_ret)).
Proof.
  destruct demo_current as [_ (p & Hp & _)].
  destruct demo_sched_keeps as (E1 & _ & _ & _ & E5 & _ & E7). rewrite <-E1 in Hp.
  exists p, (@saved_cpu demo_laws (hs demo_sched) 0xC0402FE8),
    (demo_laws.(rd) (hs demo_sched) (0xC0402FE8 + 16)).
  split; [exact Hp|].
  apply (@context_switch_roundtrip demo_ret demo_laws 0 0xC0402FE8 demo_sched p _ _ Hp).
  - rewrite E7. exact demo_cpu32.
  - exact demo_ret32.
  - rewrite E5, E7. exact demo_room.
  - apply frame_valid_at. rewrite E5. exact demo_frame.
  - rewrite E7. exact demo_apart.
Defined.

Lemma kthread_create_starts_witness :
  wp (kthread_create demo_trampoline demo_entry demo_name) demo_os1
     (thread_post demo_trampoline demo_entry demo_name demo_os1 init_blocks 0).
Proof.
  destruct demo_os1_part as [(E1 & E2 & E3 & _)%proc_part_inv (fmt & args & Eh)].
  destruct (say_inv demo_heap init_blocks fmt args demo_heap_inv) as [Hinv _].
  apply (kthread_create_starts demo_trampoline demo_os1 init_blocks 0%nat kernel_pcb).
  - unfold table_ok. rewrite E1. reflexivity.
  - exact E3.
  - rewrite E1. reflexivity.
  - discriminate.
  - exact demo_name_ok.
  - rewrite Eh. exact Hinv.
  - rewrite Eh. exact (fun _ => demo_stack_grow fmt args).
  - exact demo_entry32.
  - exact demo_trampoline32.
Defined.
