(* ===== verification/ContextSpec.v ===== *)
(** * Threads keep their registers

    An abstract machine with one saved context per thread, and the proof that the scheduler
    with its stacks in memory ([kernel/scheduler.c], [boot/context_switch.asm]) implements it
    in every run in which threads keep off each other's stacks. *)

From stdpp Require Import base gmap list numbers option strings relations.
From Stdlib Require Import ZArith Lia.
From S2P Require Import Prelude Machine Pmm Paging Boot HeapList Kheap HeapInv HeapSpec Vmm Process Scheduler.
From S2P Require Import SchedInv ProcInv ThreadInv SchedSpec.

Section Contexts.
Context {L : Layout} {WL : WordMemLaws hsys}.
(** The address after [schedule]'s call of [context_switch], and the stack of each slot. *)
Context (ret_schedule : Z) (stack : nat -> Z * Z).

Definition on_stack (j : nat) (b : Z) : Prop := (stack j).1 <= b /\ b + 4 <= (stack j).2.

(** A stack pointer of slot [j] with room for a frame. *)
Definition own_sp (j : nat) (sp : Z) : Prop := (stack j).1 + 20 <= sp <= (stack j).2 /\ sp mod 4 = 0.

Record stacks_ok : Prop := {
  st_range : forall j, 0 <= (stack j).1 /\ (stack j).2 < 4294967296;
  st_apart : forall i j, i <> j -> (stack i).2 <= (stack j).1 \/ (stack j).2 <= (stack i).1;
}.

(** ** The abstract machine *)

Record amachine := Abs {
  ab_current : nat;
  ab_states : list process_state;
  ab_regs : cpu;
  ab_saved : gmap nat cpu;
}.

(** The context of a thread that called [context_switch]. *)
Definition parked (r : cpu) : cpu := Cpu (edi r) (esi r) (ebx r) (ebp r) (esp r) ret_schedule.

Inductive abs_step : amachine -> amachine -> Prop :=
  | abs_run a r : cpu32 r -> own_sp (ab_current a) (esp r) ->
      abs_step a (Abs (ab_current a) (ab_states a) r (ab_saved a))
  | abs_stay a : rr_next (ab_states a) (ab_current a) = None -> abs_step a a
  | abs_switch a n r : rr_next (ab_states a) (ab_current a) = Some n -> ab_saved a !! n = Some r ->
      abs_step a (Abs n (<[n := PROCESS_RUNNING]> (<[ab_current a := PROCESS_READY]> (ab_states a))) r
                      (<[ab_current a := parked (ab_regs a)]> (ab_saved a))).

(** ** The machine

    A thread changes registers and memory, but no word of another thread's stack; the timer
    calls [schedule]. *)
Inductive cstep : osys -> osys -> Prop :=
  | c_run s c h r : current_process s = Some c -> cpu32 r -> own_sp c (esp r) ->
      (forall b, valid (hs s) b -> valid h b) ->
      (forall j b, j <> c -> on_stack j b -> valid (hs s) b -> rd h b = rd (hs s) b) ->
      cstep s (cfg h r s)
  | c_schedule s b s' : schedule ret_schedule s = Ok b s' -> cstep s s'.

(** ** The simulation *)

(** The stack of [j] holds the context [r]. *)
Definition context_at (h : hsys) (j : nat) (r : cpu) : Prop :=
  cpu32 r /\ own_sp j (esp r) /\ frame_at h (esp r - 20) r (eip r).

Record sim (s : osys) (a : amachine) : Prop := {
  sm_inv : os_inv s;
  sm_enabled : scheduler_enabled s = true;
  sm_current : current_process s = Some (ab_current a);
  sm_states : states s = ab_states a;
  sm_regs : regs s = ab_regs a /\ cpu32 (regs s) /\ own_sp (ab_current a) (esp (regs s));
  sm_words : forall j b, on_stack j b -> b mod 4 = 0 -> valid (hs s) b;
  sm_saved : forall j p, process_table s !! j = Some p -> state p = PROCESS_READY ->
    exists r, ab_saved a !! j = Some r /\ kernel_esp p = esp r - 20 /\ context_at (hs s) j r;
}.

Lemma frame_regs h sp r r' ra : frame_at h sp r ra -> edi r' = edi r -> esi r' = esi r -> ebx r' = ebx r ->
  ebp r' = ebp r -> frame_at h sp r' ra.
Proof. intros [H1 H2 H3 H4 H5 H6 H7] E1 E2 E3 E4. split; try done; congruence. Qed.

Lemma frame_saved h r : frame_at h (esp r - 20) r (eip r) -> saved_cpu h (esp r - 20) = r.
Proof.
  intros [_ _ E0 E1 E2 E3 E4]. unfold saved_cpu. rewrite E0, E1, E2, E3, E4.
  replace (esp r - 20 + 20) with (esp r) by lia. by destruct r.
Qed.

Lemma frame_context h j sp : frame_valid h sp -> own_sp j (sp + 20) -> context_at h j (saved_cpu h sp).
Proof.
  intros Hf Hsp. pose proof Hf as [_ Hv]. split.
  { split_and!; apply rd_32; [|apply (Hv 1); lia|apply (Hv 2); lia|apply (Hv 3); lia].
    pose proof (Hv 0 ltac:(lia)) as H0. by rewrite Z.add_0_r in H0. }
  split; [done|]. cbn [saved_cpu esp]. replace (sp + 20 - 20) with sp by lia. by apply frame_valid_at.
Qed.

(** Words of another stack, unchanged. *)
Lemma frame_same h h' j r ra : frame_at h (esp r - 20) r ra -> own_sp j (esp r) ->
  (forall b, valid h b -> valid h' b) ->
  (forall b, on_stack j b -> valid h b -> rd h' b = rd h b) -> frame_at h' (esp r - 20) r ra.
Proof.
  intros [H1 H2 E0 E1 E2 E3 E4] [Hs _] Hv Hsame.
  assert (forall k, 0 <= k < 5 -> rd h' (esp r - 20 + 4 * k) = rd h (esp r - 20 + 4 * k)) as Hk.
  { intros k Hk. apply Hsame; [unfold on_stack; lia|by apply H2]. }
  pose proof (Hk 0 ltac:(lia)) as K0. rewrite Z.add_0_r in K0.
  split; [done|intros k Hkr; by apply Hv, H2|congruence|..].
  - etransitivity; [apply (Hk 1); lia|done].
  - etransitivity; [apply (Hk 2); lia|done].
  - etransitivity; [apply (Hk 3); lia|done].
  - etransitivity; [apply (Hk 4); lia|done].
Qed.

Lemma stacks_frames i j sp sp' : stacks_ok -> i <> j -> own_sp i sp -> own_sp j sp' -> apart (sp - 20) (sp' - 20).
Proof. intros [_ Hd] Hij [H1 _] [H2 _]. unfold apart. destruct (Hd i j Hij); lia. Qed.

Lemma sim_room s a : stacks_ok -> sim s a -> stack_room (hs s) (esp (regs s)).
Proof.
  intros Hst Hs. destruct (sm_regs _ _ Hs) as (_ & _ & [Hsp Hm]). destruct (st_range Hst (ab_current a)).
  split; [lia|]. intros k Hk. apply (sm_words _ _ Hs (ab_current a)); [unfold on_stack; lia|].
  replace (esp (regs s) - 20 + 4 * k) with (esp (regs s) + (k - 5) * 4) by lia. by rewrite Z.mod_add by lia.
Qed.

(** ** Steps of threads *)

Lemma ready_other s c j p : os_inv s -> current_process s = Some c -> process_table s !! j = Some p ->
  state p = PROCESS_READY -> j <> c.
Proof.
  intros (c' & Hc' & _ & (pc & Hpc & Hrun)) Hc Hp Hr ->. assert (c' = c) as -> by congruence.
  assert (p = pc) as -> by congruence. congruence.
Qed.

Lemma sim_run s a c h r : sim s a -> current_process s = Some c -> cpu32 r -> own_sp c (esp r) ->
  (forall b, valid (hs s) b -> valid h b) ->
  (forall j b, j <> c -> on_stack j b -> valid (hs s) b -> rd h b = rd (hs s) b) ->
  exists a', abs_step a a' /\ sim (cfg h r s) a'.
Proof.
  intros [H1 H2 H3 H4 H5 H6 H7] Hc Hr Hsp Hv Hrd. assert (c = ab_current a) as -> by congruence.
  eexists. split; [by apply (abs_run a r)|]. split; try done.
  - intros j b Hb Hm. apply Hv. by eapply H6.
  - intros j p Hp Hst. destruct (H7 j p Hp Hst) as (rj & Hj & Hk & Hcpu & Hown & Hf). exists rj.
    split; [done|]. split; [done|]. split; [done|]. split; [done|].
    apply (frame_same (hs s) h j); [done|done|done|]. intros b. apply Hrd.
    by apply (ready_other s (ab_current a) j p).
Qed.
(** ** The timer *)

(** The table after a switch, entry by entry. *)
Lemma switched_entry s c n sp s' j p : switched ret_schedule s c n sp s' -> running (process_table s) c -> n <> c ->
  process_table s' !! j = Some p -> exists q, process_table s !! j = Some q /\
    (state p, kernel_esp p) = if decide (j = c) then (PROCESS_READY, esp (regs s) - 20)
                              else if decide (j = n) then (PROCESS_RUNNING, kernel_esp q)
                              else (state q, kernel_esp q).
Proof.
  intros (-> & _) (pc & Hpc & Hr) Hne. unfold dispatch. repeat case_decide; subst.
  - rewrite list_lookup_alter_eq, list_lookup_alter_ne, list_lookup_alter_eq, Hpc by done. cbn.
    intros [= <-]. exists pc. split; [done|]. unfold demote. by rewrite bool_decide_true.
  - rewrite list_lookup_alter_ne, list_lookup_alter_eq, list_lookup_alter_ne by done.
    destruct (process_table s !! n) as [q|]; [|done]. intros [= <-]. by exists q.
  - rewrite !list_lookup_alter_ne by done. intros Hp. by exists p.
Qed.

Lemma switched_states s c n sp s' : switched ret_schedule s c n sp s' -> running (process_table s) c -> n <> c ->
  states s' = <[n := PROCESS_RUNNING]> (<[c := PROCESS_READY]> (states s)).
Proof.
  intros Hsw Hrun Hne. pose proof Hsw as (Et & _). apply list_eq. intros j. unfold states at 1.
  rewrite list_lookup_fmap.
  assert (length (process_table s') = length (process_table s)) as Hl by (by rewrite Et, length_alter, length_dispatch).
  destruct (process_table s' !! j) as [p|] eqn:Hp.
  - destruct (switched_entry _ _ _ _ _ _ _ Hsw Hrun Hne Hp) as (q & Hq & E). apply (f_equal fst) in E. cbn [fst] in E.
    pose proof (lookup_lt_Some _ _ _ Hq) as Hlt.
    cbn. rewrite E. repeat case_decide; cbn [fst]; subst.
    + rewrite list_lookup_insert_ne, list_lookup_insert_eq; [done|unfold states; by rewrite length_fmap|done].
    + rewrite list_lookup_insert_eq; [done|]. rewrite length_insert. unfold states. by rewrite length_fmap.
    + rewrite !list_lookup_insert_ne by done. unfold states. by rewrite list_lookup_fmap, Hq.
  - cbn. symmetry. apply lookup_ge_None. rewrite !length_insert. unfold states. rewrite length_fmap, <-Hl.
    by apply lookup_ge_None.
Qed.

Lemma switched_inv s c n sp s' : os_inv s -> current_process s = Some c -> rr_next (states s) c = Some n ->
  switched ret_schedule s c n sp s' -> os_inv s'.
Proof.
  intros (c' & Hc' & Hti & (pc & Hpc & Hr)) Hc En Hsw. assert (c' = c) as -> by congruence.
  destruct Hsw as (Et & Ec & Ep & _ & Ee & _).
  apply (sched_post_inv s c true s'); [done|by eapply inv_lt|congruence|].
  exists n, (esp (regs s) - 20). split; [done|]. unfold proc_part. congruence.
Qed.

Lemma parked_context s' r j : cpu32 r -> own_sp j (esp r) -> frame_at (hs s') (esp r - 20) r ret_schedule ->
  context_at (hs s') j (parked r).
Proof. intros Hr Hsp Hf. split; [done|]. split; [done|]. by eapply frame_regs. Qed.

(** The contexts after a switch. *)
Lemma switched_saved s a n p s' : stacks_ok -> sim s a -> n <> ab_current a ->
  running (process_table s) (ab_current a) -> switched ret_schedule s (ab_current a) n (kernel_esp p) s' ->
  forall j q, process_table s' !! j = Some q -> state q = PROCESS_READY ->
  exists r, <[ab_current a := parked (ab_regs a)]> (ab_saved a) !! j = Some r /\ kernel_esp q = esp r - 20 /\
    context_at (hs s') j r.
Proof.
  intros Hst Hs Hne Hrun Hsw j q Hq Hr. destruct (sm_regs _ _ Hs) as (Er & Hcpu & Hsp).
  destruct (switched_entry _ _ _ _ _ _ _ Hsw Hrun Hne Hq) as (q0 & Hq0 & E).
  destruct Hsw as (_ & _ & _ & _ & _ & _ & Hf & _ & Hkeep). repeat case_decide; injection E as E1 E2; subst; [|congruence|].
  - exists (parked (ab_regs a)). rewrite lookup_insert_eq. split; [done|]. rewrite <-Er.
    split; [done|]. by apply parked_context.
  - destruct (sm_saved _ _ Hs j q0 Hq0 ltac:(congruence)) as (r & Hj & Hk & Hc32 & Hown & Hfr).
    exists r. rewrite lookup_insert_ne by done. split; [done|]. split; [congruence|]. split; [done|].
    split; [done|]. apply Hkeep; [done|]. by apply (stacks_frames j (ab_current a)).
Qed.

Lemma sim_tick s a : stacks_ok -> is32 ret_schedule -> sim s a ->
  wp (schedule ret_schedule) s (fun _ s' => exists a', abs_step a a' /\ sim s' a').
Proof.
  intros Hst Hret Hs. pose proof (sm_inv _ _ Hs) as Hinv. pose proof (sm_current _ _ Hs) as Hcur.
  destruct (sm_regs _ _ Hs) as (Er & Hcpu & Hsp).
  pose proof Hinv as (c & Hc & Hti & Hrun). assert (c = ab_current a) as -> by congruence.
  assert (forall n, rr_next (states s) (ab_current a) = Some n -> exists p r, process_table s !! n = Some p /\
    n <> ab_current a /\ ab_saved a !! n = Some r /\ kernel_esp p = esp r - 20 /\ context_at (hs s) n r) as Hnext.
  { intros n En. destruct (rr_next_ready s _ n (ti_len _ _ _ Hti) (inv_lt _ _ Hti) En) as (p & Hp & Hr).
    destruct (sm_saved _ _ Hs n p Hp Hr) as (r & Hj). exists p, r. split; [done|].
    split; [by eapply ready_other|done]. }
  eapply wp_mono; [apply (schedule_wp ret_schedule s (ab_current a)); try done|].
  - apply Hs.
  - by eapply sim_room.
  - intros n p En Hp. destruct (Hnext n En) as (p' & r & Hp' & Hne & _ & Hk & _ & Hown & [Hr1 Hr2 _ _ _ _ _]).
    assert (p' = p) as -> by congruence. rewrite Hk. split; [done|]. by apply (stacks_frames n (ab_current a)).
  - intros b s' Hpost. destruct (rr_next (states s) (ab_current a)) as [n|] eqn:En.
    2:{ destruct Hpost as [_ ->]. exists a. split; [|done]. apply abs_stay. by rewrite <-(sm_states _ _ Hs). }
    destruct Hpost as (_ & p & Hp & Hsw). destruct (Hnext n eq_refl) as (p' & r & Hp' & Hne & Hsv & Hk & H32 & Hown & Hfr).
    assert (p' = p) as -> by congruence. eexists.
    split; [apply (abs_switch a n r); [by rewrite <-(sm_states _ _ Hs)|done]|].
    pose proof Hsw as (_ & Ec & _ & _ & Ee & Ereg & _ & Hv & _).
    rewrite Hk, (frame_saved _ _ Hfr) in Ereg. split; cbn.
    + by eapply switched_inv.
    + rewrite Ee. apply Hs.
    + done.
    + rewrite <-(sm_states _ _ Hs). by eapply switched_states.
    + by rewrite Ereg.
    + intros j b' Hb Hm. apply Hv. by eapply (sm_words _ _ Hs).
    + by eapply switched_saved.
Qed.

Lemma sim_step s a s' : stacks_ok -> is32 ret_schedule -> sim s a -> cstep s s' ->
  exists a', abs_step a a' /\ sim s' a'.
Proof.
  intros Hst Hret Hs Hstep. revert Hs. destruct Hstep as [s1 c h r Hc Hr Hsp Hv Hrd|s1 b s2 Hok]; intros Hs.
  { exact (sim_run s1 a c h r Hs Hc Hr Hsp Hv Hrd). }
  pose proof (sim_tick _ _ Hst Hret Hs) as W. unfold wpe in W. by rewrite Hok in W.
Qed.

(** C5: The scheduler implements a machine with one saved context per thread.  From related
    states, [schedule] returns, and every run of threads and timer ticks, in which no thread
    writes to another's stack, is a run of the abstract machine: a thread that is resumed
    finds EDI, ESI, EBX, EBP, its stack pointer and its return address as they were when it
    was switched away, however many threads ran in between. *)
Theorem contexts_refine s a : stacks_ok -> is32 ret_schedule -> sim s a ->
  (exists b s', schedule ret_schedule s = Ok b s') /\
  forall s', rtc cstep s s' -> exists a', rtc abs_step a a' /\ sim s' a'.
Proof.
  intros Hst Hret Hs. split.
  { pose proof (sim_tick _ _ Hst Hret Hs) as W. unfold wpe in W.
    destruct (schedule ret_schedule s) as [b s'|]; [by exists b, s'|done]. }
  intros s' Hrun. revert a Hs. induction Hrun as [s|s s1 s' Hstep _ IH]; intros a Hs; [by exists a|].
  destruct (sim_step _ _ _ Hst Hret Hs Hstep) as (a1 & Ha1 & Hs1). destruct (IH a1 Hs1) as (a' & Ha' & Hs').
  exists a'. split; [by eapply rtc_l|done].
Qed.
End Contexts.


(** ** Witness *)

#[local] Existing Instance demo_layout.

(** Two stacks in the heap, one of them the new thread's. *)
Definition demo_stack (j : nat) : Z * Z :=
  match j with
  | 0%nat => (0xC0401000, 0xC0402000)
  | 1%nat => (0xC0402000, 0xC0403000)
  | _ => (0, 0)
  end.

Lemma demo_stacks_ok : stacks_ok demo_stack.
Proof.
  split.
  - intros [|[|j]]; cbn; lia.
  - intros [|[|i]] [|[|j]] Hij; cbn; lia.
Qed.

Lemma demo_stack_words j b : on_stack demo_stack j b -> b mod 4 = 0 -> @valid _ _ demo_laws (hs demo_os) b.
Proof.
  intros Hb Hm. assert (HEAP_START_ADDR <= b /\ b + 20 <= 0xC0500000) as [H1 H2].
  { destruct j as [|[|j]]; unfold on_stack in Hb; cbn in Hb; unfold HEAP_START_ADDR; lia. }
  rewrite <-(Z.add_0_r b). destruct (demo_words b H1 H2 Hm) as [[_ Hv] _]. apply (Hv 0). lia.
Qed.

Definition demo_waiting : cpu := @saved_cpu demo_laws (hs demo_os) 0xC0402FE8.
Definition demo_abs : amachine :=
  Abs 0 (states demo_os) (Cpu 1 2 3 4 0xC0402000 0) {[ 1%nat := demo_waiting ]}.

Lemma demo_own : own_sp demo_stack 1 (0xC0402FE8 + 20).
Proof. split; [|done]. cbn. lia. Qed.

Lemma demo_own0 : own_sp demo_stack 0 0xC0402000.
Proof. split; [|done]. cbn. lia. Qed.

Lemma demo_context : @context_at demo_laws demo_stack (hs demo_os) 1 demo_waiting.
Proof. exact (@frame_context demo_laws demo_stack _ 1 _ demo_frame demo_own). Qed.

Lemma saved_esp (WL : WordMemLaws hsys) h sp : esp (saved_cpu h sp) - 20 = sp.
Proof. cbn. lia. Qed.

Lemma demo_sim : @sim demo_layout demo_laws demo_stack demo_sched demo_abs.
Proof.
  destruct demo_current as [H1 H2]. destruct demo_states as (_ & _ & H3 & H4).
  destruct demo_sched_keeps as (E1 & E2 & E3 & E4 & E5 & E6 & E7). split.
  - exists 0%nat. rewrite E1, E2, E3. exact (conj H3 (conj H1 H2)).
  - rewrite E4. exact H4.
  - rewrite E3. exact H3.
  - exact E6.
  - rewrite E7. split; [reflexivity|]. split; [exact demo_cpu32|exact demo_own0].
  - rewrite E5. exact demo_stack_words.
  - rewrite E1, E5. intros j p Hp Hr. pose proof (demo_os_ready j p Hp Hr) as ->.
    exists demo_waiting. split; [apply lookup_singleton_eq|]. split; [|exact demo_context].
    destruct demo_numbers as (_ & En & _). rewrite (demo_next_at 1%nat p En Hp). symmetry. apply saved_esp.
Qed.

Lemma contexts_refine_witness :
  (exists b s', schedule demo_ret demo_sched = Ok b s') /\
  forall s', rtc (@cstep demo_laws demo_ret demo_stack) demo_sched s' ->
    exists a', rtc (abs_step demo_ret demo_stack) demo_abs a' /\ @sim demo_layout demo_laws demo_stack s' a'.
Proof.
  exact (@contexts_refine demo_layout demo_laws demo_ret demo_stack demo_sched demo_abs
           demo_stacks_ok demo_ret32 demo_sim).
Defined.
