(* ===== verification/Threads.v ===== *)
(** * Kernel threads ([boot/context_switch.asm], [kernel/kernel.c])

    [kthread_trampoline], the first code of a new thread, and the bodies of the two threads
    that [kernel_main] creates.  A body is an endless loop: its type has no value it could
    return, and its theorem speaks of any number of turns. *)

From stdpp Require Import base gmap list numbers option strings.
From Stdlib Require Import ZArith Lia.
From S2P Require Import Prelude Machine Pmm Paging Boot HeapList Kheap Vmm Terminal Kprintf Shell ConsoleSpec.
From S2P Require Import Process Scheduler SchedInv ProcInv SchedSpec.

(** ** The bodies *)

(** [for (volatile int i = 0; i < 500000; i++);] *)
Definition busy_wait : M csys unit := for_loop 500000 1 (fun _ => ret tt) 0.

(** One turn of [thread_a] and of [thread_b]. *)
Definition turn_a : M csys unit := kprintf_screen (bytes_of "A") [] ;;; busy_wait.
Definition turn_b : M csys unit := kprintf_screen (bytes_of "B") [] ;;; busy_wait.

(** [while (1)]. *)
Definition forever (turn : M csys unit) (_ : unit) : M csys (unit + Empty_set) := turn ;;; ret (inl tt).

Definition thread_a : M csys Empty_set := loop (forever turn_a) tt.
Definition thread_b : M csys Empty_set := loop (forever turn_b) tt.

(** ** The trampoline *)

Section Trampoline.
(** The code at an address, and the return addresses of the calls. *)
Context (code : Z -> option (M osys unit)) (ret_entry ret_exit ret_schedule : Z).

(** A call and the return from it, which goes where the stack says. *)
Definition call (ra : Z) (f : M osys unit) : M osys unit :=
  push ra ;;;
  f ;;;
  v <- pop ;;
  if v =? ra then ret tt else stop_with Undefined.

(** [kthread_exit] does not return: another thread's context runs on, or the processor
    halts. *)
Definition kthread_trampoline : M osys unit :=
  o_hw (emit Sti) ;;;
  f <- get (fun s => ebx (regs s)) ;;
  match code f with
  | Some entry => call ret_entry entry
  | None => stop_with Undefined
  end ;;;
  push ret_exit ;;;
  kthread_exit ret_schedule.
End Trampoline.

(** ** What the bodies show *)

Lemma busy_wait_wp s (Q : unit -> csys -> Prop) : Q tt s -> wp busy_wait s Q.
Proof.
  intros HQ. unfold busy_wait. apply (wp_for_loop _ _ _ (fun _ s' => s' = s)); try done; try lia.
  by intros s' ->.
Qed.

Lemma turn_wp c s : c = "A" \/ c = "B" -> term_wf s ->
  wp (kprintf_screen (bytes_of c) [] ;;; busy_wait) s (fun _ s' => s' = type_all (bytes_of c) s /\ term_wf s').
Proof.
  intros Hc Hs. wp_step. eapply wp_mono; [apply (kprintf_screen_wp _ _ (bytes_of c)); [done| |by destruct Hc as [-> | ->]]|].
  - by destruct Hc as [-> | ->]; apply literal_cstring.
  - intros [] s' H. by apply busy_wait_wp.
Qed.

Lemma forever_wp turn c p s :
  (forall s, term_wf s -> wp turn s (fun _ s' => s' = type_all [c] s /\ term_wf s')) -> term_wf s ->
  wp (iterate (forever turn) p tt) s (fun r s' => r = inl tt /\ s' = type_all (replicate (Pos.to_nat p) c) s).
Proof.
  intros Ht Hs. eapply wp_mono.
  - apply (wp_iterate_turns _ (fun n _ s' => 0 <= n /\ s' = type_all (replicate (Z.to_nat n) c) s /\ term_wf s')
             _) with (n := 0); [|done].
    intros n [] s1 (Hn & -> & Hw). unfold forever. wp_step. eapply wp_mono; [by apply Ht|].
    intros [] s2 [-> Hw2]. wp_step. exists tt. split; [done|]. split; [lia|]. split; [|done].
    replace (Z.to_nat (n + 1)) with (Z.to_nat n + 1)%nat by lia.
    unfold type_all. by rewrite replicate_add, foldl_app.
  - intros r s' ([] & -> & _ & -> & _). by rewrite Z.add_0_l, Z2Nat.inj_pos.
Qed.

(** The two threads of [kernel_main] run for ever, and after any number of turns exactly
    that many letters stand on the screen; every call of [kprintf] and every delay ends. *)
Theorem threads_print p s : term_wf s ->
  wp (iterate (forever turn_a) p tt) s (fun r s' => r = inl tt /\ s' = type_all (replicate (Pos.to_nat p) 65) s) /\
  wp (iterate (forever turn_b) p tt) s (fun r s' => r = inl tt /\ s' = type_all (replicate (Pos.to_nat p) 66) s).
Proof.
  intros Hs. split; apply forever_wp; try exact Hs; intros s' H'.
  - apply (turn_wp "A" s'); auto.
  - apply (turn_wp "B" s'); auto.
Qed.

Lemma threads_print_witness :
  wp (iterate (forever turn_a) 3 tt) demo_terminal (fun r s' => r = inl tt /\ s' = type_all [65; 65; 65] demo_terminal) /\
  wp (iterate (forever turn_b) 3 tt) demo_terminal (fun r s' => r = inl tt /\ s' = type_all [66; 66; 66] demo_terminal).
Proof. exact (threads_print 3 demo_terminal demo_terminal_wf). Defined.

(** ** The end of a thread *)

Section Ends.
Context {L : Layout} {WL : WordMemLaws hsys}.
Context (code : Z -> option (M osys unit)) (ret_entry ret_exit ret_schedule : Z).

(** Memory after interrupts have been enabled. *)
Definition say_sti (h : hsys) : hsys :=
  update h_lens (set_hw (emitted [Sti] (g_hw (h_g h))) (h_g h)) h.

Lemma wp_o_sti s (Q : unit -> osys -> Prop) E :
  Q tt (put (say_sti (hs s)) s) -> wpe (o_hw (emit Sti)) s Q E.
Proof. done. Qed.

(** The state in which the entry function of a thread starts, its return address on the
    stack. *)
Definition started (s s1 : osys) : Prop :=
  exists h, writes (say_sti (hs s)) [(esp (regs s) - 4, ret_entry)] h /\
    s1 = cfg h (with_esp (esp (regs s) - 4) (regs s)) s.

(** The entry function has kept the words of its frame and leaves no thread to run. *)
Definition finished (sp : Z) (c : nat) (s2 : osys) : Prop :=
  esp (regs s2) = sp - 4 /\ valid (hs s2) (sp - 4) /\ rd (hs s2) (sp - 4) = ret_entry /\
  os_inv s2 /\ current_process s2 = Some c /\ forall j, states s2 !! j <> Some PROCESS_READY.

(** A thread whose entry function returns when no other process can run: the trampoline has
    enabled interrupts and called the entry, the thread is a zombie and the processor halts
    with interrupts disabled. *)
Theorem trampoline_ends s c entry sp : sp = esp (regs s) -> 4 <= sp < 4294967296 ->
  valid (say_sti (hs s)) (sp - 4) -> is32 ret_entry -> is32 ret_exit ->
  code (ebx (regs s)) = Some entry ->
  (forall s1, started s s1 -> wp entry s1 (fun _ s2 => finished sp c s2)) ->
  exists s', kthread_trampoline code ret_entry ret_exit ret_schedule s = Stop Halted s' /\
    states s' !! c = Some PROCESS_ZOMBIE.
Proof.
  intros -> Hsp Hv H32 H32' Hcode Hentry.
  enough (wpe (kthread_trampoline code ret_entry ret_exit ret_schedule) s (fun _ _ => False)
            (fun e s' => e = Halted /\ states s' !! c = Some PROCESS_ZOMBIE)) as W.
  { unfold wpe in W. destruct (kthread_trampoline _ _ _ _ s) as [|e s']; [done|].
    destruct W as [-> W]. by exists s'. }
  unfold kthread_trampoline. wp_step. apply (wp_o_sti s). wp_step. wp_step.
  change (regs (put (say_sti (hs s)) s)) with (regs s). rewrite Hcode.
  wp_step. unfold call. wp_step.
  change (put (say_sti (hs s)) s) with (cfg (say_sti (hs s)) (regs s) s).
  apply (wp_push (say_sti (hs s)) [] (say_sti (hs s))); [apply writes_nil|done..|]. intros h1 W1.
  wp_step. apply wp_total. eapply wp_mono; [apply Hentry; by exists h1|].
  intros [] s2 (Esp & Hv2 & Erd & Hinv & Hcur & Hnone). wp_step.
  rewrite <-(cfg_same s2). apply (wp_pop (hs s2) [] (hs s2)); [apply writes_nil|lia|by rewrite Esp|].
  rewrite Esp. cbn [over]. rewrite Erd, Z.eqb_refl. wp_step. wp_step.
  replace (esp (regs s) - 4 + 4) with (esp (regs s)) by lia.
  apply (wp_push (hs s2) [] (hs s2)); [apply writes_nil|done..|]. intros h3 W3.
  destruct (kthread_exit_halts ret_schedule
              (cfg h3 (with_esp (esp (regs s) - 4) (with_esp (esp (regs s)) (regs s2))) s2) c Hinv Hcur Hnone)
    as (s' & E & Hz & _).
  unfold wpe. cbn [esp with_esp]. rewrite E. done.
Qed.
End Ends.
