(* ===== verification/VmmInv.v ===== *)
(** * The region lists of the virtual memory manager ([kernel/vmm.c])

    A list of regions is a chain of pointers through the pool.  The operations on it are
    shown to be operations on the list of slots the chain visits. *)

From stdpp Require Import base gmap list numbers option strings sorting.
From Stdlib Require Import ZArith Lia.
From S2P Require Import Prelude Machine Pmm Paging HeapList Kheap Vmm.

(** ** Chains *)

Fixpoint chain (pool : list region) (p : rptr) (ids : list nat) : Prop :=
  match ids with
  | [] => p = None
  | i :: r => p = Some i /\ exists x, pool !! i = Some x /\ chain pool (r_next x) r
  end.

(** The base of the region in a slot. *)
Definition base_of (pool : list region) (i : nat) : Z := default 0 (r_base <$> pool !! i).

Lemma chain_lookup pool p ids i : chain pool p ids -> i ∈ ids -> is_Some (pool !! i).
Proof.
  revert p. induction ids as [|j r IH]; intros p; [by intros _ ?%not_elem_of_nil|].
  intros (-> & x & Hx & Hr) [->|Hi]%elem_of_cons; [by eauto|by eapply IH].
Qed.

Lemma chain_fun pool p ids ids' : chain pool p ids -> chain pool p ids' -> ids = ids'.
Proof.
  revert p ids'. induction ids as [|i r IH]; intros p [|j r'].
  - done.
  - intros -> (? & _). done.
  - intros (-> & _) ?. done.
  - intros (-> & x & Hx & Hr) ([= <-] & x' & Hx' & Hr'). f_equal.
    assert (x' = x) as -> by congruence. by eapply IH.
Qed.

(** Writing a slot outside a chain keeps the chain. *)
Lemma chain_insert pool p ids i x : i ∉ ids -> chain pool p ids -> chain (<[i := x]> pool) p ids.
Proof.
  revert p. induction ids as [|j r IH]; intros p; [done|].
  intros Hi (-> & y & Hy & Hr). apply not_elem_of_cons in Hi as [Hne Hi].
  split; [done|]. exists y. split; [by rewrite list_lookup_insert_ne|by apply IH].
Qed.

Lemma chain_app pool p l1 j l2 : chain pool p (l1 ++ j :: l2) ->
  exists y, pool !! j = Some y /\ chain pool (r_next y) l2.
Proof.
  revert p. induction l1 as [|i r IH]; intros p; cbn.
  - intros (_ & x & Hx & Hr). by eauto.
  - intros (_ & x & _ & Hr). by eapply IH.
Qed.

(** Redirecting the pointer of one slot of a chain replaces what follows it. *)
Lemma chain_splice pool p l1 j l2 l2' y q : chain pool p (l1 ++ j :: l2) ->
  NoDup (l1 ++ [j]) -> pool !! j = Some y -> j ∉ l2' -> chain pool q l2' ->
  chain (<[j := set_next q y]> pool) p (l1 ++ j :: l2').
Proof.
  intros Hc Hnd Hy Hj Hq. revert p Hc. induction l1 as [|i r IH]; intros p; cbn.
  - intros (-> & _). split; [done|]. exists (set_next q y).
    split; [apply list_lookup_insert_eq; by eapply lookup_lt_Some|]. by apply chain_insert.
  - intros (-> & x & Hx & Hr). cbn in Hnd. apply NoDup_cons in Hnd as [Hi Hnd].
    split; [done|]. exists x. split; [|by apply IH].
    rewrite list_lookup_insert_ne; [done|]. intros ->. apply Hi, elem_of_app. right. by left.
Qed.

(** ** Insertion by base *)

Section Insert.
Context (base : nat -> Z).

(** Before the first slot whose base is not smaller. *)
Fixpoint insert_before (r : nat) (ids : list nat) : list nat :=
  match ids with
  | [] => [r]
  | i :: l => if base i <? base r then i :: insert_before r l else r :: i :: l
  end.

(** [insert_region]: in front of a head with a larger base, otherwise somewhere after the
    head. *)
Definition insert_ids (r : nat) (ids : list nat) : list nat :=
  match ids with
  | [] => [r]
  | h :: l => if base r <? base h then r :: h :: l else h :: insert_before r l
  end.

Definition sorted (ids : list nat) : Prop := StronglySorted (fun i j => base i <= base j) ids.

Lemma insert_before_perm r ids : insert_before r ids ≡ₚ r :: ids.
Proof.
  induction ids as [|i l IH]; cbn; [done|]. destruct (_ <? _); [|done]. rewrite IH. apply Permutation_swap.
Qed.

Lemma insert_ids_perm r ids : insert_ids r ids ≡ₚ r :: ids.
Proof.
  destruct ids as [|h l]; cbn; [done|]. destruct (_ <? _); [done|].
  rewrite insert_before_perm. apply Permutation_swap.
Qed.

Lemma insert_ids_split r ids : exists l1 l2, insert_ids r ids = l1 ++ r :: l2 /\ ids = l1 ++ l2.
Proof.
  assert (forall l, exists l1 l2, insert_before r l = l1 ++ r :: l2 /\ l = l1 ++ l2) as Hb.
  { induction l as [|i l (l1 & l2 & E1 & E2)]; cbn; [by exists [], []|].
    destruct (_ <? _); [|by exists [], (i :: l)]. exists (i :: l1), l2. cbn. by rewrite E1, E2 at 1. }
  destruct ids as [|h l]; cbn; [by exists [], []|]. destruct (_ <? _); [by exists [], (h :: l)|].
  destruct (Hb l) as (l1 & l2 & E1 & E2). exists (h :: l1), l2. cbn. by rewrite E1, E2 at 1.
Qed.

Lemma insert_before_sorted r ids : sorted ids -> sorted (insert_before r ids).
Proof.
  unfold sorted. induction 1 as [|i l Hl IH Hi]; cbn; [by repeat constructor|].
  destruct (Z.ltb_spec (base i) (base r)).
  - constructor; [done|]. rewrite insert_before_perm. constructor; [lia|done].
  - constructor; [by constructor|]. constructor; [lia|].
    eapply Forall_impl; [exact Hi|]. cbn. lia.
Qed.

Lemma insert_ids_sorted r ids : sorted ids -> sorted (insert_ids r ids).
Proof.
  destruct ids as [|h l]; cbn; [by repeat constructor|]. intros Hs.
  pose proof Hs as Hs'. apply StronglySorted_inv in Hs' as [Hl Hh].
  destruct (Z.ltb_spec (base r) (base h)).
  - constructor; [done|]. constructor; [lia|]. eapply Forall_impl; [exact Hh|]. cbn. lia.
  - constructor; [by apply insert_before_sorted|]. rewrite insert_before_perm. constructor; [lia|done].
Qed.
End Insert.

(** ** Spaces and regions in the state *)

Definition space_at (s : vsys) (p : sptr) : option space :=
  match p with KernelSpace => Some (kernel_space s) | HeapSpace a => heap_spaces s !! a end.

Definition put_space (p : sptr) (sp : space) (s : vsys) : vsys :=
  match p with
  | KernelSpace => set_spaces sp (heap_spaces s) s
  | HeapSpace a => set_spaces (kernel_space s) (<[a := sp]> (heap_spaces s)) s
  end.

Lemma space_at_put p q sp s : space_at (put_space p sp s) q = if decide (q = p) then Some sp else space_at s q.
Proof.
  destruct p as [|a], q as [|b]; cbn; case_decide as E; try done.
  - injection E as ->. by rewrite lookup_insert_eq.
  - rewrite lookup_insert_ne; [done|]. congruence.
Qed.

Lemma put_space_put p sp sp' s : put_space p sp (put_space p sp' s) = put_space p sp s.
Proof. destruct p; cbn; [done|]. unfold set_spaces. cbn. by rewrite insert_insert_eq. Qed.

Lemma wp_rd_space p sp s (Q : space -> vsys -> Prop) E :
  space_at s p = Some sp -> Q sp s -> wpe (rd_space p) s Q E.
Proof. unfold wpe, rd_space. destruct p; cbn; [by intros [= <-]|]. by intros ->. Qed.

Lemma wp_wr_space p f sp s (Q : unit -> vsys -> Prop) E :
  space_at s p = Some sp -> Q tt (put_space p (f sp) s) -> wpe (wr_space p f) s Q E.
Proof. unfold wpe, wr_space. destruct p; cbn; [by intros [= <-]|]. by intros ->. Qed.

Lemma wp_rd_region i x s (Q : region -> vsys -> Prop) E :
  region_pool s !! i = Some x -> Q x s -> wpe (rd_region i) s Q E.
Proof. unfold wpe, rd_region. by intros ->. Qed.

Lemma wp_wr_region i f x s (Q : unit -> vsys -> Prop) E :
  region_pool s !! i = Some x -> Q tt (set_pool (<[i := f x]> (region_pool s)) s) ->
  wpe (wr_region i f) s Q E.
Proof. unfold wpe, wr_region. by intros ->. Qed.

(** What a region says, without its place in a list. *)
Definition data (x : region) : region := set_next None x.

(** Pools that differ in the links of some slots only. *)
Record relinked (touched : list nat) (pool pool' : list region) : Prop := {
  rl_len : length pool' = length pool;
  rl_data : forall i, data <$> pool' !! i = data <$> pool !! i;
  rl_out : forall i, i ∉ touched -> pool' !! i = pool !! i;
}.

Lemma relinked_refl t pool : relinked t pool pool.
Proof. by split. Qed.

Lemma relinked_set t pool pool' i x q : relinked t pool pool' -> pool' !! i = Some x -> i ∈ t ->
  relinked t pool (<[i := set_next q x]> pool').
Proof.
  intros [Hl Hd Ho] Hx Hi. split.
  - by rewrite length_insert.
  - intros j. destruct (decide (i = j)) as [<-|Hne].
    + rewrite list_lookup_insert_eq by (by eapply lookup_lt_Some). rewrite <-Hd, Hx. done.
    + by rewrite list_lookup_insert_ne.
  - intros j Hj. rewrite list_lookup_insert_ne; [by apply Ho|]. by intros ->.
Qed.

Lemma relinked_base t pool pool' i : relinked t pool pool' -> base_of pool' i = base_of pool i.
Proof.
  intros Hr. unfold base_of. pose proof (rl_data _ _ _ Hr i) as E.
  destruct (pool' !! i) as [x|], (pool !! i) as [y|]; try done. cbn in *. by injection E.
Qed.

(** The regions of a space: the slots of its chain, by base. *)
Record region_list (s : vsys) (p : sptr) (sp : space) (ids : list nat) : Prop := {
  rg_space : space_at s p = Some sp;
  rg_chain : chain (region_pool s) (regions sp) ids;
  rg_nodup : NoDup ids;
  rg_sorted : sorted (base_of (region_pool s)) ids;
  rg_count : region_count sp = Z.of_nat (length ids);
  rg_pool : length (region_pool s) = 256%nat;
}.

Lemma rg_short s p sp ids : region_list s p sp ids -> (length ids <= 256)%nat.
Proof.
  intros [_ Hc Hnd _ _ Hl]. rewrite <-Hl.
  assert (ids ⊆ seq 0 (length (region_pool s))) as Hsub.
  { intros i Hi. apply elem_of_seq. split; [lia|].
    destruct (chain_lookup _ _ _ _ Hc Hi) as [x Hx]. by apply lookup_lt_Some in Hx. }
  pose proof (submseteq_length _ _ (NoDup_submseteq _ _ Hnd Hsub)) as H. by rewrite length_seq in H.
Qed.

Lemma sorted_base f g ids : (forall i, f i = g i) -> sorted f ids -> sorted g ids.
Proof.
  intros E Hs. unfold sorted in *. induction Hs as [|i l Hl IH Hi]; constructor; [done|].
  eapply Forall_impl; [exact Hi|]. intros j. cbn. by rewrite !E.
Qed.

(** ** Insertion *)

(** The state after [insert_region]. *)
Definition inserted (s : vsys) (p : sptr) (sp : space) (ids : list nat) (r : nat) (s' : vsys) : Prop :=
  exists pool' sp', s' = put_space p sp' (set_pool pool' s) /\
    page_directory sp' = page_directory sp /\
    relinked (r :: ids) (region_pool s) pool' /\
    region_list s' p sp' (insert_ids (base_of (region_pool s)) r ids).

Lemma inserted_intro s p sp ids r pool' sp' : region_list s p sp ids -> r ∉ ids ->
  relinked (r :: ids) (region_pool s) pool' -> page_directory sp' = page_directory sp ->
  region_count sp' = region_count sp +u 1 ->
  chain pool' (regions sp') (insert_ids (base_of (region_pool s)) r ids) ->
  inserted s p sp ids r (put_space p sp' (set_pool pool' s)).
Proof.
  intros Hrg Hr Hrl Hd Hcnt Hc. pose proof (rg_short _ _ _ _ Hrg).
  exists pool', sp'. split; [done|]. split; [done|]. split; [done|].
  assert (region_pool (put_space p sp' (set_pool pool' s)) = pool') as Ep by (by destruct p).
  split; rewrite ?Ep.
  - rewrite space_at_put. by rewrite decide_True.
  - done.
  - rewrite insert_ids_perm. constructor; [done|apply Hrg].
  - eapply sorted_base; [intros i; symmetry; by eapply relinked_base|]. apply insert_ids_sorted, Hrg.
  - rewrite insert_ids_perm, Hcnt, (rg_count _ _ _ _ Hrg). cbn [length].
    rewrite u32_small by (unfold is32; lia). lia.
  - rewrite (rl_len _ _ _ Hrl). apply Hrg.
Qed.

(** The walk to the place of insertion. *)
Lemma insert_walk s r x h l : chain (region_pool s) (Some h) (h :: l) ->
  region_pool s !! r = Some x -> (length l <= 256)%nat ->
  wp (loop (fun curr =>
        c <- rd_region curr ;;
        match r_next c with
        | None => ret (inr curr)
        | Some n =>
            nr <- rd_region n ;;
            reg <- rd_region r ;;
            ret (if r_base nr <? r_base reg then inl n else inr curr)
        end) h) s
     (fun curr s' => s' = s /\ exists l1 l2, h :: l = l1 ++ curr :: l2 /\
        h :: insert_before (base_of (region_pool s)) r l = l1 ++ curr :: r :: l2).
Proof.
  intros Hc Hx Hlen. set (b := base_of (region_pool s)).
  apply (wp_loop_var _ (fun n curr s' => s' = s /\ exists l1 l2, h :: l = l1 ++ curr :: l2 /\
           h :: insert_before b r l = l1 ++ curr :: insert_before b r l2 /\ n = Z.of_nat (length l2)))
    with (Z.of_nat (length l)); [|split; [done|]; by exists [], l|lia].
  intros n curr ? (-> & l1 & l2 & El & Ei & ->).
  assert (chain (region_pool s) (Some h) (l1 ++ curr :: l2)) as Hc1 by (by rewrite <-El).
  destruct (chain_app _ _ _ _ _ Hc1) as (y & Hy & Hc2).
  wp_step. eapply wp_rd_region; [exact Hy|]. destruct l2 as [|j l2].
  - cbn in Hc2. rewrite Hc2. wp_step. split; [done|]. by exists l1, [].
  - destruct Hc2 as (-> & z & Hz & Hc3). wp_step. eapply wp_rd_region; [exact Hz|].
    wp_step. eapply wp_rd_region; [exact Hx|]. wp_step. cbn [insert_before] in Ei.
    assert (b j = r_base z /\ b r = r_base x) as [Ej Er] by (unfold b, base_of; by rewrite Hz, Hx).
    rewrite Ej, Er in Ei. destruct (r_base z <? r_base x) eqn:Elt.
    + exists (Z.of_nat (length l2)). split; [cbn [length]; lia|]. split; [done|].
      exists (l1 ++ [curr]), l2. rewrite El, Ei, <-!app_assoc. done.
    + split; [done|]. by exists l1, (j :: l2).
Qed.

(** The new region in front of the list. *)
Lemma insert_front_wp s p sp ids r x : region_list s p sp ids -> r ∉ ids ->
  region_pool s !! r = Some x -> insert_ids (base_of (region_pool s)) r ids = r :: ids ->
  wp (wr_region r (set_next (regions sp)) ;;;
      wr_space p (set_regions (Some r)) ;;; wr_space p (add_count 1)) s (fun _ s' => inserted s p sp ids r s').
Proof.
  intros Hrg Hr Hx Eids. pose proof Hrg as [Hsp Hc _ _ _ _]. assert (r ∈ r :: ids) as Hin by by left.
  wp_step. eapply wp_wr_region; [exact Hx|]. wp_step. eapply wp_wr_space; [destruct p; exact Hsp|].
  eapply wp_wr_space; [by rewrite space_at_put, decide_True|]. rewrite put_space_put.
  eapply inserted_intro; [done|done| |done|done|].
  - by apply relinked_set; [apply relinked_refl| |].
  - rewrite Eids. cbn. split; [done|]. exists (set_next (regions sp) x).
    split; [apply list_lookup_insert_eq; by eapply lookup_lt_Some|]. by apply chain_insert.
Qed.

(** The links after a region [r] was put behind [curr]. *)
Lemma chain_behind pool h l1 curr l2 r x z : chain pool h (l1 ++ curr :: l2) -> NoDup (l1 ++ curr :: l2) ->
  r ∉ l1 ++ curr :: l2 -> pool !! r = Some x -> pool !! curr = Some z -> chain pool (r_next z) l2 ->
  chain (<[curr := set_next (Some r) z]> (<[r := set_next (r_next z) x]> pool)) h (l1 ++ curr :: r :: l2).
Proof.
  intros Hc Hnd Hr Hx Hz Hc2. assert (curr <> r) as Hcr by set_solver. eapply chain_splice with (l2 := l2).
  - by apply chain_insert.
  - rewrite (cons_middle curr l1 l2), app_assoc in Hnd. by apply NoDup_app in Hnd as [? _].
  - by rewrite list_lookup_insert_ne.
  - apply NoDup_app in Hnd as (_ & _ & Hnd). apply NoDup_cons in Hnd as [? _]. set_solver.
  - cbn. split; [done|]. exists (set_next (r_next z) x).
    split; [apply list_lookup_insert_eq; by eapply lookup_lt_Some|]. apply chain_insert; [set_solver|done].
Qed.

Lemma insert_region_wp s p sp ids r x : region_list s p sp ids -> r ∉ ids ->
  region_pool s !! r = Some x ->
  wp (insert_region p r) s (fun _ s' => inserted s p sp ids r s').
Proof.
  intros Hrg Hr Hx. pose proof Hrg as [Hsp Hc Hnd Hso Hcnt Hl]. pose proof (rg_short _ _ _ _ Hrg) as Hsh.
  unfold insert_region. wp_step. eapply wp_rd_space; [exact Hsp|]. wp_step.
  eapply wp_rd_region; [exact Hx|]. wp_step. pose proof (insert_front_wp _ _ _ _ _ _ Hrg Hr Hx) as Hfront.
  destruct ids as [|h l].
  { cbn in Hc. rewrite Hc in *. wp_step. by apply Hfront. }
  pose proof Hc as (Eh & y & Hy & Hcl). rewrite Eh in *. wp_step. eapply wp_rd_region; [exact Hy|]. wp_step.
  assert (base_of (region_pool s) h = r_base y /\ base_of (region_pool s) r = r_base x) as [Ebh Ebr].
  { unfold base_of. by rewrite Hy, Hx. }
  destruct (r_base x <? r_base y) eqn:Elt.
  { apply Hfront. cbn [insert_ids]. by rewrite Ebh, Ebr, Elt. }
  clear Hfront. cbn [deref]. wp_step. wp_step. wp_step.
  eapply wp_mono; [apply (insert_walk s r x h l); [done|done|cbn in Hsh; lia]|].
  intros curr ? (-> & l1 & l2 & El & Ei). rewrite El in Hc, Hnd, Hr.
  destruct (chain_app _ _ _ _ _ Hc) as (z & Hz & Hc2). assert (curr <> r) as Hcr by set_solver.
  wp_step. eapply wp_rd_region; [exact Hz|]. wp_step. eapply wp_wr_region; [exact Hx|]. wp_step.
  eapply wp_wr_region; [cbn; rewrite list_lookup_insert_ne by done; exact Hz|].
  eapply wp_wr_space; [destruct p; exact Hsp|].
  apply (inserted_intro s p sp (h :: l) r (<[curr := set_next (Some r) z]>
    (<[r := set_next (r_next z) x]> (region_pool s))) (add_count 1 sp)); [done|by rewrite El| |done|done|].
  - apply relinked_set; [|by rewrite list_lookup_insert_ne|rewrite El; set_solver].
    apply relinked_set; [apply relinked_refl|done|by left].
  - cbn [insert_ids regions add_count]. rewrite Ebh, Ebr, Elt, Ei, Eh. by apply chain_behind.
Qed.

(** ** The list of regions as data *)

Definition region_of (pool : list region) (i : nat) : region :=
  default (Region 0 0 0 REGION_FREE None) (data <$> pool !! i).

Definition regions_of (pool : list region) (ids : list nat) : list region := region_of pool <$> ids.

Fixpoint insert_data_before (d : region) (l : list region) : list region :=
  match l with
  | [] => [d]
  | x :: r => if r_base x <? r_base d then x :: insert_data_before d r else d :: x :: r
  end.

(** Insertion by base; a region with the base of the head goes after it. *)
Definition insert_data (d : region) (l : list region) : list region :=
  match l with
  | [] => [d]
  | h :: r => if r_base d <? r_base h then d :: h :: r else h :: insert_data_before d r
  end.

Lemma region_of_base pool i : r_base (region_of pool i) = base_of pool i.
Proof. unfold region_of, base_of. by destruct (pool !! i). Qed.

Lemma insert_before_data pool r ids :
  regions_of pool (insert_before (base_of pool) r ids) =
  insert_data_before (region_of pool r) (regions_of pool ids).
Proof.
  induction ids as [|i l IH]; [done|]. cbn. rewrite !region_of_base.
  destruct (_ <? _); cbn; [|done]. f_equal. exact IH.
Qed.

Lemma insert_ids_data pool r ids :
  regions_of pool (insert_ids (base_of pool) r ids) =
  insert_data (region_of pool r) (regions_of pool ids).
Proof.
  destruct ids as [|h l]; [done|]. cbn. rewrite !region_of_base.
  destruct (_ <? _); cbn; [done|]. f_equal. apply insert_before_data.
Qed.

Lemma regions_relinked t pool pool' ids : relinked t pool pool' ->
  regions_of pool' ids = regions_of pool ids.
Proof.
  intros Hr. unfold regions_of. apply list_fmap_ext. intros k i _. unfold region_of.
  by rewrite (rl_data _ _ _ Hr).
Qed.

Lemma insert_data_perm d l : insert_data d l ≡ₚ d :: l.
Proof.
  destruct l as [|h r]; cbn; [done|]. destruct (_ <? _); [done|].
  assert (insert_data_before d r ≡ₚ d :: r) as ->; [|apply Permutation_swap].
  induction r as [|x r IH]; cbn; [done|]. destruct (_ <? _); [|done]. rewrite IH. apply Permutation_swap.
Qed.

(** A space holds the regions [l], in slots that have been handed out. *)
Record holds (s : vsys) (p : sptr) (ids : list nat) (l : list region) : Prop := {
  ho_list : exists sp, region_list s p sp ids;
  ho_used : Forall (fun i => Z.of_nat i < region_pool_used s) ids;
  ho_data : regions_of (region_pool s) ids = l;
}.

Lemma holds_sorted s p ids l : holds s p ids l -> StronglySorted (fun x y => r_base x <= r_base y) l.
Proof.
  intros [[sp [_ _ _ Hs _ _]] _ <-]. unfold sorted in Hs. unfold regions_of.
  induction Hs as [|i r Hr IH Hi]; cbn; constructor; [done|].
  apply Forall_fmap. eapply Forall_impl; [exact Hi|]. intros j. cbn. by rewrite !region_of_base.
Qed.

(** ** Slots *)

Section Register.
Context {L : Layout}.

Lemma alloc_region_wp s : length (region_pool s) = 256%nat -> 0 <= region_pool_used s < 256 ->
  wp alloc_region s (fun q s' => q = Some (Z.to_nat (region_pool_used s)) /\
    s' = set_pool (<[Z.to_nat (region_pool_used s) := Region 0 0 0 REGION_FREE None]> (region_pool s))
           (set_pool_used (region_pool_used s + 1) s)).
Proof.
  intros Hl Hu. unfold alloc_region. wp_step. wp_step. unfold VMM_MAX_REGIONS.
  rewrite (proj2 (Z.leb_gt 256 _)) by lia. wp_step. wp_step. wp_step.
  destruct (lookup_lt_is_Some_2 (region_pool s) (Z.to_nat (region_pool_used s))) as [x Hx]; [lia|].
  eapply wp_wr_region; [exact Hx|]. wp_step. split; [done|].
  by rewrite u32_small by (unfold is32; lia).
Qed.

(** The state after a region is registered in slot [i]. *)
Definition registered (s : vsys) (p : sptr) (ids : list nat) (l : list region) (d : region) (s' : vsys) : Prop :=
  let i := Z.to_nat (region_pool_used s) in
  exists ids' pool' sp sp',
    s' = put_space p sp' (set_pool pool' (set_pool_used (region_pool_used s + 1) s)) /\
    space_at s p = Some sp /\ page_directory sp' = page_directory sp /\
    holds s' p ids' (insert_data d l) /\ (i ∉ ids) /\
    ids' = insert_ids (base_of (<[i := d]> (region_pool s))) i ids /\
    relinked (i :: ids) (<[i := d]> (region_pool s)) pool'.

(** The state in which [alloc_region] leaves the pool. *)
Definition slot_taken (s : vsys) : vsys :=
  set_pool (<[Z.to_nat (region_pool_used s) := Region 0 0 0 REGION_FREE None]> (region_pool s))
    (set_pool_used (region_pool_used s + 1) s).

(** The new slot is not in the list, whose slots are as they were. *)
Lemma new_slot s p ids l d : holds s p ids l -> 0 <= region_pool_used s < 256 ->
  let i := Z.to_nat (region_pool_used s) in
  exists sp, space_at s p = Some sp /\ (i ∉ ids) /\
    (forall j, j ∈ ids -> (<[i := d]> (region_pool s)) !! j = region_pool s !! j) /\
    region_list (set_pool (<[i := d]> (region_pool s)) (set_pool_used (region_pool_used s + 1) s)) p sp ids.
Proof.
  intros [[sp Hrg] Hused _] Hu i. exists sp. split; [apply Hrg|].
  assert (i ∉ ids) as Hni.
  { intros H. rewrite Forall_forall in Hused. specialize (Hused i H). cbn in Hused. lia. }
  assert (forall j, j ∈ ids -> (<[i := d]> (region_pool s)) !! j = region_pool s !! j) as Hsame.
  { intros j Hj. rewrite list_lookup_insert_ne; [done|]. by intros ->. }
  split; [done|]. split; [done|]. destruct Hrg as [Hsp Hc Hnd Hso Hcnt Hl]. split; [by destruct p|..|done|].
  - by apply chain_insert.
  - done.
  - cbn. unfold sorted in *. clear -Hso Hsame. induction Hso as [|j r Hr IH Hj]; constructor.
    + apply IH. intros k Hk. apply Hsame. by right.
    + rewrite Forall_forall in Hj |- *. intros k Hk. specialize (Hj k Hk). unfold base_of in *.
      rewrite !Hsame; [done|by right|by left].
  - cbn. by rewrite length_insert.
Qed.

(** Filling in the new slot and linking it. *)
Lemma place_wp s p ids l base size flags ty : holds s p ids l -> 0 <= region_pool_used s < 256 ->
  let i := Z.to_nat (region_pool_used s) in
  wp (fill_region i base size flags ty ;;; insert_region p i) (slot_taken s)
    (fun _ s' => registered s p ids l (Region base size flags ty None) s').
Proof.
  intros Hh Hu i. set (d := Region base size flags ty None).
  destruct (new_slot s p ids l d Hh Hu) as (sp & Hsp & Hni & Hsame & Hrg). fold i in Hni, Hsame, Hrg.
  pose proof (rg_pool _ _ _ _ Hrg) as Hl. cbn in Hl. rewrite length_insert in Hl.
  wp_step. unfold fill_region, slot_taken. fold i. eapply wp_wr_region.
  { apply list_lookup_insert_eq. lia. }
  cbn [region_pool set_pool r_next]. rewrite list_insert_insert_eq. fold d.
  set (s2 := set_pool (<[i := d]> (region_pool s)) (set_pool_used (region_pool_used s + 1) s)) in *.
  match goal with |- wpe _ ?x _ _ => change x with s2 end.
  assert (region_pool s2 !! i = Some d) as Hi2 by (apply list_lookup_insert_eq; lia).
  eapply wp_mono; [by apply (insert_region_wp s2 p sp ids i d)|].
  intros [] s' (pool' & sp' & -> & Hpd & Hrl & Hrg').
  exists (insert_ids (base_of (region_pool s2)) i ids), pool', sp, sp'.
  split; [done|]. split; [done|]. split; [done|]. split; [|by split].
  set (s3 := put_space p sp' _) in *.
  assert (region_pool s3 = pool') as Ep' by (by destruct p).
  assert (region_pool_used s3 = region_pool_used s + 1) as Eu by (by destruct p).
  split; [by eexists| |].
  - rewrite Eu, insert_ids_perm. apply Forall_cons. split; [lia|].
    eapply Forall_impl; [apply Hh|]. cbn. lia.
  - rewrite Ep', (regions_relinked _ _ _ _ Hrl), insert_ids_data, <-(ho_data _ _ _ _ Hh). f_equal.
    + unfold region_of. by rewrite Hi2.
    + unfold regions_of. apply list_fmap_ext. intros k j Hj. unfold region_of. cbn.
      rewrite Hsame; [done|]. by eapply list_elem_of_lookup_2.
Qed.

Lemma register_wp s p ids l base size flags ty : holds s p ids l ->
  0 <= region_pool_used s < 256 ->
  wp (register_existing_region p base size flags ty) s (fun q s' =>
    q = Some (Z.to_nat (region_pool_used s)) /\
    registered s p ids l (Region base size flags ty None) s').
Proof.
  intros Hh Hu. pose proof Hh as [[sp Hrg] _ _]. unfold register_existing_region. wp_step.
  eapply wp_mono; [apply alloc_region_wp; [apply Hrg|done]|]. intros q ? [-> ->].
  pose proof (place_wp s p ids l base size flags ty Hh Hu) as W%wp_unbind. unfold slot_taken in W.
  wp_step. eapply wp_mono; [exact W|]. clear W. intros [] s1 W.
  wp_step. eapply wp_mono; [exact W|]. intros [] s2 Hr. by wp_step.
Qed.
End Register.

(** ** Removal *)

Lemma remove_walk s r h l1 l2 : chain (region_pool s) (Some h) ((h :: l1) ++ r :: l2) ->
  NoDup ((h :: l1) ++ r :: l2) -> (length l1 <= 256)%nat ->
  wp (loop (fun curr =>
        c <- rd_region curr ;;
        ret (match r_next c with
             | None => inr curr
             | Some n => if bool_decide (n = r) then inr curr else inl n
             end)) h) s
     (fun curr s' => s' = s /\ exists l1', h :: l1 = l1' ++ [curr]).
Proof.
  intros Hc Hnd Hlen.
  apply (wp_loop_var _ (fun n curr s' => s' = s /\ exists a b, h :: l1 = a ++ curr :: b /\
           n = Z.of_nat (length b)))
    with (Z.of_nat (length l1)); [|split; [done|]; by exists [], l1|lia].
  intros n curr ? (-> & a & b & El & ->).
  assert (chain (region_pool s) (Some h) (a ++ curr :: (b ++ r :: l2))) as Hc1.
  { rewrite El, <-app_assoc in Hc. exact Hc. }
  destruct (chain_app _ _ _ _ _ Hc1) as (y & Hy & Hc2).
  wp_step. eapply wp_rd_region; [exact Hy|]. destruct b as [|j b].
  - destruct Hc2 as (-> & _). rewrite bool_decide_eq_true_2 by done. wp_step. split; [done|]. by exists a.
  - destruct Hc2 as (-> & _). rewrite bool_decide_eq_false_2.
    2:{ intros ->. rewrite El, <-app_assoc in Hnd. apply NoDup_app in Hnd as (_ & _ & Hnd).
        cbn in Hnd. apply NoDup_cons in Hnd as [_ Hnd]. apply NoDup_cons in Hnd as [Hr _].
        apply Hr, elem_of_app. right. by left. }
    wp_step. exists (Z.of_nat (length b)). split; [cbn [length]; lia|]. split; [done|].
    exists (a ++ [curr]), b. by rewrite El, <-app_assoc.
Qed.

(** The state after [remove_region] of a slot of the list. *)
Definition removed (s : vsys) (p : sptr) (sp : space) (l1 : list nat) (r : nat) (l2 : list nat) (s' : vsys) : Prop :=
  exists pool' sp', s' = put_space p sp' (set_pool pool' s) /\
    relinked (l1 ++ r :: l2) (region_pool s) pool' /\ region_list s' p sp' (l1 ++ l2).

Lemma removed_intro s p sp l1 r l2 pool' sp' : region_list s p sp (l1 ++ r :: l2) ->
  relinked (l1 ++ r :: l2) (region_pool s) pool' ->
  region_count sp' = region_count sp +u (-1) -> chain pool' (regions sp') (l1 ++ l2) ->
  removed s p sp l1 r l2 (put_space p sp' (set_pool pool' s)).
Proof.
  intros Hrg Hrl Hcnt Hc. pose proof (rg_short _ _ _ _ Hrg) as Hsh.
  exists pool', sp'. split; [done|]. split; [done|].
  assert (region_pool (put_space p sp' (set_pool pool' s)) = pool') as Ep by (by destruct p).
  split; rewrite ?Ep.
  - rewrite space_at_put. by rewrite decide_True.
  - done.
  - eapply sublist_NoDup; [apply Hrg|]. apply sublist_app; [done|]. by apply sublist_cons.
  - eapply sorted_base; [intros i; symmetry; by eapply relinked_base|].
    pose proof (rg_sorted _ _ _ _ Hrg) as Hs. unfold sorted in *.
    clear -Hs. induction l1 as [|i l1 IH]; cbn in *.
    + by apply StronglySorted_inv in Hs as [? _].
    + apply StronglySorted_inv in Hs as [Hs Hi]. constructor; [by apply IH|].
      rewrite Forall_app, Forall_cons in Hi. apply Forall_app. tauto.
  - rewrite Hcnt, (rg_count _ _ _ _ Hrg). rewrite !length_app in *. cbn [length] in *.
    rewrite u32_small by (unfold is32; lia). lia.
  - rewrite (rl_len _ _ _ Hrl). apply Hrg.
Qed.

Lemma remove_region_wp s p sp l1 r l2 : region_list s p sp (l1 ++ r :: l2) ->
  wp (remove_region p r) s (fun _ s' => removed s p sp l1 r l2 s').
Proof.
  intros Hrg. pose proof Hrg as [Hsp Hc Hnd Hso Hcnt Hl]. pose proof (rg_short _ _ _ _ Hrg) as Hsh.
  unfold remove_region. wp_step. eapply wp_rd_space; [exact Hsp|].
  destruct (chain_app _ _ _ _ _ Hc) as (x & Hx & Hc2).
  destruct l1 as [|h l1].
  - destruct Hc as (Eh & _). rewrite Eh, bool_decide_eq_true_2 by done.
    wp_step. eapply wp_rd_region; [exact Hx|]. wp_step. eapply wp_wr_space; [exact Hsp|].
    eapply wp_wr_space; [by rewrite space_at_put, decide_True|]. rewrite put_space_put.
    replace s with (set_pool (region_pool s) s) at 2 by (by destruct s).
    apply (removed_intro s p sp [] r l2 (region_pool s)); [done|apply relinked_refl|done|done].
  - pose proof Hc as (Eh & y & Hy & _). rewrite Eh in *.
    rewrite bool_decide_eq_false_2.
    2:{ intros [= ->]. cbn in Hnd. apply NoDup_cons in Hnd as [Hn _]. apply Hn, elem_of_app. right. by left. }
    cbn [deref]. wp_step. wp_step. wp_step.
    eapply wp_mono; [apply (remove_walk s r h l1 l2); [done|done|rewrite length_app in Hsh; cbn in Hsh; lia]|].
    intros curr ? (-> & a & El).
    assert ((h :: l1) ++ r :: l2 = a ++ curr :: (r :: l2)) as El2 by (by rewrite El, <-app_assoc).
    assert (chain (region_pool s) (Some h) (a ++ curr :: (r :: l2))) as Hc3 by (by rewrite <-El2).
    destruct (chain_app _ _ _ _ _ Hc3) as (z & Hz & Hzr).
    wp_step. eapply wp_rd_region; [exact Hz|]. destruct Hzr as (-> & _).
    rewrite bool_decide_eq_true_2 by done. cbn [when]. wp_step. eapply wp_rd_region; [exact Hx|].
    wp_step. eapply wp_wr_region; [exact Hz|]. eapply wp_wr_space; [destruct p; exact Hsp|].
    apply (removed_intro s p sp (h :: l1) r l2 (<[curr := set_next (r_next x) z]> (region_pool s)));
      [done| |done|].
    + apply relinked_set; [apply relinked_refl|done|]. rewrite El2. apply elem_of_app. right. by left.
    + cbn [regions add_count]. rewrite Eh.
      replace ((h :: l1) ++ l2) with (a ++ curr :: l2) by (by rewrite El, <-app_assoc).
      rewrite El2 in Hnd. pose proof Hnd as Hnd2.
      eapply chain_splice with (l2 := r :: l2); [exact Hc3| |done| |done].
      * rewrite (cons_middle curr a), app_assoc in Hnd. by apply NoDup_app in Hnd as [? _].
      * apply NoDup_app in Hnd2 as (_ & _ & Hnd2). apply NoDup_cons in Hnd2 as [Hn _]. set_solver.
Qed.
