(* ===== verification/RegionPages.v ===== *)
(** * The pages of a region

    What [vmm_map_region] and [vmm_unmap_region] ([kernel/vmm.c]) do to page tables, frames
    and memory, page by page: a page gets a frame that was free and is filled with zeroes;
    a page that is given up loses its translation and its frame. *)

From stdpp Require Import base gmap list numbers option strings.
From Stdlib Require Import ZArith Lia.
From S2P Require Import Prelude Machine PageTables Pmm Paging PmmSpec PagingSpec HeapList Kheap HeapInv Vmm VmmInv.

Section RegionPages.
Context {L : Layout} {LOk : LayoutOk L}.

Abbreviation PDp := paging_get_directory.
Abbreviation walks g va := (walk (ram (g_hw g)) PDp va).
Abbreviation used g x := (frame_bit (frame_bitmap (g_p g)) x).

(** ** Stores into a data frame *)

Lemma other_word F G k m m' : F mod 4096 = 0 -> G mod 4096 = 0 -> F <> G -> 0 <= k < 1024 ->
  (forall b, b < F \/ F + 4096 <= b -> ld8 m' b = ld8 m b) ->
  ld32 m' (G + 4 * k) = ld32 m (G + 4 * k).
Proof.
  intros HF HG Hne Hk Hb. apply Z.mod_divide in HF as [x ->]; [|lia].
  apply Z.mod_divide in HG as [y ->]; [|lia]. unfold ld32. by rewrite !Hb by lia.
Qed.

(** Memory that differs in a data frame only is translated the same way. *)
Lemma frame_only_tables F m m' : data_frame m PDp F ->
  (forall b, b < F \/ F + 4096 <= b -> ld8 m' b = ld8 m b) ->
  (forall i, 0 <= i < 1024 -> table_of m' PDp i = table_of m PDp i) /\
  (forall va, is32 va -> walk m' PDp va = walk m PDp va).
Proof.
  intros (HF & Hne & HT) Hb. destruct PDp_aligned as [Hal _].
  assert (forall i, 0 <= i < 1024 -> table_of m' PDp i = table_of m PDp i) as Et.
  { intros i Hi. unfold table_of. by rewrite (other_word F PDp i m m') by (done || apply Hal). }
  split; [done|]. intros va Hva. rewrite !walk_tables by done.
  pose proof (pd_index_range va Hva) as Hi. rewrite Et by done.
  destruct (table_of m PDp (pd_index va)) as [T|] eqn:E; [|done]. cbn. unfold pte_of.
  rewrite (other_word F T _ m m'); [done|done|by apply (table_of_aligned m PDp (pd_index va))| |
    apply pt_index_range|done].
  intros ->. by apply (HT (pd_index va)).
Qed.

(** The state after stores into the data frame [F]. *)
Definition stored (F : Z) (g g' : gsys) : Prop :=
  g' = set_hw (g_hw g') g /\ cr3 (g_hw g') = cr3 (g_hw g) /\
  forall b, b < F \/ F + 4096 <= b -> ld8 (ram (g_hw g')) b = ld8 (ram (g_hw g)) b.

Lemma stored_inv F g g' : paging_inv g -> data_frame (ram (g_hw g)) PDp F -> stored F g g' ->
  paging_inv g' /\ tables_kept g g' /\ data_frame (ram (g_hw g')) PDp F /\
  (forall va, is32 va -> walks g' va = walks g va).
Proof.
  intros Hinv HF (E & Hc & Hb). destruct (frame_only_tables F _ _ HF Hb) as [Et Ew].
  pose proof Hinv as [[Kc Kd Kt Ki] Hp Hz Hd Ht].
  assert (g_p g' = update p_lens (g_hw g') (g_p g)) as Ep by (by rewrite E at 1).
  split; [|split; [|split; [|done]]].
  - split; rewrite ?Ep; try done.
    + split; [by rewrite Hc| | |].
      * intros p Hpr. rewrite <-(Kd p Hpr). unfold translate. rewrite Hc, Kc, Ew; [done|by apply window_is32].
      * intros i T Hi. rewrite Et by done. by apply Kt.
      * intros i j T Hi Hj. rewrite !Et by done. by apply Ki.
    + intros i T Hi. rewrite Et by done. by apply Ht.
  - split_and!; [by rewrite Ep|by rewrite E at 1|]. intros i T Hi HT. by rewrite Et.
  - destruct HF as (? & ? & HT). split_and!; [done|done|]. intros i Hi. rewrite Et by done. by apply HT.
Qed.

(** ** The layers below a region *)

Definition vg (v : vsys) : gsys := h_g (v_h v).
Definition put_g (g : gsys) (v : vsys) : vsys := update v_lens (update h_lens g (v_h v)) v.

Lemma put_g_id v : put_g (vg v) v = v.
Proof. by destruct v as [[]]. Qed.

Lemma wp_v_paging {A} (m : M gsys A) g v (Q : A -> vsys -> Prop) :
  wp m g (fun a g' => Q a (put_g g' v)) -> wp (v_paging m) (put_g g v) Q.
Proof. intros H. unfold v_paging. do 2 wp_step. exact H. Qed.

(** ** Zeroing *)

Lemma page_byte h va F i : va mod 4096 = 0 -> translate h va = Some F -> 0 <= i < 4096 ->
  translate h (va + i) = Some (F + i).
Proof. intros Ha Ht Hi. apply (translate_offset _ _ _ i Ht); rewrite ?Ha; lia. Qed.

(** After [k] turns of the loop. *)
Definition zeroing (F : Z) (g : gsys) (k : Z) (g' : gsys) : Prop :=
  stored F g g' /\ forall j, 0 <= j < k -> ld8 (ram (g_hw g')) (F + j) = 0.

Lemma zero_page_wp v g va F : paging_inv g -> is32 va -> va mod 4096 = 0 ->
  va + 4096 <= 4294967296 -> translate (g_hw g) va = Some F -> data_frame (ram (g_hw g)) PDp F ->
  wp (zero_page va) (put_g g v) (fun _ v' => exists g', v' = put_g g' v /\ zeroing F g 4096 g').
Proof.
  intros Hinv Hva Ha Hend Ht HF. unfold zero_page.
  apply (wp_for_loop _ _ _ (fun k v' => exists g', v' = put_g g' v /\ zeroing F g k g')); try done.
  - exists g. split; [done|]. split; [split_and!; [by rewrite set_hw_id|done|done]|]. intros; lia.
  - intros i ? Hi _ (g' & -> & Hst & Hz). unfold is32, PAGE_SIZE in *. unfold v_hw. apply wp_v_paging, wp_hw.
    destruct (stored_inv F g g' Hinv HF Hst) as (Hinv' & _ & _ & Hw).
    rewrite u32_small by (unfold is32; lia).
    assert (translate (g_hw g') (va + i) = Some (F + i)) as Hti.
    { apply page_byte; [done| |lia]. rewrite <-Ht, !translate_walk by done. by rewrite Hw by done. }
    unfold vst8, wpe. rewrite Hti. eexists. split; [done|]. destruct Hst as (E & Hc & Hb). split.
    + split_and!; [transitivity (set_hw (set_ram (st8 (ram (g_hw g')) (F + i) 0) (g_hw g')) (set_hw (g_hw g') g)); [by rewrite <-E|done]|done|]. intros b Hb'. cbn. rewrite ld8_st8, decide_False by lia. by apply Hb.
    + intros j Hj. cbn. rewrite ld8_st8. case_decide; [done|]. apply Hz. lia.
Qed.

(** ** Mapping page by page *)

(** The frame behind [va] when the pages from [lo] on have the frames [fs]. *)
Definition region_frame (lo : Z) (fs : list Z) (va : Z) : option Z :=
  if lo <=? va then fs !! Z.to_nat ((va - lo) / 4096) else None.

Lemma region_frame_snoc lo fs f va : lo mod 4096 = 0 -> 
  region_frame lo (fs ++ [f]) va =
  if decide (va / 4096 = (lo + 4096 * Z.of_nat (length fs)) / 4096) then Some f else region_frame lo fs va.
Proof.
  intros Ha. unfold region_frame. apply Z.mod_divide in Ha as [x ->]; [|lia].
  replace ((x * 4096 + 4096 * Z.of_nat (length fs)) / 4096) with (x + Z.of_nat (length fs)).
  2:{ replace (x * 4096 + _) with ((x + Z.of_nat (length fs)) * 4096) by lia. by rewrite Z.div_mul. }
  replace ((va - x * 4096) / 4096) with (va / 4096 - x).
  2:{ replace (va - x * 4096) with (va + - x * 4096) by lia. rewrite Z.div_add by lia. lia. }
  pose proof (Z.div_mod va 4096 ltac:(lia)). pose proof (Z.mod_pos_bound va 4096 ltac:(lia)).
  destruct (Z.leb_spec (x * 4096) va); case_decide as E; try done; try lia.
  - rewrite lookup_app_r by lia. replace (_ - _)%nat with 0%nat by lia. done.
  - destruct (Z.lt_ge_cases (va / 4096 - x) (Z.of_nat (length fs))).
    + by rewrite lookup_app_l by lia.
    + rewrite !lookup_ge_None_2; [done|lia|rewrite length_app; cbn; lia].
Qed.

Lemma region_frame_none lo fs va : 0 <= Z.of_nat (length fs) ->
  va < lo \/ lo + 4096 * Z.of_nat (length fs) <= va -> region_frame lo fs va = None.
Proof.
  intros _ Hva. unfold region_frame. destruct (Z.leb_spec lo va); [|done].
  apply lookup_ge_None_2. assert (Z.of_nat (length fs) <= (va - lo) / 4096); [|lia].
  apply Z.div_le_lower_bound; lia.
Qed.

(** [g] is [g0] with the pages from [lo] on mapped to the zeroed frames [fs], and the frames
    [ts] turned into page tables. *)
Record mapping (g0 : gsys) (lo flags : Z) (fs ts : list Z) (g : gsys) : Prop := {
  mp_inv : paging_inv g;
  mp_tables : tables_kept g0 g;
  mp_data : keeps_data g0 g;
  mp_fresh : forall x, x ∈ fs ++ ts -> 0 < x < FRAMES /\ used g0 x = false;
  mp_nodup : NoDup (fs ++ ts);
  mp_used : forall x, 0 <= x < FRAMES -> used g x = bool_decide (x ∈ fs ++ ts) || used g0 x;
  mp_walk : forall va, is32 va -> walks g va =
    match region_frame lo fs va with
    | Some f => Some (make_pte (PAGE_SIZE * f) flags)
    | None => walks g0 va
    end;
  mp_frames : forall f, f ∈ fs -> data_frame (ram (g_hw g)) PDp (PAGE_SIZE * f) /\
    forall k, 0 <= k < 4096 -> ld8 (ram (g_hw g)) (PAGE_SIZE * f + k) = 0;
  mp_few : (length ts <= length fs)%nat;
}.

Lemma mapping_nil g lo flags : paging_inv g -> mapping g lo flags [] [] g.
Proof.
  intros Hi. split; [done|apply tables_kept_refl|apply keeps_data_refl| |constructor|done| | |done].
  - by intros x ?%not_elem_of_nil.
  - intros va _. unfold region_frame. by destruct (lo <=? va).
  - by intros f ?%not_elem_of_nil.
Qed.

(** Changes of the devices only. *)
Lemma mapping_hw g0 lo flags fs ts g h : same_mem (g_hw g) h -> mapping g0 lo flags fs ts g ->
  mapping g0 lo flags fs ts (set_hw h g).
Proof.
  intros Hh [H1 H2 H3 H4 H5 H6 H7 H8 H9]. pose proof Hh as [Er _].
  split; [by apply paging_inv_hw|by eapply tables_kept_trans, tables_kept_hw
    |by eapply keeps_data_trans, keeps_data_hw|done|done|done| | |done];
    change (g_hw (set_hw h g)) with h; rewrite <-Er; done.
Qed.

(** A frame that was taken after [g0] is not a frame [g0] used. *)
Lemma mapping_free g0 lo flags fs ts g f : mapping g0 lo flags fs ts g -> 0 <= f < FRAMES ->
  used g f = false -> used g0 f = false /\ f ∉ fs ++ ts.
Proof.
  intros Hm Hf Hu. rewrite (mp_used _ _ _ _ _ _ Hm) in Hu by done. apply orb_false_iff in Hu as [H1 H2].
  by apply bool_decide_eq_false in H1.
Qed.

Lemma frame_number f : 0 <= f < FRAMES -> PAGE_SIZE * f / 4096 = f.
Proof. intros Hf. apply (frame_of_aligned f Hf). Qed.

Lemma taken_tables g f : tables_kept g (taken g f).
Proof. by split_and!. Qed.

(** Stores into [F] keep the other frames. *)
Lemma stored_keeps F g g' G : F mod 4096 = 0 -> stored F g g' -> data_frame (ram (g_hw g)) PDp F ->
  data_frame (ram (g_hw g)) PDp G -> G <> F ->
  data_frame (ram (g_hw g')) PDp G /\ forall k, 0 <= k < 4096 -> ld8 (ram (g_hw g')) (G + k) = ld8 (ram (g_hw g)) (G + k).
Proof.
  intros Ha (_ & _ & Hb) HF (HGa & HGp & HGt) Hne. destruct (frame_only_tables F _ _ HF Hb) as [Et _].
  split; [split_and!; [done|done|]; intros i Hi; rewrite Et by done; by apply HGt|].
  intros k Hk. apply Hb. apply Z.mod_divide in Ha as [x ->]; [|lia]. apply Z.mod_divide in HGa as [y ->]; [|lia].
  assert (y <> x) by (by intros ->). lia.
Qed.

(** The state of the allocator after a page got the frame [f] and tables got [ts']. *)
Lemma page_bits g0 lo flags fs ts g f ts' g1 : mapping g0 lo flags fs ts g -> 0 <= f < FRAMES ->
  used g f = false -> added (taken g f) g1 ts' ->
  (forall x, x ∈ (fs ++ [f]) ++ ts ++ ts' -> 0 < x < FRAMES /\ used g0 x = false) /\
  NoDup ((fs ++ [f]) ++ ts ++ ts') /\
  (forall x, 0 <= x < FRAMES -> used g1 x = bool_decide (x ∈ (fs ++ [f]) ++ ts ++ ts') || used g0 x).
Proof.
  intros Hm Hf Hu (Hnd & Hnew & Hbits). pose proof (mp_inv _ _ _ _ _ _ Hm) as Hi.
  destruct (mapping_free _ _ _ _ _ _ f Hm Hf Hu) as [Hu0 Hnf].
  assert (f <> 0) as Hf0 by (intros ->; by rewrite (pi_zero _ Hi) in Hu).
  assert (forall x, x ∈ ts' -> 0 < x < FRAMES /\ x <> f /\ used g0 x = false /\ x ∉ fs ++ ts) as Hts.
  { intros x Hx. destruct (Hnew x Hx) as [Hr Hb]. rewrite taken_bit in Hb by (done || unfold FRAMES; lia).
    apply orb_false_iff in Hb as [Hb1 Hb2]. apply Z.eqb_neq in Hb1.
    destruct (mapping_free _ _ _ _ _ _ x Hm ltac:(unfold FRAMES; lia) Hb2) as [? ?].
    split; [unfold FRAMES; lia|]. split; [congruence|done]. }
  assert ((fs ++ [f]) ++ ts ++ ts' ≡ₚ f :: ts' ++ fs ++ ts) as Hperm by (rewrite <-!app_assoc; cbn; solve_Permutation).
  split; [|split].
  - intros x Hx. rewrite Hperm in Hx. apply elem_of_cons in Hx as [->|[Hx|Hx]%elem_of_app]; [split; [lia|done]|..].
    + by destruct (Hts x Hx) as (? & _ & ? & _).
    + by apply (mp_fresh _ _ _ _ _ _ Hm).
  - rewrite Hperm. apply NoDup_cons. split.
    + rewrite elem_of_app. intros [Hx|Hx]; [by destruct (Hts f Hx) as (_ & ? & _)|done].
    + apply NoDup_app. split_and!; [done| |apply (mp_nodup _ _ _ _ _ _ Hm)].
      intros x Hx. by destruct (Hts x Hx) as (_ & _ & _ & ?).
  - intros x Hx. rewrite Hbits, taken_bit, (mp_used _ _ _ _ _ _ Hm) by done.
    rewrite (bool_decide_ext (x ∈ (fs ++ [f]) ++ ts ++ ts') (x ∈ ts' \/ f = x \/ x ∈ fs ++ ts)).
    2:{ rewrite Hperm, elem_of_cons, elem_of_app. naive_solver. }
    destruct (Z.eqb_spec f x); repeat case_bool_decide; cbn; try done; naive_solver.
Qed.

Lemma stored_bits F g g' : stored F g g' -> frame_bitmap (g_p g') = frame_bitmap (g_p g).
Proof. intros (E & _). by rewrite E. Qed.

Lemma frames_distinct f G : 0 <= f < FRAMES -> G / 4096 <> f -> G <> PAGE_SIZE * f.
Proof. intros Hf H ->. by rewrite (proj2 (frame_of_aligned f Hf)) in H. Qed.

Lemma keeps_frame g g' f : keeps_data g g' -> 0 <= f < FRAMES -> used g f = true ->
  data_frame (ram (g_hw g)) PDp (PAGE_SIZE * f) ->
  data_frame (ram (g_hw g')) PDp (PAGE_SIZE * f) /\ used g' f = true /\
  forall k, 0 <= k < 4096 -> ld8 (ram (g_hw g')) (PAGE_SIZE * f + k) = ld8 (ram (g_hw g)) (PAGE_SIZE * f + k).
Proof.
  intros Hk Hf Hu HF. pose proof (Hk _ HF) as H. rewrite (frame_number f Hf) in H. by apply H.
Qed.

(** One turn of the mapping loop. *)
Lemma page_mapped g0 lo flags fs ts g f g1 g2 ts' : mapping g0 lo flags fs ts g ->
  lo mod 4096 = 0 -> 0 <= f < FRAMES -> used g f = false ->
  paging_inv g1 -> keeps_data (taken g f) g1 -> tables_kept (taken g f) g1 ->
  remaps (g_hw (taken g f)) (g_hw g1) (lo + 4096 * Z.of_nat (length fs)) (Some (make_pte (PAGE_SIZE * f) flags)) ->
  (length ts' <= 1)%nat -> added (taken g f) g1 ts' ->
  zeroing (PAGE_SIZE * f) g1 4096 g2 ->
  mapping g0 lo flags (fs ++ [f]) (ts ++ ts') g2.
Proof.
  intros Hm Hlo Hf Hu Hi1 Hk1 Ht1 Hr Hlen Hadd [Hst Hzero].
  pose proof (mp_inv _ _ _ _ _ _ Hm) as Hi. destruct (frame_of_aligned f Hf) as [[_ HFa] _].
  destruct (page_bits _ _ _ _ _ _ f ts' g1 Hm Hf Hu Hadd) as (Hfresh & Hnd & Hbits).
  destruct (mapping_free _ _ _ _ _ _ f Hm Hf Hu) as [Hu0 Hnf].
  pose proof (keeps_data_trans _ _ _ (taken_keeps g f Hi Hf) Hk1) as Hk.
  destruct (keeps_frame (taken g f) g1 f Hk1 Hf) as (HF1 & _).
  { rewrite taken_bit by done. by rewrite Z.eqb_refl. }
  { by apply (free_frame_data g f). }
  destruct (stored_inv _ _ _ Hi1 HF1 Hst) as (Hi2 & Ht2 & HF2 & Hw2).
  pose proof (stored_bits _ _ _ Hst) as Eb. split; rewrite ?Eb; try done.
  - eapply tables_kept_trans; [|exact Ht2]. eapply tables_kept_trans; [apply Hm|].
    eapply tables_kept_trans; [apply (taken_tables g f)|done].
  - intros G HG HGr HGu. rewrite Eb.
    destruct (keeps_data_trans _ _ _ (mp_data _ _ _ _ _ _ Hm) Hk G HG HGr HGu) as (HG1 & HGu1 & HGk).
    destruct (stored_keeps _ _ _ G HFa Hst HF1 HG1) as [HG2 HGk2].
    { apply frames_distinct; [done|]. congruence. }
    split_and!; [done|done|]. intros k Hk'. by rewrite HGk2, HGk.
  - intros va Hva. rewrite Hw2, region_frame_snoc by done.
    pose proof (Hr va Hva) as E. rewrite (kw_cr3 _ (pi_map _ Hi1)) in E.
    change (g_hw (taken g f)) with (g_hw g) in E. rewrite (kw_cr3 _ (pi_map _ Hi)) in E. rewrite E.
    case_decide; [done|]. by apply Hm.
  - intros x [Hx|Hx%list_elem_of_singleton]%elem_of_app; [|by subst].
    destruct (mp_frames _ _ _ _ _ _ Hm x Hx) as [HX HXz].
    assert (x ∈ fs ++ ts) as Hx' by (apply elem_of_app; by left).
    destruct (mp_fresh _ _ _ _ _ _ Hm x Hx') as [Hxr _].
    assert (0 <= x < FRAMES) as Hxr' by lia.
    destruct (keeps_frame g g1 x Hk Hxr') as (HX1 & _ & HXk1); [|done|].
    { rewrite (mp_used _ _ _ _ _ _ Hm) by done. by rewrite bool_decide_eq_true_2. }
    destruct (stored_keeps _ _ _ _ HFa Hst HF1 HX1) as [HX2 HXk2].
    { apply frames_distinct; [done|]. rewrite (frame_number x) by done. by intros ->. }
    split; [done|]. intros k Hk'. by rewrite HXk2, HXk1, HXz.
  - pose proof (mp_few _ _ _ _ _ _ Hm). rewrite !length_app. cbn. lia.
Qed.

(** ** Giving pages up *)

(** What unmapping a page leaves alone. *)
Definition tables_same (g g' : gsys) : Prop :=
  current_page_directory g' = current_page_directory g /\
  total_frames (g_p g') = total_frames (g_p g) /\
  (forall i, 0 <= i < 1024 -> table_of (ram (g_hw g')) PDp i = table_of (ram (g_hw g)) PDp i) /\
  forall G k, data_frame (ram (g_hw g)) PDp G -> 0 <= k < 4096 ->
    ld8 (ram (g_hw g')) (G + k) = ld8 (ram (g_hw g)) (G + k).

Lemma tables_same_refl g : tables_same g g.
Proof. by split_and!. Qed.

Lemma tables_same_data g g' G : tables_same g g' ->
  data_frame (ram (g_hw g)) PDp G -> data_frame (ram (g_hw g')) PDp G.
Proof. intros (_ & _ & Et & _) (? & ? & HT). split_and!; [done..|]. intros i Hi. rewrite Et by done. by apply HT. Qed.

Lemma tables_same_trans g g1 g2 : tables_same g g1 -> tables_same g1 g2 -> tables_same g g2.
Proof.
  intros H1 H2. pose proof H1 as (C1 & E1 & T1 & B1). pose proof H2 as (C2 & E2 & T2 & B2).
  split_and!; [congruence|congruence| |].
  - intros i Hi. by rewrite T2, T1.
  - intros G k HG Hk. rewrite B2, B1; [done..| |done]. by eapply tables_same_data.
Qed.

Lemma unmap_same g va : paging_inv g -> is32 va -> outside va ->
  wp (paging_unmap_page va) g (fun _ g' => paging_inv g' /\ tables_same g g' /\
    frame_bitmap (g_p g') = frame_bitmap (g_p g) /\ remaps (g_hw g) (g_hw g') va None).
Proof.
  intros Hinv Hva Ho. pose proof (unmap_inv g va Hinv Hva Ho) as W.
  pose proof (paging_unmap_page_wp g va (pi_map _ Hinv) Hva Ho) as W2. unfold wpe in *.
  destruct (paging_unmap_page va g) as [[] g'|]; [|done]. destruct W as (Hi' & Hr & Eb).
  split; [done|]. split; [|done]. destruct W2 as (Ep & _ & _ & Hm).
  destruct (table_of (ram (g_hw g)) PDp (pd_index va)) as [T|] eqn:ET; [|subst; apply tables_same_refl].
  destruct (kw_table _ (pi_map _ Hinv) _ _ (pd_index_range va Hva) ET) as [_ Hne].
  pose proof (table_of_aligned _ _ _ _ ET) as HTa.
  split_and!; [by rewrite Ep|by rewrite Ep|intros i Hi; by apply (only_frame_table T)|].
  intros G k (HGa & _ & HGt) Hk. apply Hm. destruct HTa as [_ HTa].
    assert (G <> T) as HGT by (intros ->; by apply (HGt (pd_index va)); [apply pd_index_range|]).
    apply Z.mod_divide in HGa as [x ->]; [|lia]. apply Z.mod_divide in HTa as [y ->]; [|lia].
    assert (x <> y) by (by intros ->). lia.
Qed.

(** The pages from [lo] on have the frames [fs], or none. *)
Record backed (g : gsys) (lo : Z) (fs : list (option Z)) : Prop := {
  bk_page : forall k o, fs !! k = Some o ->
    translate (g_hw g) (lo + 4096 * Z.of_nat k) = (Z.mul PAGE_SIZE) <$> o;
  bk_frame : forall f, Some f ∈ fs -> 0 < f < FRAMES /\ used g f = true /\
    data_frame (ram (g_hw g)) PDp (PAGE_SIZE * f);
  bk_once : forall j k f, fs !! j = Some (Some f) -> fs !! k = Some (Some f) -> j = k;
}.

(** The range of addresses: whole pages, none of them in the window. *)
Record page_range (lo n : Z) : Prop := {
  pr_lo : 0 <= lo;
  pr_aligned : lo mod 4096 = 0;
  pr_count : 0 <= n < 1048576;
  pr_end : lo + 4096 * n <= 4294967296;
  pr_outside : lo + 4096 * n <= KERNEL_VIRTUAL_BASE \/ KERNEL_VIRTUAL_BASE + DIRECT <= lo;
}.

Lemma pr_page lo n k : page_range lo n -> 0 <= k < n ->
  is32 (lo + 4096 * k) /\ outside (lo + 4096 * k) /\ (lo + 4096 * k) mod 4096 = 0 /\
  lo + 4096 * k + 4096 <= 4294967296 /\ (lo + 4096 * k) / 4096 = lo / 4096 + k /\
  lo +u 4096 * k = lo + 4096 * k.
Proof.
  intros [H1 H2 H3 H4 H5] Hk. unfold is32, outside.
  replace (lo + 4096 * k) with (lo + k * 4096) by lia. rewrite Z.mod_add, Z.div_add by lia.
  rewrite u32_small by (unfold is32; lia). lia.
Qed.

Lemma pr_prefix lo n j : 0 <= j <= n -> page_range lo n -> page_range lo j.
Proof. intros Hj [? ? ? ? ?]. split; try done; lia. Qed.

(** [g'] is [g] after the first [j] pages were given up. *)
Record dropped (g : gsys) (lo : Z) (fs : list (option Z)) (j : Z) (g' : gsys) : Prop := {
  dr_inv : paging_inv g';
  dr_same : tables_same g g';
  dr_used : forall x, 0 <= x < FRAMES ->
    used g' x = negb (bool_decide (Some x ∈ take (Z.to_nat j) fs)) && used g x;
  dr_walk : forall va, is32 va -> walks g' va =
    if decide (lo / 4096 <= va / 4096 < lo / 4096 + j) then None else walks g va;
}.

Lemma dropped_none g lo fs : paging_inv g -> dropped g lo fs 0 g.
Proof.
  intros Hi. split; [done|apply tables_same_refl| |].
  - intros x Hx. change (take (Z.to_nat 0) fs) with (@nil (option Z)).
    by rewrite bool_decide_eq_false_2 by apply not_elem_of_nil.
  - intros va _. rewrite decide_False by lia. done.
Qed.

(** The page that is next still has its frame. *)
Lemma dropped_page g lo fs n j g' o : page_range lo n -> backed g lo fs -> 0 <= j < n ->
  paging_inv g -> dropped g lo fs j g' -> fs !! Z.to_nat j = Some o ->
  paging_get_physical (lo + 4096 * j) g' = Ok (default 0 (Z.mul PAGE_SIZE <$> o)) g'.
Proof.
  intros Hpr Hb Hj Hi Hd Ho. destruct (pr_page lo n j Hpr Hj) as (H32 & _ & _ & _ & Hdiv & _).
  rewrite paging_get_physical_run; [|apply (dr_inv _ _ _ _ _ Hd)|done]. do 2 f_equal.
  pose proof (bk_page _ _ _ Hb _ _ Ho) as E. rewrite Z2Nat.id in E by lia. rewrite <-E.
  rewrite !translate_walk; [|apply Hi|apply (dr_inv _ _ _ _ _ Hd)].
  rewrite (dr_walk _ _ _ _ _ Hd) by done. rewrite decide_False by lia. done.
Qed.

Lemma walk_drop lo j va (o : option Z) : 0 <= j ->
  (if decide (va / 4096 = lo / 4096 + j) then None
   else if decide (lo / 4096 <= va / 4096 < lo / 4096 + j) then None else o) =
  if decide (lo / 4096 <= va / 4096 < lo / 4096 + (j + 1)) then None else o.
Proof. intros Hj. repeat case_decide; (done || lia). Qed.

Lemma take_next_frame (fs : list (option Z)) j o : 0 <= j -> fs !! Z.to_nat j = Some o ->
  take (Z.to_nat (j + 1)) fs = take (Z.to_nat j) fs ++ [o].
Proof. intros Hj Ho. replace (Z.to_nat (j + 1)) with (S (Z.to_nat j)) by lia. by apply take_S_r. Qed.

(** Unmapping the next page. *)
Lemma drop_unmap g lo fs n j g' : page_range lo n -> 0 <= j < n -> dropped g lo fs j g' ->
  wp (paging_unmap_page (lo + 4096 * j)) g' (fun _ g1 => paging_inv g1 /\ tables_same g g1 /\
    frame_bitmap (g_p g1) = frame_bitmap (g_p g') /\
    forall va, is32 va -> walks g1 va =
      if decide (lo / 4096 <= va / 4096 < lo / 4096 + (j + 1)) then None else walks g va).
Proof.
  intros Hpr Hj [Hi Hs Hu Hw]. destruct (pr_page lo n j Hpr Hj) as (H32 & Ho & _ & _ & Hdiv & _).
  eapply wp_mono; [by apply unmap_same|]. intros [] g1 (Hi1 & Hs1 & Eb & Hr).
  split_and!; [done|by eapply tables_same_trans|done|]. intros va Hva. pose proof (Hr va Hva) as E.
  rewrite (kw_cr3 _ (pi_map _ Hi1)), (kw_cr3 _ (pi_map _ Hi)), Hdiv in E. rewrite E, Hw by done.
  apply walk_drop. lia.
Qed.

(** A page without a frame. *)
Lemma drop_empty g lo fs n j g' : page_range lo n -> 0 <= j < n -> paging_inv g -> dropped g lo fs j g' ->
  backed g lo fs -> fs !! Z.to_nat j = Some None -> dropped g lo fs (j + 1) g'.
Proof.
  intros Hpr Hj Hi0 [Hi Hs Hu Hw] Hb Hn. destruct (pr_page lo n j Hpr Hj) as (H32 & Ho & _ & _ & Hdiv & _).
  split; [done|done| |].
  - intros x Hx. rewrite Hu by done. rewrite (take_next_frame _ _ _ (proj1 Hj) Hn).
    do 2 f_equal. apply bool_decide_ext. rewrite elem_of_app, list_elem_of_singleton. naive_solver.
  - intros va Hva. rewrite Hw, <-walk_drop by (done || lia).
    destruct (decide (va / 4096 = lo / 4096 + j)) as [E|]; [|done]. rewrite decide_False by lia. pose proof (bk_page _ _ _ Hb _ _ Hn) as Et.
    rewrite Z2Nat.id, translate_walk in Et by (done || lia). cbn in Et.
    rewrite <-Hdiv in E. apply page_index_eq in E as [E1 E2].
    rewrite !walk_tables in * by apply PDp_aligned. rewrite E1, E2.
    destruct (_ ≫= _); [done|]. done.
Qed.

(** Giving the frame of the page back. *)
Lemma drop_free g lo fs j g' g1 f : backed g lo fs -> 0 <= j -> dropped g lo fs j g' ->
  fs !! Z.to_nat j = Some (Some f) -> paging_inv g1 -> tables_same g g1 ->
  frame_bitmap (g_p g1) = frame_bitmap (g_p g') ->
  (forall va, is32 va -> walks g1 va =
      if decide (lo / 4096 <= va / 4096 < lo / 4096 + (j + 1)) then None else walks g va) ->
  wp (zoom g_lens (pmm_free_frame (PAGE_SIZE * f))) g1 (fun _ g2 => dropped g lo fs (j + 1) g2).
Proof.
  intros Hb Hj [Hi Hs Hu Hw] Hf Hi1 Hs1 Eb Hw1.
  destruct (bk_frame _ _ _ Hb f) as (Hfr & Huf & HfD); [by eapply list_elem_of_lookup_2|].
  assert (PAGE_SIZE * f / PAGE_SIZE = f) as Ef by (unfold PAGE_SIZE; rewrite Z.mul_comm; by apply Z.div_mul).
  wp_step. change (view g_lens g1) with (g_p g1). eapply wp_mono.
  { apply pmm_free_frame_wp; [apply Hi1|rewrite Ef; lia]. }
  intros [] p Hp. destruct (free_paging_inv g1 (PAGE_SIZE * f) (update g_lens p g1)) as [Hi2 Hm2]; [done| |done|].
  { split; rewrite Ef; [done|]. by eapply tables_same_data. }
  rewrite Ef in Hp. unfold free_post in Hp. rewrite Eb, Hu, Huf in Hp by lia.
  rewrite bool_decide_eq_false_2 in Hp.
  2:{ intros Hin. apply list_elem_of_lookup in Hin as [k Hk]. apply lookup_take_Some in Hk as [Hk Hlt].
      pose proof (bk_once _ _ _ Hb _ _ _ Hk Hf). lia. }
  cbn in Hp. subst p. split; [done| | |].
  - eapply tables_same_trans; [exact Hs1|]. by split_and!.
  - intros x Hx. change (frame_bitmap (g_p (update g_lens _ g1))) with (bm_clear (frame_bitmap (g_p g')) f).
    rewrite frame_bit_clear by (apply Hi || lia). rewrite Hu by done. rewrite (take_next_frame _ _ _ Hj Hf).
    rewrite (bool_decide_ext (_ ∈ _ ++ [_]) (Some x ∈ take (Z.to_nat j) fs \/ x = f))
      by (rewrite elem_of_app, list_elem_of_singleton; naive_solver).
    destruct (Z.eqb_spec f x); repeat case_bool_decide; cbn; (done || naive_solver).
  - intros va Hva. exact (Hw1 va Hva).
Qed.

Lemma mask_frame f : 0 <= f < FRAMES -> Z.land (PAGE_SIZE * f) 0xFFFFF000 = PAGE_SIZE * f.
Proof.
  intros Hf. destruct (frame_of_aligned f Hf) as [[H32 Ha] _].
  rewrite land_page_mask by done. lia.
Qed.

(** Unmapping a page that has a frame and giving the frame back, as both loops do. *)
Lemma drop_mapped v g lo fs n j g' f : page_range lo n -> 0 <= j < n -> backed g lo fs ->
  dropped g lo fs j g' -> fs !! Z.to_nat j = Some (Some f) ->
  wp (v_paging (paging_unmap_page (lo + 4096 * j)) ;;; v_free_frame (Z.land (PAGE_SIZE * f) 0xFFFFF000))
    (put_g g' v) (fun _ v' => exists g2, v' = put_g g2 v /\ dropped g lo fs (j + 1) g2).
Proof.
  intros Hpr Hj Hb Hd Hf. destruct (bk_frame _ _ _ Hb f) as (Hfr & _); [by eapply list_elem_of_lookup_2|].
  wp_step. apply wp_v_paging. eapply wp_mono; [by eapply drop_unmap|]. intros [] g1 (Hi1 & Hs1 & Eb & Hw1).
  unfold v_free_frame. apply wp_v_paging. rewrite mask_frame by lia.
  eapply wp_mono; [apply (drop_free g lo fs j g' g1 f); [done|lia|done..]|]. intros [] g2 Hd2. by eexists.
Qed.

Lemma page_nonzero f : 0 < f -> negb (PAGE_SIZE * f =? 0) = true.
Proof. intros Hf. unfold PAGE_SIZE. destruct (Z.eqb_spec (4096 * f) 0); [lia|done]. Qed.

(** The rollback loops. *)
Lemma undo_pages_wp v g lo fs n : page_range lo n -> Z.of_nat (length fs) = n -> paging_inv g -> backed g lo fs ->
  wp (undo_pages lo (4096 * n)) (put_g g v) (fun _ v' =>
    exists g', v' = put_g g' v /\ dropped g lo fs n g').
Proof.
  intros Hpr Hn Hi Hb. pose proof (pr_count _ _ Hpr). unfold undo_pages.
  apply (wp_for_loop _ _ _ (fun i v' => exists g' j, i = 4096 * j /\ v' = put_g g' v /\ dropped g lo fs j g'));
    [done|lia|rewrite Z.sub_0_r, Z.mul_comm; by apply Z.mod_mul|unfold PAGE_SIZE; lia|..].
  - exists g, 0. split; [done|]. split; [done|]. by apply dropped_none.
  - intros i ? Hir _ (g' & j & -> & -> & Hd). assert (0 <= j < n) as Hj by lia.
    destruct (pr_page lo n j Hpr Hj) as (H32 & _ & _ & _ & _ & ->).
    destruct (lookup_lt_is_Some_2 fs (Z.to_nat j)) as [o Ho]; [lia|].
    wp_step. apply wp_v_paging. eapply wp_eq; [by eapply dropped_page|]. cbv beta.
    replace (4096 * j + PAGE_SIZE) with (4096 * (j + 1)) by (unfold PAGE_SIZE; lia). destruct o as [f|].
    + destruct (bk_frame _ _ _ Hb f) as (Hfr & _); [by eapply list_elem_of_lookup_2|].
      change (default 0 (Z.mul PAGE_SIZE <$> Some f)) with (PAGE_SIZE * f).
      rewrite page_nonzero by lia. cbn [when].
      eapply wp_mono; [by eapply drop_mapped|]. intros [] ? (g2 & -> & Hd2). by exists g2, (j + 1).
    + wp_step. apply wp_v_paging. eapply wp_mono; [by eapply drop_unmap|].
      intros [] g1 (Hi1 & Hs1 & Eb & Hw1). eapply wp_eq; [done|]. exists g1, (j + 1). split; [done|]. split; [done|].
      pose proof (drop_empty _ _ _ _ _ _ Hpr Hj Hi Hd Hb Ho) as [_ _ Hu _].
      split; [done|done| |done]. intros x Hx. rewrite Eb. by apply Hu.
  - intros ? (g' & j & E & -> & Hd). exists g'. replace n with j by lia. done.
Qed.

(** The loop of [vmm_unmap_region]. *)
Lemma unmap_pages_wp v g fs n i r : region_pool v !! i = Some r -> r_size r = 4096 * n ->
  page_range (r_base r) n -> Z.of_nat (length fs) = n -> paging_inv g -> backed g (r_base r) fs ->
  wp (unmap_pages i) (put_g g v) (fun _ v' =>
    exists g', v' = put_g g' v /\ dropped g (r_base r) fs n g').
Proof.
  intros Hr Hsz Hpr Hn Hi Hb. pose proof (pr_count _ _ Hpr). unfold unmap_pages.
  apply (wp_loop_var _ (fun m i' v' => exists g' j, i' = 4096 * j /\ m = n - j /\ 0 <= j <= n /\
           v' = put_g g' v /\ dropped g (r_base r) fs j g'))
    with n; [|exists g, 0; split_and!; [done|lia|lia|lia|done|by apply dropped_none]|lia].
  intros m ? ? (g' & j & -> & -> & Hjn & -> & Hd). wp_step. eapply wp_rd_region; [exact Hr|].
  rewrite Hsz. destruct (Z.ltb_spec (4096 * j) (4096 * n)).
  2:{ wp_step. exists g'. split; [done|]. by replace n with j by lia. }
  assert (0 <= j < n) as Hj by lia. destruct (pr_page _ n j Hpr Hj) as (H32 & _ & _ & _ & _ & E).
  cbv zeta. rewrite E.
  destruct (lookup_lt_is_Some_2 fs (Z.to_nat j)) as [o Ho]; [lia|].
  wp_step. apply wp_v_paging. eapply wp_eq; [by eapply dropped_page|]. cbv beta.
  assert (4096 * j +u PAGE_SIZE = 4096 * (j + 1)) as En.
  { unfold PAGE_SIZE. rewrite u32_small by (unfold is32; lia). lia. }
  wp_step. apply (wp_mono _ _ _ (fun _ v' => exists g2, v' = put_g g2 v /\ dropped g (r_base r) fs (j + 1) g2)).
  - destruct o as [f|].
    + destruct (bk_frame _ _ _ Hb f) as (Hfr & _); [by eapply list_elem_of_lookup_2|].
      change (default 0 (Z.mul PAGE_SIZE <$> Some f)) with (PAGE_SIZE * f).
      rewrite page_nonzero by lia. cbn [when]. by eapply drop_mapped.
    + eapply wp_eq; [done|]. exists g'. split; [done|]. by eapply drop_empty.
  - intros [] ? (g2 & -> & Hd2). wp_step. rewrite En. exists (n - (j + 1)). split; [lia|].
    exists g2, (j + 1). split_and!; [done|done|lia|lia|done|done].
Qed.

(** ** The mapping loop *)

(** [m] free frames inside the window. *)
Definition reserve (g : gsys) (m : Z) : Prop :=
  exists l, NoDup l /\ m <= Z.of_nat (length l) /\
    forall x, x ∈ l -> 0 <= x < 1024 /\ x < scan_limit (g_p g) /\ used g x = false.

(** The range has its page tables, or there are frames for pages and tables. *)
Definition can_map (g : gsys) (lo n : Z) : Prop :=
  (forall k, 0 <= k < n -> is_Some (table_of (ram (g_hw g)) PDp (pd_index (lo + 4096 * k)))) \/
  reserve g (2 * n).

Lemma pigeonhole (l q : list Z) : NoDup l -> (length q < length l)%nat -> exists x, x ∈ l /\ x ∉ q.
Proof.
  intros Hnd Hlen. destruct (decide (Forall (.∈ q) l)) as [H|H].
  - rewrite Forall_forall in H. pose proof (submseteq_length _ _ (NoDup_submseteq l q Hnd H)). lia.
  - apply not_Forall_Exists, Exists_exists in H; [done|apply _].
Qed.

Lemma reserve_left g0 lo flags fs ts g m : mapping g0 lo flags fs ts g -> reserve g0 m ->
  Z.of_nat (length fs + length ts) + 1 < m -> forall f, exists x,
    0 <= x < 1024 /\ x < scan_limit (g_p g) /\ used g x = false /\ x <> f.
Proof.
  intros Hm (l & Hnd & Hlen & Hl) Hlt f.
  destruct (pigeonhole l (f :: fs ++ ts) Hnd) as (x & Hx & Hnx); [cbn; rewrite length_app; lia|].
  apply not_elem_of_cons in Hnx as [Hxf Hnx]. destruct (Hl x Hx) as (Hr & Hlim & Hu). exists x.
  split; [done|]. split; [|split; [|done]].
  - destruct (mp_tables _ _ _ _ _ _ Hm) as (E & _). unfold scan_limit in *. by rewrite E.
  - rewrite (mp_used _ _ _ _ _ _ Hm) by (unfold FRAMES; lia). by rewrite bool_decide_eq_false_2.
Qed.

(** With a frame left in the window the next one that is handed out is there too. *)
Lemma low_left g x : 0 <= x < 1024 -> x < scan_limit (g_p g) -> used g x = false ->
  low_frame g /\ ~ all_used (frame_bitmap (g_p g)) (scan_limit (g_p g)).
Proof.
  intros Hx Hlim Hu. split; [|intros H; by rewrite H in Hu by lia].
  intros f Hf Hfb Hall. unfold PAGE_SIZE, DIRECT. destruct (Z.lt_ge_cases f 1024); [lia|].
  by rewrite Hall in Hu by lia.
Qed.

(** The page tables of the next page are there, or can be made. *)
Lemma can_map_next g0 lo n flags fs ts g f : can_map g0 lo n -> mapping g0 lo flags fs ts g ->
  Z.of_nat (length fs) < n -> 0 <= f < FRAMES -> page_range lo n ->
  is_Some (table_of (ram (g_hw g)) PDp (pd_index (lo + 4096 * Z.of_nat (length fs)))) \/
  low_frame (taken g f) /\ ~ all_used (frame_bitmap (g_p (taken g f))) (scan_limit (g_p (taken g f))).
Proof.
  intros [Ht|Hres] Hm Hlt Hf Hpr; [left|right].
  - destruct (Ht (Z.of_nat (length fs))) as [T HT]; [lia|]. exists T.
    destruct (mp_tables _ _ _ _ _ _ Hm) as (_ & _ & Hk). apply Hk; [|done].
    apply pd_index_range. by destruct (pr_page lo n (Z.of_nat (length fs)) Hpr ltac:(lia)).
  - pose proof (mp_few _ _ _ _ _ _ Hm).
    destruct (reserve_left _ _ _ _ _ _ _ Hm Hres ltac:(lia) f) as (x & Hx & Hlim & Hu & Hne).
    apply (low_left _ x); [done|done|]. rewrite taken_bit; [|apply Hm|done|unfold FRAMES; lia].
    rewrite Hu. by destruct (Z.eqb_spec f x); [congruence|].
Qed.

Lemma map_turn v g0 lo n flags fs ts g f : can_map g0 lo n -> page_range lo n ->
  mapping g0 lo flags fs ts g -> Z.of_nat (length fs) < n -> 0 <= f < FRAMES -> used g f = false ->
  let va := lo + 4096 * Z.of_nat (length fs) in
  wp (v_paging (paging_map_page va (PAGE_SIZE * f) flags) ;;; zero_page va) (put_g (taken g f) v)
    (fun _ v' => exists ts' g', v' = put_g g' v /\ mapping g0 lo flags (fs ++ [f]) (ts ++ ts') g').
Proof.
  intros Hcan Hpr Hm Hlt Hf Hu va. pose proof (mp_inv _ _ _ _ _ _ Hm) as Hi.
  destruct (pr_page lo n (Z.of_nat (length fs)) Hpr ltac:(lia)) as (H32 & Ho & Ha & Hend & Hdiv & _).
  fold va in H32, Ho, Ha, Hend, Hdiv. pose proof (taken_inv g f Hi Hf) as Hi'.
  pose proof (can_map_next _ _ _ _ _ _ _ f Hcan Hm Hlt Hf Hpr) as Hnext. fold va in Hnext.
  destruct (frame_of_aligned f Hf) as [[HF32 HFa] _].
  wp_step. apply wp_v_paging. eapply wp_mono.
  { apply paging_map_page_wp; [done|done| |done|done].
    intros Hn. destruct Hnext as [[T HT]|[Hlow _]]; [|done].
    change (g_hw (taken g f)) with (g_hw g) in Hn. congruence. }
  intros [] g1 (Hi1 & Hk1 & Ht1 & Hcase).
  destruct Hcase as [(Hr & _ & ts' & Hlen & Hadd)|(Hn & _ & _ & Hall)].
  2:{ exfalso. destruct Hnext as [[T HT]|[_ Hna]]; [|done].
      change (g_hw (taken g f)) with (g_hw g) in Hn. congruence. }
  destruct (keeps_frame (taken g f) g1 f Hk1 Hf) as (HF1 & _).
  { rewrite taken_bit by done. by rewrite Z.eqb_refl. }
  { by apply (free_frame_data g f). }
  eapply wp_mono; [apply (zero_page_wp v g1 va (PAGE_SIZE * f)); [done|done|done|done| |done]|].
  - pose proof (Hr va H32) as E. rewrite decide_True in E by done. unfold translate. rewrite E. cbn.
    destruct (make_pte_spec (PAGE_SIZE * f) flags HF32) as (_ & _ & ->).
    rewrite mask_frame, land_fff, Ha by done. f_equal. lia.
  - intros [] ? (g2 & -> & Hz). exists ts', g2. split; [done|]. eapply page_mapped; try done. apply Hpr.
Qed.

(** Nothing is mapped in the range. *)
Definition unmapped (g : gsys) (lo n : Z) : Prop :=
  forall va, lo <= va < lo + 4096 * n -> translate (g_hw g) va = None.

Lemma page_in_range lo n va : lo mod 4096 = 0 ->
  lo / 4096 <= va / 4096 < lo / 4096 + n <-> lo <= va < lo + 4096 * n.
Proof.
  intros Ha. apply Z.mod_divide in Ha as [x ->]; [|lia]. rewrite Z.div_mul by lia.
  pose proof (Z.div_mod va 4096 ltac:(lia)). pose proof (Z.mod_pos_bound va 4096 ltac:(lia)). lia.
Qed.

(** [g'] is [g] again, up to the frames [ts] that became page tables. *)
Record rolled_back (g : gsys) (ts : list Z) (g' : gsys) : Prop := {
  rb_inv : paging_inv g';
  rb_tables : tables_kept g g';
  rb_data : keeps_data g g';
  rb_new : forall x, x ∈ ts -> 0 < x < FRAMES /\ used g x = false;
  rb_used : forall x, 0 <= x < FRAMES -> used g' x = bool_decide (x ∈ ts) || used g x;
  rb_walk : forall va, is32 va -> walks g' va = walks g va;
}.

(** The pages of a mapping can be given up. *)
Lemma mapping_backed g0 lo n flags fs ts g : mapping g0 lo flags fs ts g -> page_range lo n ->
  Z.of_nat (length fs) <= n -> backed g lo (Some <$> fs).
Proof.
  intros Hm Hpr Hn. split.
  - intros k o Hk. apply list_lookup_fmap_Some in Hk as (f & -> & Hf).
    pose proof (lookup_lt_Some _ _ _ Hf). cbn.
    destruct (pr_page lo n (Z.of_nat k) Hpr ltac:(lia)) as (H32 & _ & Ha & _ & _ & _).
    rewrite translate_walk by apply Hm. rewrite (mp_walk _ _ _ _ _ _ Hm) by done.
    unfold region_frame. destruct (Z.leb_spec lo (lo + 4096 * Z.of_nat k)); [|lia].
    replace ((lo + 4096 * Z.of_nat k - lo) / 4096) with (Z.of_nat k).
    2:{ replace (lo + 4096 * Z.of_nat k - lo) with (Z.of_nat k * 4096) by lia. by rewrite Z.div_mul. }
    rewrite Nat2Z.id, Hf. cbn. destruct (mp_fresh _ _ _ _ _ _ Hm f) as [Hfr _].
    { apply elem_of_app. left. by eapply list_elem_of_lookup_2. }
    destruct (frame_of_aligned f ltac:(lia)) as [[HF32 _] _].
    destruct (make_pte_spec (PAGE_SIZE * f) flags HF32) as (_ & _ & ->).
    rewrite mask_frame, land_fff, Ha by lia. f_equal. lia.
  - intros f Hf. apply list_elem_of_fmap in Hf as (? & [= <-] & Hf).
    assert (f ∈ fs ++ ts) as Hf' by (apply elem_of_app; by left).
    destruct (mp_fresh _ _ _ _ _ _ Hm f Hf'). split; [done|]. split.
    + rewrite (mp_used _ _ _ _ _ _ Hm) by lia. by rewrite bool_decide_eq_true_2.
    + by apply (mp_frames _ _ _ _ _ _ Hm).
  - intros j k f Hj Hk. apply list_lookup_fmap_Some in Hj as (? & [= <-] & Hj).
    apply list_lookup_fmap_Some in Hk as (? & [= <-] & Hk).
    pose proof (mp_nodup _ _ _ _ _ _ Hm) as Hnd. apply NoDup_app in Hnd as (Hnd & _).
    by eapply NoDup_lookup.
Qed.

(** Mapping pages and giving them up again. *)
Lemma undone g0 lo n flags fs ts g g' : mapping g0 lo flags fs ts g -> page_range lo n ->
  Z.of_nat (length fs) <= n -> paging_inv g0 -> unmapped g0 lo n ->
  dropped g lo (Some <$> fs) (Z.of_nat (length fs)) g' -> rolled_back g0 ts g'.
Proof.
  intros Hm Hpr Hn Hi0 Hun [Hi Hs Hu Hw].
  assert (forall x, Some x ∈ take (Z.to_nat (Z.of_nat (length fs))) (Some <$> fs) <-> x ∈ fs) as Hin.
  { intros x. rewrite take_ge by (rewrite length_fmap; lia). rewrite list_elem_of_fmap. naive_solver. }
  assert (forall x, 0 <= x < FRAMES -> used g' x = bool_decide (x ∈ ts) || used g0 x) as Hbits.
  { intros x Hx. rewrite Hu, (mp_used _ _ _ _ _ _ Hm), (bool_decide_ext _ _ (Hin x)) by done.
    pose proof (mp_nodup _ _ _ _ _ _ Hm) as Hnd. apply NoDup_app in Hnd as (_ & Hdis & _).
    pose proof (mp_fresh _ _ _ _ _ _ Hm x) as Hfr. rewrite elem_of_app in Hfr.
    rewrite (bool_decide_ext (x ∈ fs ++ ts) (x ∈ fs \/ x ∈ ts)) by apply elem_of_app.
    specialize (Hdis x). destruct (used g0 x); repeat case_bool_decide; cbn; try done; naive_solver. }
  split; [done| | | |done|].
  - eapply tables_kept_trans; [apply Hm|]. destruct Hs as (? & ? & Ht & _). split_and!; [done..|].
    intros i T Hir. by rewrite Ht.
  - intros G HG HGr HGu. destruct (mp_data _ _ _ _ _ _ Hm G HG HGr HGu) as (HG1 & _ & HGk).
    split; [by eapply tables_same_data|]. split; [rewrite Hbits by done; by rewrite HGu, orb_true_r|].
    intros k Hk. destruct Hs as (_ & _ & _ & Hby). by rewrite Hby, HGk.
  - intros x Hx. apply (mp_fresh _ _ _ _ _ _ Hm), elem_of_app. by right.
  - intros va Hva. rewrite Hw, (mp_walk _ _ _ _ _ _ Hm) by done. destruct Hpr as [? Ha _ _ _].
    destruct (decide _) as [E|E]; rewrite page_in_range in E by done.
    + pose proof (Hun va ltac:(lia)) as Et. rewrite translate_walk in Et by done. by destruct (walks g0 va).
    + rewrite region_frame_none by lia. done.
Qed.

(** The free frames of [g] did not suffice for [n] pages. *)
Definition exhausted (g : gsys) (n : Z) (ts : list Z) : Prop :=
  exists fs, Z.of_nat (length fs) < n /\ (length ts <= length fs)%nat /\
    forall x, 0 <= x < scan_limit (g_p g) -> used g x = false -> x ∈ fs ++ ts.

Lemma reserve_suffices g n ts : reserve g (2 * n) -> ~ exhausted g n ts.
Proof.
  intros (l & Hnd & Hlen & Hl) (fs & Hfs & Hts & Hall).
  destruct (pigeonhole l (fs ++ ts) Hnd) as (x & Hx & Hnx); [rewrite length_app; lia|].
  destruct (Hl x Hx) as (? & ? & ?). apply Hnx, Hall; [lia|done].
Qed.

Lemma alloc_wp g : paging_inv g -> wp (zoom g_lens pmm_alloc_frame) g (fun r g' =>
  (exists f, 0 < f < FRAMES /\ f < scan_limit (g_p g) /\ used g f = false /\ r = PAGE_SIZE * f /\ g' = taken g f) \/
  (r = 0 /\ all_used (frame_bitmap (g_p g)) (scan_limit (g_p g)) /\
   exists h, same_mem (g_hw g) h /\ g' = set_hw h g)).
Proof.
  intros Hi. wp_step. change (view g_lens g) with (g_p g).
  eapply wp_mono; [apply pmm_alloc_frame_wp, Hi|]. cbv beta.
  intros r p [(f & Hf & Hb & _ & -> & ->)|(Hall & -> & h & _ & -> & ? & ?)].
  - left. exists f. assert (f <> 0) by (intros ->; by rewrite (pi_zero _ Hi) in Hb).
    pose proof (pi_pmm _ Hi) as (_ & _ & Hlim). split_and!; [lia|lia|lia|done|done|done].
  - right. split_and!; [done|done|]. exists h. by split.
Qed.

Lemma map_pages_wp v g lo n flags : paging_inv g -> page_range lo n -> unmapped g lo n -> can_map g lo n ->
  wp (map_pages lo (4096 * n) flags) (put_g g v) (fun ok v' => exists ts g', v' = put_g g' v /\
    if ok then exists fs, Z.of_nat (length fs) = n /\ mapping g lo flags fs ts g'
    else rolled_back g ts g' /\ exhausted g n ts).
Proof.
  intros Hi Hpr Hun Hcan. pose proof (pr_count _ _ Hpr). unfold map_pages.
  apply (wp_loop_var _ (fun m off v' => exists fs ts g', off = 4096 * Z.of_nat (length fs) /\
           m = n - Z.of_nat (length fs) /\ 0 <= m /\ v' = put_g g' v /\ mapping g lo flags fs ts g'))
    with n; [|exists [], [], g; cbn [length]; split_and!; [done|lia|lia|done|by apply mapping_nil]|lia].
  intros m ? ? (fs & ts & g' & -> & -> & Hm0 & -> & Hm). set (j := Z.of_nat (length fs)) in *.
  destruct (Z.ltb_spec (4096 * j) (4096 * n)).
  2:{ wp_step. exists ts, g'. split; [done|]. exists fs. split; [lia|done]. }
  assert (0 <= j < n) as Hj by lia. destruct (pr_page lo n j Hpr Hj) as (_ & _ & _ & _ & _ & Eva).
  wp_step. unfold v_alloc_frame. apply wp_v_paging. eapply wp_mono; [apply alloc_wp, Hm|].
  intros r g1 [(f & Hf & _ & Hu & -> & ->)|(-> & Hall & h & Hh & ->)].
  - pose proof (page_nonzero f (proj1 Hf)) as Hnz. apply negb_true_iff in Hnz. rewrite Hnz, Eva.
    assert (0 <= f < FRAMES) as Hf' by lia.
    pose proof (map_turn v g lo n flags fs ts g' f Hcan Hpr Hm (proj2 Hj) Hf' Hu) as W%wp_unbind.
    wp_step. eapply wp_mono; [exact W|]. clear W.
    intros [] v1 W. wp_step. eapply wp_mono; [exact W|].
    intros [] ? (ts' & g2 & -> & Hm2). wp_step. exists (n - (j + 1)). split; [lia|].
    exists (fs ++ [f]), (ts ++ ts'), g2. rewrite length_app. cbn [length]. unfold PAGE_SIZE.
    rewrite u32_small by (unfold is32; lia). split_and!; [lia|lia|lia|done|done].
  - cbn [Z.eqb]. wp_step. apply wp_v_paging, wp_hw_kprintf. intros h' Hh'. rewrite set_hw_hw.
    pose proof (transitivity Hh Hh' : same_mem (g_hw g') h') as Hs.
    pose proof (mapping_hw _ _ _ _ _ _ h' Hs Hm) as Hm2.
    wp_step. eapply wp_mono.
    { apply (undo_pages_wp v (set_hw h' g') lo (Some <$> fs) j).
      - by eapply pr_prefix; [|exact Hpr]; lia.
      - by rewrite length_fmap.
      - apply Hm2.
      - eapply mapping_backed; [exact Hm2|exact Hpr|lia]. }
    intros [] ? (g2 & -> & Hd). wp_step. exists ts, g2. split; [done|]. split.
    + eapply (undone g lo n); [exact Hm2|exact Hpr|lia|exact Hi|exact Hun|exact Hd].
    + exists fs. split; [lia|]. split; [apply Hm|]. intros x Hx Hux.
      assert (used g' x = true) as Hxu.
      { apply Hall. destruct (mp_tables _ _ _ _ _ _ Hm) as (E & _). unfold scan_limit in *. by rewrite E. }
      pose proof (pi_pmm _ Hi) as (_ & _ & Hlim).
      rewrite (mp_used _ _ _ _ _ _ Hm), Hux, orb_false_r in Hxu by lia. by apply bool_decide_eq_true in Hxu.
Qed.
End RegionPages.
