(* ===== verification/VmmSpec.v ===== *)
(** * What the virtual memory manager guarantees

    The properties of [kernel/vmm.c]: the regions [vmm_init] registers, the order of the
    lists, look-ups, the checks of [vmm_map_region], the search for free addresses. *)

From stdpp Require Import base gmap list numbers option strings sorting.
From Stdlib Require Import ZArith Lia.
From S2P Require Import Prelude Machine PageTables Pmm Paging PagingInit Boot PagingSpec.
From S2P Require Import HeapList Kheap HeapInv HeapSpec Vmm VmmInv.

(** ** Walks *)

(** The first slot whose region satisfies a test. *)
Definition find_id (pool : list region) (test : region -> bool) (ids : list nat) : option nat :=
  List.find (fun i => test (region_of pool i)) ids.

Lemma find_walk s (test : region -> bool) p ids : chain (region_pool s) p ids ->
  (forall x, test (data x) = test x) -> (length ids <= 256)%nat ->
  wp (loop (fun q =>
        match q with
        | None => ret (inr None)
        | Some i =>
            r <- rd_region i ;;
            if test r then ret (inr (Some i)) else ret (inl (r_next r))
        end) p) s (fun q s' => s' = s /\ q = find_id (region_pool s) test ids).
Proof.
  intros Hc Ht Hlen.
  apply (wp_loop_var _ (fun n q s' => s' = s /\ exists l2, chain (region_pool s) q l2 /\
           find_id (region_pool s) test ids = find_id (region_pool s) test l2 /\ n = Z.of_nat (length l2)))
    with (Z.of_nat (length ids)); [|split; [done|]; by exists ids|lia].
  intros n q ? (-> & l2 & Hc2 & Ef & ->). destruct l2 as [|i l2].
  - cbn in Hc2. subst q. wp_step. by rewrite Ef.
  - destruct Hc2 as (-> & x & Hx & Hr). wp_step. eapply wp_rd_region; [exact Hx|].
    cbn in Ef. unfold region_of in Ef. rewrite Hx in Ef. cbn in Ef. rewrite Ht in Ef.
    wp_step; wp_step; [by rewrite Ef|].
    exists (Z.of_nat (length l2)). split; [cbn [length]; lia|]. split; [done|]. by exists l2.
Qed.

Lemma find_id_data pool test ids :
  region_of pool <$> find_id pool test ids = List.find test (regions_of pool ids).
Proof. induction ids as [|i l IH]; cbn; [done|]. by destruct (test _). Qed.

(** An address lies in a region. *)
Definition contains (va : Z) (x : region) : bool :=
  (r_base x <=? va) && (va <? r_base x +u r_size x).

Lemma vmm_find_region_wp s p ids l va : holds s p ids l ->
  wp (vmm_find_region (Some p) va) s (fun q s' => s' = s /\ q = find_id (region_pool s) (contains va) ids).
Proof.
  intros [[sp Hrg] _ _]. unfold vmm_find_region. wp_step. eapply wp_rd_space; [apply Hrg|].
  apply (find_walk s (contains va)); [apply Hrg|done|by eapply rg_short].
Qed.

(** ** The overlap check *)

Definition overlaps (va size : Z) (x : region) : bool :=
  (va <? r_base x +u r_size x) && (r_base x <? va +u size).

(** The state after output, newest first. *)
Definition v_out (es : list event) (s : vsys) : vsys :=
  update v_lens (update h_lens (set_hw (emitted es (g_hw (h_g (v_h s)))) (h_g (v_h s))) (v_h s)) s.

(** States that differ in what was printed. *)
Definition printed (s s' : vsys) : Prop := exists es, s' = v_out es s.

Lemma printed_refl s : printed s s.
Proof. exists []. unfold v_out. rewrite emitted_nil. by destruct s as [[[[]]]]. Qed.

Lemma printed_trans s1 s2 s3 : printed s1 s2 -> printed s2 s3 -> printed s1 s3.
Proof.
  intros [es1 ->] [es2 ->]. exists (es2 ++ es1). unfold v_out. cbn. by rewrite emitted_app.
Qed.

Lemma wp_v_kprintf fmt args s (Q : unit -> vsys -> Prop) E :
  (forall s', printed s s' -> Q tt s') -> wpe (v_kprintf fmt args) s Q E.
Proof. intros H. apply (H (v_out [Kprintf fmt args] s)). by eexists. Qed.

(** Output touches no region and no space. *)
Lemma holds_heap h s p ids l : holds s p ids l -> holds (update v_lens h s) p ids l.
Proof.
  intros [[sp [H1 H2 H3 H4 H5 H6]] Hu Hd]. split; [|done|done].
  exists sp. by split.
Qed.

Lemma printed_holds s s' p ids l : printed s s' -> holds s p ids l -> holds s' p ids l.
Proof. intros [es ->]. apply holds_heap. Qed.

Lemma printed_fields s s' : printed s s' -> region_pool s' = region_pool s /\
  region_pool_used s' = region_pool_used s /\ kernel_space s' = kernel_space s /\
  heap_spaces s' = heap_spaces s /\ current_space s' = current_space s /\
  fault_handler s' = fault_handler s.
Proof. by intros [es ->]. Qed.

Lemma check_overlap_wp s p ids l va size : holds s p ids l ->
  wp (check_overlap p va size) s (fun b s' =>
    b = existsb (overlaps va size) l /\ printed s s' /\ (b = false -> s' = s)).
Proof.
  intros [[sp Hrg] _ <-]. pose proof (rg_short _ _ _ _ Hrg) as Hsh.
  unfold check_overlap. wp_step. eapply wp_rd_space; [apply Hrg|].
  set (ex := fun ids => existsb (overlaps va size) (regions_of (region_pool s) ids)).
  apply (wp_loop_var _ (fun n q s' => s' = s /\ exists l2, chain (region_pool s) q l2 /\
           ex ids = ex l2 /\ n = Z.of_nat (length l2)))
    with (Z.of_nat (length ids)); [|split; [done|]; exists ids; split; [apply Hrg|done]|lia].
  intros n q ? (-> & l2 & Hc2 & Ef & ->). destruct l2 as [|i l2].
  - cbn in Hc2. subst q. wp_step. fold (ex ids). rewrite Ef. split; [done|]. split; [apply printed_refl|done].
  - destruct Hc2 as (-> & x & Hx & Hr). wp_step. eapply wp_rd_region; [exact Hx|]. cbv zeta.
    assert (ex (i :: l2) = overlaps va size x || ex l2) as Ei.
    { unfold ex, regions_of. cbn [fmap list_fmap existsb]. f_equal. unfold region_of. by rewrite Hx. }
    rewrite Ei in Ef.
    change ((va <? r_base x +u r_size x) && (r_base x <? va +u size)) with (overlaps va size x).
    wp_step; cbn [orb] in Ef.
    + wp_step. apply wp_v_kprintf. intros s' Hs'. wp_step. fold (ex ids). by rewrite Ef.
    + wp_step. exists (Z.of_nat (length l2)). split; [cbn [length]; lia|]. split; [done|]. by exists l2.
Qed.

(** ** Printing the regions *)

Lemma vmm_dump_regions_wp s p ids l : holds s p ids l ->
  wp (vmm_dump_regions (Some p)) s (fun _ s' => printed s s').
Proof.
  intros Hh. pose proof Hh as [[sp Hrg] _ _]. pose proof (rg_short _ _ _ _ Hrg) as Hsh.
  unfold vmm_dump_regions. wp_step. eapply wp_rd_space; [apply Hrg|].
  wp_step. apply wp_v_kprintf. intros s1 Hs1. wp_step.
  apply (wp_mono _ _ _ (fun _ s' => printed s s')).
  2:{ intros [] s2 Hs2. apply wp_v_kprintf. intros s3 Hs3. by eapply printed_trans. }
  apply (wp_loop_var _ (fun n q s' => printed s s' /\ exists l2, chain (region_pool s) q l2 /\
           n = Z.of_nat (length l2)) (fun _ s' => printed s s'))
    with (Z.of_nat (length ids)); [|split; [done|]; exists ids; split; [apply Hrg|done]|lia].
  intros n q s2 (Hs2 & l2 & Hc2 & ->). destruct l2 as [|i l2].
  - cbn in Hc2. subst q. wp_step. exact Hs2.
  - destruct Hc2 as (-> & x & Hx & Hr). wp_step. eapply wp_rd_region.
    { destruct (printed_fields _ _ Hs2) as (-> & _). exact Hx. }
    wp_step. apply wp_v_kprintf. intros s3 Hs3. wp_step.
    exists (Z.of_nat (length l2)). split; [cbn [length]; lia|].
    split; [by eapply printed_trans|]. by exists l2.
Qed.

(** ** Initialisation *)

Section Init.
Context {L : Layout} {LOk : LayoutOk L}.

Lemma kernel_end_bounds : kernel_end_page mod 4096 = 0 /\ 0xC0100000 < kernel_end_page <= 0xC0400000.
Proof.
  unfold kernel_end_page. pose proof lo_pd_range as [H1 H2]. pose proof lo_end.
  rewrite page_round_code by lia. destruct (page_round_bounds sym_kernel_end) as (Hb & Hm & _); [lia|].
  split; [done|]. split; [lia|].
  destruct (Z.le_gt_cases (page_round sym_kernel_end) 0xC0400000) as [|Hgt]; [done|].
  apply Z.mod_divide in Hm as [k Hk]; [|lia]. rewrite Hk in *. lia.
Qed.

(** The regions of the kernel's space. *)
Definition kernel_regions : list region :=
  [Region 0xC0001000 0x000FF000 3 REGION_MMIO None;
   Region 0xC0100000 (kernel_end_page - 0xC0100000) 7 REGION_KERNEL_CODE None] ++
  (if kernel_end_page <? 0xC0400000
   then [Region kernel_end_page (0xC0400000 - kernel_end_page) 3 REGION_IDENTITY_MAP None] else []) ++
  [Region 0xC0400000 0x1000000 3 REGION_KERNEL_HEAP None].

(** Regions that lie one after the other from [lo] to [hi]. *)
Fixpoint tiles (lo : Z) (l : list region) (hi : Z) : Prop :=
  match l with
  | [] => lo = hi
  | x :: r => r_base x = lo /\ 0 < r_size x /\ tiles (lo + r_size x) r hi
  end.

Lemma kernel_regions_tile : tiles 0xC0001000 kernel_regions 0xC1400000.
Proof.
  pose proof kernel_end_bounds as [_ Hk]. unfold kernel_regions.
  destruct (Z.ltb_spec kernel_end_page 0xC0400000); cbn; lia.
Qed.

(** The kernel's space with the regions [l] in the first slots of the pool. *)
Record kspace (s0 s : vsys) (l : list region) : Prop := {
  ks_holds : exists ids, holds s KernelSpace ids l;
  ks_used : region_pool_used s = Z.of_nat (length l);
  ks_printed : exists es, v_h s = v_h (v_out es s0);
  ks_spaces : heap_spaces s = heap_spaces s0;
  ks_dir : page_directory (kernel_space s) = paging_get_directory;
  ks_current : current_space s = Some KernelSpace;
}.

Lemma register_kernel s0 s l base size flags ty (Q : rptr -> vsys -> Prop) E : kspace s0 s l ->
  (length l < 256)%nat ->
  (forall q s', kspace s0 s' (insert_data (Region base size flags ty None) l) -> Q q s') ->
  wpe (register_existing_region KernelSpace base size flags ty) s Q E.
Proof.
  intros [[ids Hh] Hu Hp Hs Hd Hc] Hl HQ. apply wp_total.
  eapply wp_mono; [apply (register_wp s KernelSpace ids l); [done|lia]|].
  intros q s' [_ (ids' & pool' & sp & sp' & -> & [= <-] & Hpd & Hh' & _ & _ & _)]. apply HQ.
  split; try done; [by eexists| |].
  - cbn. rewrite insert_data_perm, Hu. cbn [length]. lia.
  - cbn. congruence.
Qed.

Lemma kspace_printed s0 s s' l : kspace s0 s l -> printed s s' -> kspace s0 s' l.
Proof.
  intros [[ids Hh] Hu [es Hp] Hs Hd Hc] Hpr. pose proof (printed_holds _ _ _ _ _ Hpr Hh).
  destruct Hpr as [es' ->]. split; try done; [by eexists|].
  exists (es' ++ es). cbn in *. rewrite Hp. cbn. by rewrite emitted_app.
Qed.

Lemma kernel_region_list : insert_data (Region 0xC0400000 0x1000000 3 REGION_KERNEL_HEAP None)
  (let k := kernel_end_page in
   let l := insert_data (Region 0xC0100000 (k - 0xC0100000) 7 REGION_KERNEL_CODE None)
              [Region 0xC0001000 0x000FF000 3 REGION_MMIO None] in
   if k <? 0xC0400000 then insert_data (Region k (0xC0400000 - k) 3 REGION_IDENTITY_MAP None) l else l)
  = kernel_regions.
Proof.
  pose proof kernel_end_bounds as [_ Hk]. unfold kernel_regions. cbv zeta. cbn.
  destruct (Z.ltb_spec kernel_end_page 0xC0400000); cbn; [|done].
  destruct (Z.ltb_spec kernel_end_page 0xC0001000); [lia|]. cbn.
  destruct (Z.ltb_spec 0xC0100000 kernel_end_page); [|lia]. cbn.
  destruct (Z.ltb_spec kernel_end_page 0xC0400000); [done|lia].
Qed.

Lemma vmm_init_wp s : length (region_pool s) = 256%nat -> region_pool_used s = 0 ->
  wp vmm_init s (fun _ s' => kspace s s' kernel_regions /\ fault_handler s' = true).
Proof.
  intros Hl Hu. pose proof kernel_end_bounds as [_ Hk]. unfold vmm_init.
  wp_step. apply wp_v_kprintf. intros s1 Hs1. wp_step. eapply wp_wr_space; [done|].
  wp_step. wp_step. destruct (printed_fields _ _ Hs1) as (F1 & F2 & _ & F4 & _).
  match goal with |- wpe _ ?x _ _ => assert (kspace s x []) as K0 end.
  { split; try done; [|cbn; by rewrite F2, Hu|by destruct Hs1 as [es ->]; exists es].
    exists []. split; [|done|done]. eexists. split; try done; [constructor|constructor|].
    cbn. by rewrite F1. }
  wp_step. eapply register_kernel; [exact K0|cbn; lia|]. intros q1 s2 K1. cbn [insert_data] in K1.
  wp_step. eapply register_kernel; [exact K1|cbn; lia|]. intros q2 s3 K2. cbv zeta.
  rewrite (u32_small (kernel_end_page - 0xC0100000)) in K2 by (unfold is32; lia).
  wp_step. apply (wp_mono _ _ _ (fun _ s' => kspace s s'
    (let l := insert_data (Region 0xC0100000 (kernel_end_page - 0xC0100000) 7 REGION_KERNEL_CODE None)
              [Region 0xC0001000 0x000FF000 3 REGION_MMIO None] in
     if kernel_end_page <? 0xC0400000 then insert_data (Region kernel_end_page (0xC0400000 - kernel_end_page) 3
       REGION_IDENTITY_MAP None) l else l))).
  { cbv zeta. destruct (kernel_end_page <? 0xC0400000); [|wp_step; exact K2].
    wp_step. eapply register_kernel; [exact K2|cbn; lia|]. intros q3 s4 K3. wp_step.
    rewrite (u32_small (0xC0400000 - kernel_end_page)) in K3 by (unfold is32; lia). exact K3. }
  intros [] s4 K3. wp_step. eapply register_kernel; [exact K3|cbv zeta; destruct (_ <? _); rewrite ?insert_data_perm; cbn; lia|].
  intros q4 s5 K4. pose proof kernel_region_list as Ek.
  assert (kspace s s5 kernel_regions) as K4' by (rewrite <-Ek; exact K4). clear K4. wp_step. wp_step.
  assert (kspace s (set_fault_handler s5) kernel_regions) as K5.
  { destruct K4' as [[ids [[sp [G1 G2 G3 G4 G5 G6]] Gu Gd]] ? ? ? ? ?]. split; try done.
    exists ids. split; try done. by exists sp. }
  wp_step. eapply wp_rd_space; [done|]. wp_step. apply wp_v_kprintf. intros s6 Hs6.
  pose proof (kspace_printed _ _ _ _ K5 Hs6) as K6. destruct (ks_holds _ _ _ K6) as [ids Hh].
  eapply wp_mono; [by eapply vmm_dump_regions_wp|]. intros [] s7 Hs7.
  split; [by eapply kspace_printed|].
  destruct (printed_fields _ _ Hs7) as (_ & _ & _ & _ & _ & ->).
  by destruct (printed_fields _ _ Hs6) as (_ & _ & _ & _ & _ & ->).
Qed.
End Init.

(** ** The search for free addresses *)

(** The search on the list of regions. *)
Fixpoint find_free (l : list region) (candidate size : Z) : option Z :=
  match l with
  | [] => None
  | x :: r =>
      let e := r_base x +u r_size x in
      let c := if (r_base x <=? candidate) && (candidate <? e) then page_up e else candidate in
      let limit := match r with [] => 0xFFFFF000 | y :: _ => r_base y end in
      if c +u size <=? limit then Some c else find_free r c size
  end.

Definition default_hint (hint : Z) : Z := page_up (if hint =? 0 then 0xD0000000 else hint).

Section FindFree.
Context {L : Layout}.

Lemma vmm_find_free_region_wp s p ids l size hint : holds s p ids l ->
  wp (vmm_find_free_region (Some p) size hint) s (fun r s' =>
    r = default 0 (find_free l (default_hint hint) (page_up size)) /\ printed s s').
Proof.
  intros [[sp Hrg] _ <-]. pose proof (rg_short _ _ _ _ Hrg) as Hsh.
  unfold vmm_find_free_region. cbv zeta. fold (default_hint hint).
  set (h0 := default_hint hint). set (n0 := page_up size).
  wp_step. eapply wp_rd_space; [apply Hrg|]. wp_step.
  apply (wp_mono _ _ _ (fun r s' => s' = s /\ r = find_free (regions_of (region_pool s) ids) h0 n0)).
  2:{ intros r ? [-> ->]. destruct (find_free _ _ _) as [c|].
      - wp_step. split; [done|apply printed_refl].
      - wp_step. apply wp_v_kprintf. intros s' Hs'. by wp_step. }
  set (pool := region_pool s).
  apply (wp_loop_var _ (fun n '(c, q) s' => s' = s /\ exists l2, chain pool q l2 /\
           find_free (regions_of pool ids) h0 n0 = find_free (regions_of pool l2) c n0 /\
           n = Z.of_nat (length l2)))
    with (Z.of_nat (length ids)); [|split; [done|]; exists ids; split; [apply Hrg|done]|lia].
  intros n [c q] ? (-> & l2 & Hc2 & Ef & ->). destruct l2 as [|i l2].
  - cbn in Hc2. subst q. wp_step. by rewrite Ef.
  - destruct Hc2 as (-> & x & Hx & Hr). wp_step. eapply wp_rd_region; [exact Hx|]. cbv zeta.
    assert (region_of pool i = data x) as Ei by (unfold region_of; by rewrite Hx).
    unfold regions_of in Ef at 2. cbn [fmap list_fmap find_free] in Ef. rewrite Ei in Ef.
    cbn [r_base r_size data set_next] in Ef. fold (regions_of pool l2) in Ef.
    set (e := r_base x +u r_size x) in *.
    set (c' := if (r_base x <=? c) && (c <? e) then page_up e else c) in *.
    wp_step. apply (wp_mono _ _ _ (fun lim s' => s' = s /\
      lim = match regions_of pool l2 with [] => 0xFFFFF000 | y :: _ => r_base y end)).
    { destruct l2 as [|j l2].
      - cbn in Hr. rewrite Hr. by wp_step.
      - destruct Hr as (-> & y & Hy & _). wp_step. eapply wp_rd_region; [exact Hy|]. wp_step.
        split; [done|]. cbn. unfold region_of. by rewrite Hy. }
    intros lim ? [-> ->]. destruct (c' +u n0 <=? _); wp_step; [by rewrite Ef|].
    exists (Z.of_nat (length l2)). split; [cbn [length]; lia|]. split; [done|]. by exists l2.
Qed.
End FindFree.

(** [page_up] rounds up while nothing wraps. *)
Lemma page_up_bounds x : 0 <= x -> x + 4095 < 4294967296 ->
  x <= page_up x < x + 4096 /\ page_up x mod 4096 = 0.
Proof.
  intros H0 H1. unfold page_up. rewrite page_round_code by lia.
  destruct (page_round_bounds x H0) as (? & ? & _). done.
Qed.

(** No byte of [c, c + size) lies in the region. *)
Definition clear_of (c size : Z) (x : region) : Prop :=
  c + size <= r_base x \/ r_base x + r_size x <= c.

(** Regions below the candidate are left behind; every other one is checked by its base. *)
Lemma find_free_above l c size top r : Forall (fun x => r_base x <= c /\ 0 <= r_base x /\ 0 <= r_size x /\
    r_base x + r_size x <= top) l ->
  0 <= c <= top + 4095 -> 0 < size -> top + 4095 + size < 4294967296 -> l <> [] ->
  find_free l c size = Some r -> c <= r /\ r + size <= 0xFFFFF000 /\ Forall (clear_of r size) l.
Proof.
  intros Hl Hc Hs Ht. revert c Hl Hc. induction l as [|x l IH]; intros c Hl Hc Hne; [done|].
  apply Forall_cons in Hl as [(Hb & Hb0 & Hs0 & Hend) Hl]. cbn [find_free].
  rewrite (u32_small (r_base x + r_size x)) by (unfold is32; lia).
  set (e := r_base x + r_size x) in *.
  set (c' := if (r_base x <=? c) && (c <? e) then page_up e else c).
  assert (c <= c' /\ e <= c' /\ c' <= top + 4095) as (Hcc & Hce & Hct).
  { unfold c'. rewrite (proj2 (Z.leb_le (r_base x) c)) by lia. cbn [andb].
    destruct (page_up_bounds e); [lia|lia|]. destruct (Z.ltb_spec c e); lia. }
  rewrite (u32_small (c' + size)) by (unfold is32; lia).
  destruct l as [|y l].
  - destruct (Z.leb_spec (c' + size) 0xFFFFF000); [|done]. intros [= <-].
    split; [done|]. split; [done|]. apply Forall_cons. split; [right; exact Hce|done].
  - pose proof Hl as Hl0. apply Forall_cons in Hl0 as [(Hby & _) _].
    destruct (Z.leb_spec (c' + size) (r_base y)); [lia|]. intros Hr.
    destruct (IH c') as (H1 & H2 & H3); [|lia|done|done|].
    { eapply Forall_impl; [exact Hl|]. cbn. intros z (? & ? & ? & ?). lia. }
    split; [lia|]. split; [done|]. apply Forall_cons. split; [right; fold e; lia|done].
Qed.

(** Regions that end at or below the candidate are passed over. *)
Lemma find_free_skip_all l z r c size :
  Forall (fun x => 0 <= r_base x /\ 0 <= r_size x /\ r_base x + r_size x <= c /\ r_base x < c) l ->
  r_base z = c -> 0 < size -> 0 <= c /\ c + size < 4294967296 ->
  find_free (l ++ z :: r) c size = find_free (z :: r) c size.
Proof.
  intros Hl Hz Hs Hc. induction Hl as [|x l (Hb & Hsz & He & Hlt) Hl IH]; [done|].
  cbn [app find_free]. rewrite (u32_small (r_base x + r_size x)) by (unfold is32; lia).
  rewrite (proj2 (Z.ltb_ge c (r_base x + r_size x))), andb_false_r by lia.
  rewrite (u32_small (c + size)) by (unfold is32; lia).
  destruct l as [|y l]; cbn [app].
  - rewrite (proj2 (Z.leb_gt (c + size) (r_base z))) by lia. exact IH.
  - apply Forall_cons in Hl as [(_ & _ & _ & Hy) _].
    rewrite (proj2 (Z.leb_gt (c + size) (r_base y))) by lia. exact IH.
Qed.

Lemma kernel_regions_below {L : Layout} {LOk : LayoutOk L} :
  exists y l, kernel_regions = y :: l /\
  Forall (fun x => 0 <= r_base x /\ 0 <= r_size x /\ r_base x + r_size x <= 0xD0000000 /\
                   r_base x < 0xD0000000) (y :: l).
Proof.
  pose proof kernel_end_bounds as [_ Hk]. unfold kernel_regions. cbn [app]. eexists _, _. split; [done|].
  destruct (_ <? _); cbn [app]; repeat (apply Forall_cons; split; [cbn; lia|]); done.
Qed.

Lemma kernel_regions_upto {L : Layout} {LOk : LayoutOk L} :
  Forall (fun x => r_base x <= 0xC1400000 /\ 0 <= r_base x /\ 0 <= r_size x /\
                   r_base x + r_size x <= 0xD0000000) kernel_regions.
Proof.
  pose proof kernel_end_bounds as [_ Hk]. unfold kernel_regions.
  destruct (_ <? _); cbn [app]; repeat (apply Forall_cons; split; [cbn; lia|]); done.
Qed.

(** ** Rejections of [vmm_map_region] *)

Lemma has_bits_page x : has_bits x (PAGE_SIZE - 1) = negb (x mod 4096 =? 0).
Proof. unfold has_bits. change (PAGE_SIZE - 1) with 0xFFF. by rewrite land_fff. Qed.

Section Claims.
Context {L : Layout}.

Lemma map_region_rejects_wp s p ids l va size flags ty : holds s p ids l ->
  va mod 4096 <> 0 \/ size mod 4096 <> 0 \/ existsb (overlaps va size) l = true ->
  wp (vmm_map_region (Some p) va size flags ty) s (fun r s' => r = -1 /\ printed s s').
Proof.
  intros Hh Hbad. unfold vmm_map_region. rewrite !has_bits_page.
  destruct (Z.eqb_spec (va mod 4096) 0); cbn [negb]; [|wp_step; split; [done|apply printed_refl]].
  destruct (Z.eqb_spec (size mod 4096) 0); cbn [negb]; [|wp_step; split; [done|apply printed_refl]].
  destruct Hbad as [?|[?|Hov]]; [done|done|].
  wp_step. eapply wp_mono; [by eapply check_overlap_wp|]. intros b s' (-> & Hp & _). rewrite Hov.
  by wp_step.
Qed.

(** Registering a region and removing it again. *)
Lemma register_remove_wp s p ids l base size flags ty : holds s p ids l ->
  0 <= region_pool_used s < 256 ->
  wp (q <- register_existing_region p base size flags ty ;;
      match q with Some i => remove_region p i | None => ret tt end) s (fun _ s' =>
    exists ids', holds s' p ids' l).
Proof.
  intros Hh Hu. wp_step. eapply wp_mono; [by apply (register_wp s p ids l)|].
  intros q s1 [-> (ids' & pool' & sp & sp' & Es1 & _ & _ & [[sp1 Hrg1] Hu1 _] & Hni & -> & Hrl)].
  set (i := Z.to_nat (region_pool_used s)) in *.
  destruct (insert_ids_split (base_of (<[i := Region base size flags ty None]> (region_pool s))) i ids)
    as (l1 & l2 & E1 & E2). rewrite E1 in *.
  eapply wp_mono; [by apply remove_region_wp|]. intros [] s2 (pool2 & sp2 & -> & Hrl2 & Hrg2).
  exists (l1 ++ l2). split; [by eexists| |].
  - assert (region_pool_used (put_space p sp2 (set_pool pool2 s1)) = region_pool_used s1) as -> by (by destruct p).
    rewrite Forall_app, Forall_cons in Hu1. apply Forall_app. tauto.
  - assert (region_pool (put_space p sp2 (set_pool pool2 s1)) = pool2) as -> by (by destruct p).
    rewrite (regions_relinked _ _ _ _ Hrl2).
    assert (region_pool s1 = pool') as -> by (rewrite Es1; by destruct p).
    rewrite (regions_relinked _ _ _ _ Hrl), <-(ho_data _ _ _ _ Hh), <-E2. unfold regions_of.
    apply list_fmap_ext. intros k j Hj. unfold region_of. rewrite list_lookup_insert_ne; [done|].
    intros <-. apply Hni. by eapply list_elem_of_lookup_2.
Qed.

(** [register_existing_region] puts the region at its place by base: the list holds
    what it held and the new region, sorted, with its length in [region_count].  When the
    pool of 256 slots is used up it returns [NULL] and only prints. *)
Theorem register_region_sorted s p ids l base size flags ty : holds s p ids l ->
  0 <= region_pool_used s <= 256 ->
  wp (register_existing_region p base size flags ty) s (fun q s' =>
    if region_pool_used s =? 256 then q = None /\ printed s s'
    else q = Some (Z.to_nat (region_pool_used s)) /\ v_h s' = v_h s /\
      exists ids' l', holds s' p ids' l' /\ l' ≡ₚ Region base size flags ty None :: l /\
        StronglySorted (fun x y => r_base x <= r_base y) l').
Proof.
  intros Hh Hu. destruct (Z.eqb_spec (region_pool_used s) 256) as [E|Hne].
  - unfold register_existing_region, alloc_region. wp_step. wp_step. wp_step. rewrite E.
    change (VMM_MAX_REGIONS <=? 256) with true. cbv iota. wp_step. apply wp_v_kprintf. intros s' Hs'.
    wp_step. by wp_step.
  - eapply wp_mono; [apply (register_wp s p ids l); [done|lia]|].
    intros q s' [-> (ids' & pool' & sp & sp' & -> & _ & _ & Hh' & _)].
    split; [done|]. split; [by destruct p|]. eexists ids', _. split; [exact Hh'|].
    split; [apply insert_data_perm|]. by eapply holds_sorted.
Qed.

(** Removing the region that was registered last gives the list back. *)
Theorem register_remove_roundtrip s p ids l base size flags ty : holds s p ids l ->
  0 <= region_pool_used s < 256 ->
  wp (q <- register_existing_region p base size flags ty ;;
      match q with Some i => remove_region p i | None => ret tt end) s (fun _ s' =>
    exists ids', holds s' p ids' l).
Proof. apply register_remove_wp. Qed.

(** [vmm_find_region] returns the first region of the list that contains the address,
    and [NULL] exactly when none does. *)
Theorem vmm_find_region_first s p ids l va : holds s p ids l ->
  wp (vmm_find_region (Some p) va) s (fun q s' => s' = s /\
    region_of (region_pool s) <$> q = List.find (contains va) l /\
    (q = None <-> Forall (fun x => contains va x = false) l)).
Proof.
  intros Hh. eapply wp_mono; [by eapply vmm_find_region_wp|]. intros q ? [-> ->].
  pose proof (find_id_data (region_pool s) (contains va) ids) as E. rewrite (ho_data _ _ _ _ Hh) in E.
  split; [done|]. split; [done|]. rewrite <-(fmap_None (region_of (region_pool s))), E. split.
  - intros Hn. apply Forall_forall. intros x Hx. eapply List.find_none; [exact Hn|].
    by apply list_elem_of_In.
  - intros Hall. destruct (List.find (contains va) l) as [x|] eqn:Ex; [|done].
    apply List.find_some in Ex as [Hin Hc]. rewrite Forall_forall in Hall.
    rewrite (Hall x) in Hc; [done|]. by apply list_elem_of_In.
Qed.

(** [vmm_map_region] refuses an unaligned address, an unaligned size and a range that
    meets a region of the list: it returns -1 and no page, frame or region changes. *)
Theorem vmm_map_region_rejects s p ids l va size flags ty : holds s p ids l ->
  va mod 4096 <> 0 \/ size mod 4096 <> 0 \/ existsb (overlaps va size) l = true ->
  wp (vmm_map_region (Some p) va size flags ty) s (fun r s' => r = -1 /\ printed s s').
Proof. apply map_region_rejects_wp. Qed.

(** When every region starts at or below the hint, [vmm_find_free_region] returns 0 or
    a page-aligned address such that the range of the requested size meets no region. *)
Theorem vmm_find_free_region_safe s p ids l size hint top : holds s p ids l -> l <> [] ->
  0 < size -> 0 < hint <= top ->
  Forall (fun x => r_base x <= hint /\ 0 <= r_base x /\ 0 <= r_size x /\ r_base x + r_size x <= top) l ->
  top + 8191 + size < 4294967296 ->
  wp (vmm_find_free_region (Some p) size hint) s (fun r s' => printed s s' /\
    (r = 0 \/ (hint <= r /\ r + size <= 0xFFFFF000 /\ Forall (clear_of r size) l))).
Proof.
  intros Hh Hne Hs Hhint Hl Htop. eapply wp_mono; [by eapply vmm_find_free_region_wp|].
  intros r s' [-> Hp]. split; [done|]. unfold default_hint. rewrite (proj2 (Z.eqb_neq hint 0)) by lia.
  destruct (page_up_bounds hint) as [Hh1 _]; [lia|lia|]. destruct (page_up_bounds size) as [Hs1 _]; [lia|lia|].
  destruct (find_free l (page_up hint) (page_up size)) as [c|] eqn:E; [|by left]. right.
  destruct (find_free_above l (page_up hint) (page_up size) top c) as (H1 & H2 & H3); try done; try lia.
  { eapply Forall_impl; [exact Hl|]. cbn. lia. }
  change (default 0 (Some c)) with c. split; [lia|]. split; [lia|]. eapply Forall_impl; [exact H3|].
  intros x. unfold clear_of. lia.
Qed.
End Claims.

Section InitClaims.
Context {L : Layout} {LOk : LayoutOk L}.

(** C25: [vmm_init] registers the kernel's regions: low memory, the image, the rest of the
    first 4 MB and the heap window, sorted and without gaps from 0xC0001000 to 0xC1400000,
    in the kernel's page directory; nothing but output changes below. *)
Theorem vmm_init_regions s : length (region_pool s) = 256%nat -> region_pool_used s = 0 ->
  wp vmm_init s (fun _ s' => kspace s s' kernel_regions /\ fault_handler s' = true /\
    tiles 0xC0001000 kernel_regions 0xC1400000).
Proof.
  intros Hl Hu. eapply wp_mono; [by apply vmm_init_wp|]. intros [] s' [Hk Hf].
  split; [done|]. split; [done|]. apply kernel_regions_tile.
Qed.

(** [vmm_find_free_region] does not look at the region it stands before.  With the
    default hint, a region of one page at 0xD0000000 and one at 0xD0003000, a request for
    0x3000 bytes is answered with 0xD0001000, which runs into the second region, although
    the addresses after it are free; [vmm_map_region] then refuses the range. *)
Theorem vmm_find_free_region_overlaps s ids fa fb ta tb :
  let a := Region 0xD0000000 0x1000 fa ta None in
  let b := Region 0xD0003000 0x1000 fb tb None in
  holds s KernelSpace ids (kernel_regions ++ [a; b]) ->
  wp (vmm_find_free_region (Some KernelSpace) 0x3000 0) s (fun r s' =>
    r = 0xD0001000 /\ overlaps r 0x3000 b = true /\
    existsb (overlaps 0xD0004000 0x3000) (kernel_regions ++ [a; b]) = false).
Proof.
  intros a b Hh. eapply wp_mono; [by eapply vmm_find_free_region_wp|]. intros r s' [-> _].
  change (default_hint 0) with 0xD0000000. change (page_up 0x3000) with 0x3000.
  pose proof kernel_regions_below as (y & l & E & Hl). rewrite E.
  rewrite (find_free_skip_all (y :: l) a [b]); [|done|done|done|done].
  split; [reflexivity|]. split; [reflexivity|]. rewrite existsb_app. apply orb_false_iff.
  split; [|reflexivity]. apply Bool.not_true_iff_false. intros (x & Hx & Hov)%existsb_exists.
  rewrite Forall_forall in Hl. destruct (Hl x) as (? & ? & ? & ?); [by apply list_elem_of_In|].
  unfold overlaps in Hov. rewrite (u32_small (r_base x + r_size x)) in Hov by (unfold is32; lia).
  bools. lia.
Qed.
End InitClaims.

(** ** Witnesses *)

#[local] Existing Instance demo_layout.

Definition demo_vmm0 : vsys :=
  Vsys demo_heap (replicate 256 (Region 0 0 0 REGION_FREE None)) 0 (Space 0 None 0) ∅ None false.
Definition demo_vmm1 : vsys := final (vmm_init demo_vmm0).

Lemma demo_kspace : kspace demo_vmm0 demo_vmm1 kernel_regions.
Proof.
  unfold demo_vmm1. apply (wp_final vmm_init demo_vmm0 (fun s' => kspace demo_vmm0 s' kernel_regions)).
  eapply wp_mono; [apply vmm_init_wp; reflexivity|]. intros u s' [H _]. exact H.
Qed.

Lemma demo_vmm0_heap : v_h demo_vmm0 = demo_heap.
Proof. reflexivity. Qed.

#[global] Opaque demo_vmm0 demo_vmm1.

Definition demo_a : region := Region 0xD0000000 0x1000 3 REGION_USER_DATA None.
Definition demo_b : region := Region 0xD0003000 0x1000 3 REGION_USER_DATA None.

(** Four regions at boot, and with the two more of a client. *)
Lemma demo_regions : length kernel_regions = 4%nat /\
  insert_data demo_b (insert_data demo_a kernel_regions) = kernel_regions ++ [demo_a; demo_b] /\
  existsb (overlaps 0xC0400000 0x1000) kernel_regions = true.
Proof. vm_compute. repeat split. Qed.

Lemma demo_used : 0 <= region_pool_used demo_vmm1 < 256.
Proof. rewrite (ks_used _ _ _ demo_kspace), (proj1 demo_regions). clear. lia. Qed.

Lemma two_regions s0 s l a b : kspace s0 s l -> (length l < 200)%nat ->
  exists s' ids, holds s' KernelSpace ids
    (insert_data (Region (r_base b) (r_size b) (r_flags b) (r_type b) None)
      (insert_data (Region (r_base a) (r_size a) (r_flags a) (r_type a) None) l)).
Proof.
  intros K Hl.
  assert (wp (register_existing_region KernelSpace (r_base a) (r_size a) (r_flags a) (r_type a) ;;;
              register_existing_region KernelSpace (r_base b) (r_size b) (r_flags b) (r_type b)) s
    (fun _ s' => exists ids, holds s' KernelSpace ids
      (insert_data (Region (r_base b) (r_size b) (r_flags b) (r_type b) None)
        (insert_data (Region (r_base a) (r_size a) (r_flags a) (r_type a) None) l)))) as W.
  { wp_step. eapply register_kernel; [exact K|lia|]. intros q1 s1 K1.
    eapply register_kernel; [exact K1|rewrite insert_data_perm; cbn; lia|]. intros q2 s2 [H _ _ _ _ _].
    exact H. }
  apply wp_ok in W as (q & s' & _ & ids & H). by exists s', ids.
Qed.

Lemma vmm_init_regions_witness :
  wp vmm_init demo_vmm0 (fun _ s' => kspace demo_vmm0 s' kernel_regions /\ fault_handler s' = true /\
    tiles 0xC0001000 kernel_regions 0xC1400000).
Proof. exact (vmm_init_regions demo_vmm0 eq_refl eq_refl). Defined.

Lemma register_region_sorted_witness : exists l,
  wp (register_existing_region KernelSpace 0xD0000000 0x1000 3 REGION_USER_DATA) demo_vmm1 (fun q s' =>
    if region_pool_used demo_vmm1 =? 256 then q = None /\ printed demo_vmm1 s'
    else q = Some (Z.to_nat (region_pool_used demo_vmm1)) /\ v_h s' = v_h demo_vmm1 /\
      exists ids' l', holds s' KernelSpace ids' l' /\
        l' ≡ₚ Region 0xD0000000 0x1000 3 REGION_USER_DATA None :: l /\
        StronglySorted (fun x y => r_base x <= r_base y) l').
Proof.
  exists kernel_regions. destruct (ks_holds _ _ _ demo_kspace) as [ids H].
  apply (register_region_sorted demo_vmm1 KernelSpace ids kernel_regions); [exact H|].
  pose proof demo_used as [H1 H2]. clear -H1 H2. lia.
Defined.

Lemma register_remove_roundtrip_witness :
  wp (q <- register_existing_region KernelSpace 0xC0200000 0x1000 3 REGION_USER_DATA ;;
      match q with Some i => remove_region KernelSpace i | None => ret tt end) demo_vmm1 (fun _ s' =>
    exists ids', holds s' KernelSpace ids' kernel_regions).
Proof.
  destruct (ks_holds _ _ _ demo_kspace) as [ids H].
  exact (register_remove_roundtrip demo_vmm1 KernelSpace ids kernel_regions _ _ _ _ H demo_used).
Defined.

Lemma vmm_find_region_first_witness :
  wp (vmm_find_region (Some KernelSpace) 0xC0400123) demo_vmm1 (fun q s' => s' = demo_vmm1 /\
    region_of (region_pool demo_vmm1) <$> q = List.find (contains 0xC0400123) kernel_regions /\
    (q = None <-> Forall (fun x => contains 0xC0400123 x = false) kernel_regions)).
Proof.
  destruct (ks_holds _ _ _ demo_kspace) as [ids H].
  exact (vmm_find_region_first demo_vmm1 KernelSpace ids kernel_regions 0xC0400123 H).
Defined.

Lemma vmm_map_region_rejects_witness :
  wp (vmm_map_region (Some KernelSpace) 0xC0400000 0x1000 3 REGION_USER_DATA) demo_vmm1
     (fun r s' => r = -1 /\ printed demo_vmm1 s').
Proof.
  destruct (ks_holds _ _ _ demo_kspace) as [ids H].
  apply (vmm_map_region_rejects demo_vmm1 KernelSpace ids kernel_regions _ _ _ _ H).
  right. right. exact (proj2 (proj2 demo_regions)).
Defined.

Lemma vmm_find_free_region_safe_witness :
  wp (vmm_find_free_region (Some KernelSpace) 0x3000 0xC1400000) demo_vmm1 (fun r s' =>
    printed demo_vmm1 s' /\
    (r = 0 \/ (0xC1400000 <= r /\ r + 0x3000 <= 0xFFFFF000 /\ Forall (clear_of r 0x3000) kernel_regions))).
Proof.
  destruct (ks_holds _ _ _ demo_kspace) as [ids H].
  apply (vmm_find_free_region_safe demo_vmm1 KernelSpace ids kernel_regions 0x3000 0xC1400000 0xD0000000 H).
  - clear. vm_compute. discriminate.
  - clear. lia.
  - clear. lia.
  - exact kernel_regions_upto.
  - clear. lia.
Defined.

Lemma vmm_find_free_region_overlaps_witness : exists s,
  wp (vmm_find_free_region (Some KernelSpace) 0x3000 0) s (fun r s' =>
    r = 0xD0001000 /\ overlaps r 0x3000 demo_b = true /\
    existsb (overlaps 0xD0004000 0x3000) (kernel_regions ++ [demo_a; demo_b]) = false).
Proof.
  destruct (two_regions _ _ _ demo_a demo_b demo_kspace) as (s & ids & H).
  { rewrite (proj1 demo_regions). clear. lia. }
  assert (holds s KernelSpace ids (kernel_regions ++ [demo_a; demo_b])) as H'.
  { rewrite <-(proj1 (proj2 demo_regions)). exact H. }
  exists s. exact (vmm_find_free_region_overlaps s ids 3 3 REGION_USER_DATA REGION_USER_DATA H').
Defined.

(** ** Destroying an address space, on the machine *)

(** The machine below, and the count of used frames. *)
Definition v_mem (s : vsys) : machine := g_hw (h_g (v_h s)).
Definition v_used (s : vsys) : Z := used_frames (g_p (h_g (v_h s))).

(** A new address space, destroyed again, on an 8 MB machine after [vmm_init]. *)
Definition demo_destroyed : result vsys unit :=
  (sp <- vmm_create_address_space ;; vmm_destroy_address_space sp) demo_vmm1.

(** What is observed before and after, in one value. *)
Definition destroy_report (s : vsys) (r : result vsys unit) : option Z * bool * option Z * Z :=
  (translate (v_mem s) 0xC00B8000, match r with Ok _ _ => true | Stop _ _ => false end,
   translate (v_mem (final r)) 0xC00B8000, v_used s - v_used (final r)).

Lemma destroy_report_spec s r : destroy_report s r = (Some 0xB8000, true, None, 255) ->
  translate (v_mem s) 0xC00B8000 = Some 0xB8000 /\ (exists s', r = Ok tt s') /\
  translate (v_mem (final r)) 0xC00B8000 = None /\ v_used (final r) = v_used s - 255.
Proof.
  unfold destroy_report. intros [= -> Hr -> Hu]. split; [done|]. split; [|split; [done|lia]].
  destruct r as [[] s'|]; [by exists s'|done].
Qed.

Lemma demo_destroy_report : destroy_report demo_vmm1 demo_destroyed = (Some 0xB8000, true, None, 255).
Proof. vm_compute. reflexivity. Qed.

(** A new address space has a copy of the kernel's region of low memory, whose type
    REGION_MMIO comes after REGION_USER_CODE.  [vmm_destroy_address_space] takes it for a
    user region: it unmaps the text buffer of the screen from the kernel and gives the 255
    frames below 1 MB to the allocator. *)
Theorem destroy_space_unmaps_screen :
  translate (v_mem demo_vmm1) 0xC00B8000 = Some 0xB8000 /\
  (exists s', demo_destroyed = Ok tt s') /\
  translate (v_mem (final demo_destroyed)) 0xC00B8000 = None /\
  v_used (final demo_destroyed) = v_used demo_vmm1 - 255.
Proof. exact (destroy_report_spec _ _ demo_destroy_report). Qed.
