(* ===== verification/RegionSpec.v ===== *)
(** * Mapping and unmapping regions

    What [vmm_map_region] and [vmm_unmap_region] ([kernel/vmm.c]) do on every branch: pages
    with fresh zeroed frames, or the state before the call. *)

From stdpp Require Import base gmap list numbers option strings sorting.
From Stdlib Require Import ZArith Lia.
From S2P Require Import Prelude Machine PageTables Pmm Paging PagingInit Boot PmmSpec PagingSpec HeapList Kheap HeapInv Vmm VmmInv RegionPages VmmSpec.

Section Regions.
Context {L : Layout} {LOk : LayoutOk L}.

Lemma vg_put g v : vg (put_g g v) = g.
Proof. done. Qed.

Lemma holds_put g v p ids l : holds v p ids l -> holds (put_g g v) p ids l.
Proof. apply holds_heap. Qed.

Lemma wp_put_kprintf fmt args g v (Q : unit -> vsys -> Prop) :
  (forall h, same_mem (g_hw g) h -> Q tt (put_g (set_hw h g) v)) -> wp (v_kprintf fmt args) (put_g g v) Q.
Proof. intros H. unfold v_kprintf, v_hw. apply wp_v_paging, wp_hw_kprintf. exact H. Qed.

(** ** Mapping *)

(** The outcome of a mapping that passed the checks. *)
Definition map_outcome (v : vsys) (p : sptr) (ids : list nat) (l : list region) (d : region)
    (r : Z) (v' : vsys) : Prop :=
  let n := r_size d / 4096 in
  exists ts g',
    (r = 0 /\ region_pool_used v < 256 /\
     exists fs, Z.of_nat (length fs) = n /\
       mapping (vg v) (r_base d) (vmm_flags_to_page_flags (r_flags d)) fs ts g' /\
       registered (put_g g' v) p ids l d v') \/
    (r = -1 /\ v' = put_g g' v /\ rolled_back (vg v) ts g' /\
     (exhausted (vg v) n ts \/ region_pool_used v = 256)).

Lemma alloc_region_full g v : region_pool_used v = 256 ->
  wp alloc_region (put_g g v) (fun q v' => q = None /\ exists h, same_mem (g_hw g) h /\ v' = put_g (set_hw h g) v).
Proof.
  intros Hu. unfold alloc_region. wp_step. wp_step. change (region_pool_used (put_g g v)) with (region_pool_used v).
  rewrite Hu. change (VMM_MAX_REGIONS <=? 256) with true. cbv iota. wp_step.
  apply wp_put_kprintf. intros h Hh. wp_step. split; [done|]. by exists h.
Qed.

Lemma vmm_map_region_wp v p ids l lo n flags ty : holds v p ids l -> 0 <= region_pool_used v <= 256 ->
  paging_inv (vg v) -> page_range lo n -> unmapped (vg v) lo n -> can_map (vg v) lo n ->
  existsb (overlaps lo (4096 * n)) l = false ->
  wp (vmm_map_region (Some p) lo (4096 * n) flags ty) v
    (map_outcome v p ids l (Region lo (4096 * n) flags ty None)).
Proof.
  intros Hh Hu Hi Hpr Hun Hcan Hov. unfold vmm_map_region. rewrite !has_bits_page.
  rewrite (pr_aligned _ _ Hpr). rewrite (Z.mul_comm 4096 n), Z.mod_mul by lia. rewrite (Z.mul_comm n 4096).
  cbn [Z.eqb negb]. wp_step. eapply wp_mono; [by eapply check_overlap_wp|]. intros b s' (-> & _ & Es).
  rewrite Hov in *. rewrite Es by done. clear Es s'.
  wp_step. rewrite <-(put_g_id v) at 1.
  eapply wp_mono; [by apply (map_pages_wp v (vg v) lo n)|].
  assert (4096 * n / 4096 = n) as En by (rewrite Z.mul_comm; by apply Z.div_mul).
  unfold map_outcome. cbn [r_size r_base r_flags]. rewrite En.
  intros [] ? (ts & g1 & -> & Hres); cbn [negb].
  2:{ wp_step. exists ts, g1. right. destruct Hres. split_and!; [done..|by left]. }
  destruct Hres as (fs & Hlen & Hm). destruct (Z.eq_dec (region_pool_used v) 256) as [Hfull|Hfree].
  - wp_step. eapply wp_mono; [by apply alloc_region_full|]. intros q ? (-> & h & Hsame & ->).
    pose proof (mapping_hw _ _ _ _ _ _ h Hsame Hm) as Hm2.
    wp_step. eapply wp_mono.
    { apply (undo_pages_wp v _ lo (Some <$> fs) n); [done|by rewrite length_fmap|apply Hm2|].
      eapply mapping_backed; [exact Hm2|exact Hpr|lia]. }
    intros [] ? (g2 & -> & Hd). wp_step. exists ts, g2. right. split_and!; [done|done| |by right].
    rewrite <-Hlen in Hd. eapply (undone (vg v) lo n); [exact Hm2|exact Hpr|lia|exact Hi|exact Hun|exact Hd].
  - pose proof (holds_put g1 v p ids l Hh) as Hh1. pose proof Hh1 as [[sp Hrg] _ _].
    assert (0 <= region_pool_used (put_g g1 v) < 256) as Hu1 by (change (region_pool_used (put_g g1 v)) with (region_pool_used v); lia).
    wp_step. eapply wp_mono; [apply alloc_region_wp; [apply Hrg|done]|]. intros q ? [-> ->].
    pose proof (place_wp (put_g g1 v) p ids l lo (4096 * n) flags ty Hh1 Hu1) as W%wp_unbind.
    unfold slot_taken in W. wp_step. eapply wp_mono; [exact W|]. clear W. intros [] s1 W.
    wp_step. eapply wp_mono; [exact W|]. intros [] s2 Hr. wp_step.
    exists ts, g1. left. split; [done|]. split; [lia|]. by exists fs.
Qed.

(** ** Unmapping *)

Lemma find_id_split pool test ids i : find_id pool test ids = Some i ->
  exists a b, ids = a ++ i :: b /\ test (region_of pool i) = true /\
    Forall (fun j => test (region_of pool j) = false) a.
Proof.
  unfold find_id. induction ids as [|j r IH]; cbn; [done|]. destruct (test (region_of pool j)) eqn:E.
  - intros [= <-]. exists [], r. by split_and!.
  - intros H. destruct (IH H) as (a & b & -> & Ht & Ha). exists (j :: a), b. split_and!; [done|done|].
    by constructor.
Qed.

Definition based_at (va : Z) (x : region) : bool := r_base x =? va.
Definition removable (x : region) : bool := negb (type_code (r_type x) <=? type_code REGION_IDENTITY_MAP).

(** Removing a slot of the list. *)
Lemma remove_holds v p a i b l : holds v p (a ++ i :: b) l ->
  wp (remove_region p i) v (fun _ v' => v_h v' = v_h v /\
    holds v' p (a ++ b) (regions_of (region_pool v) a ++ regions_of (region_pool v) b)).
Proof.
  intros [[sp Hrg] Hu <-]. eapply wp_mono; [by apply remove_region_wp|].
  intros [] v' (pool' & sp' & -> & Hrl & Hrg'). split; [by destruct p|].
  set (v' := put_space p sp' _) in *.
  assert (region_pool v' = pool' /\ region_pool_used v' = region_pool_used v) as [Ep Eu] by (by destruct p).
  split; [by eexists| |].
  - rewrite Eu. rewrite Forall_app, Forall_cons in Hu. apply Forall_app. tauto.
  - rewrite Ep, (regions_relinked _ _ _ _ Hrl). unfold regions_of. by rewrite fmap_app.
Qed.

(** The outcome of [vmm_unmap_region] when it finds a region it may unmap. *)
Definition unmap_outcome (v : vsys) (p : sptr) (l : list region) (x : region) (fs : list (option Z))
    (r : Z) (v' : vsys) : Prop :=
  r = 0 /\ dropped (vg v) (r_base x) fs (r_size x / 4096) (vg v') /\
  exists l1 l2 ids', l = l1 ++ x :: l2 /\ Forall (fun y => based_at (r_base x) y = false) l1 /\
    holds v' p ids' (l1 ++ l2).

(** The pages of a region and their frames. *)
Record region_pages (g : gsys) (x : region) (fs : list (option Z)) : Prop := {
  rp_size : r_size x mod 4096 = 0;
  rp_range : page_range (r_base x) (r_size x / 4096);
  rp_length : Z.of_nat (length fs) = r_size x / 4096;
  rp_backed : backed g (r_base x) fs;
}.

Lemma vmm_unmap_region_wp v p ids l va fs : holds v p ids l -> paging_inv (vg v) ->
  (forall x, List.find (based_at va) l = Some x -> removable x = true -> region_pages (vg v) x fs) ->
  wp (vmm_unmap_region (Some p) va) v (fun r v' =>
    match List.find (based_at va) l with
    | Some x => if removable x then unmap_outcome v p l x fs r v' else r = -1 /\ printed v v'
    | None => r = -1 /\ printed v v'
    end).
Proof.
  intros Hh Hi Hpages. pose proof Hh as [[sp Hrg] _ El]. unfold vmm_unmap_region.
  wp_step. eapply wp_rd_space; [apply Hrg|].
  wp_step. eapply wp_mono.
  { apply (find_walk v (based_at va)); [apply Hrg|done|by eapply rg_short]. }
  intros q ? [-> Eq]. pose proof (find_id_data (region_pool v) (based_at va) ids) as Ef.
  rewrite El, <-Eq in Ef. destruct q as [i|].
  2:{ rewrite <-Ef. cbn [fmap option_fmap option_map]. wp_step. apply wp_v_kprintf. intros s' Hs'. by wp_step. }
  symmetry in Eq. apply find_id_split in Eq as (a & b & -> & Ht & Ha).
  destruct (chain_app _ _ _ _ _ (rg_chain _ _ _ _ Hrg)) as (y & Hy & _).
  assert (region_of (region_pool v) i = data y) as Ey by (unfold region_of; by rewrite Hy).
  cbn [fmap option_fmap option_map] in Ef. rewrite Ey in Ht, Ef. rewrite <-Ef in *.
  wp_step. eapply wp_rd_region; [exact Hy|].
  change (removable (data y)) with (negb (type_code (r_type y) <=? type_code REGION_IDENTITY_MAP)).
  destruct (type_code (r_type y) <=? _) eqn:Etc; cbn [negb].
  { wp_step. apply wp_v_kprintf. intros s' Hs'. by wp_step. }
  destruct (Hpages (data y) eq_refl) as [Hsz Hpr Hlen Hb].
  { unfold removable. cbn [data set_next r_type]. by rewrite Etc. }
  cbn [data set_next r_base r_size] in Hsz, Hpr, Hlen, Hb.
  wp_step. rewrite <-(put_g_id v) at 1. eapply wp_mono.
  { apply (unmap_pages_wp v (vg v) fs (r_size y / 4096) i y); [done| |done..].
    pose proof (Z.div_mod (r_size y) 4096 ltac:(lia)). lia. }
  intros [] ? (g' & -> & Hd). wp_step. eapply wp_mono; [apply (remove_holds (put_g g' v) p a i b l), holds_put, Hh|].
  intros [] v' (Eh & Hh'). wp_step. split; [done|]. split; [unfold vg in *; by rewrite Eh|].
  exists (regions_of (region_pool v) a), (regions_of (region_pool v) b), (a ++ b). split.
  { rewrite <-El. unfold regions_of. rewrite fmap_app. cbn. by rewrite Ey. }
  split; [|exact Hh']. unfold regions_of. apply Forall_fmap.
  assert (r_base (data y) = va) as -> by (by apply Z.eqb_eq). exact Ha.
Qed.

(** ** Mapping and unmapping again *)

Lemma first_split {A} (f : A -> bool) l1 l2 a b x y : l1 ++ x :: l2 = a ++ y :: b ->
  f x = true -> f y = true -> Forall (fun z => f z = false) l1 -> Forall (fun z => f z = false) a ->
  l1 = a /\ x = y /\ l2 = b.
Proof.
  revert a. induction l1 as [|z l1 IH]; intros [|w a]; cbn; intros [= -> E] Hx Hy H1 Ha.
  - by subst.
  - apply Forall_cons in Ha as [Ha _]. congruence.
  - apply Forall_cons in H1 as [H1 _]. congruence.
  - apply Forall_cons in H1 as [_ H1], Ha as [_ Ha].
    destruct (IH a E Hx Hy H1 Ha) as (-> & -> & ->). done.
Qed.

Lemma insert_data_split d l : exists a b, insert_data d l = a ++ d :: b /\ l = a ++ b.
Proof.
  assert (forall r, exists a b, insert_data_before d r = a ++ d :: b /\ r = a ++ b) as Hb.
  { induction r as [|x r (a & b & E1 & E2)]; cbn; [by exists [], []|].
    destruct (_ <? _); [|by exists [], (x :: r)]. exists (x :: a), b. cbn. by rewrite E1, E2 at 1. }
  destruct l as [|h r]; cbn; [by exists [], []|]. destruct (_ <? _); [by exists [], (h :: r)|].
  destruct (Hb r) as (a & b & E1 & E2). exists (h :: a), b. cbn. by rewrite E1, E2 at 1.
Qed.

Lemma find_split {A} (f : A -> bool) a x b : Forall (fun z => f z = false) a -> f x = true ->
  List.find f (a ++ x :: b) = Some x.
Proof. intros Ha Hx. induction Ha as [|z a Hz _ IH]; cbn; [by rewrite Hx|by rewrite Hz]. Qed.

(** The pages of a region that was just mapped. *)
Lemma mapped_pages g0 lo n pflags flags ty fs ts g : mapping g0 lo pflags fs ts g -> page_range lo n ->
  Z.of_nat (length fs) = n -> region_pages g (Region lo (4096 * n) flags ty None) (Some <$> fs).
Proof.
  intros Hm Hpr Hn. assert (4096 * n / 4096 = n) as En by (rewrite Z.mul_comm; by apply Z.div_mul).
  split; cbn [r_size r_base]; rewrite ?En.
  - rewrite Z.mul_comm. by apply Z.mod_mul.
  - done.
  - by rewrite length_fmap.
  - eapply mapping_backed; [exact Hm|exact Hpr|lia].
Qed.

(** Unmapping what was just mapped. *)
Lemma unmap_mapped v p ids l lo n flags ty fs ts g' v1 : holds v p ids l -> paging_inv (vg v) ->
  page_range lo n -> unmapped (vg v) lo n -> Forall (fun x => based_at lo x = false) l ->
  let d := Region lo (4096 * n) flags ty None in
  removable d = true -> Z.of_nat (length fs) = n ->
  mapping (vg v) lo (vmm_flags_to_page_flags flags) fs ts g' ->
  registered (put_g g' v) p ids l d v1 ->
  wp (vmm_unmap_region (Some p) lo) v1 (fun r v' => r = 0 /\ rolled_back (vg v) ts (vg v') /\
    exists ids', holds v' p ids' l).
Proof.
  intros Hh Hi Hpr Hun Hbase d Hrm Hlen Hm (ids' & pool' & sp & sp' & Ev & _ & _ & Hh1 & _).
  assert (vg v1 = g') as Eg by (rewrite Ev; by destruct p).
  destruct (insert_data_split d l) as (a & b & Ei & El). rewrite Ei in Hh1. rewrite El in Hbase.
  apply Forall_app in Hbase as [Ha _].
  assert (4096 * n / 4096 = n) as En by (rewrite Z.mul_comm; by apply Z.div_mul).
  assert (based_at lo d = true) as Hd by apply Z.eqb_refl.
  eapply wp_mono; [apply (vmm_unmap_region_wp v1 p ids' (a ++ d :: b) lo (Some <$> fs)); [done|by rewrite Eg; apply Hm|]|].
  { intros x. rewrite find_split by done. intros [= <-] _. rewrite Eg. by eapply mapped_pages. }
  intros r v'. rewrite find_split, Hrm by done. intros (-> & Hdr & l1 & l2 & ids2 & E & Hl1 & Hh2).
  cbn [r_size r_base d] in Hdr, Hl1. rewrite En, Eg, <-Hlen in Hdr. split; [done|]. split.
  - eapply (undone (vg v) lo n); [exact Hm|exact Hpr|lia|exact Hi|exact Hun|exact Hdr].
  - exists ids2. rewrite El. symmetry in E. by destruct (first_split (based_at lo) _ _ _ _ _ _ E Hd Hd Hl1 Ha) as (<- & _ & <-).
Qed.


(** After [paging_init] nothing is mapped above 16 MB of the higher half. *)
Lemma ready_no_table es g va : memory_ready es g -> 0xC1000000 <= va < 4294967296 ->
  table_of (ram (g_hw g)) paging_get_directory (pd_index va) = None.
Proof.
  intros Hr Hva. assert (is32 va) as H32 by (unfold is32; lia).
  rewrite (filled_tables _ _ (mr_contents _ _ Hr)) by (by apply pd_index_range).
  rewrite decide_False; [done|]. rewrite pd_index_div, Z.div_div by lia.
  pose proof (Z.div_le_lower_bound va (4096 * 1024) 772 ltac:(lia) ltac:(lia)). lia.
Qed.

Lemma ready_unmapped es g lo n : memory_ready es g -> 0xC1000000 <= lo -> lo + 4096 * n <= 4294967296 ->
  unmapped g lo n.
Proof.
  intros Hr Hlo Hhi va Hva. rewrite translate_walk by (by eapply memory_ready_inv).
  rewrite walk_tables by apply PDp_aligned. by rewrite (ready_no_table es g va) by (done || lia).
Qed.

(** ** Claims *)

(** What the range of a request must look like: whole pages outside the window of the
    kernel in which nothing is mapped, with page tables or frames for them. *)
Record mappable (g : gsys) (lo n : Z) : Prop := {
  ma_range : page_range lo n;
  ma_unmapped : unmapped g lo n;
  ma_can : can_map g lo n;
}.

Lemma mappable_hw g lo n h : same_mem (g_hw g) h -> mappable g lo n -> mappable (set_hw h g) lo n.
Proof.
  intros Hs [Hpr Hun Hcan]. split; [done| |].
  - intros va Hva. rewrite <-(Hun va Hva). symmetry. by apply translate_proper.
  - destruct Hs as [Er _]. unfold can_map. change (g_hw (set_hw h g)) with h. rewrite <-Er. exact Hcan.
Qed.

(** Output changes none of it. *)
Lemma output_mappable es v g lo n m : vg v = set_hw (emitted es (g_hw g)) g -> paging_inv g ->
  mappable g lo n -> reserve g m -> paging_inv (vg v) /\ mappable (vg v) lo n /\ reserve (vg v) m.
Proof.
  intros -> Hi Hm Hr. assert (same_mem (g_hw g) (emitted es (g_hw g))) as Hs by done.
  split; [by apply paging_inv_hw|]. split; [by apply mappable_hw|done].
Qed.

(** The guards of [vmm_map_region]. *)
Definition refused (l : list region) (va size : Z) : bool :=
  negb (va mod 4096 =? 0) || negb (size mod 4096 =? 0) || existsb (overlaps va size) l.


(** C17: [vmm_unmap_region] on every branch.  Without a region that starts at the address, or
    with one of the kernel's types, it returns -1 and only output changes.  Otherwise it
    returns 0, no page of the region is mapped any more, exactly the frames behind its pages
    are given back, every other address is translated as before, no data frame changes, and
    the first region that starts there has left the list. *)
Theorem vmm_unmap_region_spec v p ids l va fs : holds v p ids l -> paging_inv (vg v) ->
  (forall x, List.find (based_at va) l = Some x -> removable x = true -> region_pages (vg v) x fs) ->
  wp (vmm_unmap_region (Some p) va) v (fun r v' =>
    match List.find (based_at va) l with
    | Some x => if removable x then unmap_outcome v p l x fs r v' else r = -1 /\ printed v v'
    | None => r = -1 /\ printed v v'
    end).
Proof. apply vmm_unmap_region_wp. Qed.

(** C19: mapping a region and unmapping it again, or failing to map it, gives the memory back:
    the translations, the contents and the allocation of all frames and the list of regions
    are as before, up to the frames that became page tables. *)
Theorem map_unmap_roundtrip v p ids l lo n flags ty : holds v p ids l ->
  0 <= region_pool_used v <= 256 -> paging_inv (vg v) -> mappable (vg v) lo n ->
  existsb (overlaps lo (4096 * n)) l = false -> Forall (fun x => based_at lo x = false) l ->
  removable (Region lo (4096 * n) flags ty None) = true ->
  wp (r <- vmm_map_region (Some p) lo (4096 * n) flags ty ;;
      if r =? 0 then vmm_unmap_region (Some p) lo else ret r) v (fun r v' =>
    exists ts, rolled_back (vg v) ts (vg v') /\ (exists ids', holds v' p ids' l) /\
      (r = 0 \/ (r = -1 /\ (exhausted (vg v) n ts \/ region_pool_used v = 256)))).
Proof.
  intros Hh Hu Hi [Hpr Hun Hcan] Hov Hbase Hrm. wp_step.
  eapply wp_mono; [by apply (vmm_map_region_wp v p ids l lo n)|].
  assert (4096 * n / 4096 = n) as En by (rewrite Z.mul_comm; by apply Z.div_mul).
  intros r v1 (ts & g' & [(-> & _ & fs & Hlen & Hm & Hreg)|(-> & -> & Hrb & Hwhy)]);
    cbn [r_size r_base r_flags] in *; rewrite En in *; cbn [Z.eqb].
  - eapply wp_mono; [by eapply (unmap_mapped v p ids l lo n flags ty fs ts g')|].
    intros r v' (-> & Hrb & Hids). exists ts. split_and!; [done|done|by left].
  - wp_step. exists ts. split; [exact Hrb|]. split; [exists ids; by apply holds_put|]. right. by split.
Qed.

(** Zeroing a page that is not mapped. *)
Lemma zero_page_faults v g va (Q : unit -> vsys -> Prop) (E : stop -> vsys -> Prop) : is32 va ->
  translate (g_hw g) va = None -> E (PageFault va) (put_g g v) -> wpe (zero_page va) (put_g g v) Q E.
Proof.
  intros Hva Ht HE. unfold zero_page.
  apply (wp_for_loop _ _ _ (fun i v' => i = 0 /\ v' = put_g g v)); try done.
  - intros i ? _ _ [-> ->]. rewrite u32_small by (by rewrite Z.add_0_r). rewrite Z.add_0_r.
    unfold v_hw, v_paging. do 2 wp_step. apply wp_hw. unfold vst8, wpe.
    change (g_hw (view h_lens (view v_lens (put_g g v)))) with (g_hw g). rewrite Ht.
    change (view h_lens (view v_lens (put_g g v))) with g. by rewrite set_hw_id.
  - by intros ? [? _].
Qed.

(** With frames and a slot left a region can be mapped. *)
Lemma map_region_succeeds v p ids l lo n flags ty : holds v p ids l ->
  0 <= region_pool_used v <= 256 -> region_pool_used v <> 256 -> paging_inv (vg v) ->
  mappable (vg v) lo n -> reserve (vg v) (2 * n) -> existsb (overlaps lo (4096 * n)) l = false ->
  let d := Region lo (4096 * n) flags ty None in
  exists v1 ids1 fs, holds v1 p ids1 (insert_data d l) /\ paging_inv (vg v1) /\ region_pages (vg v1) d (Some <$> fs).
Proof.
  intros Hh Hu Hne Hi [Hpr Hun Hcan] Hres Hov d.
  pose proof (vmm_map_region_wp v p ids l lo n flags ty Hh Hu Hi Hpr Hun Hcan Hov) as W.
  apply wp_ok in W as (r & v1 & _ & ts & g' & Hout). unfold map_outcome in Hout. cbn [r_size r_base r_flags] in Hout.
  assert (4096 * n / 4096 = n) as En by (rewrite Z.mul_comm; by apply Z.div_mul). rewrite En in Hout.
  destruct Hout as [(_ & _ & fs & Hlen & Hm & Hreg)|(_ & _ & _ & [Hex|?])]; [|by apply reserve_suffices in Hex|done].
  destruct Hreg as (ids1 & pool' & sp & sp' & -> & _ & _ & Hh1 & _). eexists _, ids1, fs. split; [exact Hh1|].
  assert (forall w, vg (put_space p sp' w) = vg w) as -> by (by destruct p).
  split; [apply Hm|]. by eapply mapped_pages.
Qed.

(** One free frame, [f], below the limit of the scan. *)
Definition last_frame (g : gsys) (f : Z) : Prop :=
  0 <= f < scan_limit (g_p g) /\
  forall x, 0 <= x < scan_limit (g_p g) -> frame_bit (frame_bitmap (g_p g)) x = negb (x =? f).

Lemma last_taken g f : paging_inv g -> last_frame g f ->
  all_used (frame_bitmap (g_p (taken g f))) (scan_limit (g_p (taken g f))).
Proof.
  intros Hi [Hf Hall] x Hx. change (scan_limit (g_p (taken g f))) with (scan_limit (g_p g)) in Hx.
  pose proof (pi_pmm _ Hi) as (_ & _ & Hlim). rewrite taken_bit, Hall by (done || lia).
  rewrite Z.eqb_sym. by destruct (x =? f).
Qed.

(** Without a frame for the page table [paging_map_page] only prints. *)
Lemma map_page_fails g va pa flags : paging_inv g -> is32 va ->
  table_of (ram (g_hw g)) paging_get_directory (pd_index va) = None ->
  all_used (frame_bitmap (g_p g)) (scan_limit (g_p g)) ->
  wp (paging_map_page va pa flags) g (fun _ g' => exists h, same_mem (g_hw g) h /\ g' = set_hw h g).
Proof.
  intros Hi Hva Hnt Hall. pose proof (pi_map _ Hi) as Hm.
  unfold paging_map_page. fold (pd_index va) (pt_index va). cbv zeta.
  wp_step. eapply wp_hw_vld32; [by apply pd_read; [|apply pd_index_range]|]. unfold PAGE_PRESENT.
  destruct (has_bits (ld32 _ (_ + _)) 1) eqn:Hb; [by rewrite (table_of_pd _ _ Hb) in Hnt|].
  wp_step. unfold new_page_table. wp_step. eapply wp_mono; [by apply alloc_wp|].
  intros r g1 [(f & Hf & Hl & Hu & _)|(-> & _ & h & Hh & ->)]; [by rewrite Hall in Hu by lia|].
  cbn [Z.eqb]. wp_step. apply wp_hw_kprintf. intros h' Hh'. wp_step. cbn [negb]. wp_step.
  exists h'. split; [by etransitivity|done].
Qed.

(** The page gets the last frame, and no page table. *)
Lemma map_pages_faults v g lo n flags f (Q : bool -> vsys -> Prop) : paging_inv g -> page_range lo n ->
  0 < n -> unmapped g lo n -> table_of (ram (g_hw g)) paging_get_directory (pd_index lo) = None ->
  last_frame g f ->
  wpe (map_pages lo (4096 * n) flags) (put_g g v) Q (fun e v' => e = PageFault lo /\
    exists h, same_mem (g_hw g) h /\ v' = put_g (set_hw h (taken g f)) v).
Proof.
  intros Hi Hpr Hn Hun Hnt Hlast. pose proof (pi_pmm _ Hi) as (_ & _ & Hlim).
  destruct (pr_page lo n 0 Hpr ltac:(lia)) as (H32 & Ho & Ha & _ & _ & Eva). rewrite Z.mul_0_r, Z.add_0_r in *.
  unfold map_pages. apply (wp_loop_var _ (fun m off v' => off = 0 /\ v' = put_g g v)) with 0; [|done|lia].
  intros m ? ? [-> ->]. rewrite (proj2 (Z.ltb_lt 0 (4096 * n))) by lia. wp_step.
  apply wp_total. unfold v_alloc_frame. apply wp_v_paging. eapply wp_mono; [by apply alloc_wp|].
  intros r g1 [(f' & Hf' & Hl & Hu & -> & ->)|(_ & Hall & _)].
  2:{ exfalso. destruct Hlast as [Hf Hb]. specialize (Hall f Hf). rewrite Hb, Z.eqb_refl in Hall by done. done. }
  assert (f' = f) as ->.
  { destruct Hlast as [_ Hb]. rewrite Hb in Hu by lia. apply negb_false_iff in Hu. lia. }
  pose proof (page_nonzero f (proj1 Hf')) as Hnz. apply negb_true_iff in Hnz. rewrite Hnz, Z.add_0_r, Eva.
  assert (0 <= f < FRAMES) as Hf by lia. destruct (frame_of_aligned f Hf) as [[HF32 _] _].
  pose proof (last_taken g f Hi Hlast) as Hused.
  wp_step. apply wp_total, wp_v_paging. eapply wp_mono.
  { by apply (map_page_fails (taken g f)); [apply taken_inv| | |]. }
  intros [] g1 (h & Hs & ->). wp_step. apply zero_page_faults; [done| |].
  - rewrite <-(Hun lo) by lia. symmetry. by apply translate_proper.
  - split; [done|]. by exists h.
Qed.

(** No regions yet. *)
Definition blank (g : gsys) : vsys :=
  Vsys (Hsys g 0 0 0 0 0) (replicate 256 (Region 0 0 0 REGION_FREE None)) 0 (Space 0 None 0) ∅ None false.

Lemma blank_holds g : holds (blank g) KernelSpace [] [].
Proof.
  split; [|constructor|done]. exists (Space 0 None 0).
  split; [done|done|constructor|constructor|done|]. apply length_replicate.
Qed.

(** A machine on which only the frames below [t] are handed out. *)
Definition narrowed (t : Z) (g : gsys) : gsys := update g_lens (set_total t (g_p g)) g.

Lemma narrowed_inv t g : 0 <= t <= FRAMES -> paging_inv g -> paging_inv (narrowed t g).
Proof.
  intros Ht [Hm (Hb & _ & _) Hz Hd HT]. split; [done| |done|done|done]. split_and!; [done|cbn; lia|].
  unfold scan_limit. cbn. pose proof (Z.mul_div_le t 8 ltac:(lia)). lia.
Qed.

(** Taking all free frames but the first. *)
Lemma last_of_four es g : memory_ready es g -> (forall x, 0 <= x < 0x114 -> map_frames free_limit es x = false) ->
  map_frames free_limit es 0x114 = true ->
  let g' := taken (taken (taken (narrowed 0x118 g) 0x115) 0x116) 0x117 in
  g_hw g' = g_hw g /\ paging_inv g' /\ last_frame g' 0x114.
Proof.
  intros Hr Hlow Hf g'. split; [done|]. assert (0 <= 0x118 <= FRAMES /\ 0 <= 0x115 < FRAMES /\ 0 <= 0x116 < FRAMES /\ 0 <= 0x117 < FRAMES)
    as (H0 & H1 & H2 & H3) by (unfold FRAMES; lia).
  pose proof (narrowed_inv 0x118 g H0 (memory_ready_inv es g Hr)) as I0.
  pose proof (taken_inv _ _ I0 H1) as I1. pose proof (taken_inv _ _ I1 H2) as I2.
  split; [by apply taken_inv|]. split; [by vm_compute|]. intros x Hx.
  change (scan_limit (g_p g')) with 280 in Hx. assert (0 <= x < FRAMES) as HxF by (unfold FRAMES; lia).
  unfold g'. rewrite !taken_bit by done. change (frame_bitmap (g_p (narrowed 0x118 g))) with (frame_bitmap (g_p g)).
  rewrite (mr_bits _ _ Hr) by done. destruct (Z.lt_trichotomy x 0x114) as [Hlt|[->|Hgt]].
  - rewrite Hlow by lia. cbn [negb]. rewrite !orb_true_r. by destruct (Z.eqb_spec x 0x114); [lia|].
  - by rewrite Hf.
  - assert (x = 0x115 \/ x = 0x116 \/ x = 0x117) as [->|[->| ->]] by lia; done.
Qed.

(** C38: with one free frame left and no page table for the range, [vmm_map_region] does not
    return -1: the page takes the frame, [paging_map_page] finds none for the page table and
    returns without mapping, and zeroing the page faults at its first byte. *)
Theorem map_region_last_frame_faults v p ids l lo n flags ty f : holds v p ids l ->
  paging_inv (vg v) -> page_range lo n -> 0 < n -> unmapped (vg v) lo n ->
  table_of (ram (g_hw (vg v))) paging_get_directory (pd_index lo) = None ->
  last_frame (vg v) f -> existsb (overlaps lo (4096 * n)) l = false ->
  wpe (vmm_map_region (Some p) lo (4096 * n) flags ty) v (fun _ _ => False) (fun e v' =>
    e = PageFault lo /\ holds v' p ids l /\ frame_bit (frame_bitmap (g_p (vg v'))) f = true).
Proof.
  intros Hh Hi Hpr Hn Hun Hnt Hlast Hov. unfold vmm_map_region. rewrite !has_bits_page.
  rewrite (pr_aligned _ _ Hpr). rewrite (Z.mul_comm 4096 n), Z.mod_mul by lia. rewrite (Z.mul_comm n 4096).
  cbn [Z.eqb negb]. wp_step. apply wp_total. eapply wp_mono; [by eapply check_overlap_wp|].
  intros b s' (-> & _ & Es). rewrite Hov in *. rewrite Es by done. clear Es s'.
  wp_step. rewrite <-(put_g_id v) at 1.
  eapply wp_weaken; [by apply (map_pages_faults v (vg v) lo n _ f (fun _ _ => False))|done|].
  intros e ? (-> & h & _ & ->). split; [done|]. split; [by apply holds_put|].
  change (frame_bit (frame_bitmap (g_p (taken (vg v) f))) f = true).
  destruct Hlast as [Hf _]. pose proof (pi_pmm _ Hi) as (_ & _ & Hlim).
  rewrite taken_bit by (done || lia). by rewrite Z.eqb_refl.
Qed.
End Regions.

(** ** Witnesses *)

#[local] Existing Instance demo_layout.

Definition demo_rv0 : vsys := blank demo_memory.

(** Four free frames below 4 MB. *)
Lemma demo_reserve : reserve demo_memory 4.
Proof.
  exists [0x114; 0x115; 0x116; 0x117]. split.
  { apply (bool_decide_unpack _). by vm_compute. }
  split; [done|]. intros x Hx. unfold scan_limit. rewrite demo_total.
  rewrite (mr_bits _ _ demo_memory_ready).
  - repeat (apply elem_of_cons in Hx as [->|Hx]; [by vm_compute|]). by apply not_elem_of_nil in Hx.
  - repeat (apply elem_of_cons in Hx as [->|Hx]; [by vm_compute|]). by apply not_elem_of_nil in Hx.
Qed.

(** Addresses from 0xD0000000 on are free on the 8 MB machine. *)
Lemma demo_mappable : mappable demo_memory 0xD0000000 2.
Proof.
  split.
  - split; unfold KERNEL_VIRTUAL_BASE, DIRECT; try lia. reflexivity.
  - apply (ready_unmapped _ _ 0xD0000000 2 demo_memory_ready); lia.
  - right. exact demo_reserve.
Qed.

Lemma demo_rspace : exists v, kspace demo_rv0 v kernel_regions.
Proof.
  exists (final (vmm_init demo_rv0)).
  apply (wp_final vmm_init demo_rv0 (fun s' => kspace demo_rv0 s' kernel_regions)).
  eapply wp_mono; [apply vmm_init_wp; reflexivity|]. intros u s' [H _]. exact H.
Qed.

(** The kernel's space after [vmm_init] on that machine. *)
Lemma demo_client : exists v ids, holds v KernelSpace ids kernel_regions /\
  0 <= region_pool_used v <= 256 /\ region_pool_used v <> 256 /\ paging_inv (vg v) /\
  mappable (vg v) 0xD0000000 2 /\ reserve (vg v) 4.
Proof.
  destruct demo_rspace as (v & [[ids Hh] Hu [es Eh] _ _ _]). exists v, ids.
  rewrite (proj1 demo_regions) in Hu. split; [exact Hh|]. split; [clear -Hu; lia|]. split; [clear -Hu; lia|].
  apply (output_mappable es v demo_memory); [|exact demo_memory_inv|exact demo_mappable|exact demo_reserve].
  unfold vg. rewrite Eh. reflexivity.
Qed.

Lemma demo_range_free : refused kernel_regions 0xD0000000 0x2000 = false /\
  existsb (overlaps 0xD0000000 (4096 * 2)) kernel_regions = false /\
  Forall (fun x => based_at 0xD0000000 x = false) kernel_regions.
Proof. split; [by vm_compute|]. split; [by vm_compute|]. vm_compute. repeat constructor. Qed.

Lemma demo_find : List.find (based_at 0xD0000000)
    (insert_data (Region 0xD0000000 0x2000 3 REGION_USER_DATA None) kernel_regions) =
  Some (Region 0xD0000000 0x2000 3 REGION_USER_DATA None).
Proof. by vm_compute. Qed.


Lemma vmm_unmap_region_spec_witness : exists v l fs,
  wp (vmm_unmap_region (Some KernelSpace) 0xD0000000) v (fun r v' =>
    unmap_outcome v KernelSpace l (Region 0xD0000000 0x2000 3 REGION_USER_DATA None) fs r v').
Proof.
  destruct demo_client as (v & ids & Hh & Hu & Hne & Hi & Hm & Hres).
  destruct (map_region_succeeds v KernelSpace ids kernel_regions 0xD0000000 2 3 REGION_USER_DATA
    Hh Hu Hne Hi Hm Hres (proj1 (proj2 demo_range_free))) as (v1 & ids1 & fs & Hh1 & Hi1 & Hp).
  exists v1, (insert_data (Region 0xD0000000 0x2000 3 REGION_USER_DATA None) kernel_regions), (Some <$> fs).
  pose proof (vmm_unmap_region_spec v1 KernelSpace ids1 _ 0xD0000000 (Some <$> fs) Hh1 Hi1) as W.
  change (4096 * 2) with 0x2000 in W. rewrite demo_find in W. apply W. intros x [= <-] _. exact Hp.
Defined.

Lemma map_unmap_roundtrip_witness : exists v,
  wp (r <- vmm_map_region (Some KernelSpace) 0xD0000000 (4096 * 2) 3 REGION_USER_DATA ;;
      if r =? 0 then vmm_unmap_region (Some KernelSpace) 0xD0000000 else ret r) v (fun r v' =>
    exists ts, rolled_back (vg v) ts (vg v') /\ (exists ids', holds v' KernelSpace ids' kernel_regions) /\
      (r = 0 \/ (r = -1 /\ (exhausted (vg v) 2 ts \/ region_pool_used v = 256)))).
Proof.
  destruct demo_client as (v & ids & Hh & Hu & _ & Hi & Hm & _). exists v.
  exact (map_unmap_roundtrip v KernelSpace ids kernel_regions 0xD0000000 2 3 REGION_USER_DATA Hh Hu Hi Hm
    (proj1 (proj2 demo_range_free)) (proj2 (proj2 demo_range_free)) eq_refl).
Defined.

(** The machine with one free frame. *)
Definition demo_tight : gsys := taken (taken (taken (narrowed 0x118 demo_memory) 0x115) 0x116) 0x117.

Lemma demo_tight_ok : g_hw demo_tight = g_hw demo_memory /\ paging_inv demo_tight /\ last_frame demo_tight 0x114.
Proof.
  apply (last_of_four (demo_map 0x700000) demo_memory demo_memory_ready); [|by vm_compute].
  intros x Hx. apply image_frame. change free_limit with 0x114000. unfold PAGE_SIZE. lia.
Qed.

#[local] Opaque demo_tight.

Lemma map_region_last_frame_faults_witness :
  wpe (vmm_map_region (Some KernelSpace) 0xD0000000 (4096 * 2) 3 REGION_USER_DATA) (blank demo_tight)
    (fun _ _ => False) (fun e v' => e = PageFault 0xD0000000 /\ holds v' KernelSpace [] [] /\
      frame_bit (frame_bitmap (g_p (vg v'))) 0x114 = true).
Proof.
  apply (map_region_last_frame_faults (blank demo_tight) KernelSpace [] [] 0xD0000000 2 3 REGION_USER_DATA 0x114).
  - exact (blank_holds demo_tight).
  - exact (proj1 (proj2 demo_tight_ok)).
  - exact (ma_range _ _ _ demo_mappable).
  - lia.
  - intros va Hva. change (vg (blank demo_tight)) with demo_tight. rewrite (proj1 demo_tight_ok).
    exact (ma_unmapped _ _ _ demo_mappable va Hva).
  - change (vg (blank demo_tight)) with demo_tight. rewrite (proj1 demo_tight_ok).
    apply (ready_no_table _ _ 0xD0000000 demo_memory_ready). clear. lia.
  - exact (proj2 (proj2 demo_tight_ok)).
  - reflexivity.
Defined.
