(* ===== verification/Kernel.v ===== *)
(** * The kernel's entry point ([kernel/kernel.c])

    [kernel_main] composes the initialisation of every component.  The components share one
    machine; each of them runs on its own variables and that machine through a lens. *)

From stdpp Require Import base gmap list numbers option strings.
From Stdlib Require Import ZArith Lia.
From S2P Require Import Prelude Machine Pmm Paging Boot PagingSpec HeapList Kheap HeapSpec.
From S2P Require Import Vmm Terminal Kprintf Serial Shell Gdt Idt Timer Process Scheduler.

Definition MULTIBOOT_MAGIC : Z := 0x2BADB002.

(** The variables of all components; the machine is the one below [k_o]. *)
Record kernel := Kernel {
  k_o : osys;
  k_row : Z;
  k_column : Z;
  k_color : Z;
  k_buffer : Z;
  k_cells : list Z;
  k_cmd_buffer : list Z;
  k_cmd_length : Z;
  k_gdt : list gdt_entry;
  k_gp_limit : Z;
  k_gp_base : Z;
  k_cs : Z;
  k_data : Z;
  k_idt : list idt_entry;
  k_idtp_limit : Z;
  k_idtp_base : Z;
  k_handlers : list (option handler);
}.

(** The machine below the processes. *)
Definition o_machine (o : osys) : machine := g_hw (h_g (v_h (o_v o))).
Definition set_o_machine (h : machine) (o : osys) : osys :=
  update o_lens (update v_lens (update h_lens (set_hw h (h_g (v_h (o_v o)))) (v_h (o_v o))) (o_v o)) o.

Definition set_o (o : osys) (k : kernel) : kernel :=
  Kernel o (k_row k) (k_column k) (k_color k) (k_buffer k) (k_cells k) (k_cmd_buffer k) (k_cmd_length k)
    (k_gdt k) (k_gp_limit k) (k_gp_base k) (k_cs k) (k_data k)
    (k_idt k) (k_idtp_limit k) (k_idtp_base k) (k_handlers k).

Definition ko_lens : lens kernel osys := Lens k_o set_o.

Definition km_lens : lens kernel machine :=
  Lens (fun k => o_machine (k_o k)) (fun h k => set_o (set_o_machine h (k_o k)) k).

Definition kc_lens : lens kernel csys :=
  Lens (fun k => Csys (o_machine (k_o k)) (k_row k) (k_column k) (k_color k) (k_buffer k) (k_cells k))
       (fun c k => Kernel (set_o_machine (c_hw c) (k_o k)) (terminal_row c) (terminal_column c)
          (terminal_color c) (terminal_buffer c) (cells c) (k_cmd_buffer k) (k_cmd_length k)
          (k_gdt k) (k_gp_limit k) (k_gp_base k) (k_cs k) (k_data k)
          (k_idt k) (k_idtp_limit k) (k_idtp_base k) (k_handlers k)).

Definition ks_lens : lens kernel ssys :=
  Lens (fun k => Ssys (view kc_lens k) (k_cmd_buffer k) (k_cmd_length k) (timer_ticks (k_o k)))
       (fun s k => let k := update kc_lens (s_c s) k in
          Kernel (set_ticks (ticks s) (k_o k)) (k_row k) (k_column k) (k_color k) (k_buffer k) (k_cells k)
            (cmd_buffer s) (cmd_length s)
            (k_gdt k) (k_gp_limit k) (k_gp_base k) (k_cs k) (k_data k)
            (k_idt k) (k_idtp_limit k) (k_idtp_base k) (k_handlers k)).

Definition kd_lens : lens kernel dsys :=
  Lens (fun k => Dsys (o_machine (k_o k)) (k_gdt k) (k_gp_limit k) (k_gp_base k) (k_cs k) (k_data k))
       (fun d k => Kernel (set_o_machine (d_hw d) (k_o k)) (k_row k) (k_column k) (k_color k) (k_buffer k) (k_cells k)
          (k_cmd_buffer k) (k_cmd_length k)
          (gdt d) (gp_limit d) (gp_base d) (seg_cs d) (seg_data d)
          (k_idt k) (k_idtp_limit k) (k_idtp_base k) (k_handlers k)).

Definition ki_lens : lens kernel isys :=
  Lens (fun k => Isys (o_machine (k_o k)) (k_idt k) (k_idtp_limit k) (k_idtp_base k) (k_handlers k))
       (fun i k => Kernel (set_o_machine (i_hw i) (k_o k)) (k_row k) (k_column k) (k_color k) (k_buffer k) (k_cells k)
          (k_cmd_buffer k) (k_cmd_length k)
          (k_gdt k) (k_gp_limit k) (k_gp_base k) (k_cs k) (k_data k)
          (idt i) (idtp_limit i) (idtp_base i) (handlers i)).

#[export] Instance km_lens_laws : LensLaws km_lens.
Proof. split; by intros; try destruct s as [[[[[[]]]]]]. Qed.
#[export] Instance kc_lens_laws : LensLaws kc_lens.
Proof. split; intros; try destruct s as [[[[[[]]]]]]; try destruct t; done. Qed.
#[export] Instance ks_lens_laws : LensLaws ks_lens.
Proof. split; intros; try destruct s as [[[[[[]]]]]]; try destruct t as [[]]; done. Qed.
#[export] Instance kd_lens_laws : LensLaws kd_lens.
Proof. split; intros; try destruct s as [[[[[[]]]]]]; try destruct t; done. Qed.
#[export] Instance ki_lens_laws : LensLaws ki_lens.
Proof. split; intros; try destruct s as [[[[[[]]]]]]; try destruct t; done. Qed.

Definition k_kprintf (fmt : string) (args : list karg) : M kernel unit :=
  zoom kc_lens (kprintf_screen (bytes_of fmt) args).
Definition k_serial_printf (fmt : string) (args : list karg) : M kernel unit :=
  zoom km_lens (serial_printf_port (bytes_of fmt) args).
Definition k_writestring (t : string) : M kernel unit := zoom kc_lens (terminal_writestring (bytes_of t)).

Section Kernel.
Context {L : Layout}.
(** Link addresses: of [gdt], [idt], the interrupt stubs, the trampoline, the two threads. *)
Context (sym_gdt sym_idt : Z) (isr irq : Z -> Z) (sym_trampoline sym_thread_a sym_thread_b : Z).

(** The calls of [kernel_main] from [process_init] to [scheduler_init]. *)
Definition start_threads : M osys unit :=
  process_init ;;;
  kthread_create sym_trampoline sym_thread_a (bytes_of "thread_a") ;;;
  kthread_create sym_trampoline sym_thread_b (bytes_of "thread_b") ;;;
  scheduler_init.

(** The branch of [kernel_main] for a valid magic number.  The registration of the page
    fault handler is the call of [idt_register_handler] in [vmm_init]. *)
Definition start_memory (mbi : Z) : M kernel unit :=
  zoom ko_lens (o_heap (heap_boot mbi)) ;;;
  zoom ko_lens (zoom o_lens vmm_init) ;;;
  zoom ki_lens (idt_register_handler 14 PageFaultHandler) ;;;
  zoom ko_lens start_threads ;;;
  used <- zoom ko_lens (o_heap kheap_get_used) ;;
  free <- zoom ko_lens (o_heap kheap_get_free) ;;
  k_kprintf ("Heap used: %u KB, free: %u KB" +:+ nl) [KInt (used / 1024); KInt (free / 1024)] ;;;
  fr <- zoom ko_lens (zoom o_lens (v_paging (zoom g_lens pmm_get_free_memory))) ;;
  k_kprintf ("Free memory: %u KB" +:+ nl) [KInt (fr / 1024)].

(** The calls before the multiboot check. *)
Definition start_devices : M kernel unit :=
  zoom kc_lens terminal_initialize ;;;
  zoom km_lens serial_init ;;;
  k_serial_printf ("Serial port initialized" +:+ nl) [] ;;;
  t <- zoom ko_lens timer_get_ticks ;;
  k_serial_printf ("Timer ticks: %u" +:+ nl) [KInt t] ;;;
  k_writestring ("Initalizing GDT" +:+ nl) ;;;
  zoom kd_lens (gdt_init sym_gdt) ;;;
  k_writestring ("GDT Initialized" +:+ nl) ;;;
  k_writestring ("Initalizing IDT" +:+ nl) ;;;
  zoom ki_lens (idt_init sym_idt isr irq) ;;;
  k_writestring ("IDT Initialized" +:+ nl) ;;;
  k_writestring ("Initializing Keyboard" +:+ nl) ;;;
  zoom ki_lens keyboard_init ;;;
  k_writestring ("Keyboard Initialized" +:+ nl) ;;;
  k_writestring ("Kernel initialization complete!" +:+ nl) ;;;
  zoom ki_lens (timer_init 100) ;;;
  k_kprintf ("Timer initialized at 100 Hz" +:+ nl) [].

(** [kernel_main]; it ends by halting until the next interrupt, for ever. *)
Definition kernel_main (magic mbi : Z) : M kernel unit :=
  start_devices ;;;
  (if negb (magic =? MULTIBOOT_MAGIC) then
     k_kprintf ("ERROR: Invalid multiboot magic: 0x%x" +:+ nl) [KInt magic]
   else
     k_kprintf ("Multiboot magic OK: 0x%x" +:+ nl) [KInt magic] ;;;
     start_memory mbi) ;;;
  k_kprintf ("Welcome to TupleOS!" +:+ nl) [] ;;;
  zoom ks_lens shell_init ;;;
  stop_with Halted.
End Kernel.
