(* ===== verification/KernelSpec.v ===== *)
(** * What the boot of the kernel guarantees

    [kernel_main] ([kernel/kernel.c]) run from the state the boot code leaves: every call
    returns, the components' invariants hold at the end, and two threads are ready to run
    unless the machine has too little memory. *)

From stdpp Require Import base gmap list numbers option strings.
From Stdlib Require Import ZArith Lia.
From S2P Require Import Prelude Machine PageTables Pmm Paging PagingInit Boot PmmSpec PagingSpec.
From S2P Require Import HeapList Kheap HeapInv HeapSpec Vmm VmmInv VmmSpec Terminal Kprintf Serial Shell.
From S2P Require Import Gdt Idt Timer InterruptSpec Process Scheduler SchedInv ProcInv ThreadInv Kernel.

Section KernelSpec.
Context {L : Layout} {LOk : LayoutOk L}.

Abbreviation START := HEAP_START_ADDR.
Abbreviation mem s := (g_hw (h_g s)).
Abbreviation laws hi := (heap_laws START hi).

(** ** Too little memory *)

(** The heap after a [kheap_init] that found too few frames. *)
Record no_heap (h : hsys) : Prop := {
  nh_first : first_block h = 0;
  nh_end : heap_end h = START;
  nh_frames : exhausted (h_g h);
  nh_paging : paging_inv (h_g h);
}.

Lemma no_heap_mem h m : same_mem (mem h) m -> no_heap h -> no_heap (set_mem m h).
Proof. intros Hm [? ? ? ?]. split; try done. by apply paging_inv_hw. Qed.

(** Without a block and without frames [kmalloc] answers [NULL] and changes nothing. *)
Lemma kmalloc_no_heap h : no_heap h ->
  wp (kmalloc (KERNEL_STACK_SIZE + PAGE_SIZE)) h (fun r h' =>
    r = 0 /\ exists m, same_mem (mem h) m /\ h' = set_mem m h).
Proof.
  intros [Hf He Hx Hp]. unfold kmalloc, find_free_block.
  change (KERNEL_STACK_SIZE + PAGE_SIZE =? 0) with false. cbv iota zeta. do 3 wp_step.
  rewrite Hf. unfold find_free_from at 1.
  apply (wp_loop _ (fun b s => b = 0 /\ s = h) (fun _ _ => 0)); [|done|lia].
  intros ? ? [-> ->]. cbn [Z.eqb]. wp_step. unfold loop_post. cbn [Z.eqb]. wp_step.
  unfold heap_expand. cbv zeta. change (Z.land _ 0xFFFFF000) with 16384. do 4 wp_step.
  assert (forall m, same_mem (mem h) m -> wp (h_kprintf ("Heap: Out of memory!" +:+ nl) [] ;;; ret 0) (set_mem m h)
    (fun r h' => r = 0 /\ exists m, same_mem (mem h) m /\ h' = set_mem m h)) as Hout.
  { intros m Hm. unfold h_kprintf. wp_step. wp_step. apply wp_hw_kprintf. intros m' Hm'. wp_step.
    split; [done|]. exists m'. split; [by etrans|done]. }
  assert (set_mem (mem h) h = h) as Hid by (by destruct h as [[[]]]).
  wp_step; [wp_step; cbn [negb]; rewrite <-Hid at 1; by apply Hout|].
  wp_step. unfold map_new_pages.
  apply (wp_loop _ (fun i s => i = 0 /\ s = h) (fun _ _ => 0)); [|done|lia].
  intros ? ? [-> ->]. change (0 <? 16384) with true. cbv iota. do 3 wp_step.
  eapply wp_mono; [apply pmm_alloc_frame_wp, Hp|]. cbv beta.
  intros r p [(f & Hfr & Hfree & _)|(_ & -> & m & _ & -> & Hm)].
  { specialize (Hx f Hfr). change (view g_lens (view h_lens h)) with (g_p (h_g h)) in Hfree. congruence. }
  cbn [Z.eqb]. wp_step. unfold loop_post. cbn [negb]. wp_step. by apply (Hout m).
Qed.

Lemma kmalloc_aligned_no_heap h : no_heap h ->
  wp (kmalloc_aligned KERNEL_STACK_SIZE) h (fun r h' =>
    r = 0 /\ exists m, same_mem (mem h) m /\ h' = set_mem m h).
Proof.
  intros Hn. unfold kmalloc_aligned. change (KERNEL_STACK_SIZE +u PAGE_SIZE) with (KERNEL_STACK_SIZE + PAGE_SIZE).
  wp_step. eapply wp_mono; [by apply kmalloc_no_heap|]. intros r h' [-> Hm]. cbn [Z.eqb]. by wp_step.
Qed.

(** ** The threads *)

Context (sym_trampoline sym_thread_a sym_thread_b : Z).
Hypothesis tramp32 : is32 sym_trampoline.
Hypothesis thread_a32 : is32 sym_thread_a.
Hypothesis thread_b32 : is32 sym_thread_b.

Abbreviation create_a := (kthread_create sym_trampoline sym_thread_a (bytes_of "thread_a")).
Abbreviation create_b := (kthread_create sym_trampoline sym_thread_b (bytes_of "thread_b")).

Lemma names_ok : cstring (bytes_of "thread_a") /\ cstring (bytes_of "thread_b").
Proof. split; by apply literal_cstring. Qed.

(** A thread that waits to be started: its entry in the table and its stack. *)
Definition thread_waits (o : osys) (i : nat) (entry : Z) (nm : list Z) (k : Z) : Prop :=
  process_table o !! i = Some (kthread_pcb (Z.of_nat i) 0 k nm (k + KERNEL_STACK_SIZE - 24)) /\
  @frame_at (laws (heap_end (hs o))) (hs o) (k + KERNEL_STACK_SIZE - 24) (start_cpu entry) sym_trampoline.

(** A frame in an allocated block survives what keeps the payload. *)
Lemma frame_kept h bs h' bs' sp c ra : heap_inv h bs -> heap_inv h' bs' ->
  payload_kept h bs h' -> heap_end h <= heap_end h' ->
  (forall j, 0 <= j < 5 -> live START bs (sp + 4 * j)) ->
  @frame_at (laws (heap_end h)) h sp c ra -> @frame_at (laws (heap_end h')) h' sp c ra.
Proof.
  intros Hi Hi' Hpay Hle Hlive [Hr Hv E0 E1 E2 E3 E4]. cbn in *.
  assert (forall j, 0 <= j < 5 -> hrd h' (sp + 4 * j) = hrd h (sp + 4 * j)) as Hk.
  { intros j Hj. destruct (Hv j Hj) as (_ & ? & ?). apply Hpay; [lia|done|by apply Hlive]. }
  split; [done| | |rewrite <-E1; by apply (Hk 1)|rewrite <-E2; by apply (Hk 2)
          |rewrite <-E3; by apply (Hk 3)|rewrite <-E4; by apply (Hk 4)].
  - intros j Hj. destruct (Hv j Hj) as (_ & ? & ?). split; [apply Hi'|]. split; [lia|done].
  - rewrite <-E0. specialize (Hk 0 ltac:(lia)). by rewrite !Z.add_0_r in Hk.
Qed.

(** The table while only the kernel process runs. *)
Definition kernel_runs (o : osys) : Prop :=
  table_ok o /\ current_process o = Some 0%nat /\ process_table o !! 0%nat = Some kernel_pcb.

Lemma heap_span h bs : heap_inv h bs -> heap_end h = START + span bs.
Proof. intros Hi. exact (seg_span _ _ _ _ _ (hi_blocks _ _ Hi)). Qed.

Definition created (o : osys) (bs bs' : list block) (i : nat) (entry : Z) (nm : list Z) (k : Z)
    (o' : osys) : Prop :=
  heap_inv (hs o') bs' /\ payload_kept (hs o) bs (hs o') /\ heap_end (hs o') = heap_end (hs o) /\
  o_v o' = update v_lens (hs o') (o_v o) /\ kernel_runs o' /\ fresh_stack bs bs' k /\
  process_table o' = <[i := kthread_pcb (next_pid o) 0 k nm (k + KERNEL_STACK_SIZE - 24)]> (process_table o) /\
  next_pid o' = next_pid o +u 1 /\
  @frame_at (laws (heap_end (hs o'))) (hs o') (k + KERNEL_STACK_SIZE - 24) (start_cpu entry) sym_trampoline.

(** [kthread_create] while the first megabyte of the heap has room. *)
Lemma create_wp o bs bs' i q entry nm : kernel_runs o -> cstring nm -> is32 entry ->
  heap_inv (hs o) bs -> span bs = INITIAL_HEAP_SIZE -> span bs' = INITIAL_HEAP_SIZE ->
  unused_slot (process_table o) = Some i ->
  alloc_list START bs (round8 (KERNEL_STACK_SIZE + PAGE_SIZE)) = Some (q, bs') ->
  wp (kthread_create sym_trampoline entry nm) o (fun _ o' => exists k, created o bs bs' i entry nm k o').
Proof.
  intros (Ht & Hc & Hk) Hnm He Hinv Hs Hs' Hi Ha. pose proof (heap_span _ _ Hinv) as Hend.
  eapply wp_mono.
  { apply (kthread_create_wp sym_trampoline o bs 0%nat kernel_pcb); try done.
    unfold can_grow. rewrite Hend, Hs. split; [by vm_compute|left; by vm_compute]. }
  intros r o' (bs1 & Hinv1 & Hpay & _ & Hv & Hr). destruct r as [j|].
  2:{ destruct Hr as (_ & _ & _ & Hr). rewrite Hi in Hr. destruct Hr as [? _]. congruence. }
  destruct Hr as (Hj & [p ->] & k & Hst & Htab & Hnp & Hcur & Hf). rewrite Hi in Hj. injection Hj as <-.
  unfold kmalloc_blocks in *. rewrite Ha in *. exists k. pose proof (heap_span _ _ Hinv1) as Hend'.
  destruct (unused_slot_spec _ _ Hi) as (p0 & Hp0 & Hun).
  assert (i <> 0%nat) as Hi0 by (intros ->; rewrite Hk in Hp0; injection Hp0 as <-; done).
  split; [done|]. split; [done|]. split; [congruence|]. split; [done|]. split; [|done].
  unfold kernel_runs, table_ok in *. rewrite Htab, length_insert, list_lookup_insert_ne by done.
  split; [done|]. split; [congruence|done].
Qed.

(** [kthread_create] without memory: the slot stays unused. *)
Lemma create_no_heap_wp o entry nm : kernel_runs o -> cstring nm -> no_heap (hs o) ->
  0 <= next_pid o < 4294967295 ->
  wp (kthread_create sym_trampoline entry nm) o (fun _ o' =>
    no_heap (hs o') /\ o_v o' = update v_lens (hs o') (o_v o) /\ kernel_runs o' /\
    next_pid o <= next_pid o' <= next_pid o + 1 /\ states o' = states o).
Proof.
  intros (Ht & Hc & Hk) Hnm Hn Hpid. apply (wp_kthread_create sym_trampoline o 0%nat kernel_pcb); [done..| |].
  { intros _ fmt args. split; [by apply (no_heap_mem (hs o))|]. split; [done|]. split; [done|].
    split; [cbn; lia|done]. }
  intros i Hi. destruct (unused_slot_spec _ _ Hi) as (p0 & Hp0 & Hun).
  assert (i <> 0%nat) as Hi0 by (intros ->; rewrite Hk in Hp0; injection Hp0 as <-; done).
  apply wp_total. eapply wp_mono; [apply (kmalloc_aligned_no_heap _ Hn)|]. intros r h (-> & m & Hm & ->) fmt args. cbn [Z.eqb].
  split; [|split; [done|split; [|split]]].
  - apply (no_heap_mem (set_mem m (hs o))); [done|]. by apply no_heap_mem.
  - unfold kernel_runs, table_ok. cbn. by rewrite length_insert, list_lookup_insert_ne.
  - cbn. rewrite u32_small by (unfold is32; lia). lia.
  - unfold states. cbn. rewrite list_fmap_insert. apply list_insert_id.
    rewrite list_lookup_fmap, Hp0. cbn. by rewrite Hun.
Qed.

(** The blocks of the heap after one and after two stacks. *)
Definition blocks_a : list block := [(12288, false); (1036264, true)].
Definition blocks_ab : list block := [(12288, false); (12288, false); (1023964, true)].

Lemma blocks_fit : exists p q,
  alloc_list START init_blocks (round8 (KERNEL_STACK_SIZE + PAGE_SIZE)) = Some (p, blocks_a) /\
  alloc_list START blocks_a (round8 (KERNEL_STACK_SIZE + PAGE_SIZE)) = Some (q, blocks_ab).
Proof. eexists _, _. split; vm_compute; reflexivity. Qed.

(** Both threads wait, on stacks that do not overlap. *)
Definition threads_up (o : osys) : Prop :=
  exists ka kb, heap_inv (hs o) blocks_ab /\
    thread_waits o 1 sym_thread_a (bytes_of "thread_a") ka /\
    thread_waits o 2 sym_thread_b (bytes_of "thread_b") kb /\
    (ka + KERNEL_STACK_SIZE <= kb \/ kb + KERNEL_STACK_SIZE <= ka) /\
    states o = [PROCESS_RUNNING; PROCESS_READY; PROCESS_READY] ++ replicate 61 PROCESS_UNUSED.

(** No thread could be created. *)
Definition threads_none (o : osys) : Prop :=
  no_heap (hs o) /\ states o = PROCESS_RUNNING :: replicate 63 PROCESS_UNUSED.

(** Output of the kernel keeps both. *)
Lemma frame_say fmt args h bs sp c ra : heap_inv h bs ->
  @frame_at (laws (heap_end h)) h sp c ra -> @frame_at (laws (heap_end h)) (say fmt args h) sp c ra.
Proof.
  intros Hi. apply frame_transfer. intros b (_ & Hb). split; [|done].
  split; [apply (say_inv h bs fmt args Hi)|done].
Qed.

Lemma fresh_live bs bs' k j : fresh_stack bs bs' k -> 0 <= j < 6 ->
  live START bs' (k + KERNEL_STACK_SIZE - 24 + 4 * j).
Proof. unfold KERNEL_STACK_SIZE. intros (_ & _ & H) Hj. apply H. unfold KERNEL_STACK_SIZE. lia. Qed.

(** The stack of the second thread is not in what was live before. *)
Lemma stacks_apart bs bs1 bs2 ka kb : fresh_stack bs bs1 ka -> fresh_stack bs1 bs2 kb ->
  ka + KERNEL_STACK_SIZE <= kb \/ kb + KERNEL_STACK_SIZE <= ka.
Proof.
  unfold KERNEL_STACK_SIZE. intros (_ & _ & Ha) (_ & _ & Hb). unfold KERNEL_STACK_SIZE in *.
  destruct (decide (ka + 8192 <= kb)) as [|H1]; [by left|]. right.
  destruct (decide (kb + 8192 <= ka)) as [|H2]; [done|]. exfalso.
  destruct (Ha (Z.max ka kb) ltac:(lia)) as [Hl _]. by destruct (Hb (Z.max ka kb) ltac:(lia)).
Qed.

Definition init_part (o : osys) : Prop :=
  process_table o = kernel_pcb :: replicate 63 zero_pcb /\ next_pid o = 1 /\ current_process o = Some 0%nat.

Lemma created_twice o o1 o2 ka kb : init_part o ->
  created o init_blocks blocks_a 1 sym_thread_a (bytes_of "thread_a") ka o1 ->
  created o1 blocks_a blocks_ab 2 sym_thread_b (bytes_of "thread_b") kb o2 -> threads_up o2.
Proof.
  intros (Ht & Hn & _) (Hi1 & _ & _ & _ & _ & Hs1 & Ht1 & Hn1 & Hf1)
    (Hi2 & Hp2 & He2 & _ & _ & Hs2 & Ht2 & _ & Hf2).
  rewrite Ht, Hn in Ht1. rewrite Hn in Hn1. rewrite Ht1, Hn1 in Ht2. exists ka, kb. split; [done|].
  split; [split; [by rewrite Ht2|]|split; [split; [by rewrite Ht2|done]|split; [by eapply stacks_apart|]]].
  - eapply frame_kept; [exact Hi1|exact Hi2|exact Hp2|lia| |exact Hf1].
    intros j Hj. eapply fresh_live; [exact Hs1|lia].
  - unfold states. by rewrite Ht2.
Qed.

Lemma wp_both {S A} (m : M S A) s (Q R : A -> S -> Prop) E : wp m s Q -> wpe m s R E ->
  wp m s (fun a s' => Q a s' /\ R a s').
Proof. unfold wpe. by destruct (m s). Qed.

(** What [kernel_main] has when the scheduler is on. *)
Definition started (o o' : osys) : Prop :=
  o_v o' = update v_lens (hs o') (o_v o) /\ scheduler_enabled o' = true /\ os_inv o' /\
  (threads_up o' \/ threads_none o').

Lemma init_part_inv o : init_part o -> os_inv o /\ kernel_runs o /\
  states o = PROCESS_RUNNING :: replicate 63 PROCESS_UNUSED.
Proof.
  intros (E1 & E2 & E3). split; [|split].
  - exists 0%nat. rewrite E1, E2. split; [done|]. split; [apply init_table_inv|]. by exists kernel_pcb.
  - unfold kernel_runs, table_ok. by rewrite E1.
  - unfold states. by rewrite E1.
Qed.

Lemma update_v_trans (h h' : hsys) (v : vsys) : update v_lens h' (update v_lens h v) = update v_lens h' v.
Proof. done. Qed.

Lemma say_no_heap fmt args h : no_heap h -> no_heap (say fmt args h).
Proof. by apply no_heap_mem. Qed.

(** [scheduler_init] only turns the scheduler on. *)
Lemma scheduler_init_started o o' : o_v o' = update v_lens (hs o') (o_v o) -> os_inv o' ->
  threads_up o' \/ threads_none o' -> wp scheduler_init o' (fun _ o'' => started o o'').
Proof.
  intros Hv Hinv Ht. unfold scheduler_init. do 2 wp_step. apply wp_o_kprintf. split; [cbn; by rewrite Hv|].
  split; [done|]. split; [done|]. destruct Ht as [(ka & kb & Hi & [Ha Hfa] & [Hb Hfb] & Hd & Hs)|[Hn Hs]].
  - left. exists ka, kb. split; [exact (proj1 (say_inv (hs o') _ _ _ Hi))|].
    split; [split; [done|exact (frame_say _ _ (hs o') _ _ _ _ Hi Hfa)]|].
    split; [split; [done|exact (frame_say _ _ (hs o') _ _ _ _ Hi Hfb)]|]. done.
  - right. split; [exact (say_no_heap _ _ (hs o') Hn)|done].
Qed.

Abbreviation start := (start_threads sym_trampoline sym_thread_a sym_thread_b).

Lemma unused_init : unused_slot (kernel_pcb :: replicate 63 zero_pcb) = Some 1%nat /\
  forall p, state p = PROCESS_READY ->
    unused_slot (<[1%nat := p]> (kernel_pcb :: replicate 63 zero_pcb)) = Some 2%nat.
Proof. split; [done|]. intros p Hp. unfold unused_slot. cbn. by rewrite Hp. Qed.

Lemma start_threads_wp o : table_ok o -> (heap_inv (hs o) init_blocks \/ no_heap (hs o)) ->
  wp start o (fun _ o' => started o o').
Proof.
  intros Ht Hheap. destruct names_ok as [Hna Hnb]. unfold start_threads. wp_step.
  eapply wp_mono; [by apply process_init_wp|]. intros [] o1 [Hp1 (fmt & args & Ev)]. cbv beta.
  assert (init_part o1) as Hin by (by injection Hp1 as ? ? ? ?).
  assert (hs o1 = say fmt args (hs o)) as Eh by exact (f_equal v_h Ev).
  destruct (init_part_inv o1 Hin) as (Hinv1 & Hk1 & Hst1). pose proof Hin as (Et & En & _).
  destruct Hheap as [Hheap|Hheap].
  - assert (heap_inv (hs o1) init_blocks) as Hi1 by (rewrite Eh; by apply say_inv).
    destruct blocks_fit as (p & q & Hpa & Hqb). destruct unused_init as [Hu1 Hu2].
    wp_step. eapply wp_mono; [eapply wp_both; [eapply (create_wp o1 init_blocks blocks_a 1 p); try done;
      by rewrite Et|apply pwp_kthread_create; [done|rewrite En; lia|done]]|].
    intros r o2 [[ka Hc1] [Hinv2 _]]. cbv beta. pose proof Hc1 as (Hi2 & _ & _ & Hv2 & Hk2 & _ & Et2 & En2 & _).
    rewrite Et in Et2. rewrite En in En2.
    wp_step. eapply wp_mono; [eapply wp_both; [eapply (create_wp o2 blocks_a blocks_ab 2 q); try done;
      rewrite Et2; by apply Hu2|apply pwp_kthread_create; [done|rewrite En2; by vm_compute|done]]|].
    intros r' o3 [[kb Hc2] [Hinv3 _]]. cbv beta. pose proof Hc2 as (_ & _ & _ & Hv3 & _).
    apply scheduler_init_started; [by rewrite Hv3, Hv2, Ev, !update_v_trans|done|].
    left. by eapply created_twice.
  - assert (no_heap (hs o1)) as Hn1 by (rewrite Eh; by apply say_no_heap).
    wp_step. eapply wp_mono; [eapply wp_both; [apply create_no_heap_wp; try done; rewrite En; lia
      |apply pwp_kthread_create; [done|rewrite En; lia|done]]|].
    intros r o2 [(Hn2 & Hv2 & Hk2 & En2 & Es2) [Hinv2 _]]. cbv beta. rewrite En in En2.
    wp_step. eapply wp_mono; [eapply wp_both; [apply create_no_heap_wp; try done; lia
      |apply pwp_kthread_create; [done|lia|done]]|].
    intros r' o3 [(Hn3 & Hv3 & Hk3 & _ & Es3) [Hinv3 _]]. cbv beta.
    apply scheduler_init_started; [by rewrite Hv3, Hv2, Ev, !update_v_trans|done|].
    right. split; [done|]. by rewrite Es3, Es2.
Qed.

(** ** The devices *)

(** States of the processes that differ in what the devices saw. *)
Definition quiet (o o' : osys) : Prop := exists m, same_mem (o_machine o) m /\ o' = set_o_machine m o.

Lemma quiet_set o m : same_mem (o_machine o) m -> quiet o (set_o_machine m o).
Proof. by exists m. Qed.

Lemma quiet_trans o o' m : quiet o o' -> same_mem (o_machine o') m -> quiet o (set_o_machine m o').
Proof. intros (m' & Hm & ->) H. exists m. split; [by etrans|done]. Qed.

Lemma quiet_refl o : quiet o o.
Proof. exists (o_machine o). split; [done|]. by destruct o as [[[[[]]]]]. Qed.

(** The descriptor tables with the registers that point to them, and the handlers. *)
Definition tables (k : kernel) :=
  (k_gdt k, k_gp_limit k, k_gp_base k, k_cs k, k_data k, (k_idt k, k_idtp_limit k, k_idtp_base k), k_handlers k).

(** [k] is [k0] but for the screen, the devices and the tables, which are [T]. *)
Record devices (k0 k : kernel) (T : list gdt_entry * Z * Z * Z * Z * (list idt_entry * Z * Z) * list (option handler)) : Prop := {
  dv_quiet : quiet (k_o k0) (k_o k);
  dv_screen : term_wf (view kc_lens k);
  dv_tables : tables k = T;
  dv_line : k_cmd_buffer k = k_cmd_buffer k0 /\ k_cmd_length k = k_cmd_length k0;
}.

(** The screen works on any machine with the same memory, and while paging is up. *)
Lemma screen_mapped_mem h h' : same_mem h h' -> screen_mapped h -> screen_mapped h'.
Proof. intros Hm H. unfold screen_mapped. rewrite <-H. symmetry. by apply translate_proper. Qed.

Lemma term_wf_mem k m : same_mem (o_machine (k_o k)) m -> term_wf (view kc_lens k) ->
  term_wf (view kc_lens (update km_lens m k)).
Proof. intros Hm (? & ? & ? & ? & Hs). repeat (split; [done|]). by eapply screen_mapped_mem. Qed.

Lemma paging_screen g : paging_inv g -> screen_mapped (g_hw g).
Proof. intros Hi. exact (kw_direct _ (pi_map _ Hi) 0xB8000 ltac:(by vm_compute)). Qed.

Lemma type_all_mem str c : same_mem (c_hw c) (c_hw (type_all str c)).
Proof.
  revert c. induction str as [|x str IH]; intros c; [done|]. cbn [type_all foldl].
  etrans; [|apply IH]. done.
Qed.

Lemma k_writestring_wp k0 k T t (Q : unit -> kernel -> Prop) E : devices k0 k T -> cstring (bytes_of t) ->
  (forall k', devices k0 k' T -> Q tt k') -> wpe (k_writestring t) k Q E.
Proof.
  intros [Hq Hs Ht Hl] Hc HQ. apply wp_total. unfold k_writestring. wp_step.
  eapply wp_mono; [by apply terminal_writestring_wp|]. intros [] c [-> Hw]. apply HQ.
  pose proof (type_all_mem (bytes_of t) (view kc_lens k)) as Hm.
  split; [|by rewrite view_update|done|done]. exact (quiet_trans _ _ _ Hq Hm).
Qed.

(** Code that only talks to devices, and what it leaves of them. *)
Lemma k_machine_wp k0 k T (m : M machine unit) (R : machine -> Prop) (Q : unit -> kernel -> Prop) : devices k0 k T ->
  wp m (o_machine (k_o k)) (fun _ h => same_mem (o_machine (k_o k)) h /\ R h) ->
  (forall k', devices k0 k' T -> R (o_machine (k_o k')) -> Q tt k') -> wp (zoom km_lens m) k Q.
Proof.
  intros [Hq Hs Ht Hl] Hm HQ. wp_step. eapply wp_mono; [exact Hm|]. intros [] h [Hh HR]. apply HQ; [|exact HR].
  split; [exact (quiet_trans _ _ _ Hq Hh)| |done|done]. by eapply term_wf_mem.
Qed.

(** The calls of [kprintf] and [serial_printf] have formats for numbers. *)
Lemma k_kprintf_wp k0 k T fmt vs (Q : unit -> kernel -> Prop) : devices k0 k T -> cstring (bytes_of fmt) ->
  unsigned_format (bytes_of fmt) (length vs) = true ->
  (forall k', devices k0 k' T -> Q tt k') -> wp (k_kprintf fmt (KInt <$> vs)) k Q.
Proof.
  intros [Hq Hs Ht Hl] Hc Hf HQ. unfold k_kprintf. wp_step.
  destruct (unsigned_renders kprintf_conv_text _ vs ltac:(done) ltac:(done) Hf) as [out Ho].
  eapply wp_mono; [by apply (kprintf_screen_wp _ _ out)|]. intros [] c [-> Hw]. apply HQ.
  pose proof (type_all_mem out (view kc_lens k)) as Hm.
  split; [|by rewrite view_update|done|done]. exact (quiet_trans _ _ _ Hq Hm).
Qed.

Lemma k_serial_printf_wp k0 k T fmt vs (Q : unit -> kernel -> Prop) : devices k0 k T ->
  responsive (o_machine (k_o k)) -> cstring (bytes_of fmt) ->
  unsigned_format (bytes_of fmt) (length vs) = true ->
  (forall k', devices k0 k' T -> responsive (o_machine (k_o k')) -> Q tt k') ->
  wp (k_serial_printf fmt (KInt <$> vs)) k Q.
Proof.
  intros D Hr Hc Hf HQ. destruct (unsigned_renders serial_text _ vs ltac:(done) ltac:(done) Hf) as [out Ho].
  eapply k_machine_wp; [exact D| |exact HQ].
  eapply wp_mono; [by apply (serial_printf_wp _ _ out)|]. intros [] h [Hr' (_ & _ & Hm & Hc3)].
  split; [by split|done].
Qed.

Lemma serial_init_mem h : wp serial_init h (fun _ h' => same_mem h h' /\ device h' = device h).
Proof. unfold serial_init. repeat (wp_step; apply wp_outb). apply wp_outb. done. Qed.

(** Code on the descriptor tables. *)
Lemma k_gdt_wp k0 k gd gl gb cs dt i hd (m : M dsys unit) h' gd' gl' gb' cs' dt' (Q : unit -> kernel -> Prop) :
  devices k0 k (gd, gl, gb, cs, dt, i, hd) ->
  m (Dsys (o_machine (k_o k)) gd gl gb cs dt) = Ok tt (Dsys h' gd' gl' gb' cs' dt') ->
  same_mem (o_machine (k_o k)) h' ->
  (forall k', devices k0 k' (gd', gl', gb', cs', dt', i, hd) -> Q tt k') -> wp (zoom kd_lens m) k Q.
Proof.
  intros [Hq Hs [= <- <- <- <- <- Hi Hh] Hl] Hm Hh' HQ. wp_step. eapply wp_eq; [exact Hm|]. apply HQ.
  split; [exact (quiet_trans _ _ _ Hq Hh')|exact (term_wf_mem k h' Hh' Hs)| |done]. unfold tables in *. cbn. congruence.
Qed.

Lemma k_idt_wp k0 k g il it lm ba hd (m : M isys unit) h' it' lm' ba' hd' (Q : unit -> kernel -> Prop) :
  devices k0 k (g, (it, lm, ba), hd) -> il = Isys (o_machine (k_o k)) it lm ba hd ->
  m il = Ok tt (Isys h' it' lm' ba' hd') ->
  same_mem (o_machine (k_o k)) h' ->
  (forall k', devices k0 k' (g, (it', lm', ba'), hd') -> Q tt k') -> wp (zoom ki_lens m) k Q.
Proof.
  intros [Hq Hs [= Hg <- <- <- <-] Hl] -> Hm Hh' HQ. wp_step. eapply wp_eq; [exact Hm|]. apply HQ.
  split; [exact (quiet_trans _ _ _ Hq Hh')|exact (term_wf_mem k h' Hh' Hs)| |done]. unfold tables in *. cbn. congruence.
Qed.

Context (sym_gdt sym_idt : Z) (isr irq : Z -> Z).
Hypothesis isr32 : forall n, is32 (isr n).
Hypothesis irq32 : forall n, is32 (irq n).

Abbreviation boot_devices := (start_devices sym_gdt sym_idt isr irq).
Abbreviation boot_memory := (start_memory sym_trampoline sym_thread_a sym_thread_b).

(** The tables the kernel installs: flat segments, the 48 gates, the handlers. *)
Definition boot_gdt : list gdt_entry :=
  [make_entry 0 0 0 0; make_entry 0 0xFFFFFFFF 0x9A 0xCF; make_entry 0 0xFFFFFFFF 0x92 0xCF].
Definition boot_idt (t : list idt_entry) : list idt_entry :=
  foldl (fun t g => <[Z.to_nat g.1 := made_entry g.2]> t) t (gates isr irq).
Definition device_handlers (hd : list (option handler)) : list (option handler) :=
  <[32%nat := Some TimerHandler]> (<[33%nat := Some KeyboardHandler]> hd).

(** C's static storage when [kernel_main] is entered, on the machine the boot code leaves. *)
Record at_entry (mbi : Z) (es : list mmap_entry) (k : kernel) : Prop := {
  ae_booted : booted mbi es (h_g (hs (k_o k)));
  ae_heap : total_allocated (hs (k_o k)) = 0 /\ first_block (hs (k_o k)) = 0;
  ae_regions : length (region_pool (o_v (k_o k))) = 256%nat /\ region_pool_used (o_v (k_o k)) = 0;
  ae_table : table_ok (k_o k);
  ae_cells : length (k_cells k) = 2000%nat;
  ae_serial : responsive (o_machine (k_o k));
  ae_gdt : length (k_gdt k) = 3%nat;
  ae_idt : length (k_idt k) = 256%nat;
  ae_handlers : length (k_handlers k) = 256%nat;
}.

Lemma set_o_same k : update ko_lens (view ko_lens k) k = k.
Proof. by destruct k. Qed.

Ltac literal := apply literal_cstring; [vm_compute; reflexivity|vm_compute; reflexivity].
Ltac types := wp_step; eapply k_writestring_wp; [eassumption|literal|];
  let k := fresh "k" in let H := fresh "H" in intros k H.

Lemma start_devices_wp k mbi es : at_entry mbi es k ->
  wp boot_devices k (fun _ k' => devices k k'
    (boot_gdt, 23, sym_gdt, 0x08, 0x10, (boot_idt (k_idt k), 2047, sym_idt), device_handlers (k_handlers k))).
Proof.
  intros [Hb _ _ _ Hc Hse Hg Hi Hh].
  assert (screen_mapped (o_machine (k_o k))) as Hm.
  { destruct (bt_map _ _ _ Hb) as [cr Hbo]. exact (bo_window _ _ Hbo 0xB8000 ltac:(by vm_compute)). }
  unfold start_devices. wp_step. wp_step.
  eapply wp_mono; [by apply terminal_initialize_wp|]. intros [] c ->.
  match goal with |- wpe _ ?x _ _ => assert (devices k x (tables k)) as D0; [|assert (responsive (o_machine (k_o x))) as R0 by exact Hse] end.
  { split; [apply quiet_set; done|by apply (cleared_wf (view kc_lens k))|done|done]. }
  unfold tables in D0. generalize dependent D0. generalize dependent R0. generalize (update kc_lens (Csys (c_hw (view kc_lens k)) 0 0 7
    0xC00B8000 (replicate 2000 (blank_entry 7))) k). intros k1 R0 D0.
  wp_step. eapply (k_machine_wp _ _ _ _ responsive); [exact D0| |].
  { eapply wp_mono; [apply serial_init_mem|]. intros [] h [Hh' Hd]. split; [done|].
    unfold responsive. by rewrite Hd. }
  intros k2 D2 R2.
  wp_step. apply (k_serial_printf_wp _ _ _ _ [] _ D2 R2); [literal|done|]. intros k3 D3 R3.
  do 2 wp_step. unfold timer_get_ticks. wp_step. rewrite set_o_same.
  wp_step. apply (k_serial_printf_wp _ _ _ _ [_] _ D3 R3); [literal|done|]. intros k4 D4 _.
  types. wp_step. destruct (k_gdt k) as [|a [|b [|c [|]]]] eqn:Eg; try done.
  eapply k_gdt_wp; [eassumption|by apply (gdt_init_run sym_gdt _ a b c)|done|]. intros kg D5.
  do 2 types. wp_step.
  eapply k_idt_wp; [eassumption|reflexivity|by apply idt_init_run|done|]. intros ki D6.
  do 2 types. wp_step.
  eapply k_idt_wp; [eassumption|reflexivity|by apply register_run|done|]. intros kk D7.
  do 2 types. wp_step. change (Z.to_nat KEYBOARD_IRQ) with 33%nat in *.
  eapply k_idt_wp; [eassumption|reflexivity|apply timer_init_run; [lia|cbn [handlers]; by rewrite length_insert]|done|].
  intros kt D8. apply (k_kprintf_wp _ _ _ _ [] _ D8); [literal|done|done].
Qed.

(** ** Memory and threads *)

Lemma boot_info_same h h' mbi es : same_mem h h' -> boot_info h mbi es -> boot_info h' mbi es.
Proof.
  intros E (fl & a & n & Ha & H1 & H2 & H3 & H4 & H5).
  pose proof (fun x => vread_proper h h' E x x eq_refl) as R.
  exists fl, a, n. rewrite <-!R. split_and!; try done. by eapply mmap_at_same.
Qed.

Lemma booted_quiet mbi es o o' : quiet o o' -> booted mbi es (h_g (hs o)) -> booted mbi es (h_g (hs o')).
Proof.
  intros (m & Hm & ->) [Hp [c Hc] Hi He Hd]. split; [done| | |done|done].
  - exists c. by eapply boot_ok_same.
  - by eapply boot_info_same.
Qed.

Definition heap_up (h : hsys) : Prop := heap_inv h init_blocks \/ no_heap h.

Lemma heap_up_mem h m : same_mem (mem h) m -> heap_up h -> heap_up (set_mem m h).
Proof.
  intros Hm [H|H]; [left; exact (proj1 (heap_inv_mem _ _ _ H Hm))|right; by apply no_heap_mem].
Qed.

Lemma init_heap_up g h h' : first_block h = 0 -> init_post (update h_lens g h) h' -> heap_up h'.
Proof. intros Hf [(Hi & _)|(He & Hf' & Hx & Hp)]; [by left|right]. by split; [rewrite Hf'|..]. Qed.

(** The kernel with its regions, its processes and its threads. *)
Definition kernel_up (o : osys) : Prop :=
  (exists ids, holds (o_v o) KernelSpace ids kernel_regions) /\ scheduler_enabled o = true /\
  os_inv o /\ (threads_up o \/ threads_none o).

Lemma waits_quiet o m i entry nm ka bs : same_mem (o_machine o) m -> heap_inv (hs o) bs ->
  thread_waits o i entry nm ka -> thread_waits (set_o_machine m o) i entry nm ka.
Proof.
  intros Hm Hi [Ht Hf]. split; [done|]. revert Hf.
  change (heap_end (hs (set_o_machine m o))) with (heap_end (hs o)). apply frame_transfer.
  intros b (_ & Hb). destruct (heap_inv_mem (hs o) bs m Hi Hm) as [Hi' _].
  split; [split; [apply Hi'|done]|]. exact (f_equal (default 0) (eq_sym (vread_proper _ _ Hm b b eq_refl))).
Qed.

Lemma kernel_up_quiet o o' : quiet o o' -> kernel_up o -> kernel_up o'.
Proof.
  intros (m & Hm & ->) ([ids H] & Hs & Hinv & Ht). split; [exists ids; by apply holds_heap|]. split; [done|]. split; [done|].
  destruct Ht as [(ka & kb & Hi & Ha & Hb & Hd & Hst)|[Hn Hst]].
  - left. exists ka, kb. split; [exact (proj1 (heap_inv_mem _ _ _ Hi Hm))|].
    split; [by eapply waits_quiet|]. split; [by eapply waits_quiet|]. done.
  - right. split; [by apply (no_heap_mem (hs o))|done].
Qed.

Lemma devices_base k0 k T o : devices k0 k T -> screen_mapped (o_machine o) ->
  devices (set_o o k) (set_o o k) T.
Proof.
  intros [_ (? & ? & ? & ? & _) Ht _] Hm. split; [apply quiet_refl| |exact Ht|done].
  by repeat (split; [done|]).
Qed.

Lemma heap_up_screen h : heap_up h -> screen_mapped (mem h).
Proof. intros [H|H]; apply paging_screen; [apply (hi_map _ _ H)|apply H]. Qed.

Lemma kernel_up_screen o : kernel_up o -> screen_mapped (o_machine o).
Proof.
  intros (_ & _ & _ & [(ka & kb & H & _)|[H _]]); apply paging_screen; [apply (hi_map _ _ H)|apply H].
Qed.

(** [vmm_init] on the kernel. *)
Lemma boot_regions_wp o : heap_up (hs o) -> length (region_pool (o_v o)) = 256%nat ->
  region_pool_used (o_v o) = 0 -> table_ok o ->
  wp (zoom o_lens vmm_init) o (fun _ o' => heap_up (hs o') /\ table_ok o' /\
    exists ids, holds (o_v o') KernelSpace ids kernel_regions).
Proof.
  intros Hh Hl Hu Ht. wp_step. eapply wp_mono; [by apply vmm_init_wp|].
  intros [] v [[[ids H] _ [es Hp] _ _ _] _]. split; [|split; [done|by exists ids]].
  change (heap_up (v_h v)). rewrite Hp. by apply (heap_up_mem (hs o)).
Qed.

(** [start_threads] on a quiet state. *)
Lemma boot_threads_wp o o' : quiet o o' -> heap_up (hs o) -> table_ok o ->
  (exists ids, holds (o_v o) KernelSpace ids kernel_regions) -> wp start o' (fun _ o'' => kernel_up o'').
Proof.
  intros (m & Hm & ->) Hh Ht [ids H]. eapply wp_mono.
  { apply start_threads_wp; [done|]. by apply (heap_up_mem (hs o)). }
  intros [] o'' (Hv & Hs & Hi & Hth). split; [|done]. exists ids. rewrite Hv. by do 2 apply holds_heap.
Qed.

(** Reading a counter changes nothing. *)
Lemma k_heap_get {A} (f : hsys -> A) k (Q : A -> kernel -> Prop) :
  Q (f (hs (k_o k))) k -> wp (zoom ko_lens (o_heap (get f))) k Q.
Proof. intros H. unfold o_heap. do 4 wp_step. by destruct k as [[[]]]. Qed.

Lemma k_pmm_get {A} (f : psys -> A) k (Q : A -> kernel -> Prop) :
  Q (f (g_p (h_g (hs (k_o k))))) k ->
  wp (zoom ko_lens (zoom o_lens (v_paging (zoom g_lens (get f))))) k Q.
Proof. intros H. unfold v_paging. do 6 wp_step. by destruct k as [[[[[]]]]]. Qed.

Lemma start_memory_wp mbi es k0 k g i hd : at_entry mbi es k0 -> length hd = 256%nat ->
  devices k0 k (g, i, hd) ->
  wp (boot_memory mbi) k (fun _ k' => exists k1, devices k1 k' (g, i, <[14%nat := Some PageFaultHandler]> hd) /\
    k_cmd_length k1 = k_cmd_length k0 /\ kernel_up (k_o k1)).
Proof.
  intros [Hb [Ha Hf] [Hrl Hru] Ht _ _ _ _ _] Hhd D. pose proof (dv_quiet _ _ _ D) as Hq.
  pose proof (booted_quiet _ _ _ _ Hq Hb) as Hb'. destruct Hq as (m & Hm & Eo).
  unfold start_memory. wp_step. wp_step. apply wp_o_heap. apply wp_total. cbn [view ko_lens].
  eapply wp_mono; [apply heap_boot_wp; [exact Hb'|by rewrite Eo]|]. intros [] h (g1 & _ & Hp). cbv beta.
  assert (heap_up h) as Hh by (eapply init_heap_up; [|exact Hp]; by rewrite Eo).
  set (k1 := update ko_lens _ k). wp_step. wp_step. 
  eapply wp_mono; [apply boot_regions_wp; [exact Hh| | |]; cbn; rewrite ?Eo; done|].
  intros [] o2 (Hh2 & Ht2 & Hr2). cbv beta. pose proof (devices_base _ _ _ o2 D (heap_up_screen _ Hh2)) as D2.
  change (update ko_lens o2 k1) with (set_o o2 k). 
  destruct i as [[it lm] ba]. wp_step.
  eapply k_idt_wp; [exact D2|reflexivity|by apply register_run|done|]. intros k3 D3.
  wp_step. wp_step. eapply wp_mono; [by eapply boot_threads_wp; [apply (dv_quiet _ _ _ D3)|..]|].
  intros [] o4 Hup. cbv beta. pose proof (devices_base _ _ _ o4 D3 (kernel_up_screen _ Hup)) as D4.
  change (update ko_lens o4 k3) with (set_o o4 k3).
  assert (kernel_up (k_o (set_o o4 k3))) as Hup4 by exact Hup.
  assert (k_cmd_length (set_o o4 k3) = k_cmd_length k0) as El.
  { transitivity (k_cmd_length k); [apply (dv_line _ _ _ D3)|apply (dv_line _ _ _ D)]. }
  generalize dependent (set_o o4 k3). intros k4 D4 Hup4 El.
  wp_step. apply k_heap_get. wp_step. apply k_heap_get. wp_step.
  apply (k_kprintf_wp _ _ _ _ [_; _] _ D4); [literal|done|]. intros k5 D5. wp_step. apply k_pmm_get.
  apply (k_kprintf_wp _ _ _ _ [_] _ D5); [literal|done|]. intros k6 D6. by exists k4.
Qed.

Lemma k_screen_wp k0 k T c : devices k0 k T -> same_mem (o_machine (k_o k)) (c_hw c) -> term_wf c ->
  devices k0 (update ks_lens (with_screen c (view ks_lens k)) k) T.
Proof.
  intros [Hq Hs Ht Hl] Hm Hw. split; [|by destruct c|exact Ht|exact Hl].
  pose proof (quiet_trans _ _ _ Hq Hm) as Hq'. by destruct k as [[]].
Qed.

Lemma shell_init_wp k0 k T : devices k0 k T -> wp (zoom ks_lens shell_init) k (fun _ k' => devices k0 k' T).
Proof.
  intros D. pose proof (dv_screen _ _ _ D) as Hs. wp_step. unfold shell_init, shell_prompt.
  wp_step. apply writes_string_wp; [exact Hs|literal|]. intros Hw1.
  wp_step. apply writes_string_wp; [exact Hw1|literal|]. intros Hw2.
  apply writes_string_wp; [exact Hw2|literal|]. intros Hw3.
  apply (k_screen_wp k0 k T _ D); [|exact Hw3].
  etrans; [|apply type_all_mem]. etrans; [|apply type_all_mem]. etrans; [|apply type_all_mem].
  change (same_mem (o_machine (k_o k)) (o_machine (k_o k))). reflexivity.
Qed.

(** ** [kernel_main] *)

Abbreviation main := (kernel_main sym_gdt sym_idt isr irq sym_trampoline sym_thread_a sym_thread_b).

Lemma ending_wp k0 k T (P : kernel -> Prop) : devices k0 k T -> (forall k', devices k0 k' T -> P k') ->
  wpe (k_kprintf ("Welcome to TupleOS!" +:+ nl) [] ;;; zoom ks_lens shell_init ;;; stop_with Halted) k
    (fun (_ : unit) _ => False) (fun e k' => e = Halted /\ P k').
Proof.
  intros D HP. wp_step. apply wp_total. apply (k_kprintf_wp _ _ _ _ [] _ D); [literal|done|]. intros k1 D1.
  wp_step. apply wp_total. eapply wp_mono; [by eapply shell_init_wp|]. intros [] k2 D2. wp_step.
  split; [done|]. by apply HP.
Qed.

(** The tables at the end, with the handlers [hd]. *)
Definition boot_tables (k : kernel) (hd : list (option handler)) :=
  (boot_gdt, 23, sym_gdt, 0x08, 0x10, (boot_idt (k_idt k), 2047, sym_idt), hd).

Definition halted_state (magic : Z) (k k' : kernel) : Prop :=
  term_wf (view kc_lens k') /\ k_cmd_length k' = k_cmd_length k /\
  if magic =? MULTIBOOT_MAGIC
  then tables k' = boot_tables k (<[14%nat := Some PageFaultHandler]> (device_handlers (k_handlers k))) /\
       kernel_up (k_o k')
  else tables k' = boot_tables k (device_handlers (k_handlers k)) /\ quiet (k_o k) (k_o k').

Lemma kernel_main_wp mbi es magic k : at_entry mbi es k ->
  wpe (main magic mbi) k (fun _ _ => False) (fun e k' => e = Halted /\ halted_state magic k k').
Proof.
  intros He. unfold kernel_main. wp_step. apply wp_total.
  eapply wp_mono; [by eapply start_devices_wp|]. intros [] k1 D1. cbv beta. wp_step.
  unfold halted_state. destruct (magic =? MULTIBOOT_MAGIC); cbn [negb].
  - apply wp_total. wp_step. apply (k_kprintf_wp _ _ _ _ [_] _ D1); [literal|done|]. intros k2 D2.
    eapply wp_mono; [eapply start_memory_wp; [exact He| |exact D2]|].
    { unfold device_handlers. rewrite !length_insert. apply He. }
    intros [] k3 (kb & D3 & El & Hup). eapply ending_wp; [exact D3|]. intros k4 D4.
    split; [apply D4|]. split; [rewrite <-El; apply (dv_line _ _ _ D4)|]. split; [apply D4|].
    eapply kernel_up_quiet; [apply (dv_quiet _ _ _ D4)|exact Hup].
  - apply wp_total. apply (k_kprintf_wp _ _ _ _ [_] _ D1); [literal|done|]. intros k2 D2.
    eapply ending_wp; [exact D2|]. intros k3 D3.
    split; [apply D3|]. split; [apply (dv_line _ _ _ D3)|]. split; [apply D3|apply (dv_quiet _ _ _ D3)].
Qed.

(** C15: entered by the boot code with zero statics, [kernel_main] reaches its final [hlt]
    loop: no call faults, leaves an array or runs for ever.  Assumed are a serial port that
    gets ready now and then, on which the polling loop of [serial_printf] depends, and a
    memory map whose available entries end within the frame bitmap and share no frame
    ([entry_ok], [map_disjoint]).  Then the kernel's segments and the 48 gates
    are loaded and the screen works.  With the right magic number the handlers of the page
    fault, the timer and the keyboard are registered, the kernel's regions are recorded in
    order, the process table is consistent with the scheduler on, and either both threads
    are ready on stacks of their own that start them at their entry, or the machine had too
    few frames for the heap and there is no thread.  With another number memory is not
    touched. *)
Theorem kernel_main_boots mbi es magic k : at_entry mbi es k ->
  exists k', main magic mbi k = Stop Halted k' /\ halted_state magic k k'.
Proof.
  intros He. pose proof (kernel_main_wp mbi es magic k He) as W. unfold wpe in W.
  destruct (main magic mbi k) as [a k'|e k']; [done|]. destruct W as [-> H]. by exists k'.
Qed.
End KernelSpec.

(** ** Witness *)

#[local] Existing Instance demo_layout.

Definition demo_vmm0 : vsys :=
  Vsys demo_heap_boot (replicate 256 (Region 0 0 0 REGION_FREE None)) 0 (Space 0 None 0) ∅ None false.
Definition demo_entry_os : osys :=
  Osys demo_vmm0 (replicate 64 zero_pcb) 0 None false 0 (Cpu 0 0 0 0 0xC0380000 0).
Definition zero_gate : idt_entry := IdtEntry 0 0 0 0 0.
Definition zero_segment : gdt_entry := GdtEntry 0 0 0 0 0 0.

(** An 8 MB machine when [kernel_main] is entered. *)
Definition demo_kernel : kernel :=
  Kernel demo_entry_os 0 0 0 0 (replicate 2000 0) (replicate 256 0) 0
    (replicate 3 zero_segment) 0 0 0 0 (replicate 256 zero_gate) 0 0 (replicate 256 None).

Lemma demo_at_entry : at_entry 0x9000 (demo_map 0x700000) demo_kernel.
Proof.
  split; [exact demo_booted|by split|by split|done|done| |done..]. intros n. by exists 0%nat.
Qed.

Lemma demo_symbol32 (x : Z) : 0xC0100000 <= x < 0xC0400000 -> is32 x.
Proof. unfold is32. lia. Qed.

Lemma kernel_main_boots_witness : exists k',
  kernel_main 0xC0104000 0xC0105000 (fun _ => 0xC0106000) (fun _ => 0xC0107000)
    0xC0102000 0xC0103000 0xC0103100 MULTIBOOT_MAGIC 0x9000 demo_kernel = Stop Halted k' /\
  halted_state 0xC0102000 0xC0103000 0xC0103100 0xC0104000 0xC0105000 (fun _ => 0xC0106000)
    (fun _ => 0xC0107000) MULTIBOOT_MAGIC demo_kernel k'.
Proof.
  apply (kernel_main_boots 0xC0102000 0xC0103000 0xC0103100
    (demo_symbol32 0xC0102000 ltac:(lia)) (demo_symbol32 0xC0103000 ltac:(lia)) (demo_symbol32 0xC0103100 ltac:(lia))
    0xC0104000 0xC0105000 (fun _ => 0xC0106000) (fun _ => 0xC0107000)
    (fun _ => demo_symbol32 0xC0106000 ltac:(lia)) (fun _ => demo_symbol32 0xC0107000 ltac:(lia))
    0x9000 (demo_map 0x700000) MULTIBOOT_MAGIC demo_kernel demo_at_entry).
Defined.
