(* ===== verification/FaultSpec.v ===== *)
(** * Page faults and the interrupt controllers

    What [page_fault_handler] ([kernel/vmm.c]) reports, from the interrupt to the halt, and
    that no interrupt line stays in service: the acknowledgements of [interrupt_handler]
    ([kernel/idt.c]) and [timer_handler] ([kernel/timer.c]) against the in-service registers
    of the two 8259. *)

From stdpp Require Import base gmap list numbers option strings.
From Stdlib Require Import ZArith Lia.
From S2P Require Import Prelude Machine PageTables Pmm Paging Boot PmmSpec PagingSpec HeapList Kheap HeapInv HeapSpec.
From S2P Require Import Vmm VmmInv VmmSpec RegionPages RegionSpec Idt Timer InterruptSpec Trap TrapSpec Process Scheduler SchedInv Kernel.

(** ** The report of a page fault *)

(** The lines about the region of the address. *)
Definition diagnosis (err : Z) (r : option region) : list event :=
  match r with
  | None => [Kprintf (" -> Address not in any mapped region (segfault)" +:+ nl) []]
  | Some x =>
      if Z.testbit err 0 then
        [Kprintf (" -> Protection violation in region type-%u" +:+ nl) [KInt (type_code (r_type x))]] ++
        (if Z.testbit err 1 && negb (has_bits (r_flags x) VMM_WRITE)
         then [Kprintf (" -> Write to read-only region" +:+ nl) []] else []) ++
        (if Z.testbit err 2 && negb (has_bits (r_flags x) VMM_USER)
         then [Kprintf (" -> User access to kernel region" +:+ nl) []] else [])
      else
        [Kprintf (" -> Address is in region: type=%u, base=0x%x, size=0x%x" +:+ nl)
           [KInt (type_code (r_type x)); KInt (r_base x); KInt (r_size x)];
         Kprintf (" -> This region exists but page isn't present" +:+ nl) [];
         Kprintf (" -> (demand paging not implemented yet, halting)" +:+ nl) []]
  end.

(** Everything the handler does, in order. *)
Definition fault_report (cr2 err eip : Z) (r : option region) : list event :=
  [Kprintf (nl +:+ "!!!!!!! PAGE FAULT !!!!!!!!!!") [];
   Kprintf ("Address: 0x%x" +:+ nl) [KInt cr2];
   Kprintf ("Error: %s %s in %s mode" +:+ nl)
     [KStr (if Z.testbit err 0 then "protection violation" else "page not present");
      KStr (if Z.testbit err 1 then "(write)" else "(read)");
      KStr (if Z.testbit err 2 then "user" else "kernel")];
   Kprintf ("At EIP: 0x%x" +:+ nl) [KInt eip];
   SerialPrintf ("PAGE FAULT: addr=0x%x err=0x%x eip=0x%x" +:+ nl) [KInt cr2; KInt err; KInt eip]] ++
  diagnosis err r ++
  [Kprintf ("System halted." +:+ nl) []; Cli].

Lemma v_out_out es es' s : v_out es' (v_out es s) = v_out (es' ++ es) s.
Proof. unfold v_out. cbn. by rewrite emitted_app. Qed.

Lemma wp_print fmt args es s (Q : unit -> vsys -> Prop) E :
  Q tt (v_out (Kprintf fmt args :: es) s) -> wpe (v_kprintf fmt args) (v_out es s) Q E.
Proof. intros H. change (Kprintf fmt args :: es) with ([Kprintf fmt args] ++ es) in H. by rewrite <-v_out_out in H. Qed.

Lemma wp_serial fmt args es s (Q : unit -> vsys -> Prop) E :
  Q tt (v_out (SerialPrintf fmt args :: es) s) -> wpe (v_hw (serial_printf fmt args)) (v_out es s) Q E.
Proof. intros H. change (SerialPrintf fmt args :: es) with ([SerialPrintf fmt args] ++ es) in H. by rewrite <-v_out_out in H. Qed.

Lemma wp_out_cli es s (Q : unit -> vsys -> Prop) E :
  Q tt (v_out (Cli :: es) s) -> wpe (v_hw (emit Cli)) (v_out es s) Q E.
Proof. intros H. change (Cli :: es) with ([Cli] ++ es) in H. by rewrite <-v_out_out in H. Qed.

Lemma bit_test err (i m : Z) : m = 2 ^ i -> 0 <= i -> negb (Z.land err m =? 0) = Z.testbit err i.
Proof.
  intros -> Hi. pose proof (has_bits_shiftl1 err i Hi) as H. rewrite Z.shiftl_1_l in H. unfold has_bits in H. exact H.
Qed.

Section Fault.
Context {L : Layout}.

Lemma page_fault_run s p ids l cr2 err eip : current_space s = Some p -> holds s p ids l ->
  page_fault_handler cr2 err eip s =
  Stop Halted (v_out (rev (fault_report cr2 err eip (List.find (contains cr2) l))) s).
Proof.
  intros Hcur Hh.
  enough (wpe (page_fault_handler cr2 err eip) s (fun _ _ => False) (fun e s' => e = Halted /\
            s' = v_out (rev (fault_report cr2 err eip (List.find (contains cr2) l))) s)) as W.
  { unfold wpe in W. destruct (page_fault_handler cr2 err eip s); [done|]. by destruct W as [-> ->]. }
  unfold page_fault_handler. cbv zeta.
  rewrite !(bit_test err 0 1), !(bit_test err 1 2), !(bit_test err 2 4) by done.
  assert ((Z.land err 1 =? 0) = negb (Z.testbit err 0)) as E0 by (rewrite <-(bit_test err 0 1) by done; by rewrite negb_involutive).
  replace s with (v_out [] s) at 1 by (unfold v_out; rewrite emitted_nil; by destruct s as [[[[]]]]).
  do 4 (wp_step; apply wp_print). wp_step. apply wp_serial. wp_step. wp_step. change (current_space (v_out _ s)) with (current_space s).
  rewrite Hcur. set (es := [_; _; _; _; _]). wp_step.
  apply (wp_mono _ _ _ (fun _ s' => s' = v_out (rev (diagnosis err (List.find (contains cr2) l)) ++ es) s)).
  - wp_step. apply wp_total. eapply wp_mono; [apply (vmm_find_region_wp (v_out es s) p ids l), holds_heap, Hh|].
    intros q ? [-> Eq]. change (region_pool (v_out es s)) with (region_pool s) in Eq.
    pose proof (find_id_data (region_pool s) (contains cr2) ids) as Ef. rewrite <-Eq, (ho_data _ _ _ _ Hh) in Ef.
    destruct q as [i|]; cbn [fmap option_fmap option_map] in Ef; rewrite <-Ef.
    2:{ by apply wp_print. }
    symmetry in Eq. apply find_id_split in Eq as (a & b & -> & _). pose proof Hh as [[sp Hrg] _ _].
    destruct (chain_app _ _ _ _ _ (rg_chain _ _ _ _ Hrg)) as (y & Hy & _).
    wp_step. eapply wp_rd_region; [exact Hy|]. unfold region_of. rewrite Hy. cbn [fmap option_fmap option_map default from_option].
    rewrite E0. cbn [diagnosis id data set_next r_type r_base r_size r_flags].
    destruct (Z.testbit err 0); cbn [negb].
    + wp_step. apply wp_print. wp_step.
      destruct (Z.testbit err 1 && negb (has_bits (r_flags y) VMM_WRITE)); cbn [when app];
        [apply wp_print|wp_step];
        (destruct (Z.testbit err 2 && negb (has_bits (r_flags y) VMM_USER)); cbn [when app];
          [by apply wp_print|by wp_step]).
    + wp_step. apply wp_print. wp_step. apply wp_print. by apply wp_print.
  - intros [] s' ->. wp_step. apply wp_print. wp_step. apply wp_out_cli. apply wp_stop. split; [done|].
    unfold fault_report. rewrite !rev_app_distr. cbn [rev app]. by rewrite <-?app_assoc.
Qed.
End Fault.

(** ** From the fault to the halt *)

Definition set_v (v : vsys) (k : kernel) : kernel := set_o (update o_lens v (k_o k)) k.

Definition kh_lens : lens kernel hsys :=
  Lens (fun k => hs (k_o k)) (fun h k => set_v (update v_lens h (o_v (k_o k))) k).

#[export] Instance kh_lens_laws : LensLaws kh_lens.
Proof. split; by intros; try destruct s as [[[]]]. Qed.

#[export] Instance kernel_mem : WordMem kernel := lift_mem kh_lens.

Section EndToEnd.
Context {L : Layout} {WL : WordMemLaws hsys}.

#[local] Instance kernel_laws : WordMemLaws kernel := lift_laws kh_lens.

(** [page_fault_handler] as it is registered: it reads CR2 and the frame. *)
Definition page_fault_at (cr2 frame : Z) : M kernel unit :=
  error_code <- ldw (frame +u 40) ;;
  eip <- ldw (frame +u 44) ;;
  zoom ko_lens (zoom o_lens (page_fault_handler cr2 error_code eip)).

(** The words of the frame at the call. *)
Lemma call_word ret_isr c n e (m m2 : kernel) (k : nat) v off : room m (t_esp c) 16 -> at_call ret_isr c n e m m2 ->
  frame_words c n e !! k = Some v -> off = 52 - 4 * Z.of_nat k -> ldw (t_esp c - 56 +u off) m2 = Ok v m2.
Proof.
  intros [Hr Hv] [_ Hva Hw _] Hk ->. pose proof (lookup_lt_Some _ _ _ Hk) as Hlt. cbn in Hlt.
  rewrite u32_small by (unfold is32; lia).
  replace (t_esp c - 56 + (52 - 4 * Z.of_nat k)) with (t_esp c - 4 * (Z.of_nat k + 1)) by lia.
  rewrite ldw_ok by (apply Hva, Hv; lia). rewrite (Hw k v); [done|]. by apply lookup_app_l_Some.
Qed.

Lemma page_fault_end clobber ret_isr run g k c p ids l cr2 e :
  k_handlers k !! 14%nat = Some (Some PageFaultHandler) -> run PageFaultHandler = page_fault_at cr2 ->
  current_space (o_v (k_o k)) = Some p -> holds (o_v (k_o k)) p ids l ->
  cpu_ok c -> room k (t_esp c) 16 -> is32 e -> is32 ret_isr ->
  wpe (take_interrupt (handle_frame km_lens k_handlers run) clobber ret_isr g 14 e) (Tsys c k)
    (fun _ _ => False) (fun st s => st = Halted /\ exists h, framed (hs (k_o k)) h /\
      t_mem s = set_v (v_out (rev (fault_report cr2 e (t_eip c) (List.find (contains cr2) l)))
                         (update v_lens h (o_v (k_o k)))) k).
Proof.
  intros Ht Hrun Hcur Hh Hc Hroom He Hra. apply wp_entry; [done|done|lia|done|]. intros m1 H1.
  apply (wp_save_frame _ _ _ c 14 e k _ m1 [Add_esp 4; Pop_eax; Mov_ax_seg DS; Mov_ax_seg ES; Mov_ax_seg FS;
    Mov_ax_seg GS; Popa; Add_esp 8; Iret]); [done|done|done|done|by destruct c|].
  intros a m2 H2. wp_step. wp_step. cbn [view t_lens t_mem]. pose proof (sk_framed _ _ _ _ H2) as (h & Em & Hf).
  unfold handle_frame. wp_step. eapply wp_eq; [exact (call_word _ _ _ _ _ _ 4 _ 36 Hroom H2 eq_refl eq_refl)|].
  unfold call_handler, wpe, bind. change (Z.to_nat 14) with 14%nat.
  assert (k_handlers m2 = k_handlers k) as -> by (by rewrite Em). rewrite Ht, Hrun.
  unfold page_fault_at, bind. rewrite (call_word _ _ _ _ _ _ 3 _ 40 Hroom H2 eq_refl eq_refl).
  rewrite (call_word _ _ _ _ _ _ 2 _ 44 Hroom H2 eq_refl eq_refl).
  unfold zoom. rewrite (page_fault_run _ p ids l).
  - split; [done|]. exists h. split; [exact Hf|]. cbn [update t_lens t_mem]. by rewrite Em.
  - by rewrite Em.
  - rewrite Em. by apply holds_heap.
Qed.

(** C21: a page fault is reported and stops the system.  Taken at any instruction of the
    kernel, through the gate of vector 14, with the error code [e] of the processor and the
    address [cr2]: the report names the address, the kind of access, the address of the
    instruction and the region the address lies in, on the screen and the serial port; then
    interrupts are disabled and the processor halts.  Nothing else of the kernel's state
    changes but words below the interrupted stack pointer. *)
Theorem page_fault_reported clobber ret_isr run g k c p ids l cr2 e :
  k_handlers k !! 14%nat = Some (Some PageFaultHandler) -> run PageFaultHandler = page_fault_at cr2 ->
  current_space (o_v (k_o k)) = Some p -> holds (o_v (k_o k)) p ids l ->
  cpu_ok c -> room k (t_esp c) 16 -> is32 e -> is32 ret_isr ->
  wpe (take_interrupt (handle_frame km_lens k_handlers run) clobber ret_isr g 14 e) (Tsys c k)
    (fun _ _ => False) (fun st s => st = Halted /\ exists h, framed (hs (k_o k)) h /\
      t_mem s = set_v (v_out (rev (fault_report cr2 e (t_eip c) (List.find (contains cr2) l)))
                         (update v_lens h (o_v (k_o k)))) k).
Proof. apply page_fault_end. Qed.
End EndToEnd.

(** ** Acknowledgement

    The in-service registers of the two controllers, lines in the order of their priority.  A
    line is delivered when nothing of the same or a higher priority is in service; the slave
    hangs on line 2 of the master.  The command 0x20, an unspecific end of interrupt, ends
    the line of the highest priority. *)
Record controllers := Controllers { master_isr : list Z; slave_isr : list Z }.

Definition idle : controllers := Controllers [] [].

Definition above (line : Z) (isr : list Z) : bool := match isr with [] => true | x :: _ => line <? x end.

Definition deliverable (line : Z) (c : controllers) : bool :=
  if line <? 8 then above line (master_isr c)
  else above 2 (master_isr c) && above (line - 8) (slave_isr c).

Definition accept (line : Z) (c : controllers) : controllers :=
  if line <? 8 then Controllers (line :: master_isr c) (slave_isr c)
  else Controllers (2 :: master_isr c) (line - 8 :: slave_isr c).

Definition command (e : event) (c : controllers) : controllers :=
  match e with
  | OutB port v =>
      if (port =? 0x20) && (v =? 0x20) then Controllers (tail (master_isr c)) (slave_isr c)
      else if (port =? 0xA0) && (v =? 0x20) then Controllers (master_isr c) (tail (slave_isr c))
      else c
  | _ => c
  end.

(** After the accesses of a trace, newest first. *)
Definition after (t : list event) (c : controllers) : controllers := foldr command c t.

(** Accesses that do not acknowledge anything. *)
Definition quiet (t : list event) : Prop := Forall (fun e => forall c, command e c = c) t.

Lemma after_quiet t c : quiet t -> after t c = c.
Proof. intros H. induction H as [|e t He _ IH]; cbn; [done|]. unfold after in *. by rewrite IH. Qed.

Lemma after_cons e t c : after (e :: t) c = command e (after t c).
Proof. done. Qed.

Lemma after_app t1 t2 c : after (t1 ++ t2) c = after t1 (after t2 c).
Proof. unfold after. apply foldr_app. Qed.

(** What a handler of vector [n] does to the controllers itself: nothing, or, for the timer,
    one acknowledgement between other accesses. *)
Definition handler_events (n : Z) (t : list event) : Prop :=
  quiet t \/ (n = 32 /\ exists t1 t2, t = t1 ++ OutB 0x20 0x20 :: t2 /\ quiet t1 /\ quiet t2).

(** The acknowledgements of [interrupt_handler] end the service of the line. *)
Lemma eoi_idle line t : 0 <= line < 16 -> handler_events (32 + line) t ->
  after (eoi_events (32 + line) ++ t) (accept line idle) = idle.
Proof.
  intros Hl Ht. rewrite after_app.
  assert (eoi_events (32 + line) = OutB 0x20 0x20 :: (if 8 <=? line then [OutB 0xA0 0x20] else [])) as ->.
  { unfold eoi_events. rewrite (proj2 (Z.leb_le 32 (32 + line))), (proj2 (Z.leb_le (32 + line) 47)) by lia. cbn [andb].
    destruct (Z.leb_spec 40 (32 + line)), (Z.leb_spec 8 line); (done || lia). }
  unfold accept. destruct Ht as [Hq|(E & t1 & t2 & -> & H1 & H2)].
  - rewrite (after_quiet t) by done. destruct (Z.ltb_spec line 8), (Z.leb_spec 8 line); (done || lia).
  - rewrite after_app. assert (line = 0) as -> by lia. cbn [Z.ltb Z.compare Z.leb].
    rewrite (after_cons _ t2), (after_quiet t2), (after_quiet t1) by done. done.
Qed.

Lemma timer_handler_run ret_schedule s :
  timer_handler ret_schedule s =
  schedule ret_schedule (set_o_machine (emitted [OutB 0x20 0x20] (o_machine s)) (set_ticks (timer_ticks s +u 1) s)).
Proof. reflexivity. Qed.

(** C22: no interrupt line stays in service.  (1) When [interrupt_handler] returns from a line
    it was called for with idle controllers, they are idle again, also for the lines of the
    slave and for the timer, whose handler has acknowledged before: every line can be
    delivered.  (2) [timer_handler] has released its line before it calls [schedule], so the
    timer runs on whatever thread [schedule] continues with. *)
Theorem irq_lines_released {W : Type} (l : lens W machine) `{!LensLaws l} table run line s h s1 t ret_schedule o :
  0 <= line < 16 -> table s !! Z.to_nat (32 + line) = Some h ->
  match h with Some f => run f s = Ok tt s1 | None => s1 = s end ->
  trace (view l s1) = t ++ trace (view l s) -> handler_events (32 + line) t ->
  (exists s2 t2, interrupt_handler l table run (32 + line) s = Ok tt s2 /\
     trace (view l s2) = t2 ++ trace (view l s) /\ after t2 (accept line idle) = idle /\
     forall line', deliverable line' (after t2 (accept line idle)) = true) /\
  (exists o1, timer_handler ret_schedule o = schedule ret_schedule o1 /\
     trace (o_machine o1) = [OutB 0x20 0x20] ++ trace (o_machine o) /\
     after [OutB 0x20 0x20] (accept 0 idle) = idle /\
     process_table o1 = process_table o /\ current_process o1 = current_process o /\
     timer_ticks o1 = timer_ticks o +u 1).
Proof.
  intros Hl Ht Hrun Htr Hev. split.
  - pose proof (eoi_idle line t Hl Hev) as Hidle.
    eexists _, (eoi_events (32 + line) ++ t). split; [by apply (interrupt_dispatched l table run _ s h s1)|].
    rewrite view_update. cbn [emitted trace]. rewrite Htr, app_assoc. split; [done|]. split; [done|].
    intros line'. rewrite Hidle. unfold deliverable. by destruct (line' <? 8).
  - eexists. split; [apply timer_handler_run|]. done.
Qed.

(** ** Witnesses *)

#[local] Existing Instance demo_layout.

(** Words of the heap can be pushed to. *)
Lemma heap_room h k hi sp : heap_map HEAP_START_ADDR hi (h_g h) -> hs (k_o k) = h -> HEAP_START_ADDR <= sp - 64 ->
  sp <= hi -> sp mod 4 = 0 -> hi <= 4294967295 ->
  room (WL := lift_laws kh_lens (WL := heap_laws HEAP_START_ADDR hi)) k sp 16.
Proof.
  intros Hm <- Hlo Hhi Ha Hmax. unfold HEAP_START_ADDR in *. split; [lia|]. intros j Hj.
  split; [exact Hm|]. split; [cbn in *; lia|]. replace (sp - 4 * (j + 1)) with (sp + - (j + 1) * 4) by lia.
  by rewrite Z.mod_add by lia.
Qed.

(** A kernel with the virtual memory manager's state [v] and the handler of vector 14. *)
Definition kernel_of (v : vsys) : kernel :=
  Kernel (Osys v [] 1 None false 0 (Cpu 0 0 0 0 0 0)) 0 0 0 0 [] [] 0 [] 0 0 0 0 [] 0 0
    (<[14%nat := Some PageFaultHandler]> (replicate 256 None)).

Lemma kernel_of_v v : o_v (k_o (kernel_of v)) = v /\ hs (k_o (kernel_of v)) = v_h v /\
  k_handlers (kernel_of v) !! 14%nat = Some (Some PageFaultHandler).
Proof. done. Qed.

Lemma printed_map es v hi : heap_map HEAP_START_ADDR hi (h_g (v_h v)) ->
  heap_map HEAP_START_ADDR hi (h_g (v_h (v_out es v))).
Proof. intros Hm. apply (gr_map _ _ _ _ (grown_same (v_h v) hi (emitted es (g_hw (h_g (v_h v)))) Hm ltac:(done))). Qed.

Lemma demo_fault_room : room (WL := lift_laws kh_lens (WL := heap_laws HEAP_START_ADDR 0xC0500000))
  (kernel_of demo_vmm1) (t_esp demo_cpu) 16.
Proof.
  destruct (ks_printed _ _ _ demo_kspace) as [es E].
  assert (heap_map HEAP_START_ADDR 0xC0500000 (h_g (v_h demo_vmm1))) as Hm.
  { rewrite E. apply printed_map. rewrite demo_vmm0_heap, <-demo_heap_end. apply (hi_map _ _ demo_heap_inv). }
  apply (heap_room (v_h demo_vmm1)); [exact Hm|exact (proj1 (proj2 (kernel_of_v demo_vmm1)))|by vm_compute..].
Qed.

Lemma page_fault_reported_witness :
  wpe (take_interrupt (handle_frame km_lens k_handlers (fun _ => page_fault_at 0xC0400010)) (fun _ => (0, 0, 0, 0))
         0xC0100900 (kernel_gate 0xC01004E0) 14 2) (Tsys demo_cpu (kernel_of demo_vmm1))
    (fun _ _ => False) (fun st s => st = Halted).
Proof.
  destruct (ks_holds _ _ _ demo_kspace) as [ids Hh]. destruct (kernel_of_v demo_vmm1) as (Ev & _ & Ht).
  eapply wp_weaken.
  - apply (page_fault_reported (WL := heap_laws HEAP_START_ADDR 0xC0500000) (fun _ => (0, 0, 0, 0)) 0xC0100900
      (fun _ => page_fault_at 0xC0400010) (kernel_gate 0xC01004E0) (kernel_of demo_vmm1) demo_cpu
      KernelSpace ids kernel_regions 0xC0400010 2 Ht eq_refl).
    + rewrite Ev. exact (ks_current _ _ _ demo_kspace).
    + rewrite Ev. exact Hh.
    + exact (proj1 demo_cpu_ok).
    + exact demo_fault_room.
    + unfold is32. clear. lia.
    + unfold is32. clear. lia.
  - intros ? ? H. exact H.
  - intros e s [H _]. exact H.
Defined.

Lemma irq_lines_released_witness :
  (exists s2 t2, interrupt_handler i_lens handlers (fun _ => ret tt) (32 + 12) demo_interrupts = Ok tt s2 /\
     trace (view i_lens s2) = t2 ++ trace (view i_lens demo_interrupts) /\ after t2 (accept 12 idle) = idle /\
     forall line', deliverable line' (after t2 (accept 12 idle)) = true) /\
  (exists o1, timer_handler 0 (k_o (kernel_of demo_vmm1)) = schedule 0 o1 /\
     trace (o_machine o1) = [OutB 0x20 0x20] ++ trace (o_machine (k_o (kernel_of demo_vmm1))) /\
     after [OutB 0x20 0x20] (accept 0 idle) = idle /\
     process_table o1 = process_table (k_o (kernel_of demo_vmm1)) /\
     current_process o1 = current_process (k_o (kernel_of demo_vmm1)) /\
     timer_ticks o1 = timer_ticks (k_o (kernel_of demo_vmm1)) +u 1).
Proof.
  apply (irq_lines_released i_lens handlers (fun _ => ret tt) 12 demo_interrupts None demo_interrupts []).
  - lia.
  - reflexivity.
  - reflexivity.
  - reflexivity.
  - left. constructor.
Defined.
