(* ===== verification/Start.v ===== *)
(** * The kernel's first instructions ([boot/boot.asm])

    [_start] runs at physical addresses: it fills the boot page tables, loads CR3 and turns
    paging on; [_higher_half_start] sets up the stack and calls [kernel_main].  Boot.v has the
    memory this leaves as one function; here are the loops and the stores themselves, and the
    proof that they compute it. *)

From stdpp Require Import base gmap list numbers option strings.
From Stdlib Require Import ZArith Lia.
From S2P Require Import Prelude Machine PageTables Pmm Paging PagingInit Boot.
From S2P Require Import Gdt Idt Timer Process Kernel.

(** ** The code *)

(** A store without paging, and the fetch of an instruction through the MMU. *)
Definition pst32 (a v : Z) : M machine unit := modify (fun h => set_ram (st32 (ram h) a v) h).
Definition fetch (a : Z) : M machine unit := vld8 a ;;; ret tt.

Section Start.
Context {L : Layout}.
(** The addresses of the instruction after paging is on, of [_higher_half_start] and of the
    instruction after the call. *)
Context (sym_start sym_higher_half_start ret_start : Z).

(** The stack follows the page table in [.bss]. *)
Definition stack_bottom : Z := sym_boot_page_table + 4096.
Definition stack_top : Z := stack_bottom + 16384.

(** [.fill_table] on (EBX, ECX). *)
Definition fill_table : M machine unit :=
  loop (fun '(ebx, ecx) =>
    pst32 ebx (Z.lor ecx 0x003) ;;;
    let ecx := ecx +u 4096 in
    let ebx := ebx +u 4 in
    if s32 ecx <? 1024 * 4096 then ret (inl (ebx, ecx)) else ret (inr tt)) (boot_pt, 0).

(** [.clear_pd] on ECX. *)
Definition clear_pd : M machine unit :=
  loop (fun ecx =>
    pst32 (boot_pd +u 4 *u ecx) 0x00000002 ;;;
    let ecx := ecx +u 1 in
    if s32 ecx <? 1024 then ret (inl ecx) else ret (inr tt)) 0.

(** [_higher_half_start]: the result are the arguments [kernel_main] finds on the stack. *)
Definition _higher_half_start (esi edi : Z) : M machine (Z * Z) :=
  fetch sym_higher_half_start ;;;
  let esp := stack_top in
  vst32 (esp -u 4) edi ;;;
  vst32 (esp -u 8) esi ;;;
  vst32 (esp -u 12) ret_start ;;;
  magic <- vld32 (esp -u 12 +u 4) ;;
  mbi <- vld32 (esp -u 12 +u 8) ;;
  ret (magic, mbi).

Definition _start (eax ebx : Z) : M machine (Z * Z) :=
  let esi := eax in
  let edi := ebx in
  fill_table ;;;
  clear_pd ;;;
  let eax := Z.lor boot_pt 0x003 in
  pst32 boot_pd eax ;;;
  pst32 (boot_pd + 768 * 4) eax ;;;
  load_cr3 boot_pd ;;;
  fetch sym_start ;;;
  _higher_half_start esi edi.

(** From the jump of the boot loader on: [_start] and the call; a return would end in the
    [hlt] loop. *)
Definition run_kernel (sym_gdt sym_idt : Z) (isr irq : Z -> Z) (sym_trampoline sym_thread_a sym_thread_b : Z)
    (eax ebx : Z) : M kernel unit :=
  args <- zoom km_lens (_start eax ebx) ;;
  kernel_main sym_gdt sym_idt isr irq sym_trampoline sym_thread_a sym_thread_b args.1 args.2 ;;;
  stop_with Halted.
End Start.

(** ** Stores to different places *)

Lemma st8_comm m a v b w : a <> b -> st8 (st8 m a v) b w = st8 (st8 m b w) a v.
Proof. intros H. unfold st8. by apply insert_insert_ne. Qed.

Lemma st8_st32_comm m a v b w : a < b \/ b + 4 <= a -> st8 (st32 m b w) a v = st32 (st8 m a v) b w.
Proof.
  intros H. unfold st32. rewrite (st8_comm _ (b + 3)), (st8_comm _ (b + 2)), (st8_comm _ (b + 1)), (st8_comm _ b) by lia.
  done.
Qed.

Lemma st32_comm m a v b w : a + 4 <= b \/ b + 4 <= a -> st32 (st32 m a v) b w = st32 (st32 m b w) a v.
Proof. intros H. unfold st32 at 2 3. by rewrite <-!st8_st32_comm by lia. Qed.

Lemma fill_words_comm n a f m b w : b + 4 <= a \/ a + 4 * Z.of_nat n <= b ->
  fill_words n a f (st32 m b w) = st32 (fill_words n a f m) b w.
Proof.
  intros H. induction n as [|n IH]; [done|]. cbn [fill_words]. rewrite IH by lia. apply st32_comm. lia.
Qed.

(** The memory after [n] turns of a loop that fills words. *)
Lemma wp_fill_step h n a f (Q : unit -> machine -> Prop) E :
  Q tt (set_ram (fill_words (S n) a f (ram h)) h) ->
  wpe (pst32 (a + 4 * Z.of_nat n) (f (Z.of_nat n))) (set_ram (fill_words n a f (ram h)) h) Q E.
Proof. done. Qed.

Section StartRuns.
Context {L : Layout} {LOk : LayoutOk L}.
Context (sym_start sym_higher_half_start ret_start : Z).

Lemma boot_range : 0x100000 <= boot_pt /\ boot_pt + 4096 <= 0x400000 /\ 0x100000 <= boot_pd /\ boot_pd + 4096 <= 0x400000.
Proof. pose proof lo_bpd_range. pose proof lo_bpt_range. pose proof lo_end. unfold boot_pt, boot_pd. lia. Qed.

Definition table_words (i : Z) : Z := Z.lor (4096 * i) 0x003.

Lemma fill_boot_table_wp h (Q : unit -> machine -> Prop) E :
  Q tt (set_ram (fill_words 1024 boot_pt table_words (ram h)) h) -> wpe fill_table h Q E.
Proof.
  intros HQ. pose proof boot_range as Hr. unfold fill_table.
  apply (wp_loop_var _ (fun n x h' => exists k, (k < 1024)%nat /\ n = 1024 - Z.of_nat k /\
    x = (boot_pt + 4 * Z.of_nat k, 4096 * Z.of_nat k) /\ h' = set_ram (fill_words k boot_pt table_words (ram h)) h)) with 1024;
    [|exists 0%nat; split_and!; [lia|done|by rewrite Z.add_0_r|by destruct h]|lia].
  intros n x h' (k & Hk & -> & -> & ->). wp_step. apply wp_fill_step.
  rewrite !u32_small by (unfold is32; lia). unfold s32. rewrite (proj2 (Z.ltb_lt (_ + 4096) 2147483648)) by lia.
  destruct (_ <? 1024 * 4096) eqn:E1; bools; wp_step.
  - exists (1024 - Z.of_nat (S k)). split; [lia|]. exists (S k). split_and!; [lia|done|apply f_equal2; lia|done].
  - by replace (S k) with 1024%nat by lia.
Qed.

Lemma clear_pd_wp h (Q : unit -> machine -> Prop) E :
  Q tt (set_ram (fill_words 1024 boot_pd (fun _ => 0x00000002) (ram h)) h) -> wpe clear_pd h Q E.
Proof.
  intros HQ. pose proof boot_range as Hr. unfold clear_pd.
  apply (wp_loop_var _ (fun n x h' => exists k, (k < 1024)%nat /\ n = 1024 - Z.of_nat k /\
    x = Z.of_nat k /\ h' = set_ram (fill_words k boot_pd (fun _ => 2) (ram h)) h)) with 1024;
    [|exists 0%nat; split_and!; [lia|done|done|by destruct h]|lia].
  intros n x h' (k & Hk & -> & -> & ->). wp_step. rewrite !u32_small by (rewrite ?u32_small; unfold is32; lia).
  apply (wp_fill_step h k boot_pd (fun _ => 2)).
  unfold s32. rewrite (proj2 (Z.ltb_lt (_ + 1) 2147483648)) by lia.
  destruct (_ <? 1024) eqn:E1; bools; wp_step.
  - exists (1024 - Z.of_nat (S k)). split; [lia|]. exists (S k). split_and!; [lia|done|lia|done].
  - by replace (S k) with 1024%nat by lia.
Qed.

(** What [boot.asm] and [linker.ld] fix about the addresses. *)
Record start_ok : Prop := {
  so_tables : sym_boot_page_table = sym_boot_page_directory + 4096;
  so_stack : stack_top <= sym_kernel_end;
  so_start : 0x100000 <= sym_start < 0x400000;
  so_half : 0xC0100000 <= sym_higher_half_start < sym_kernel_end;
  so_ret : is32 ret_start;
}.
Context (Hok : start_ok).

(** The physical address of the [i]-th word below the top of the stack. *)
Definition stack_word (i : Z) : Z := stack_top - 0xC0000000 - 4 * i.

Lemma boot_ram_comm m i v : 1 <= i <= 3 -> boot_ram (st32 m (stack_word i) v) = st32 (boot_ram m) (stack_word i) v.
Proof.
  intros Hi. pose proof (so_tables Hok). unfold boot_ram, boot_pt, boot_pd, stack_word, stack_top, stack_bottom in *.
  rewrite !fill_words_comm by lia. rewrite (st32_comm _ _ _ (_ - _)) by lia. by rewrite (st32_comm _ _ _ (_ - _ + _)) by lia.
Qed.

Lemma stack_virtual i : 1 <= i <= 3 -> let a := stack_top - 4 * i in
  is32 a /\ a mod 4 = 0 /\ forall m dev, translate (boot_machine m dev) a = Some (stack_word i).
Proof.
  intros Hi. pose proof (so_stack Hok). pose proof lo_end. pose proof lo_bpt_range. pose proof lo_bpt_aligned as Ha.
  unfold stack_word, stack_top, stack_bottom in *. split; [unfold is32; lia|]. split.
  - apply Z.mod_divide in Ha as [x ->]; [|lia]. replace (x * 4096 + 4096 + 16384 - 4 * i) with ((x * 1024 + 5120 - i) * 4) by lia.
    by apply Z.mod_mul.
  - intros m dev. rewrite boot_translate by (unfold is32; lia). unfold boot_map.
    rewrite decide_False, decide_True by lia. f_equal. lia.
Qed.

Lemma wp_stack_push m dev i v (Q : unit -> machine -> Prop) E : 1 <= i <= 3 ->
  Q tt (boot_machine (st32 m (stack_word i) v) dev) -> wpe (vst32 (stack_top -u 4 * i) v) (boot_machine m dev) Q E.
Proof.
  intros Hi HQ. destruct (stack_virtual i Hi) as (H32 & Ha & Ht). rewrite u32_small by done.
  eapply wp_eq; [by apply vst32_aligned|]. unfold boot_machine in *. by rewrite boot_ram_comm in HQ.
Qed.

Lemma wp_stack_word m dev i v (Q : Z -> machine -> Prop) E : 1 <= i <= 3 -> ld32 (boot_ram m) (stack_word i) = v ->
  Q v (boot_machine m dev) -> wpe (vld32 (stack_top -u 4 * i)) (boot_machine m dev) Q E.
Proof.
  intros Hi <- HQ. destruct (stack_virtual i Hi) as (H32 & Ha & Ht). rewrite u32_small by done.
  eapply wp_eq; [by apply vld32_aligned|]. exact HQ.
Qed.

Lemma wp_fetch a m dev (Q : unit -> machine -> Prop) E : is32 a -> is_Some (boot_map a) ->
  Q tt (boot_machine m dev) -> wpe (fetch a) (boot_machine m dev) Q E.
Proof.
  intros Ha [pa Hpa] HQ. unfold fetch, wpe, bind, vld8. by rewrite boot_translate, Hpa by done.
Qed.

(** The three words that [_higher_half_start] pushes. *)
Definition with_stack (m : gmap Z Z) (magic mbi : Z) : gmap Z Z :=
  st32 (st32 (st32 m (stack_word 1) mbi) (stack_word 2) magic) (stack_word 3) ret_start.

Lemma stack_contents m magic mbi : is32 magic -> is32 mbi ->
  ld32 (boot_ram (with_stack m magic mbi)) (stack_word 2) = magic /\
  ld32 (boot_ram (with_stack m magic mbi)) (stack_word 1) = mbi.
Proof.
  intros H1 H2. unfold with_stack. rewrite !boot_ram_comm by lia. split.
  - rewrite ld32_st32_ne by (unfold stack_word; lia). by apply ld32_st32.
  - rewrite !ld32_st32_ne by (unfold stack_word; lia). by apply ld32_st32.
Qed.

Lemma start_wp m c dev eax ebx (Q : Z * Z -> machine -> Prop) E : is32 eax -> is32 ebx ->
  Q (eax, ebx) (boot_machine (with_stack m eax ebx) dev) ->
  wpe (_start sym_start sym_higher_half_start ret_start eax ebx) (Machine m c dev 0 []) Q E.
Proof.
  intros Ha Hb HQ. pose proof (so_start Hok). pose proof (so_half Hok). pose proof lo_end. unfold _start.
  wp_step. apply fill_boot_table_wp. wp_step. apply clear_pd_wp. unfold pst32, load_cr3. do 6 wp_step.
  match goal with |- wpe _ ?h _ _ => change h with (boot_machine m dev) end.
  wp_step. apply wp_fetch; [unfold is32; lia|unfold boot_map; rewrite decide_True by lia; by eexists|].
  unfold _higher_half_start. wp_step.
  apply wp_fetch; [unfold is32; lia|unfold boot_map; rewrite decide_False, decide_True by lia; by eexists|].
  wp_step. apply (wp_stack_push _ _ 1); [lia|]. wp_step. apply (wp_stack_push _ _ 2); [lia|].
  wp_step. apply (wp_stack_push _ _ 3); [lia|]. fold (with_stack m eax ebx).
  destruct (stack_virtual 1 ltac:(lia)) as (S1 & _). destruct (stack_virtual 3 ltac:(lia)) as (S3 & _). unfold is32 in S1, S3.
  rewrite !(u32_small (stack_top - 12)) by (unfold is32; lia).
  replace (stack_top - 12 + 4) with (stack_top - 4 * 2) by lia. replace (stack_top - 12 + 8) with (stack_top - 4 * 1) by lia.
  wp_step. apply (wp_stack_word _ _ 2 eax); [lia|by apply stack_contents|].
  wp_step. apply (wp_stack_word _ _ 1 ebx); [lia|by apply stack_contents|]. by wp_step.
Qed.

(** Memory outside the boot page tables and the three words. *)
Lemma start_same m magic mbi p : p < boot_pd \/ stack_top - 0xC0000000 <= p ->
  ld8 (boot_ram (with_stack m magic mbi)) p = ld8 m p.
Proof.
  intros Hp. pose proof (so_tables Hok). unfold stack_top, stack_bottom, boot_pd in *.
  assert (forall m a v, p < a \/ a + 4 <= p -> ld8 (st32 m a v) p = ld8 m p) as Hst.
  { intros m' a v Ha. unfold st32. rewrite !ld8_st8, !decide_False by lia. done. }
  assert (forall n m a f, p < a \/ a + 4 * Z.of_nat n <= p -> ld8 (fill_words n a f m) p = ld8 m p) as Hfill.
  { induction n as [|n IH]; intros m' a f Ha; cbn [fill_words]; [done|]. rewrite Hst by lia. apply IH. lia. }
  unfold boot_ram, with_stack, boot_pd, boot_pt, stack_word, stack_top, stack_bottom. rewrite !Hst, !Hfill, !Hst by lia. done.
Qed.

(** C16: [_start] builds the boot map.  Entered without paging with the multiboot registers,
    its loops, the switch to paging, the jump to the higher half and the pushes return:
    memory is exactly the page tables of [boot_ram] and three words on the boot stack, every
    other byte outside [.bss] is as before, the MMU maps the first 4 MB at 0 and at
    0xC0000000 and nothing else, and [kernel_main] finds the magic number and the address of
    the multiboot structure as its arguments. *)
Theorem start_enters m c dev eax ebx : is32 eax -> is32 ebx ->
  exists h, _start sym_start sym_higher_half_start ret_start eax ebx (Machine m c dev 0 []) = Ok (eax, ebx) h /\
    h = boot_machine (with_stack m eax ebx) dev /\
    (forall va, is32 va -> translate h va = boot_map va) /\
    (forall p, p < boot_pd \/ stack_top - 0xC0000000 <= p -> ld8 (ram h) p = ld8 m p).
Proof.
  intros Ha Hb. pose proof (start_wp m c dev eax ebx (fun r h => r = (eax, ebx) /\ h = boot_machine (with_stack m eax ebx) dev)
    (fun _ _ => False) Ha Hb (conj eq_refl eq_refl)) as W. unfold wpe in W.
  destruct (_start _ _ _ _ _ _) as [r h|]; [|done]. destruct W as [-> ->]. eexists. split; [done|]. split; [done|].
  split; [intros va Hva; by apply boot_translate|intros p Hp; by apply start_same].
Qed.
End StartRuns.

Lemma demo_start_ok : @start_ok demo_layout 0x100040 0xC0101000 0xC0101020.
Proof. split; unfold stack_top, stack_bottom, is32; cbn; lia. Qed.

Lemma start_enters_witness :
  exists h, @_start demo_layout 0x100040 0xC0101000 0xC0101020 0x2BADB002 0x5000 (Machine ∅ 0 (fun _ _ => 0) 0 []) =
              Ok (0x2BADB002, 0x5000) h /\
    h = @boot_machine demo_layout (@with_stack demo_layout 0xC0101020 ∅ 0x2BADB002 0x5000) (fun _ _ => 0) /\
    (forall va, is32 va -> translate h va = boot_map va) /\
    (forall p, p < @boot_pd demo_layout \/ @stack_top demo_layout - 0xC0000000 <= p -> ld8 (ram h) p = ld8 ∅ p).
Proof.
  apply (@start_enters demo_layout demo_layout_ok 0x100040 0xC0101000 0xC0101020 demo_start_ok ∅ 0 (fun _ _ => 0) 0x2BADB002 0x5000);
    unfold is32; lia.
Defined.
