(* ===== verification/LoaderState.v ===== *)
(** * The machine the boot loader runs on ([boot/stage1.asm], [boot/stage2.asm])

    Physical memory with the A20 gate, the variables of stage 2, the services of the BIOS,
    and the output routines.  Code of stage 2 is a function in the monad of the Prelude;
    registers are its arguments, results and local names, with the widths written out. *)

From stdpp Require Import base gmap list numbers option strings.
From Stdlib Require Import ZArith Lia Ascii.
From S2P Require Import Prelude Machine Terminal.

(** The [db], [dw] and [dd] variables of [stage2.asm]. *)
Inductive lvar :=
  | boot_drive
  | dap_count | dap_offset | dap_segment | dap_lba
  | fat16_bps | fat16_spc | fat16_reserved | fat16_num_fats | fat16_root_entries | fat16_fat_size
  | fat16_spt | fat16_heads
  | fat16_fat_start | fat16_root_start | fat16_root_sectors | fat16_data_start
  | fat16_curr_cluster | fat16_load_seg | fat16_file_size
  | kernel_entry | elf_phoff | elf_phentsize | elf_phnum
  | pm_vga_pos.

#[export] Instance lvar_eq_dec : EqDecision lvar.
Proof. solve_decision. Defined.

(** [l_calls] numbers the calls of the BIOS and the reads of ports; [l_out] is what the
    teletype service was given, the latest first. *)
Record lsys := Lsys {
  l_mem : gmap Z Z;
  l_var : lvar -> Z;
  l_a20 : bool;
  l_calls : nat;
  l_out : list Z;
}.

Definition set_mem (m : gmap Z Z) (s : lsys) : lsys := Lsys m (l_var s) (l_a20 s) (l_calls s) (l_out s).
Definition set_var (x : lvar) (v : Z) (s : lsys) : lsys :=
  Lsys (l_mem s) (fun y => if decide (y = x) then v else l_var s y) (l_a20 s) (l_calls s) (l_out s).
Definition set_a20 (b : bool) (s : lsys) : lsys := Lsys (l_mem s) (l_var s) b (l_calls s) (l_out s).
Definition add_call (s : lsys) : lsys := Lsys (l_mem s) (l_var s) (l_a20 s) (S (l_calls s)) (l_out s).
Definition add_out (c : Z) (s : lsys) : lsys := Lsys (l_mem s) (l_var s) (l_a20 s) (l_calls s) (c :: l_out s).

Definition rdv (x : lvar) : M lsys Z := get (fun s => l_var s x).
Definition wrv (x : lvar) (v : Z) : M lsys unit := modify (set_var x v).

(** The number of this call. *)
Definition next_call : M lsys nat := n <- get l_calls ;; modify add_call ;;; ret n.

(** ** Memory *)

(** With the gate closed, address line 20 is 0. *)
Definition phys (a20 : bool) (a : Z) : Z := if a20 then a else Z.ldiff a 0x100000.

(** Memory the loader itself lives in: in real mode the interrupt vectors and BIOS data, the
    stack below 0x7C00 (3 KB of it) and the image of stage 2; in protected mode the image and
    a page below 0x90000, where the stack is.  The model stops a store into it: what the
    code does after it has overwritten itself is not defined. *)
Definition real_zone (p : Z) : bool :=
  (p <? 0x500) || ((0x7000 <=? p) && (p <? 0x7C00)) || ((0x7E00 <=? p) && (p <? 0xBE00)).
Definition pm_zone (p : Z) : bool :=
  ((0x7E00 <=? p) && (p <? 0xBE00)) || ((0x8F000 <=? p) && (p <? 0x90000)).

Definition get8 (a : Z) : M lsys Z := get (fun s => ld8 (l_mem s) (phys (l_a20 s) a)).
Definition put8 (zone : Z -> bool) (a v : Z) : M lsys unit :=
  p <- get (fun s => phys (l_a20 s) a) ;;
  if zone p then stop_with Undefined else modify (fun s => set_mem (st8 (l_mem s) p v) s).

(** Little-endian numbers of [n] bytes. *)
Fixpoint get_le (n : nat) (a : Z) : M lsys Z :=
  match n with
  | O => ret 0
  | S k => b <- get8 a ;; r <- get_le k (a + 1) ;; ret (b + 256 * r)
  end.
Definition get16 : Z -> M lsys Z := get_le 2.
Definition get32 : Z -> M lsys Z := get_le 4.

Fixpoint put_le (zone : Z -> bool) (n : nat) (a v : Z) : M lsys unit :=
  match n with
  | O => ret tt
  | S k => put8 zone a v ;;; put_le zone k (a + 1) (v / 256)
  end.

Fixpoint put_bytes (zone : Z -> bool) (a : Z) (bs : list Z) : M lsys unit :=
  match bs with
  | [] => ret tt
  | b :: r => put8 zone a b ;;; put_bytes zone (a + 1) r
  end.

(** ** The BIOS and the hardware

    Each service is given the number of the call, so that nothing is assumed about two calls
    being alike. *)

(** INT 0x15, EAX = 0xE820: the registers and the bytes it leaves. *)
Record e820_reply := E820Reply {
  r_carry : bool; r_eax : Z; r_ebx : Z; r_ecx : Z; r_bytes : list Z;
}.

Record bios := Bios {
  (** INT 0x13, AH = 0x42: drive, LBA, number of sectors; the carry flag and the bytes that
      were stored at the buffer. *)
  int13 : nat -> Z -> Z -> Z -> bool * list Z;
  (** INT 0x13, AH = 0x02 on the first track of the drive: first sector, number of sectors;
      the carry flag, AL and the bytes that were stored. *)
  int13_chs : nat -> Z -> Z -> Z -> bool * Z * list Z;
  e820 : nat -> Z -> e820_reply;
  (** INT 0x15, AX = 0xE801: AX, BX, CX, DX, nothing when the carry flag is set. *)
  e801 : nat -> option (Z * Z * Z * Z);
  (** INT 0x15, AX = 0x2401: the carry flag and the A20 gate after it. *)
  int15_a20 : nat -> bool -> bool * bool;
  (** What a port answers, and the A20 gate after a byte was sent to a port. *)
  in_port : nat -> Z -> Z;
  out_port : nat -> Z -> Z -> bool -> bool;
}.

(** ** Output *)

(** INT 0x10, AH = 0x0E. *)
Definition teletype (c : Z) : M lsys unit := modify (add_out c).

Fixpoint teletype_all (cs : list Z) : M lsys unit :=
  match cs with [] => ret tt | c :: r => teletype c ;;; teletype_all r end.

Definition print_string (msg : string) : M lsys unit := teletype_all (bytes_of msg).

Definition crlf : string := String "013" (String "010" EmptyString).

(** One turn of [.hex_loop]: the digit of the top nibble and the rotated register. *)
Definition rol4 (w v : Z) : Z := (v * 16) mod 2 ^ w + v / 2 ^ (w - 4).
Definition hex_digit (v : Z) : Z :=
  let al := Z.land v 0x0F + 48 in if al <=? 57 then al else al + 7.

Fixpoint hex_digits (w : Z) (n : nat) (v : Z) : list Z :=
  match n with O => [] | S k => let v' := rol4 w v in hex_digit v' :: hex_digits w k v' end.

Definition print_hex_raw (ax : Z) : M lsys unit := teletype_all (hex_digits 16 4 ax).
Definition print_hex (ax : Z) : M lsys unit :=
  teletype 48 ;;; teletype 120 ;;; print_hex_raw ax.

(** In protected mode: characters with attribute 0x0A in the text buffer. *)
Fixpoint pm_put (edi : Z) (cs : list Z) : M lsys Z :=
  match cs with
  | [] => ret edi
  | c :: r => put_le pm_zone 2 edi (0x0A00 + c) ;;; pm_put (edi +u 2) r
  end.

(** The start of the row after [pm_vga_pos]. *)
Definition next_line : M lsys unit :=
  eax <- rdv pm_vga_pos ;;
  wrv pm_vga_pos (((eax -u 0xB8000) / 160 +u 1) *u 160 +u 0xB8000).

Definition pm_print_line (msg : string) : M lsys unit :=
  edi <- rdv pm_vga_pos ;;
  pm_put edi (bytes_of msg) ;;;
  next_line.

Definition pm_print_hex32 (eax edi : Z) : M lsys Z := pm_put edi (hex_digits 32 8 eax).

(** ** Bytes in memory *)

Definition byte (b : Z) : Prop := 0 <= b < 256.

(** Bytes stored one after the other, and numbers read. *)
Fixpoint st_bytes (m : gmap Z Z) (a : Z) (bs : list Z) : gmap Z Z :=
  match bs with [] => m | b :: r => st_bytes (st8 m a b) (a + 1) r end.

Fixpoint le (n : nat) (m : gmap Z Z) (a : Z) : Z :=
  match n with O => 0 | S k => ld8 m a + 256 * le k m (a + 1) end.

Fixpoint le_bytes (n : nat) (v : Z) : list Z :=
  match n with O => [] | S k => u8 v :: le_bytes k (v / 256) end.

Definition bytes_at (m : gmap Z Z) (a : Z) (bs : list Z) : Prop :=
  forall i b, bs !! i = Some b -> ld8 m (a + Z.of_nat i) = b.

(** Equal on a range of addresses, and everywhere but there. *)
Definition same_on (a n : Z) (m m' : gmap Z Z) : Prop := forall p, a <= p < a + n -> ld8 m' p = ld8 m p.
Definition same_off (a n : Z) (m m' : gmap Z Z) : Prop := forall p, p < a \/ a + n <= p -> ld8 m' p = ld8 m p.

Lemma ld8_byte m p : byte (ld8 m p).
Proof. apply u8_range. Qed.

Lemma ld8_stored m a v p : ld8 (st8 m a v) p = if decide (p = a) then u8 v else ld8 m p.
Proof.
  unfold ld8, st8. case_decide as E.
  - subst. rewrite lookup_insert_eq. apply u8_small, u8_range.
  - by rewrite lookup_insert_ne by congruence.
Qed.

Lemma ld8_st_bytes m a bs p :
  ld8 (st_bytes m a bs) p =
  match bs !! Z.to_nat (p - a) with
  | Some b => if decide (a <= p) then u8 b else ld8 m p
  | None => ld8 m p
  end.
Proof.
  revert m a. induction bs as [|b bs IH]; intros m a; [done|]. cbn [st_bytes]. rewrite IH, ld8_stored.
  destruct (decide (p = a)) as [->|Hne].
  - rewrite Z.sub_diag. change ((b :: bs) !! Z.to_nat 0) with (Some b). cbv beta iota. rewrite (decide_True (P := a <= a)) by lia.
    destruct (bs !! Z.to_nat (a - (a + 1))); [|done]. by rewrite decide_False by lia.
  - destruct (decide (a <= p)) as [Hle|Hlt].
    + replace (Z.to_nat (p - a)) with (S (Z.to_nat (p - (a + 1)))) by lia. change ((b :: bs) !! S (Z.to_nat (p - (a + 1)))) with (bs !! Z.to_nat (p - (a + 1))).
      destruct (bs !! Z.to_nat (p - (a + 1))); [|done]. by rewrite decide_True by lia.
    + replace (Z.to_nat (p - a)) with 0%nat by lia. replace (Z.to_nat (p - (a + 1))) with 0%nat by lia.
      change ((b :: bs) !! 0%nat) with (Some b). cbv beta iota.
      destruct (bs !! 0%nat); [|done]. by rewrite decide_False by lia.
Qed.

Lemma st_bytes_at m a bs : Forall byte bs -> bytes_at (st_bytes m a bs) a bs.
Proof.
  intros Hb i b Hi. rewrite ld8_st_bytes. replace (a + Z.of_nat i - a) with (Z.of_nat i) by lia.
  rewrite Nat2Z.id, Hi, decide_True by lia. apply u8_small. rewrite Forall_lookup in Hb. by eapply Hb.
Qed.

Lemma st_bytes_off m a bs : same_off a (Z.of_nat (length bs)) m (st_bytes m a bs).
Proof.
  intros p Hp. rewrite ld8_st_bytes. destruct (bs !! Z.to_nat (p - a)) as [b|] eqn:E; [|done].
  apply lookup_lt_Some in E. by rewrite decide_False by lia.
Qed.

Lemma le_range n m a : 0 <= le n m a < 256 ^ Z.of_nat n.
Proof.
  revert a. induction n as [|n IH]; intros a; cbn [le]; [done|]. specialize (IH (a + 1)).
  pose proof (ld8_byte m a). unfold byte in *. rewrite Nat2Z.inj_succ, Z.pow_succ_r by lia. lia.
Qed.

Lemma le_same n m m' a : same_on a (Z.of_nat n) m m' -> le n m' a = le n m a.
Proof.
  revert a. induction n as [|n IH]; intros a H; cbn [le]; [done|]. rewrite H by lia. f_equal. f_equal.
  apply IH. intros p Hp. apply H. lia.
Qed.

Lemma length_le_bytes n v : length (le_bytes n v) = n.
Proof. revert v. induction n as [|n IH]; intros v; cbn; [done|]. by rewrite IH. Qed.

Lemma le_bytes_byte n v : Forall byte (le_bytes n v).
Proof. revert v. induction n as [|n IH]; intros v; cbn; constructor; [apply u8_range|apply IH]. Qed.

(** Reading what was stored. *)
Lemma le_read n m a v : bytes_at m a (le_bytes n v) -> 0 <= v < 256 ^ Z.of_nat n -> le n m a = v.
Proof.
  revert a v. induction n as [|n IH]; intros a v Hb Hv; cbn [le].
  - change (256 ^ Z.of_nat 0) with 1 in Hv. lia.
  - rewrite Nat2Z.inj_succ, Z.pow_succ_r in Hv by lia.
    pose proof (Hb 0%nat (u8 v) eq_refl) as H0. rewrite Z.add_0_r in H0. rewrite H0.
    rewrite (IH (a + 1) (v / 256)).
    + unfold u8. pose proof (Z.div_mod v 256). lia.
    + intros i b Hi. replace (a + 1 + Z.of_nat i) with (a + Z.of_nat (S i)) by lia. by apply Hb.
    + split; [apply Z.div_pos; lia|]. apply Z.div_lt_upper_bound; lia.
Qed.

Lemma le_st n m a v : 0 <= v < 256 ^ Z.of_nat n -> le n (st_bytes m a (le_bytes n v)) a = v.
Proof. intros Hv. apply le_read; [|done]. apply st_bytes_at, le_bytes_byte. Qed.

Lemma le_off n k m m' a b : same_off a k m m' -> b + Z.of_nat n <= a \/ a + k <= b -> le n m' b = le n m b.
Proof. intros H Hb. apply le_same. intros p Hp. apply H. lia. Qed.

Lemma le_st_ne n m a b bs : b + Z.of_nat n <= a \/ a + Z.of_nat (length bs) <= b ->
  le n (st_bytes m a bs) b = le n m b.
Proof. apply le_off, st_bytes_off. Qed.

(** The kernel's word is a number of four bytes. *)
Lemma ld32_le m a : ld32 m a = le 4 m a.
Proof.
  unfold ld32. cbn [le]. replace (a + 2) with (a + 1 + 1) by lia. replace (a + 3) with (a + 1 + 1 + 1) by lia. lia.
Qed.

(** ** Running the accesses *)

Definition free (zone : Z -> bool) (a n : Z) : Prop := forall p, a <= p < a + n -> zone p = false.

Lemma real_free p : 0x500 <= p < 0x7000 \/ 0x7C00 <= p < 0x7E00 \/ 0xBE00 <= p -> real_zone p = false.
Proof. unfold real_zone. intros H. rewrite !orb_false_iff, !andb_false_iff, !Z.ltb_ge, !Z.leb_gt. lia. Qed.

Lemma pm_free p : p < 0x7E00 \/ 0xBE00 <= p < 0x8F000 \/ 0x90000 <= p -> pm_zone p = false.
Proof. unfold pm_zone. intros H. rewrite !orb_false_iff, !andb_false_iff, !Z.ltb_ge, !Z.leb_gt. lia. Qed.

Lemma phys_low g a : 0 <= a < 0x100000 -> phys g a = a.
Proof.
  intros Ha. destruct g; [done|]. cbn. apply Z.bits_inj'. intros i Hi. rewrite Z.ldiff_spec.
  destruct (Z.eq_dec i 20) as [->|Hne].
  - assert (Z.testbit a 20 = false) as -> by (apply Z.bits_above_log2; [lia|]; destruct (Z.eq_dec a 0) as [->|];
      [done|apply Z.log2_lt_pow2; lia]). done.
  - change 0x100000 with (2 ^ 20). rewrite Z.pow2_bits_false by lia. by rewrite andb_true_r.
Qed.

Section Rules.
Context (E : stop -> lsys -> Prop).

Lemma wp_rdv x s (Q : Z -> lsys -> Prop) : Q (l_var s x) s -> wpe (rdv x) s Q E.
Proof. done. Qed.

Lemma wp_wrv x v s (Q : unit -> lsys -> Prop) : Q tt (set_var x v s) -> wpe (wrv x v) s Q E.
Proof. done. Qed.

Lemma wp_next_call s (Q : nat -> lsys -> Prop) : Q (l_calls s) (add_call s) -> wpe next_call s Q E.
Proof. done. Qed.

Lemma wp_put8_phys zone a v s (Q : unit -> lsys -> Prop) : zone (phys (l_a20 s) a) = false ->
  Q tt (set_mem (st8 (l_mem s) (phys (l_a20 s) a) v) s) -> wpe (put8 zone a v) s Q E.
Proof. intros Hz HQ. unfold wpe, put8, bind, get. by rewrite Hz. Qed.

Lemma wp_get8_phys a s (Q : Z -> lsys -> Prop) : Q (ld8 (l_mem s) (phys (l_a20 s) a)) s -> wpe (get8 a) s Q E.
Proof. done. Qed.

Lemma wp_put8 zone a v s (Q : unit -> lsys -> Prop) : l_a20 s = true -> zone a = false ->
  Q tt (set_mem (st8 (l_mem s) a v) s) -> wpe (put8 zone a v) s Q E.
Proof. intros Ha Hz HQ. unfold wpe, put8, bind, get, phys. by rewrite Ha, Hz. Qed.

Lemma wp_put_bytes zone a bs s (Q : unit -> lsys -> Prop) : l_a20 s = true ->
  free zone a (Z.of_nat (length bs)) -> Q tt (set_mem (st_bytes (l_mem s) a bs) s) ->
  wpe (put_bytes zone a bs) s Q E.
Proof.
  revert a s. induction bs as [|b bs IH]; intros a s Ha Hf HQ; cbn [put_bytes].
  - apply wp_ret. by destruct s.
  - apply wp_bind, wp_put8; [done|apply Hf; cbn; lia|]. apply IH; [done| |done].
    intros p Hp. apply Hf. cbn. lia.
Qed.

(** Below 1 MB the gate does not matter. *)
Lemma wp_put_bytes_low zone a bs s (Q : unit -> lsys -> Prop) : 0 <= a -> a + Z.of_nat (length bs) <= 0x100000 ->
  free zone a (Z.of_nat (length bs)) -> Q tt (set_mem (st_bytes (l_mem s) a bs) s) ->
  wpe (put_bytes zone a bs) s Q E.
Proof.
  revert a s. induction bs as [|b bs IH]; intros a s H0 H1 Hf HQ; cbn [put_bytes].
  - apply wp_ret. by destruct s.
  - cbn [length] in *. rewrite Nat2Z.inj_succ in *.
    apply wp_bind, wp_put8_phys; rewrite phys_low by lia; [apply Hf; lia|]. apply IH; [lia|lia| |done].
    intros p Hp. apply Hf. lia.
Qed.

Lemma st8_u8 m a v : st8 m a (u8 v) = st8 m a v.
Proof. unfold st8. by rewrite (u8_small (u8 v)) by apply u8_range. Qed.

Lemma put_le_bytes zone n a v s : put_le zone n a v s = put_bytes zone a (le_bytes n v) s.
Proof.
  revert a v s. induction n as [|n IH]; intros a v s; [done|]. cbn [put_le le_bytes put_bytes].
  unfold bind at 1 2. unfold put8, bind, get. destruct (zone _); [done|]. cbn. rewrite st8_u8. apply IH.
Qed.

Lemma wp_put_le zone n a v s (Q : unit -> lsys -> Prop) : l_a20 s = true -> free zone a (Z.of_nat n) ->
  Q tt (set_mem (st_bytes (l_mem s) a (le_bytes n v)) s) -> wpe (put_le zone n a v) s Q E.
Proof.
  intros Ha Hf HQ. unfold wpe. rewrite put_le_bytes.
  apply wp_put_bytes; [done|by rewrite length_le_bytes|done].
Qed.

Lemma get_le_run n a s : l_a20 s = true -> get_le n a s = Ok (le n (l_mem s) a) s.
Proof.
  intros Ha. revert a. induction n as [|n IH]; intros a; cbn [get_le le]; [done|].
  unfold bind, get8, get, phys. by rewrite Ha, IH.
Qed.

Lemma wp_get_le n a s (Q : Z -> lsys -> Prop) : l_a20 s = true -> Q (le n (l_mem s) a) s -> wpe (get_le n a) s Q E.
Proof. intros Ha HQ. unfold wpe. by rewrite get_le_run. Qed.

Lemma wp_get8 a s (Q : Z -> lsys -> Prop) : l_a20 s = true -> Q (ld8 (l_mem s) a) s -> wpe (get8 a) s Q E.
Proof. intros Ha HQ. unfold wpe, get8, get, phys. by rewrite Ha. Qed.
End Rules.

(** ** What output changes *)

(** States that differ in what was printed. *)
Definition printed (s s' : lsys) : Prop := exists o, s' = Lsys (l_mem s) (l_var s) (l_a20 s) (l_calls s) o.

Lemma text_refl s : printed s s.
Proof. exists (l_out s). by destruct s. Qed.

Lemma teletype_all_wp cs s E (Q : unit -> lsys -> Prop) : (forall s', printed s s' -> Q tt s') -> wpe (teletype_all cs) s Q E.
Proof.
  intros HQ. assert (forall cs s0, printed s s0 -> wpe (teletype_all cs) s0 Q E) as H; [|apply H, text_refl].
  clear cs. induction cs as [|c cs IH]; intros s0 Hp; cbn [teletype_all]; [by apply wp_ret, HQ|].
  apply wp_bind, wp_modify. apply IH. destruct Hp as [o ->]. by eexists.
Qed.

Lemma print_string_wp msg s E (Q : unit -> lsys -> Prop) : (forall s', printed s s' -> Q tt s') -> wpe (print_string msg) s Q E.
Proof. apply teletype_all_wp. Qed.

Lemma print_hex_raw_wp v s E (Q : unit -> lsys -> Prop) : (forall s', printed s s' -> Q tt s') -> wpe (print_hex_raw v) s Q E.
Proof. apply teletype_all_wp. Qed.

Lemma bios_hex_wp v s E (Q : unit -> lsys -> Prop) : (forall s', printed s s' -> Q tt s') -> wpe (print_hex v) s Q E.
Proof.
  intros HQ. unfold print_hex. apply wp_bind, wp_modify, wp_bind, wp_modify, print_hex_raw_wp.
  intros s' [o ->]. apply HQ. by eexists.
Qed.

(** One instruction of a run; accesses of memory need the gate open. *)
Ltac lstep :=
  cbv beta zeta;
  lazymatch goal with
  | |- wpe (bind _ _) _ _ _ => apply wp_bind
  | |- wpe (rdv _) _ _ _ => apply wp_rdv
  | |- wpe (wrv _ _) _ _ _ => apply wp_wrv
  | |- wpe (ret _) _ _ _ => apply wp_ret
  | |- wpe next_call _ _ _ => apply wp_next_call
  | |- wpe (get_le _ _) _ _ _ => apply wp_get_le; [assumption || reflexivity|]
  | |- wpe (get8 _) _ _ _ => apply wp_get8; [assumption || reflexivity|]
  end.

Lemma set_var_eq x v s : l_var (set_var x v s) x = v.
Proof. cbn. by rewrite decide_True. Qed.

Lemma set_var_ne x y v s : y <> x -> l_var (set_var x v s) y = l_var s y.
Proof. intros H. cbn. by rewrite decide_False. Qed.

Lemma set_var_mem x v s : l_mem (set_var x v s) = l_mem s.
Proof. done. Qed.

(** Reading variables after assignments. *)
Ltac vars := repeat first [rewrite set_var_mem | rewrite set_var_eq | rewrite set_var_ne by discriminate].

(** ** The screen in protected mode *)

(** States that differ on the screen. *)
Record drew (s s' : lsys) : Prop := {
  dr_mem : same_off 0xB8000 0xFA0 (l_mem s) (l_mem s');
  dr_var : l_var s' = l_var s;
  dr_a20 : l_a20 s' = l_a20 s;
}.

Lemma drew_trans s1 s2 s3 : drew s1 s2 -> drew s2 s3 -> drew s1 s3.
Proof. intros [A1 A2 A3] [B1 B2 B3]. split; [|congruence|congruence]. intros p Hp. by rewrite B1, A1. Qed.

Lemma pm_put_wp cs edi s E (Q : Z -> lsys -> Prop) : l_a20 s = true -> 0xB8000 <= edi ->
  edi + 2 * Z.of_nat (length cs) <= 0xB8FA0 ->
  (forall s', drew s s' -> Q (edi + 2 * Z.of_nat (length cs)) s') -> wpe (pm_put edi cs) s Q E.
Proof.
  intros Ha. revert edi s Ha Q. induction cs as [|c cs IH]; intros edi s Ha Q H1 H2 HQ; cbn [pm_put].
  - apply wp_ret. rewrite Z.add_0_r in HQ. by apply HQ.
  - cbn [length] in *. rewrite Nat2Z.inj_succ in *.
    apply wp_bind, wp_put_le; [done|intros p Hp; apply pm_free; lia|].
    rewrite u32_small by (unfold is32; lia). apply IH; [done|lia|lia|]. intros s' Hd.
    replace (edi + 2 + 2 * Z.of_nat (length cs)) with (edi + 2 * Z.succ (Z.of_nat (length cs))) by lia. apply HQ.
    eapply drew_trans; [|exact Hd]. split; [|done|done]. intros p Hp. cbn [l_mem set_mem].
    rewrite (st_bytes_off _ _ _ p); [done|]. rewrite length_le_bytes. lia.
Qed.

(** The next line to be written is [r]. *)
Definition at_row (s : lsys) (r : Z) : Prop := l_var s pm_vga_pos = 0xB8000 + 160 * r.

Lemma next_line_wp s r E (Q : unit -> lsys -> Prop) : at_row s r -> 0 <= r < 25 ->
  Q tt (set_var pm_vga_pos (0xB8000 + 160 * (r + 1)) s) -> wpe next_line s Q E.
Proof.
  intros Hr Hb HQ. unfold next_line. repeat lstep. rewrite Hr.
  assert (0xB8000 + 160 * r -u 0xB8000 = r * 160) as -> by (unfold u32; rewrite Z.mod_small; lia).
  rewrite Z.div_mul by lia. rewrite (u32_small (r + 1)) by (unfold is32; lia).
  rewrite (u32_small ((r + 1) * 160)), u32_small by (unfold is32; lia).
  by replace ((r + 1) * 160 + 0xB8000) with (0xB8000 + 160 * (r + 1)) by lia.
Qed.

Lemma pm_print_line_wp msg s r E (Q : unit -> lsys -> Prop) : l_a20 s = true -> at_row s r -> 0 <= r < 25 ->
  Z.of_nat (length (bytes_of msg)) <= 80 ->
  (forall s', drew (set_var pm_vga_pos (0xB8000 + 160 * (r + 1)) s) s' -> Q tt s') -> wpe (pm_print_line msg) s Q E.
Proof.
  intros Ha Hr Hb Hl HQ. unfold pm_print_line. repeat lstep. rewrite Hr. apply pm_put_wp; [done|lia|lia|].
  intros s1 [M1 V1 A1]. eapply next_line_wp; [unfold at_row; by rewrite V1|done|]. apply HQ.
  split; [exact M1| |exact A1]. cbn. by rewrite V1.
Qed.
