(* ===== verification/Loader.v ===== *)
(** * The boot sector and the A20 gate ([boot/stage1.asm], [boot/stage2.asm])

    Stage 1 reads stage 2 from the disk, with three attempts.  Stage 2 opens the A20 gate by
    the BIOS, the keyboard controller or port 0x92 and checks the result by writing to two
    addresses that are one when the gate is closed. *)

From stdpp Require Import base gmap list numbers option strings.
From Stdlib Require Import ZArith Lia.
From S2P Require Import Prelude Machine Terminal LoaderState.

Section Loader.
Context (B : bios).

(** ** Stage 1 *)

Definition STAGE2_ADDR : Z := 0x7E00.
Definition STAGE2_SECTORS : Z := 32.
Definition MAX_RETRIES : Z := 3.

(** The vectors, the stack and the image of stage 1. *)
Definition stage1_zone (p : Z) : bool := (p <? 0x500) || ((0x7000 <=? p) && (p <? 0x7E00)).

(** [.error]: the message and the endless [hlt]. *)
Definition stage1_error {A} : M lsys A := print_string "Stage1: disk error" ;;; stop_with Halted.

(** [mov [boot_drive], dl], at the label [bpb_end]: DS is still what the BIOS left, so that
    the byte goes to the offset of [boot_drive] in that segment.  Only for DS = 0 is this the
    variable the code reads afterwards, in the segment 0. *)
Definition store_drive (off ds drive : Z) : M lsys unit :=
  if ds =? 0 then wrv boot_drive drive else put8 stage1_zone (ds * 16 + off) drive.

(** [start] to the far jump; the result is the address that is jumped to and DL. *)
Definition read_stage2 : M lsys (Z * Z) :=
  al <- loop (fun di =>
    dl <- rdv boot_drive ;;
    n <- next_call ;;
    let '(carry, al, bs) := int13_chs B n dl 2 STAGE2_SECTORS in
    put_bytes stage1_zone STAGE2_ADDR bs ;;;
    if carry then
      let di := u16 (di - 1) in
      if di =? 0 then stage1_error else
      _ <- next_call ;; ret (inl di)
    else ret (inr al)) MAX_RETRIES ;;
  if negb (al =? STAGE2_SECTORS) then stage1_error else
  dl <- rdv boot_drive ;;
  ret (STAGE2_ADDR, dl).

(** The boot sector, entered with DS = [ds] and DL = [drive]; [off] is the offset of
    [boot_drive]. *)
Definition stage1 (off ds drive : Z) : M lsys (Z * Z) :=
  store_drive off ds drive ;;; read_stage2.

(** ** The A20 gate *)

Definition inp (port : Z) : M lsys Z := n <- next_call ;; ret (in_port B n port).
Definition outp (port v : Z) : M lsys unit :=
  n <- next_call ;; modify (fun s => set_a20 (out_port B n port v (l_a20 s)) s).

(** DS:SI is 0x0000:0x0500 and ES:DI is 0xFFFF:0x0510. *)
Definition check_a20 : M lsys Z :=
  let dssi := 0x0500 in
  let esdi := 0xFFFF * 16 + 0x0510 in
  al1 <- get8 dssi ;;
  al2 <- get8 esdi ;;
  put8 real_zone dssi 0x00 ;;;
  put8 real_zone esdi 0xFF ;;;
  v <- get8 dssi ;;
  put8 real_zone esdi al2 ;;;
  put8 real_zone dssi al1 ;;;
  ret (if v =? 0xFF then 0 else 1).

Definition kbd_wait : M lsys unit :=
  loop (fun _ => al <- inp 0x64 ;; if has_bits al 0x02 then ret (inl tt) else ret (inr tt)) tt.

(** [.try_fast]. *)
Definition try_fast : M lsys unit :=
  print_string ("A20: trying fast A20 (port 0x92)..." +:+ crlf) ;;;
  al <- inp 0x92 ;;
  outp 0x92 (Z.land (Z.lor al 0x02) 0xFE) ;;;
  check_a20 ;;; ret tt.

(** [.try_kbd]. *)
Definition try_kbd : M lsys unit :=
  print_string ("A20: trying keyboard controller..." +:+ crlf) ;;;
  kbd_wait ;;; outp 0x64 0xD1 ;;;
  kbd_wait ;;; outp 0x60 0xDF ;;;
  kbd_wait ;;;
  for_loop 64 1 (fun _ => inp 0x64 ;;; ret tt) 0 ;;;
  ax <- check_a20 ;;
  if negb (ax =? 0) then ret tt else try_fast.

Definition enable_a20 : M lsys unit :=
  print_string ("A20: trying BIOS..." +:+ crlf) ;;;
  n <- next_call ;;
  carry <- get (fun s => fst (int15_a20 B n (l_a20 s))) ;;
  modify (fun s => set_a20 (snd (int15_a20 B n (l_a20 s))) s) ;;;
  if carry then try_kbd else
  ax <- check_a20 ;;
  if negb (ax =? 0) then ret tt else try_kbd.

(** ** What they do *)

(** Memory reads the same, the gate aside everything else is the same. *)
Record gate_only (s s' : lsys) : Prop := {
  go_mem : forall p, ld8 (l_mem s') p = ld8 (l_mem s) p;
  go_var : l_var s' = l_var s;
}.

Lemma gate_refl s : gate_only s s.
Proof. done. Qed.

Lemma gate_trans s1 s2 s3 : gate_only s1 s2 -> gate_only s2 s3 -> gate_only s1 s3.
Proof. intros [H1 H2] [H3 H4]. split; [|congruence]. intros p. by rewrite H3. Qed.

Lemma gate_printed s s' : printed s s' -> gate_only s s'.
Proof. by intros [o ->]. Qed.

(** The check is exact and leaves memory as it was. *)
Lemma check_a20_wp s E (Q : Z -> lsys -> Prop) :
  (forall s', gate_only s s' -> l_a20 s' = l_a20 s -> Q (if l_a20 s then 1 else 0) s') -> wpe check_a20 s Q E.
Proof.
  intros HQ. unfold check_a20.
  assert (real_zone (phys (l_a20 s) 0x500) = false /\ real_zone (phys (l_a20 s) (0xFFFF * 16 + 0x510)) = false) as [Z1 Z2].
  { by destruct (l_a20 s). }
  apply wp_bind, wp_get8_phys, wp_bind, wp_get8_phys.
  apply wp_bind, wp_put8_phys; [exact Z1|]. apply wp_bind, wp_put8_phys; [exact Z2|].
  apply wp_bind, wp_get8_phys. apply wp_bind, wp_put8_phys; [exact Z2|]. apply wp_bind, wp_put8_phys; [exact Z1|].
  apply wp_ret. cbn [l_mem l_a20 set_mem].
  match goal with |- Q (if ?b then _ else _) _ => assert (b = negb (l_a20 s)) as -> end.
  { rewrite !ld8_stored. by destruct (l_a20 s). }
  rewrite if_negb. apply HQ; [|done]. split; [|done]. intros p. cbn [l_mem set_mem]. rewrite !ld8_stored.
  repeat case_decide; subst; try done; try (by rewrite u8_small by apply ld8_byte); destruct (l_a20 s); done.
Qed.
(** The keyboard controller takes a command after a while. *)
Definition kbd_ready : Prop :=
  forall n, exists k, Z.of_nat k < 4294967295 /\ has_bits (in_port B (n + k) 0x64) 0x02 = false.

Lemma inp_wp port s E (Q : Z -> lsys -> Prop) : (forall v s', gate_only s s' -> l_a20 s' = l_a20 s -> Q v s') ->
  wpe (inp port) s Q E.
Proof. intros HQ. unfold inp. apply wp_bind, wp_next_call, wp_ret. by apply HQ. Qed.

Lemma outp_wp port v s E (Q : unit -> lsys -> Prop) : (forall s', gate_only s s' -> Q tt s') -> wpe (outp port v) s Q E.
Proof. intros HQ. unfold outp. apply wp_bind, wp_next_call, wp_modify. by apply HQ. Qed.

Lemma kbd_wait_wp s E (Q : unit -> lsys -> Prop) : kbd_ready -> (forall s', gate_only s s' -> Q tt s') -> wpe kbd_wait s Q E.
Proof.
  intros Hr HQ. destruct (Hr (l_calls s)) as (k & Hk & Hb). unfold kbd_wait.
  apply (wp_loop_var _ (fun n _ s' => gate_only s s' /\ exists j, n = Z.of_nat (k - j) + 1 /\ (j <= k)%nat /\
    l_calls s' = (l_calls s + j)%nat)) with (Z.of_nat k + 1); [|split; [done|]; exists 0%nat; split_and!; lia|lia].
  intros n [] s' (Hg & j & -> & Hj & Hc). unfold inp. apply wp_bind, wp_bind, wp_next_call, wp_ret. rewrite Hc.
  assert (gate_only s (add_call s')) as Hg' by (destruct Hg; by split).
  destruct (has_bits (in_port B (l_calls s + j) 100) 2) eqn:Eb; apply wp_ret; [|by apply HQ].
  assert (j <> k) by congruence. exists (Z.of_nat (k - S j) + 1). split; [lia|]. split; [done|].
  exists (S j). split_and!; [lia|lia|]. cbn. lia.
Qed.

Lemma delay_wp s E (Q : unit -> lsys -> Prop) : (forall s', gate_only s s' -> Q tt s') ->
  wpe (for_loop 64 1 (fun _ => inp 0x64 ;;; ret tt) 0) s Q E.
Proof.
  intros HQ. apply (wp_for_loop _ _ _ (fun _ s' => gate_only s s')); [done|done|done|done|done| |done].
  intros i s' _ _ Hg. apply wp_bind, inp_wp. intros v s2 Hg2 _. apply wp_ret. by eapply gate_trans.
Qed.

Ltac gate := repeat (eapply gate_trans; [eassumption|]); apply gate_refl.

Lemma try_fast_wp s E (Q : unit -> lsys -> Prop) : (forall s', gate_only s s' -> Q tt s') -> wpe try_fast s Q E.
Proof.
  intros HQ. unfold try_fast. apply wp_bind, print_string_wp. intros s1 H1%gate_printed.
  apply wp_bind, inp_wp. intros al s2 H2 _. apply wp_bind, outp_wp. intros s3 H3.
  apply wp_bind, check_a20_wp. intros s4 H4 _. apply wp_ret, HQ. gate.
Qed.

Lemma try_kbd_wp s E (Q : unit -> lsys -> Prop) : kbd_ready -> (forall s', gate_only s s' -> Q tt s') -> wpe try_kbd s Q E.
Proof.
  intros Hr HQ. unfold try_kbd. apply wp_bind, print_string_wp. intros s1 H1%gate_printed.
  apply wp_bind, kbd_wait_wp; [done|]. intros s2 H2. apply wp_bind, outp_wp. intros s3 H3.
  apply wp_bind, kbd_wait_wp; [done|]. intros s4 H4. apply wp_bind, outp_wp. intros s5 H5.
  apply wp_bind, kbd_wait_wp; [done|]. intros s6 H6. apply wp_bind, delay_wp. intros s7 H7.
  apply wp_bind, check_a20_wp. intros s8 H8 _. destruct (l_a20 s7); cbn.
  - apply HQ. gate.
  - apply try_fast_wp. intros s9 H9. apply HQ. gate.
Qed.

(** Opening the gate returns and touches nothing else. *)
Lemma enable_a20_wp s E (Q : unit -> lsys -> Prop) : kbd_ready -> (forall s', gate_only s s' -> Q tt s') -> wpe enable_a20 s Q E.
Proof.
  intros Hr HQ. unfold enable_a20. apply wp_bind, print_string_wp. intros s1 H1%gate_printed.
  apply wp_bind, wp_next_call, wp_bind, wp_get, wp_bind, wp_modify. cbn [l_a20 add_call].
  destruct (int15_a20 B (l_calls s1) (l_a20 s1)) as [carry g]. cbn [fst snd].
  assert (gate_only s1 (set_a20 g (add_call s1))) as H2 by done. destruct carry.
  - apply try_kbd_wp; [done|]. intros s3 H3. apply HQ. gate.
  - apply wp_bind, check_a20_wp. intros s3 H3 _. cbn [l_a20 set_a20]. destruct g; cbn [negb Z.eqb].
    + apply wp_ret, HQ. gate.
    + apply try_kbd_wp; [done|]. intros s4 H4. apply HQ. gate.
Qed.
(** ** Stage 1 *)

(** The reply to the attempt [k], after [2 * k] calls: each failure is followed by a reset. *)
Definition attempt (s : lsys) (drive : Z) (k : nat) : bool * Z * list Z :=
  int13_chs B (l_calls s + 2 * k) drive 2 STAGE2_SECTORS.
Definition attempt_failed (s : lsys) (drive : Z) (k : nat) : Prop := (attempt s drive k).1.1 = true.

(** The first attempt that succeeded read the whole of stage 2. *)
Definition stage2_read (s : lsys) (drive : Z) (s' : lsys) : Prop :=
  exists k bs, (k < 3)%nat /\ (forall j, (j < k)%nat -> attempt_failed s drive j) /\
    attempt s drive k = (false, STAGE2_SECTORS, bs) /\ bytes_at (l_mem s') STAGE2_ADDR bs.
(** No attempt succeeded, or the first one that did was short. *)
Definition stage1_gave_up (s : lsys) (drive : Z) : Prop :=
  (forall k, (k < 3)%nat -> attempt_failed s drive k) \/
  exists k al bs, (k < 3)%nat /\ (forall j, (j < k)%nat -> attempt_failed s drive j) /\
    attempt s drive k = (false, al, bs) /\ al <> STAGE2_SECTORS.

(** The BIOS stores bytes, no more than was asked for. *)
Definition chs_bounded : Prop := forall n drive cf al bs,
  int13_chs B n drive 2 STAGE2_SECTORS = (cf, al, bs) -> Z.of_nat (length bs) <= 512 * STAGE2_SECTORS /\ Forall byte bs.

Lemma stage1_free n : n <= 16384 -> free stage1_zone STAGE2_ADDR n.
Proof. intros Hn p Hp. unfold stage1_zone, STAGE2_ADDR in *. rewrite orb_false_iff, andb_false_iff, !Z.ltb_ge. lia. Qed.

Lemma same_off_trans a n m1 m2 m3 : same_off a n m1 m2 -> same_off a n m2 m3 -> same_off a n m1 m3.
Proof. intros H1 H2 p Hp. by rewrite H2, H1. Qed.

Lemma same_off_weaken a n n' m m' : same_off a n m m' -> n <= n' -> same_off a n' m m'.
Proof. intros H Hn p Hp. apply H. lia. Qed.

(** One attempt: the state after it, before the test of the carry flag. *)
Lemma stage1_turn s bs : chs_bounded -> Z.of_nat (length bs) <= 16384 -> Forall byte bs ->
  let s' := set_mem (st_bytes (l_mem s) STAGE2_ADDR bs) s in
  same_off STAGE2_ADDR 16384 (l_mem s) (l_mem s') /\ bytes_at (l_mem s') STAGE2_ADDR bs.
Proof.
  intros Hb Hl Hby. split; [|by apply st_bytes_at]. eapply same_off_weaken; [apply st_bytes_off|done].
Qed.

Lemma read_stage2_wp drive s : chs_bounded -> l_var s boot_drive = drive ->
  wpe read_stage2 s
    (fun r s' => r = (STAGE2_ADDR, drive) /\ stage2_read s drive s' /\ same_off STAGE2_ADDR 16384 (l_mem s) (l_mem s'))
    (fun e _ => e = Halted /\ stage1_gave_up s drive).
Proof.
  intros Hb Hdr. unfold read_stage2. apply wp_bind.
  set (inv := fun (k : nat) (s' : lsys) => (k < 3)%nat /\ (forall j, (j < k)%nat -> attempt_failed s drive j) /\
    l_calls s' = (l_calls s + 2 * k)%nat /\ l_var s' boot_drive = drive /\ same_off STAGE2_ADDR 16384 (l_mem s) (l_mem s')).
  apply (wp_loop_var _ (fun n di s' => exists k, n = di /\ di = 3 - Z.of_nat k /\ inv k s')) with 3; [| |done].
  2:{ exists 0%nat. split; [done|]. split; [done|]. split_and!; [lia|intros; lia|cbn; lia|done|done]. }
  intros n di s1 (k & -> & -> & Hk & Hf & Hc & Hd & Hm). apply wp_bind, wp_rdv, wp_bind, wp_next_call.
  rewrite Hc, Hd. fold (attempt s drive k). destruct (attempt s drive k) as [[cf al] bs] eqn:Ea.
  destruct (Hb _ _ _ _ _ Ea) as [Hl Hby]. change (512 * STAGE2_SECTORS) with 16384 in Hl.
  destruct (stage1_turn (add_call s1) bs Hb Hl Hby) as [Hm' Hat].
  apply wp_bind, wp_put_bytes_low; [done|unfold STAGE2_ADDR; lia|by apply stage1_free|].
  pose proof (same_off_trans _ _ _ _ _ Hm Hm') as Hm2. destruct cf.
  - cbv zeta. assert (u16 (3 - Z.of_nat k - 1) = 3 - Z.of_nat k - 1) as -> by (apply Z.mod_small; lia).
    assert (forall j, (j < S k)%nat -> attempt_failed s drive j) as Hf'.
    { intros j Hj. destruct (decide (j = k)) as [->|]; [unfold attempt_failed; by rewrite Ea|apply Hf; lia]. }
    destruct (3 - Z.of_nat k - 1 =? 0) eqn:E; bools.
    + apply wp_bind, print_string_wp. intros s2 _. apply wp_stop. split; [done|]. left. intros j Hj. apply Hf'. lia.
    + apply wp_bind, wp_next_call, wp_ret. exists (3 - Z.of_nat k - 1). split; [lia|]. exists (S k).
      split; [done|]. split; [lia|]. split_and!; [lia|done|cbn; lia|done|done].
  - apply wp_ret. destruct (al =? STAGE2_SECTORS) eqn:E; bools; cbn [negb].
    + apply wp_bind, wp_rdv, wp_ret. split; [cbn [l_var set_mem add_call]; by rewrite Hd|]. split; [|done].
      exists k, bs. subst al. done.
    + apply wp_bind, print_string_wp. intros s2 _. apply wp_stop. split; [done|]. right. by exists k, al, bs.
Qed.

Lemma stage1_wp off drive s : chs_bounded ->
  wpe (stage1 off 0 drive) s
    (fun r s' => r = (STAGE2_ADDR, drive) /\ stage2_read s drive s' /\ same_off STAGE2_ADDR 16384 (l_mem s) (l_mem s'))
    (fun e _ => e = Halted /\ stage1_gave_up s drive).
Proof.
  intros Hb. unfold stage1, store_drive. apply wp_bind, wp_wrv.
  exact (read_stage2_wp drive (set_var boot_drive drive s) Hb eq_refl).
Qed.
End Loader.
