(* ===== verification/Fat16.v ===== *)
(** * Loading the kernel file from a FAT16 volume ([boot/stage2.asm])

    [read_sectors], [fat16_init], [fat16_find_file] and [fat16_load_file], and what they do
    for a volume on the disk: the root directory is searched as the file system defines it and
    the clusters of the file's chain end up in memory one after the other. *)

From stdpp Require Import base gmap list numbers option strings.
From Stdlib Require Import ZArith Lia.
From S2P Require Import Prelude Machine Terminal LoaderState.

Definition SECTOR_BUF : Z := 0x0500.
Definition FAT_BUF : Z := 0x1000.
Definition KERNEL_SEG : Z := 0x1000.

Definition fat16_kernel_name : list Z := bytes_of "TUPLEOS BIN".

Section Fat16.
Context (B : bios).

(** The carry flag of INT 0x13. *)
Definition read_sectors (eax cx es bx : Z) : M lsys bool :=
  wrv dap_lba eax ;;; wrv dap_count cx ;;; wrv dap_offset bx ;;; wrv dap_segment es ;;;
  dl <- rdv boot_drive ;;
  n <- next_call ;;
  let '(carry, bs) := int13 B n dl eax cx in
  put_bytes real_zone (es * 16 + bx) bs ;;;
  ret carry.

(** [.init_fail]. *)
Definition init_fail : M lsys unit := print_string ("FAT16: failed to read BPB" +:+ crlf).

(** The BIOS parameter block of the sector in [SECTOR_BUF] (step 2). *)
Definition parse_bpb : M lsys unit :=
  let si := SECTOR_BUF in
  ax <- get16 (si + 0x0B) ;; wrv fat16_bps ax ;;;
  al <- get8 (si + 0x0D) ;; wrv fat16_spc al ;;;
  ax <- get16 (si + 0x0E) ;; wrv fat16_reserved ax ;;;
  al <- get8 (si + 0x10) ;; wrv fat16_num_fats al ;;;
  ax <- get16 (si + 0x11) ;; wrv fat16_root_entries ax ;;;
  ax <- get16 (si + 0x16) ;; wrv fat16_fat_size ax ;;;
  ax <- get16 (si + 0x18) ;; wrv fat16_spt ax ;;;
  ax <- get16 (si + 0x1A) ;; wrv fat16_heads ax.

(** The positions of FAT, root directory and data (step 3). *)
Definition derive_layout : M lsys unit :=
  ax <- rdv fat16_reserved ;; wrv fat16_fat_start ax ;;;
  al <- rdv fat16_num_fats ;;
  fs <- rdv fat16_fat_size ;;
  res <- rdv fat16_reserved ;;
  wrv fat16_root_start (u16 (u16 (al * fs) + res)) ;;;
  re <- rdv fat16_root_entries ;;
  wrv fat16_root_sectors (Z.shiftr re 4) ;;;
  rs <- rdv fat16_root_start ;;
  wrv fat16_data_start (u16 (Z.shiftr re 4 + rs)).

Definition fat16_init : M lsys unit :=
  print_string ("FAT16: reading BPB..." +:+ crlf) ;;;
  carry <- read_sectors 0 1 0 SECTOR_BUF ;;
  if (carry : bool) then init_fail else
  parse_bpb ;;;
  derive_layout ;;;
  eax <- rdv fat16_fat_start ;;
  cx <- rdv fat16_fat_size ;;
  carry <- read_sectors eax cx 0 FAT_BUF ;;
  if (carry : bool) then init_fail else
  print_string ("FAT16: filesystem initialized." +:+ crlf).

(** [repe cmpsb] over 11 bytes: the zero flag. *)
Fixpoint cmpsb (name : list Z) (di : Z) : M lsys bool :=
  match name with
  | [] => ret true
  | c :: r => b <- get8 di ;; if b =? c then cmpsb r (di + 1) else ret false
  end.

(** [.check_entry] over the 16 entries of a sector: [Found] is the jump to [.find_found],
    [NotFound] the one to [.find_not_found], [Exhausted] falls through to the next sector. *)
Inductive scan := Exhausted | NotFound | Found (di : Z).

Definition check_entries : M lsys scan :=
  loop (fun '(di, dx) =>
    let skip := let dx := u16 (dx - 1) in
      if negb (dx =? 0) then ret (inl (u16 (di + 32), dx)) else ret (inr Exhausted) in
    b <- get8 di ;;
    if b =? 0x00 then ret (inr NotFound) else
    if b =? 0xE5 then skip else
    attr <- get8 (di + 0x0B) ;;
    if attr =? 0x0F then skip else
    eq <- cmpsb fat16_kernel_name di ;;
    if (eq : bool) then ret (inr (Found di)) else skip) (SECTOR_BUF, 16).

(** [.find_not_found] and [.find_found]; the result is AX. *)
Definition find_not_found : M lsys Z :=
  print_string ("FAT16: TUPLEOS.BIN not found!" +:+ crlf) ;;; ret 0.
Definition find_found (di : Z) : M lsys Z :=
  ecx <- get32 (di + 0x1C) ;; wrv fat16_file_size ecx ;;;
  ax <- get16 (di + 0x1A) ;;
  print_string ("FAT16: file found, loading..." +:+ crlf) ;;;
  ret ax.

Definition fat16_find_file : M lsys Z :=
  print_string ("FAT16: searching for TUPLEOS.BIN..." +:+ crlf) ;;;
  eax <- rdv fat16_root_start ;;
  cx <- rdv fat16_root_sectors ;;
  loop (fun '(eax, cx) =>
    carry <- read_sectors eax 1 0 SECTOR_BUF ;;
    if (carry : bool) then ax <- find_not_found ;; ret (inr ax) else
    r <- check_entries ;;
    match r with
    | NotFound => ax <- find_not_found ;; ret (inr ax)
    | Found di => ax <- find_found di ;; ret (inr ax)
    | Exhausted =>
        let eax := eax +u 1 in
        let cx := u16 (cx - 1) in
        if negb (cx =? 0) then ret (inl (eax, cx)) else ret (inr 0)
    end) (eax, cx).

(** [.load_cluster]: the LBA of the current cluster, the read, the next segment and the next
    cluster.  [inr] leaves the loop, after a read error or at the end of the chain. *)
Definition load_cluster : M lsys (unit + unit) :=
  c <- rdv fat16_curr_cluster ;;
  dl <- rdv fat16_spc ;;
  ds <- rdv fat16_data_start ;;
  let ax := u16 (u16 (u16 (c - 2) * dl) + ds) in
  es <- rdv fat16_load_seg ;;
  carry <- read_sectors ax dl es 0 ;;
  if (carry : bool) then
    print_string ("FAT16: disk read error!" +:+ crlf) ;;; ret (inr tt)
  else
  al <- rdv fat16_spc ;;
  seg <- rdv fat16_load_seg ;;
  wrv fat16_load_seg (u16 (seg + u16 (al * 32))) ;;;
  si <- rdv fat16_curr_cluster ;;
  next <- get16 (u16 (u16 (si * 2) + FAT_BUF)) ;;
  wrv fat16_curr_cluster next ;;;
  if next <? 0xFFF8 then ret (inl tt) else
  print_string ("FAT16: kernel loaded to 0x10000" +:+ crlf) ;;; ret (inr tt).

Definition fat16_load_file (ax : Z) : M lsys unit :=
  wrv fat16_curr_cluster ax ;;;
  wrv fat16_load_seg KERNEL_SEG ;;;
  loop (fun _ => load_cluster) tt.
End Fat16.

(** ** Volumes *)

(** The little-endian number at offset [i] of a list of bytes. *)
Fixpoint lle (n : nat) (bs : list Z) (i : nat) : Z :=
  match n with O => 0 | S k => default 0 (bs !! i) + 256 * lle k bs (S i) end.

(** A disk of [dk_size] sectors. *)
Record disk := Disk { dk_size : Z; dk_sector : Z -> list Z }.

Definition sectors (d : disk) (lba count : Z) : list Z := concat (dk_sector d <$> seqZ lba count).

Record disk_ok (d : disk) : Prop := {
  dk_len : forall k, 0 <= k < dk_size d -> length (dk_sector d k) = 512%nat;
  dk_bytes : forall k, 0 <= k < dk_size d -> Forall byte (dk_sector d k);
}.

(** The geometry a boot sector gives. *)
Record geom := Geom { g_spc : Z; g_reserved : Z; g_num_fats : Z; g_root_entries : Z; g_fat_size : Z }.

Definition geometry (boot : list Z) : geom :=
  Geom (lle 1 boot 0x0D) (lle 2 boot 0x0E) (lle 1 boot 0x10) (lle 2 boot 0x11) (lle 2 boot 0x16).

Definition root_start (g : geom) : Z := g_reserved g + g_num_fats g * g_fat_size g.
Definition root_sectors (g : geom) : Z := g_root_entries g / 16.
Definition data_start (g : geom) : Z := root_start g + root_sectors g.

(** The file allocation table (its first copy). *)
Definition fat_of (d : disk) (g : geom) (c : Z) : Z :=
  lle 2 (sectors d (g_reserved g) (g_fat_size g)) (Z.to_nat (2 * c)).

(** The chain of clusters from [c]. *)
Inductive chain (fat : Z -> Z) : Z -> list Z -> Prop :=
  | chain_last c : 0xFFF8 <= fat c -> chain fat c [c]
  | chain_next c cs : fat c < 0xFFF8 -> chain fat (fat c) cs -> chain fat c (c :: cs).

Definition cluster_bytes (d : disk) (g : geom) (c : Z) : list Z :=
  sectors d (data_start g + (c - 2) * g_spc g) (g_spc g).

Definition file_bytes (d : disk) (g : geom) (cs : list Z) : list Z := concat (cluster_bytes d g <$> cs).

(** The root directory, entry by entry, and the search the file system defines: up to the
    first entry that was never used, without deleted entries and long names. *)
Definition dir_entry (dir : list Z) (i : nat) : list Z := take 32 (drop (32 * i) dir).

Definition is_kernel (e : list Z) : bool := bool_decide (take 11 e = fat16_kernel_name).

Fixpoint dir_find (es : list (list Z)) : option (list Z) :=
  match es with
  | [] => None
  | e :: r =>
      if lle 1 e 0 =? 0x00 then None else
      if (lle 1 e 0 =? 0xE5) || (lle 1 e 0x0B =? 0x0F) then dir_find r else
      if is_kernel e then Some e else dir_find r
  end.

Definition root_dir (d : disk) (g : geom) : list (list Z) :=
  dir_entry (sectors d (root_start g) (root_sectors g)) <$> seq 0 (Z.to_nat (16 * root_sectors g)).

(** The volume is what stage 2 can read: its FAT fits below 0x6000, the positions fit in 16
    bits and lie on the disk. *)
Record volume (d : disk) (g : geom) : Prop := {
  v_disk : disk_ok d;
  v_boot : 0 < dk_size d /\ g = geometry (dk_sector d 0);
  v_spc : 1 <= g_spc g <= 127;
  v_fat : 1 <= g_fat_size g <= 40 /\ g_reserved g + g_fat_size g <= dk_size d;
  v_root : 1 <= root_sectors g /\ data_start g <= dk_size d /\ data_start g < 65536;
}.

(** ** Reading *)

Lemma lle_at n m a bs i : bytes_at m a bs -> (i + n <= length bs)%nat -> le n m (a + Z.of_nat i) = lle n bs i.
Proof.
  intros Hb. revert i. induction n as [|n IH]; intros i Hi; cbn [le lle]; [done|].
  destruct (lookup_lt_is_Some_2 bs i ltac:(lia)) as [b Eb]. rewrite Eb, (Hb i b Eb). cbn [default].
  replace (a + Z.of_nat i + 1) with (a + Z.of_nat (S i)) by lia. rewrite IH by lia. done.
Qed.

Lemma ld8_at m a bs i : bytes_at m a bs -> (i < length bs)%nat -> ld8 m (a + Z.of_nat i) = lle 1 bs i.
Proof. intros Hb Hi. rewrite <-(lle_at 1 m a) by (done || lia). cbn. lia. Qed.

Lemma bytes_at_same m m' a bs : bytes_at m a bs -> same_on a (Z.of_nat (length bs)) m m' -> bytes_at m' a bs.
Proof.
  intros Hb Hs i b Hi. rewrite Hs; [by apply Hb|]. apply lookup_lt_Some in Hi. lia.
Qed.

Lemma bytes_at_app m a bs bs' : bytes_at m a bs -> bytes_at m (a + Z.of_nat (length bs)) bs' -> bytes_at m a (bs ++ bs').
Proof.
  intros H1 H2 i b Hi. apply lookup_app_Some in Hi as [Hi|[Hl Hi]]; [by apply H1|].
  specialize (H2 _ _ Hi). rewrite <-H2. f_equal. lia.
Qed.

Lemma bytes_at_drop m a bs k : bytes_at m a bs -> bytes_at m (a + Z.of_nat k) (drop k bs).
Proof.
  intros Hb i b Hi. rewrite lookup_drop in Hi. specialize (Hb _ _ Hi). rewrite <-Hb. f_equal. lia.
Qed.

Lemma bytes_at_take m a bs k : bytes_at m a bs -> bytes_at m a (take k bs).
Proof. intros Hb i b Hi. apply lookup_take_Some in Hi as [Hi _]. by apply Hb. Qed.

Section Sectors.
Context (d : disk) (Hd : disk_ok d).

Lemma length_sectors lba count : 0 <= lba -> 0 <= count -> lba + count <= dk_size d ->
  length (sectors d lba count) = Z.to_nat (512 * count).
Proof.
  intros H0 Hc Hs. unfold sectors. rewrite length_concat, <-list_fmap_compose.
  assert (forall l, (forall k, k ∈ l -> length (dk_sector d k) = 512%nat) ->
    sum_list ((length ∘ dk_sector d) <$> l) = (512 * length l)%nat) as H.
  { induction l as [|k l IH]; intros Hl; cbn; [done|]. rewrite IH by (intros; apply Hl; by right).
    rewrite (Hl k) by left. lia. }
  rewrite H; [rewrite length_seqZ; lia|]. intros k Hk%elem_of_seqZ. apply (dk_len d Hd). lia.
Qed.

Lemma sectors_bytes lba count : 0 <= lba -> 0 <= count -> lba + count <= dk_size d -> Forall byte (sectors d lba count).
Proof.
  intros H0 Hc Hs. apply Forall_concat, Forall_fmap, Forall_forall. intros k Hk%elem_of_seqZ.
  apply (dk_bytes d Hd). lia.
Qed.

Lemma sectors_one lba : sectors d lba 1 = dk_sector d lba.
Proof. unfold sectors. rewrite seqZ_cons by lia. cbn. apply app_nil_r. Qed.

Lemma sectors_cons lba count : 0 < count -> sectors d lba count = dk_sector d lba ++ sectors d (lba + 1) (count - 1).
Proof.
  intros Hc. unfold sectors. rewrite seqZ_cons by lia. done.
Qed.
End Sectors.

Lemma lle_range n bs i : Forall byte bs -> 0 <= lle n bs i < 256 ^ Z.of_nat n.
Proof.
  intros Hb. revert i. induction n as [|n IH]; intros i; cbn [lle]; [done|]. specialize (IH (S i)).
  rewrite Nat2Z.inj_succ, Z.pow_succ_r by lia.
  assert (byte (default 0 (bs !! i))) as H0; [|unfold byte in H0; lia].
  destruct (bs !! i) as [b|] eqn:E; [|done]. cbn. rewrite Forall_lookup in Hb. by eapply Hb.
Qed.

(** ** The directory, sector by sector *)

(** The search of a part of the directory: nothing means that it goes on. *)
Fixpoint dir_scan (es : list (list Z)) : option (option (list Z)) :=
  match es with
  | [] => None
  | e :: r =>
      if lle 1 e 0 =? 0x00 then Some None else
      if (lle 1 e 0 =? 0xE5) || (lle 1 e 0x0B =? 0x0F) then dir_scan r else
      if is_kernel e then Some (Some e) else dir_scan r
  end.

Lemma dir_find_scan es : dir_find es = default None (dir_scan es).
Proof. induction es as [|e es IH]; cbn; [done|]. repeat case_match; done. Qed.

Lemma dir_scan_app es es' :
  dir_scan (es ++ es') = match dir_scan es with Some r => Some r | None => dir_scan es' end.
Proof. induction es as [|e es IH]; cbn; [done|]. repeat case_match; done. Qed.

Definition entries (bs : list Z) (n : nat) : list (list Z) := dir_entry bs <$> seq 0 n.

Lemma entries_app bs rest n : length bs = 512%nat -> entries (bs ++ rest) (16 + n) = entries bs 16 ++ entries rest n.
Proof.
  intros Hl. unfold entries. rewrite seq_app, fmap_app. f_equal.
  - apply list_fmap_ext. intros i x Hx. apply lookup_seq in Hx as [-> Hi]. unfold dir_entry.
    rewrite drop_app_le by lia. rewrite take_app_le; [done|]. rewrite length_drop. lia.
  - change (0 + 16)%nat with 16%nat. replace (seq 16 n) with (Nat.add 16 <$> seq 0 n) by apply fmap_add_seq.
    rewrite <-list_fmap_compose.
    apply list_fmap_ext. intros i x Hx. apply lookup_seq in Hx as [-> Hi]. unfold compose, dir_entry.
    rewrite drop_app_ge by lia. do 2 f_equal. lia.
Qed.

Lemma length_entry bs i : (32 * i + 32 <= length bs)%nat -> length (dir_entry bs i) = 32%nat.
Proof. intros H. unfold dir_entry. rewrite length_take, length_drop. lia. Qed.

Lemma entry_bytes_at m a bs i : bytes_at m a bs -> bytes_at m (a + 32 * Z.of_nat i) (dir_entry bs i).
Proof.
  intros H. apply bytes_at_take. replace (a + 32 * Z.of_nat i) with (a + Z.of_nat (32 * i)) by lia.
  by apply bytes_at_drop.
Qed.

(** ** Runs *)

Lemma cmpsb_wp name di e s E (Q : bool -> lsys -> Prop) : l_a20 s = true -> bytes_at (l_mem s) di e ->
  (length name <= length e)%nat -> Q (bool_decide (take (length name) e = name)) s -> wpe (cmpsb name di) s Q E.
Proof.
  intros Ha. revert di e Q. induction name as [|c name IH]; intros di e Q Hb Hl HQ; cbn [cmpsb].
  - apply wp_ret. by rewrite bool_decide_true in HQ.
  - destruct e as [|b e]; [cbn in Hl; lia|]. cbn [length take] in *. repeat lstep.
    pose proof (Hb 0%nat b eq_refl) as E0. rewrite Z.add_0_r in E0. rewrite E0.
    destruct (b =? c) eqn:Eb; bools.
    + subst c. apply (IH (di + 1) e); [|lia|].
      { pose proof (bytes_at_drop _ _ _ 1 Hb) as H1. by cbn in H1. }
      erewrite bool_decide_ext; [exact HQ|]. split; [by intros ->|by intros [= ->]].
    + apply wp_ret. rewrite bool_decide_false in HQ by congruence. done.
Qed.

(** The scan of a sector in the buffer, with the entries from [i] left. *)
Definition scan_at (sec : list Z) (s : lsys) (n : Z) (x : Z * Z) (s' : lsys) : Prop :=
  s' = s /\ exists i, (i < 16)%nat /\ x = (SECTOR_BUF + 32 * Z.of_nat i, 16 - Z.of_nat i) /\ n = 16 - Z.of_nat i /\
    dir_scan (entries sec 16) = dir_scan (dir_entry sec <$> seq i (16 - i)).

Definition scanned (sec : list Z) (m : gmap Z Z) (r : scan) : Prop :=
  match dir_scan (entries sec 16) with
  | None => r = Exhausted
  | Some None => r = NotFound
  | Some (Some e) => exists di, r = Found di /\ bytes_at m di e /\ length e = 32%nat
  end.

Lemma skip_wp sec s i E (Q : scan -> lsys -> Prop) : (i < 16)%nat ->
  dir_scan (entries sec 16) = dir_scan (dir_entry sec <$> seq (S i) (15 - i)) ->
  (forall r, scanned sec (l_mem s) r -> Q r s) ->
  wpe (let dx := u16 (16 - Z.of_nat i - 1) in
       if negb (dx =? 0) then ret (inl (u16 (SECTOR_BUF + 32 * Z.of_nat i + 32), dx)) else ret (inr Exhausted)) s
    (fun r s' => match r with
                 | inl x' => exists m, 0 <= m < 16 - Z.of_nat i /\ scan_at sec s m x' s'
                 | inr y => Q y s'
                 end) E.
Proof.
  intros Hi Hs HQ. cbv zeta.
  assert (u16 (16 - Z.of_nat i - 1) = 15 - Z.of_nat i) as -> by (unfold u16; rewrite Z.mod_small; lia).
  destruct (15 - Z.of_nat i =? 0) eqn:E15; bools; cbn [negb]; apply wp_ret.
  - apply HQ. unfold scanned. rewrite Hs. replace (15 - i)%nat with 0%nat by lia. done.
  - exists (15 - Z.of_nat i). split; [lia|]. split; [done|]. exists (S i). split_and!; [lia| |lia|exact Hs].
    unfold u16, SECTOR_BUF. rewrite Z.mod_small by lia. f_equal; lia.
Qed.

Lemma check_entries_wp sec s E (Q : scan -> lsys -> Prop) : l_a20 s = true -> length sec = 512%nat ->
  bytes_at (l_mem s) SECTOR_BUF sec -> (forall r, scanned sec (l_mem s) r -> Q r s) -> wpe check_entries s Q E.
Proof.
  intros Ha Hl Hb HQ. unfold check_entries.
  apply (wp_loop_var _ (scan_at sec s)) with 16; [|split; [done|]; exists 0%nat; split_and!; [lia|done|done|done]|done].
  intros n x s' (-> & i & Hi & -> & -> & Hscan).
  pose proof (entry_bytes_at _ _ _ i Hb) as He. pose proof (length_entry sec i ltac:(lia)) as Hle.
  replace (16 - i)%nat with (S (15 - i)) in Hscan by lia. cbn [seq fmap list_fmap dir_scan] in Hscan.
  set (e := dir_entry sec i) in *.
  assert (ld8 (l_mem s) (SECTOR_BUF + 32 * Z.of_nat i) = lle 1 e 0) as E0.
  { rewrite <-(ld8_at (l_mem s) _ e 0 He) by lia. by rewrite Z.add_0_r. }
  pose proof (ld8_at (l_mem s) _ e 11 He ltac:(lia)) as E1. change (Z.of_nat 11) with 0x0B in E1.
  repeat lstep. rewrite E0. destruct (lle 1 e 0 =? 0) eqn:Ez.
  { apply wp_ret, HQ. unfold scanned. by rewrite Hscan. }
  destruct (lle 1 e 0 =? 0xE5) eqn:Ed; cbn [orb] in Hscan; [by apply skip_wp|]. repeat lstep. rewrite E1.
  destruct (lle 1 e 11 =? 0x0F) eqn:Ef; [by apply skip_wp|]. repeat lstep.
  apply (cmpsb_wp _ _ e); [done|done|rewrite Hle; cbn; lia|]. unfold is_kernel in Hscan.
  change (length fat16_kernel_name) with 11%nat. destruct (bool_decide (take 11 e = fat16_kernel_name)).
  - apply wp_ret, HQ. unfold scanned. rewrite Hscan. by eexists.
  - by apply skip_wp.
Qed.

Section Runs.
Context (B : bios) (drive : Z) (d : disk) (g : geom).
(** The position of the screen, which none of this changes. *)
Context (vga : Z).

(** The BIOS reads the disk: up to 127 sectors at a time, as the extended read allows. *)
Definition serves : Prop := forall n lba count, 0 <= lba -> 1 <= count <= 127 -> lba + count <= dk_size d ->
  int13 B n drive lba count = (false, sectors d lba count).

Context (Hserves : serves) (Hv : volume d g).

Definition is_dap (x : lvar) : bool := bool_decide (x ∈ [dap_count; dap_offset; dap_segment; dap_lba]).

(** The state after a read to [a]. *)
Record fetched (s : lsys) (a : Z) (bs : list Z) (s' : lsys) : Prop := {
  fe_mem : l_mem s' = st_bytes (l_mem s) a bs;
  fe_var : forall x, is_dap x = false -> l_var s' x = l_var s x;
  fe_a20 : l_a20 s' = true;
}.

Lemma read_sectors_wp lba count es bx s E (Q : bool -> lsys -> Prop) : l_a20 s = true -> l_var s boot_drive = drive ->
  0 <= lba -> 1 <= count <= 127 -> lba + count <= dk_size d -> free real_zone (es * 16 + bx) (512 * count) ->
  (forall s', fetched s (es * 16 + bx) (sectors d lba count) s' -> Q false s') ->
  wpe (read_sectors B lba count es bx) s Q E.
Proof.
  intros Ha Hdr H0 Hc Hs Hf HQ. unfold read_sectors.
  do 4 (apply wp_bind, wp_wrv). apply wp_bind, wp_rdv, wp_bind, wp_next_call. cbn [l_var set_var].
  rewrite !decide_False by done. rewrite Hdr, Hserves by done. apply wp_bind, wp_put_bytes; [done| |].
  { rewrite length_sectors by (apply Hv || lia). by rewrite Z2Nat.id by lia. }
  apply wp_ret, HQ. split; [done| |done]. intros x Hx. cbn [l_var set_mem add_call set_var].
  unfold is_dap in Hx. apply bool_decide_eq_false_1 in Hx. rewrite !decide_False by set_solver. done.
Qed.

Lemma fetched_at s a lba count s' : fetched s a (sectors d lba count) s' -> 0 <= lba -> 0 <= count ->
  lba + count <= dk_size d ->
  bytes_at (l_mem s') a (sectors d lba count) /\ same_off a (512 * count) (l_mem s) (l_mem s').
Proof.
  intros [-> _ _] H0 Hc Hs. split; [by apply st_bytes_at, sectors_bytes; [apply Hv|..]|].
  pose proof (st_bytes_off (l_mem s) a (sectors d lba count)) as H.
  rewrite length_sectors, Z2Nat.id in H by (apply Hv || lia). done.
Qed.

(** The fields of the boot sector. *)
Lemma geom_range : 0 <= g_reserved g < 65536 /\ 0 <= g_num_fats g < 256 /\ 0 <= g_root_entries g < 65536.
Proof.
  destruct (v_boot d g Hv) as [Hs Hg]. assert (Forall byte (dk_sector d 0)) as Hb by (apply (v_disk d g Hv); lia).
  rewrite Hg. cbn [geometry g_reserved g_num_fats g_root_entries]. 
  split; [apply (lle_range 2 _ _ Hb)|]. split; [apply (lle_range 1 _ _ Hb)|apply (lle_range 2 _ _ Hb)].
Qed.

(** The variables after the boot sector was parsed. *)
Record laid_out (s : lsys) : Prop := {
  lo_drive : l_var s boot_drive = drive;
  lo_vga : l_var s pm_vga_pos = vga;
  lo_spc : l_var s fat16_spc = g_spc g;
  lo_root : l_var s fat16_root_start = root_start g;
  lo_root_n : l_var s fat16_root_sectors = root_sectors g;
  lo_data : l_var s fat16_data_start = data_start g;
}.

Lemma laid_out_same s s' : laid_out s -> (forall x, is_dap x = false -> l_var s' x = l_var s x) -> laid_out s'.
Proof. intros [? ? ? ? ? ?] Hs. split; by rewrite Hs. Qed.

Lemma wp_parse2 {A} E (k : M lsys A) s Q : wpe (parse_bpb ;;; derive_layout) s (fun _ s' => wpe k s' Q E) E ->
  wpe (parse_bpb ;;; derive_layout ;;; k) s Q E.
Proof. unfold wpe, bind. destruct (parse_bpb s) as [? s1|]; [|done]. by destruct (derive_layout s1). Qed.

Lemma parse_wp s E (Q : unit -> lsys -> Prop) : l_a20 s = true -> l_var s boot_drive = drive -> l_var s pm_vga_pos = vga ->
  bytes_at (l_mem s) SECTOR_BUF (dk_sector d 0) ->
  (forall s', l_mem s' = l_mem s -> l_a20 s' = true -> laid_out s' ->
     l_var s' fat16_fat_start = g_reserved g -> l_var s' fat16_fat_size = g_fat_size g -> Q tt s') ->
  wpe (parse_bpb ;;; derive_layout) s Q E.
Proof.
  intros Ha Hdr Hvg Hb HQ. destruct geom_range as (R1 & R2 & R3). destruct (v_boot d g Hv) as [Hs Hg].
  pose proof (v_root d g Hv) as (Hr1 & Hr2 & Hr3). pose proof (v_fat d g Hv) as [Hfs _].
  assert (length (dk_sector d 0) = 512%nat) as Hl by (apply (v_disk d g Hv); lia).
  assert (forall n i, (i + n <= 512)%nat -> le n (l_mem s) (SECTOR_BUF + Z.of_nat i) = lle n (dk_sector d 0) i) as Hle.
  { intros n i Hi. apply lle_at; [done|lia]. }
  assert (forall i, (i < 512)%nat -> ld8 (l_mem s) (SECTOR_BUF + Z.of_nat i) = lle 1 (dk_sector d 0) i) as H8.
  { intros i Hi. apply ld8_at; [done|lia]. }
  unfold parse_bpb, get16, derive_layout. repeat lstep.
  unfold data_start, root_start, root_sectors in Hr1, Hr2, Hr3.
  assert (0 <= g_num_fats g * g_fat_size g) as Hp by (apply Z.mul_nonneg_nonneg; lia).
  assert (le 2 (l_mem s) (SECTOR_BUF + 0x0E) = g_reserved g) as E1 by (rewrite Hg; apply (Hle 2%nat 0x0E%nat); lia).
  assert (ld8 (l_mem s) (SECTOR_BUF + 0x10) = g_num_fats g) as E2 by (rewrite Hg; apply (H8 0x10%nat); lia).
  assert (le 2 (l_mem s) (SECTOR_BUF + 0x11) = g_root_entries g) as E3 by (rewrite Hg; apply (Hle 2%nat 0x11%nat); lia).
  assert (le 2 (l_mem s) (SECTOR_BUF + 0x16) = g_fat_size g) as E4 by (rewrite Hg; apply (Hle 2%nat 0x16%nat); lia).
  assert (ld8 (l_mem s) (SECTOR_BUF + 0x0D) = g_spc g) as E5 by (rewrite Hg; apply (H8 0x0D%nat); lia).
  clear Hg.
  vars. rewrite E1, E2, E3, E4, E5, Z.shiftr_div_pow2 by lia. change (2 ^ 4) with 16.
  assert (u16 (g_num_fats g * g_fat_size g) = g_num_fats g * g_fat_size g) as -> by (apply Z.mod_small; lia).
  assert (u16 (g_num_fats g * g_fat_size g + g_reserved g) = g_reserved g + g_num_fats g * g_fat_size g) as ->.
  { unfold u16. rewrite Z.mod_small; lia. }
  assert (u16 (g_root_entries g / 16 + (g_reserved g + g_num_fats g * g_fat_size g)) = data_start g) as ->.
  { unfold u16, data_start, root_start, root_sectors. rewrite Z.mod_small; lia. }
  apply HQ; [done|done| | |]; [split|..]; vars; done.
Qed.

(** The FAT is cached, memory is otherwise the same outside the two buffers. *)
Record fat_ready (s s' : lsys) : Prop := {
  fr_vars : laid_out s';
  fr_a20 : l_a20 s' = true;
  fr_fat : bytes_at (l_mem s') FAT_BUF (sectors d (g_reserved g) (g_fat_size g));
  fr_mem : forall p, p < 0x500 \/ 0x700 <= p < 0x1000 \/ 0x6000 <= p -> ld8 (l_mem s') p = ld8 (l_mem s) p;
}.

Lemma laid_out_printed s s' : printed s s' -> laid_out s -> laid_out s'.
Proof. by intros [o ->] [? ? ? ? ? ?]. Qed.

Lemma fat16_init_wp s E (Q : unit -> lsys -> Prop) : l_a20 s = true -> l_var s boot_drive = drive -> l_var s pm_vga_pos = vga ->
  (forall s', fat_ready s s' -> Q tt s') -> wpe (fat16_init B) s Q E.
Proof.
  intros Ha Hdr Hvg HQ. destruct (v_boot d g Hv) as [Hs _]. pose proof (v_fat d g Hv) as [Hf1 Hf2].
  destruct geom_range as (R1 & _). unfold fat16_init. apply wp_bind, print_string_wp. intros s1 [o ->].
  apply wp_bind, read_sectors_wp; [done|done|lia|lia|lia| |].
  { intros p Hp. apply real_free. unfold SECTOR_BUF in Hp. lia. }
  intros s2 F2. destruct (fetched_at _ _ _ _ _ F2) as [B2 M2]; [lia..|]. rewrite sectors_one in B2.
  destruct F2 as [_ V2 A2]. apply (wp_parse2 E). apply parse_wp; [done|by rewrite V2|by rewrite V2|exact B2|].
  intros s3 Em A3 Hlo E1 E2. repeat lstep. rewrite E1, E2.
  apply read_sectors_wp; [done|apply Hlo|lia|lia|lia| |].
  { intros p Hp. apply real_free. unfold FAT_BUF in Hp. lia. }
  intros s4 F4. destruct (fetched_at _ _ _ _ _ F4) as [B4 M4]; [lia..|]. destruct F4 as [_ V4 A4].
  apply print_string_wp. intros s5 [o' ->]. apply HQ. split; [by eapply laid_out_same|done|exact B4|].
  intros p Hp. cbn [l_mem]. rewrite M4 by (unfold FAT_BUF; lia). rewrite Em. by rewrite M2 by (unfold SECTOR_BUF; lia).
Qed.

(** *** Finding the file *)

(** The state while the directory is searched. *)
Record searching (s s' : lsys) : Prop := {
  se_vars : laid_out s';
  se_a20 : l_a20 s' = true;
  se_mem : same_off SECTOR_BUF 512 (l_mem s) (l_mem s');
}.

(** What the search returns. *)
Definition find_result (r : option (list Z)) (ax : Z) (s' : lsys) : Prop :=
  match r with
  | None => ax = 0
  | Some e => ax = lle 2 e 0x1A /\ l_var s' fat16_file_size = lle 4 e 0x1C
  end.

Lemma searching_printed s s1 s2 : searching s s1 -> printed s1 s2 -> searching s s2.
Proof. intros [H1 H2 H3] [o ->]. split; [|done|done]. by destruct H1. Qed.

Lemma not_found_wp s s1 E (Q : Z -> lsys -> Prop) : searching s s1 -> (forall s', searching s s' -> Q 0 s') ->
  wpe find_not_found s1 Q E.
Proof.
  intros Hs HQ. unfold find_not_found. apply wp_bind, print_string_wp. intros s2 H2. apply wp_ret, HQ.
  by eapply searching_printed.
Qed.

Lemma found_wp s s1 di e E (Q : Z -> lsys -> Prop) : searching s s1 -> bytes_at (l_mem s1) di e -> length e = 32%nat ->
  (forall ax s', searching s s' -> find_result (Some e) ax s' -> Q ax s') -> wpe (find_found di) s1 Q E.
Proof.
  intros Hs Hb Hl HQ. pose proof (se_a20 _ _ Hs) as Ha. unfold find_found, get32, get16. repeat lstep.
  rewrite set_var_mem. apply print_string_wp. intros s2 [o ->]. apply wp_ret, HQ.
  - destruct Hs as [[? ? ? ? ? ?] ? ?]. done.
  - split.
    + change 0x1A with (Z.of_nat 26). apply lle_at; [done|lia].
    + cbn [l_var]. rewrite set_var_eq. change 0x1C with (Z.of_nat 28). apply lle_at; [done|lia].
Qed.

(** One sector of the directory. *)
Definition find_at (s : lsys) (n : Z) (x : Z * Z) (s' : lsys) : Prop :=
  searching s s' /\ exists lba cx, x = (lba, cx) /\ n = cx /\ root_start g <= lba /\ 1 <= cx < 65536 /\
    lba + cx = data_start g /\
    dir_find (root_dir d g) = dir_find (entries (sectors d lba cx) (Z.to_nat (16 * cx))).

Lemma root_start_nonneg : 0 <= root_start g.
Proof.
  destruct geom_range as (R1 & R2 & _). pose proof (v_fat d g Hv). unfold root_start.
  assert (0 <= g_num_fats g * g_fat_size g) by (apply Z.mul_nonneg_nonneg; lia). lia.
Qed.

Lemma find_turn s x n s1 E (Q : Z -> lsys -> Prop) : find_at s n x s1 ->
  (forall ax s', searching s s' -> find_result (dir_find (root_dir d g)) ax s' -> Q ax s') ->
  wpe (let '(eax, cx) := x in
    carry <- read_sectors B eax 1 0 SECTOR_BUF ;;
    if (carry : bool) then ax <- find_not_found ;; ret (inr ax) else
    r <- check_entries ;;
    match r with
    | NotFound => ax <- find_not_found ;; ret (inr ax)
    | Found di => ax <- find_found di ;; ret (inr ax)
    | Exhausted =>
        let eax := eax +u 1 in
        let cx := u16 (cx - 1) in
        if negb (cx =? 0) then ret (inl (eax, cx)) else ret (inr 0)
    end) s1 (fun r s' => match r with
                         | inl x' => exists m, 0 <= m < n /\ find_at s m x' s'
                         | inr y => Q y s'
                         end) E.
Proof.
  intros (Hs1 & lba & cx & -> & -> & Hl1 & Hcx & Hsum & Hdir) HQ. pose proof root_start_nonneg as H0.
  pose proof (v_root d g Hv) as (_ & Hr2 & Hr3). pose proof Hs1 as [Hlo Ha Hm].
  apply wp_bind, read_sectors_wp; [done|apply Hlo|lia|lia|lia| |].
  { intros p Hp. apply real_free. unfold SECTOR_BUF in Hp. lia. }
  intros s2 F2. destruct (fetched_at _ _ _ _ _ F2) as [B2 M2]; [lia..|]. rewrite sectors_one in B2.
  destruct F2 as [_ V2 A2].
  assert (searching s s2) as Hs2.
  { split; [by eapply laid_out_same|done|]. intros p Hp. by rewrite M2, Hm. }
  assert (length (dk_sector d lba) = 512%nat) as Hlen by (apply (v_disk d g Hv); lia).
  apply wp_bind, (check_entries_wp (dk_sector d lba)); [done|done|exact B2|]. intros r Hr.
  rewrite (sectors_cons d lba cx), (dir_find_scan (entries _ _)) in Hdir by lia.
  replace (Z.to_nat (16 * cx)) with (16 + Z.to_nat (16 * (cx - 1)))%nat in Hdir by lia.
  rewrite entries_app, dir_scan_app in Hdir by done. unfold scanned in Hr.
  destruct (dir_scan (entries (dk_sector d lba) 16)) as [[e|]|].
  - destruct Hr as (di & -> & Hat & Hle). apply wp_bind, (found_wp s s2 di e); [done|done|done|].
    intros ax s3 Hs3 Hres. apply wp_ret, HQ; [done|]. by rewrite Hdir.
  - subst r. apply wp_bind, (not_found_wp s s2); [done|]. intros s3 Hs3. apply wp_ret, HQ; [done|]. by rewrite Hdir.
  - subst r. cbv zeta. assert (u16 (cx - 1) = cx - 1) as -> by (unfold u16; apply Z.mod_small; lia).
    assert (lba +u 1 = lba + 1) as -> by (apply Z.mod_small; lia).
    destruct (cx - 1 =? 0) eqn:Ec; bools; cbn [negb]; apply wp_ret.
    + apply HQ; [done|]. rewrite Hdir. by replace (cx - 1) with 0 by lia.
    + exists (cx - 1). split; [lia|]. split; [done|]. exists (lba + 1), (cx - 1).
      split_and!; [done|done|lia|lia|lia|lia|]. by rewrite Hdir, (dir_find_scan (entries _ _)).
Qed.

Lemma fat16_find_wp s E (Q : Z -> lsys -> Prop) : laid_out s -> l_a20 s = true ->
  (forall ax s', searching s s' -> find_result (dir_find (root_dir d g)) ax s' -> Q ax s') ->
  wpe (fat16_find_file B) s Q E.
Proof.
  intros Hlo Ha HQ. pose proof (v_root d g Hv) as (Hr1 & Hr2 & Hr3). pose proof root_start_nonneg as H0.
  assert (searching s s) as Hs by (split; [done|done|by intros p]).
  unfold fat16_find_file. apply wp_bind, print_string_wp. intros s1 Hp. pose proof (searching_printed _ _ _ Hs Hp) as Hs1.
  repeat lstep. rewrite (lo_root _ (se_vars _ _ Hs1)), (lo_root_n _ (se_vars _ _ Hs1)).
  apply (wp_loop_var _ (find_at s)) with (root_sectors g); [| |unfold data_start in *; lia].
  - intros n x s2 Hat. by apply find_turn.
  - split; [done|]. exists (root_start g), (root_sectors g). unfold data_start in *. split_and!; try done; lia.
Qed.

(** *** Loading the file *)

(** A cluster whose sectors are on the disk, below sector 65536, and whose FAT entry is in the
    cache. *)
Definition cluster_ok (c : Z) : Prop :=
  2 <= c /\ 2 * c + 2 <= 512 * g_fat_size g /\
  data_start g + (c - 1) * g_spc g <= dk_size d /\ data_start g + (c - 1) * g_spc g <= 65536.

Definition cluster_size : Z := 512 * g_spc g.

Lemma data_start_nonneg : 0 <= data_start g.
Proof. pose proof root_start_nonneg. pose proof (v_root d g Hv). unfold data_start. lia. Qed.

Lemma cluster_lba c : cluster_ok c -> u16 (u16 (u16 (c - 2) * g_spc g) + data_start g) = data_start g + (c - 2) * g_spc g.
Proof.
  intros (H1 & H2 & _ & H3). pose proof (v_fat d g Hv). pose proof (v_spc d g Hv). pose proof data_start_nonneg.
  assert (0 <= (c - 2) * g_spc g) by (apply Z.mul_nonneg_nonneg; lia).
  replace ((c - 1) * g_spc g) with ((c - 2) * g_spc g + g_spc g) in H3 by lia.
  assert (u16 (c - 2) = c - 2) as -> by (apply Z.mod_small; lia).
  assert (u16 ((c - 2) * g_spc g) = (c - 2) * g_spc g) as -> by (apply Z.mod_small; lia).
  unfold u16. rewrite Z.mod_small; lia.
Qed.

Lemma length_cluster c : cluster_ok c -> Z.of_nat (length (cluster_bytes d g c)) = cluster_size.
Proof.
  intros (H1 & _ & H2 & _). pose proof (v_spc d g Hv). pose proof data_start_nonneg.
  assert (0 <= (c - 2) * g_spc g) by (apply Z.mul_nonneg_nonneg; lia).
  unfold cluster_bytes, cluster_size. rewrite length_sectors by (apply Hv || lia). lia.
Qed.

Lemma length_file cs : Forall cluster_ok cs ->
  Z.of_nat (length (file_bytes d g cs)) = cluster_size * Z.of_nat (length cs).
Proof.
  induction 1 as [|c cs Hc _ IH]; [cbn; lia|]. unfold file_bytes in *. cbn. rewrite length_app, Nat2Z.inj_add, IH.
  rewrite length_cluster by done. lia.
Qed.

(** After the clusters [pre], with [cs] to come. *)
Record loading (s : lsys) (pre cs : list Z) (s' : lsys) : Prop := {
  ld_vars : laid_out s';
  ld_a20 : l_a20 s' = true;
  ld_seg : l_var s' fat16_load_seg = KERNEL_SEG + 32 * g_spc g * Z.of_nat (length pre);
  ld_next : chain (fat_of d g) (l_var s' fat16_curr_cluster) cs;
  ld_file : bytes_at (l_mem s') 0x10000 (file_bytes d g pre);
  ld_mem : same_off 0x10000 (cluster_size * Z.of_nat (length pre)) (l_mem s) (l_mem s');
}.

(** The whole file is in memory. *)
Record loaded (s : lsys) (cs : list Z) (s' : lsys) : Prop := {
  lf_drive : l_var s' boot_drive = drive;
  lf_vga : l_var s' pm_vga_pos = vga;
  lf_a20 : l_a20 s' = true;
  lf_file : bytes_at (l_mem s') 0x10000 (file_bytes d g cs);
  lf_mem : same_off 0x10000 (cluster_size * Z.of_nat (length cs)) (l_mem s) (l_mem s');
}.

Lemma file_bytes_snoc pre c : file_bytes d g (pre ++ [c]) = file_bytes d g pre ++ cluster_bytes d g c.
Proof. unfold file_bytes. rewrite fmap_app, concat_app. cbn. by rewrite app_nil_r. Qed.

(** The FAT entry of a cluster, read from the cache. *)
Lemma fat_read m c : bytes_at m FAT_BUF (sectors d (g_reserved g) (g_fat_size g)) -> cluster_ok c ->
  le 2 m (u16 (u16 (c * 2) + FAT_BUF)) = fat_of d g c.
Proof.
  intros Hb (H1 & H2 & _). pose proof (v_fat d g Hv) as [Hf1 Hf2]. destruct geom_range as (R1 & _).
  assert (u16 (c * 2) = 2 * c) as -> by (unfold u16; rewrite Z.mod_small; lia).
  assert (u16 (2 * c + FAT_BUF) = FAT_BUF + Z.of_nat (Z.to_nat (2 * c))) as ->.
  { unfold u16, FAT_BUF. rewrite Z.mod_small; lia. }
  apply lle_at; [done|]. rewrite length_sectors by (apply Hv || lia). lia.
Qed.

Section Load.
Context (s : lsys) (all : list Z).
Context (Hall : Forall cluster_ok all) (Hsize : cluster_size * Z.of_nat (length all) <= 0xE0000).
Context (Hfat : bytes_at (l_mem s) FAT_BUF (sectors d (g_reserved g) (g_fat_size g))).

Lemma fat_kept n s' : same_off 0x10000 n (l_mem s) (l_mem s') ->
  bytes_at (l_mem s') FAT_BUF (sectors d (g_reserved g) (g_fat_size g)).
Proof.
  intros Hm. pose proof (v_fat d g Hv) as [Hf1 Hf2]. destruct geom_range as (R1 & _).
  eapply bytes_at_same; [exact Hfat|]. intros p Hp. apply Hm.
  rewrite length_sectors in Hp by (apply Hv || lia). unfold FAT_BUF in Hp. lia.
Qed.

(** A cluster is appended to the file. *)
Lemma load_turn pre c cs s1 E (Q : unit + unit -> lsys -> Prop) : all = pre ++ c :: cs -> loading s pre (c :: cs) s1 ->
  l_var s1 fat16_curr_cluster = c ->
  (forall s', 0xFFF8 <= fat_of d g c -> loaded s (pre ++ [c]) s' -> Q (inr tt) s') ->
  (forall s', fat_of d g c < 0xFFF8 -> l_var s' fat16_curr_cluster = fat_of d g c ->
     (chain (fat_of d g) (fat_of d g c) cs -> loading s (pre ++ [c]) cs s') -> Q (inl tt) s') ->
  wpe (load_cluster B) s1 Q E.
Proof.
  intros Eall [Hlo Ha Hseg _ Hfile Hmem] Hcur HQr HQl.
  assert (cluster_ok c) as Hc by (rewrite Forall_forall in Hall; apply Hall; rewrite Eall; set_solver).
  pose proof (v_spc d g Hv) as Hspc. pose proof data_start_nonneg as Hds. pose proof Hc as (Hc1 & Hc2 & Hc3 & Hc4).
  assert (0 <= (c - 2) * g_spc g) as Hp0 by (apply Z.mul_nonneg_nonneg; lia).
  assert (length all = S (length pre + length cs)) as Hlen by (rewrite Eall, length_app; cbn; lia).
  assert (Forall cluster_ok pre) as Hpre by (rewrite Eall in Hall; by apply Forall_app in Hall as [? _]).
  set (k := Z.of_nat (length pre)) in *. unfold cluster_size in *.
  assert (512 * g_spc g * (k + 1) <= 0xE0000) as Hk by nia. assert (0 <= g_spc g * k) as Hk0 by nia.
  unfold load_cluster, get16. repeat lstep. rewrite Hcur, (lo_spc _ Hlo), (lo_data _ Hlo), Hseg, cluster_lba by done.
  replace (KERNEL_SEG + 32 * g_spc g * k) with (4096 + 32 * (g_spc g * k)) by (unfold KERNEL_SEG; lia).
  apply read_sectors_wp; [done|apply Hlo|lia|lia|lia| |].
  { intros p Hp. apply real_free. lia. }
  replace ((4096 + 32 * (g_spc g * k)) * 16 + 0) with (0x10000 + 512 * g_spc g * k) by lia.
  intros s2 F2. destruct (fetched_at _ _ _ _ _ F2) as [B2 M2]; [lia..|]. destruct F2 as [_ V2 A2].
  pose proof (laid_out_same _ _ Hlo V2) as Hlo2. repeat lstep.
  assert (same_off 0x10000 (512 * g_spc g * (k + 1)) (l_mem s) (l_mem s2)) as Hm2.
  { intros p Hp. rewrite M2 by lia. apply Hmem. lia. }
  vars. rewrite (lo_spc _ Hlo2), !V2, Hcur, Hseg by done. rewrite fat_read by (by eapply fat_kept || done).
  assert (bytes_at (l_mem s2) 0x10000 (file_bytes d g (pre ++ [c]))) as Hf2.
  { rewrite file_bytes_snoc. apply bytes_at_app; rewrite ?length_file by done.
    - eapply bytes_at_same; [exact Hfile|]. intros p Hp. rewrite length_file in Hp by done. apply M2. unfold cluster_size in *. lia.
    - exact B2. }
  assert (u16 (KERNEL_SEG + 32 * g_spc g * k + u16 (g_spc g * 32)) = KERNEL_SEG + 32 * g_spc g * (k + 1)) as ->.
  { unfold u16, KERNEL_SEG. rewrite (Z.mod_small (g_spc g * 32)), Z.mod_small; lia. }
  assert (Z.of_nat (length (pre ++ [c])) = k + 1) as Hl1 by (rewrite length_app; cbn; lia).
  destruct (fat_of d g c <? 0xFFF8) eqn:Ef; bools.
  - apply wp_ret, HQl; [done|by vars|]. intros Hch. split; vars; [|done|by rewrite Hl1|done|done|by rewrite Hl1].
    destruct Hlo2. split; by vars.
  - apply wp_bind, print_string_wp. intros s3 [o ->]. apply wp_ret, HQr; [done|].
    split; cbn [l_var l_a20 l_mem]; vars; [apply Hlo2|apply Hlo2|done|done|by rewrite Hl1].
Qed.

Lemma fat16_load_wp ax E (Q : unit -> lsys -> Prop) : laid_out s -> l_a20 s = true -> chain (fat_of d g) ax all ->
  (forall s', loaded s all s' -> Q tt s') -> wpe (fat16_load_file B ax) s Q E.
Proof.
  intros Hlo Ha Hch HQ. unfold fat16_load_file. repeat lstep.
  apply (wp_loop_var _ (fun n _ s' => exists pre cs, all = pre ++ cs /\ n = Z.of_nat (length cs) /\ loading s pre cs s'))
    with (Z.of_nat (length all)).
  - intros n [] s1 (pre & cs & Eall & -> & Hld). pose proof (ld_next _ _ _ _ Hld) as Hn.
    inversion Hn as [c Hf Ec Ecs|c cs' Hf Hn' Ec Ecs]; subst cs.
    + eapply (load_turn pre _ []); [exact Eall|exact Hld|done| |].
      * intros s' _ Hl. apply HQ. by rewrite Eall.
      * intros s' Hlt. lia.
    + eapply (load_turn pre _ cs'); [exact Eall|exact Hld|done| |].
      * intros s' Hge. lia.
      * intros s' _ Hc Hl. exists (Z.of_nat (length cs')). split; [cbn; lia|].
        exists (pre ++ [l_var s1 fat16_curr_cluster]), cs'. split; [by rewrite <-app_assoc|]. split; [done|by apply Hl].
  - exists [], all. split; [done|]. split; [done|]. split; cbn [l_var l_a20 l_mem]; vars; try done.
    + destruct Hlo. split; by vars.
    + cbn. unfold KERNEL_SEG. lia.
  - unfold cluster_size in Hsize. pose proof (v_spc d g Hv). nia.
Qed.
End Load.
End Runs.
