(* ===== verification/Elf.v ===== *)
(** * The ELF loader ([boot/stage2.asm])

    [elf_load] checks the header of the file at 0x10000, copies its PT_LOAD segments to their
    physical addresses, zero-fills the rest of each and keeps the entry point. *)

From stdpp Require Import base gmap list numbers option strings.
From Stdlib Require Import ZArith Lia.
From S2P Require Import Prelude Machine Terminal LoaderState Fat16.

Definition ELF_BASE : Z := 0x10000.

(** [rep movsb] and [rep stosb] with the direction flag clear; the result is EDI. *)
Definition rep_movsb (esi edi ecx : Z) : M lsys Z :=
  loop (fun '(esi, edi, ecx) =>
    if ecx =? 0 then ret (inr edi) else
    b <- get8 esi ;;
    put8 pm_zone edi b ;;;
    ret (inl (esi +u 1, edi +u 1, ecx -u 1))) (esi, edi, ecx).

Definition rep_stosb (al edi ecx : Z) : M lsys Z :=
  loop (fun '(edi, ecx) =>
    if ecx =? 0 then ret (inr edi) else
    put8 pm_zone edi al ;;;
    ret (inl (edi +u 1, ecx -u 1))) (edi, ecx).

(** [.elf_bad]. *)
Definition elf_bad : M lsys unit :=
  pm_print_line "[FAIL] Invalid ELF binary!" ;;; stop_with Halted.

(** One program header at EBX. *)
Definition elf_segment (ebx : Z) : M lsys unit :=
  p_type <- get32 (ebx + 0) ;;
  if negb (p_type =? 1) then ret tt else
  off <- get32 (ebx + 4) ;;
  edi <- get32 (ebx + 12) ;;
  ecx <- get32 (ebx + 16) ;;
  edi <- rep_movsb (off +u ELF_BASE) edi ecx ;;
  memsz <- get32 (ebx + 20) ;;
  filesz <- get32 (ebx + 16) ;;
  if memsz <=? filesz then ret tt else
  rep_stosb 0 edi (memsz -u filesz) ;;; ret tt.

(** [.elf_phdr_loop]. *)
Definition elf_phdrs (ebx ecx : Z) : M lsys unit :=
  loop (fun '(ebx, ecx) =>
    if ecx =? 0 then ret (inr tt) else
    elf_segment ebx ;;;
    eax <- rdv elf_phentsize ;;
    ret (inl (ebx +u eax, ecx -u 1))) (ebx, ecx).

(** [.elf_done]: the message and the entry point on the screen. *)
Definition elf_done : M lsys unit :=
  edi <- rdv pm_vga_pos ;;
  edi <- pm_put edi (bytes_of "ELF: loaded, entry 0x") ;;
  eax <- rdv kernel_entry ;;
  pm_print_hex32 eax edi ;;;
  next_line.

Definition elf_load : M lsys unit :=
  magic <- get32 ELF_BASE ;;
  if negb (magic =? 0x464C457F) then elf_bad else
  class <- get8 (ELF_BASE + 4) ;;
  if negb (class =? 1) then elf_bad else
  data <- get8 (ELF_BASE + 5) ;;
  if negb (data =? 1) then elf_bad else
  type <- get16 (ELF_BASE + 16) ;;
  if negb (type =? 2) then elf_bad else
  mach <- get16 (ELF_BASE + 18) ;;
  if negb (mach =? 3) then elf_bad else
  eax <- get32 (ELF_BASE + 24) ;; wrv kernel_entry eax ;;;
  eax <- get32 (ELF_BASE + 28) ;; wrv elf_phoff eax ;;;
  ax <- get16 (ELF_BASE + 42) ;; wrv elf_phentsize ax ;;;
  ax <- get16 (ELF_BASE + 44) ;; wrv elf_phnum ax ;;;
  ebx <- rdv elf_phoff ;;
  ecx <- rdv elf_phnum ;;
  elf_phdrs (ebx +u ELF_BASE) ecx ;;;
  elf_done.

(** ** ELF files *)

Definition elf_valid (file : list Z) : bool :=
  (lle 4 file 0 =? 0x464C457F) && (lle 1 file 4 =? 1) && (lle 1 file 5 =? 1) && (lle 2 file 16 =? 2) && (lle 2 file 18 =? 3).
Definition e_entry (file : list Z) : Z := lle 4 file 24.
Definition e_phoff (file : list Z) : Z := lle 4 file 28.
Definition e_phentsize (file : list Z) : Z := lle 2 file 42.
Definition e_phnum (file : list Z) : Z := lle 2 file 44.

Record phdr := Phdr { p_type : Z; p_offset : Z; p_paddr : Z; p_filesz : Z; p_memsz : Z }.

Definition phdr_at (file : list Z) (i : nat) : phdr :=
  Phdr (lle 4 file i) (lle 4 file (i + 4)) (lle 4 file (i + 12)) (lle 4 file (i + 16)) (lle 4 file (i + 20)).

Definition phdrs (file : list Z) : list phdr :=
  (fun i => phdr_at file (Z.to_nat (e_phoff file + e_phentsize file * i))) <$> seqZ 0 (e_phnum file).

(** What a segment looks like in memory, and the memory with every segment in it. *)
Definition segment_bytes (file : list Z) (h : phdr) : list Z :=
  take (Z.to_nat (p_filesz h)) (drop (Z.to_nat (p_offset h)) file) ++
  replicate (Z.to_nat (p_memsz h - p_filesz h)) 0.

Definition load_segment (file : list Z) (m : gmap Z Z) (h : phdr) : gmap Z Z :=
  if p_type h =? 1 then st_bytes m (p_paddr h) (segment_bytes file h) else m.

(** The segments lie in the file, and in memory at 1 MB or above. *)
Definition segment_ok (file : list Z) (h : phdr) : Prop :=
  p_type h = 1 -> p_offset h + p_filesz h <= Z.of_nat (length file) /\ 0x100000 <= p_paddr h /\
    p_paddr h + p_filesz h < 4294967296 /\ p_paddr h + p_memsz h < 4294967296.

Record elf_ok (file : list Z) : Prop := {
  eo_bytes : Forall byte file;
  eo_len : 52 <= Z.of_nat (length file) <= 0x7F000;
  eo_phdrs : forall i, 0 <= i < e_phnum file ->
    e_phoff file + e_phentsize file * i + 24 <= Z.of_nat (length file);
  eo_segments : Forall (segment_ok file) (phdrs file);
}.

(** ** String instructions *)

Lemma st_bytes_app m a bs bs' : st_bytes m a (bs ++ bs') = st_bytes (st_bytes m a bs) (a + Z.of_nat (length bs)) bs'.
Proof.
  revert m a. induction bs as [|b bs IH]; intros m a; cbn [app st_bytes length]; [by rewrite Z.add_0_r|].
  rewrite IH. f_equal. lia.
Qed.

Lemma st_bytes_snoc m a bs b : st_bytes m a (bs ++ [b]) = st8 (st_bytes m a bs) (a + Z.of_nat (length bs)) b.
Proof. by rewrite st_bytes_app. Qed.

Lemma movsb_wp src esi edi s E (Q : Z -> lsys -> Prop) : let n := Z.of_nat (length src) in l_a20 s = true ->
  bytes_at (l_mem s) esi src -> free pm_zone edi n -> 0 <= esi -> esi + n <= edi -> edi + n < 4294967296 ->
  Q (edi + n) (set_mem (st_bytes (l_mem s) edi src) s) -> wpe (rep_movsb esi edi n) s Q E.
Proof.
  intros n Ha Hb Hf He Hd Hw HQ. assert (n = Z.of_nat (length src)) as Hn by done. clearbody n. unfold rep_movsb.
  apply (wp_loop_var _ (fun v x s' => exists k, (k <= length src)%nat /\ v = n - Z.of_nat k /\
    x = (esi + Z.of_nat k, edi + Z.of_nat k, n - Z.of_nat k) /\
    s' = set_mem (st_bytes (l_mem s) edi (take k src)) s)) with n; [| |lia].
  2:{ exists 0%nat. rewrite !Z.add_0_r, Z.sub_0_r. split_and!; [lia|done|done|]. by destruct s. }
  intros v x s' (k & Hk & -> & -> & ->). destruct (n - Z.of_nat k =? 0) eqn:Ek; bools.
  - apply wp_ret. replace (edi + Z.of_nat k) with (edi + n) by lia. rewrite take_ge by lia. done.
  - destruct (lookup_lt_is_Some_2 src k ltac:(lia)) as [b Hkb]. repeat lstep.
    assert (ld8 (l_mem (set_mem (st_bytes (l_mem s) edi (take k src)) s)) (esi + Z.of_nat k) = b) as ->.
    { cbn [l_mem set_mem]. rewrite st_bytes_off; [by apply Hb|]. left. lia. }
    apply wp_put8; [done|apply Hf; lia|]. repeat lstep. exists (n - Z.of_nat (S k)). split; [lia|]. exists (S k).
    rewrite !u32_small by (unfold is32; lia). split_and!; [lia|done|apply f_equal2; [apply f_equal2|]; lia|].
    cbn [l_mem set_mem l_var l_a20 l_calls l_out]. rewrite (take_S_r _ _ b), st_bytes_snoc, length_take by done.
    rewrite Nat.min_l by lia. done.
Qed.

Lemma stosb_wp al edi n s E (Q : Z -> lsys -> Prop) : l_a20 s = true -> free pm_zone edi n -> 0 <= n ->
  0 <= edi -> edi + n < 4294967296 ->
  Q (edi + n) (set_mem (st_bytes (l_mem s) edi (replicate (Z.to_nat n) al)) s) -> wpe (rep_stosb al edi n) s Q E.
Proof.
  intros Ha Hf Hn Hd Hw HQ. unfold rep_stosb.
  apply (wp_loop_var _ (fun v x s' => exists k, Z.of_nat k <= n /\ v = n - Z.of_nat k /\
    x = (edi + Z.of_nat k, n - Z.of_nat k) /\
    s' = set_mem (st_bytes (l_mem s) edi (replicate k al)) s)) with n; [| |lia].
  2:{ exists 0%nat. rewrite !Z.add_0_r, Z.sub_0_r. split_and!; [lia|done|done|]. by destruct s. }
  intros v x s' (k & Hk & -> & -> & ->). destruct (n - Z.of_nat k =? 0) eqn:Ek; bools.
  - apply wp_ret. replace (edi + Z.of_nat k) with (edi + n) by lia. replace k with (Z.to_nat n) by lia. done.
  - apply wp_bind, wp_put8; [done|apply Hf; lia|]. repeat lstep. exists (n - Z.of_nat (S k)). split; [lia|]. exists (S k).
    rewrite !u32_small by (unfold is32; lia). split_and!; [lia|done|apply f_equal2; lia|].
    cbn [l_mem set_mem l_var l_a20 l_calls l_out]. rewrite replicate_S_end, st_bytes_snoc, length_replicate. done.
Qed.

(** ** Segments *)

Section Load.
Context (file : list Z) (Hok : elf_ok file).

Lemma file_range n i : 0 <= lle n file i < 256 ^ Z.of_nat n.
Proof. apply lle_range, Hok. Qed.

Lemma segment_length h : segment_ok file h -> p_type h = 1 -> 0 <= p_offset h -> 0 <= p_filesz h -> 0 <= p_memsz h ->
  Z.of_nat (length (segment_bytes file h)) = Z.max (p_filesz h) (p_memsz h) /\ Forall byte (segment_bytes file h).
Proof.
  intros Hs Ht H1 H2 H3. destruct (Hs Ht) as (Hl & _). unfold segment_bytes. split.
  - rewrite length_app, length_take, length_drop, length_replicate. lia.
  - apply Forall_app. split; [by apply Forall_take, Forall_drop, Hok|]. by apply Forall_replicate.
Qed.

(** The file stays where it is while segments are stored. *)
Lemma load_segment_low m h : segment_ok file h -> forall p, p < 0x100000 -> ld8 (load_segment file m h) p = ld8 m p.
Proof.
  intros Hs p Hp. unfold load_segment. destruct (p_type h =? 1) eqn:Et; bools; [|done].
  destruct (Hs Et) as (_ & Ha & _). apply st_bytes_off. lia.
Qed.

Lemma file_same m m' : bytes_at m ELF_BASE file -> (forall p, p < 0x100000 -> ld8 m' p = ld8 m p) ->
  bytes_at m' ELF_BASE file.
Proof.
  intros Hb Hs. eapply bytes_at_same; [exact Hb|]. intros p Hp. apply Hs. pose proof (eo_len _ Hok).
  unfold ELF_BASE in Hp. lia.
Qed.

Lemma elf_segment_wp i s E (Q : unit -> lsys -> Prop) : let h := phdr_at file i in l_a20 s = true ->
  bytes_at (l_mem s) ELF_BASE file -> (i + 24 <= length file)%nat -> segment_ok file h ->
  Q tt (set_mem (load_segment file (l_mem s) h) s) -> wpe (elf_segment (ELF_BASE + Z.of_nat i)) s Q E.
Proof.
  intros h Ha Hb Hi Hs HQ. pose proof (eo_len _ Hok) as Hlen.
  assert (forall k, (k <= 20)%nat -> le 4 (l_mem s) (ELF_BASE + Z.of_nat i + Z.of_nat k) = lle 4 file (i + k)) as Hf.
  { intros k Hk. rewrite <-(lle_at 4 (l_mem s) ELF_BASE) by (done || lia). f_equal. lia. }
  pose proof (Hf 0%nat ltac:(lia)) as F0. rewrite Nat.add_0_r in F0. pose proof (Hf 4%nat ltac:(lia)) as F1.
  pose proof (Hf 12%nat ltac:(lia)) as F2. pose proof (Hf 16%nat ltac:(lia)) as F3. pose proof (Hf 20%nat ltac:(lia)) as F4.
  change (Z.of_nat 0) with 0 in F0. change (Z.of_nat 4) with 4 in F1. change (Z.of_nat 12) with 12 in F2.
  change (Z.of_nat 16) with 16 in F3. change (Z.of_nat 20) with 20 in F4. clear Hf.
  pose proof (file_range 4 (i + 4)) as R1. pose proof (file_range 4 (i + 12)) as R2.
  pose proof (file_range 4 (i + 16)) as R3. pose proof (file_range 4 (i + 20)) as R4.
  change (256 ^ Z.of_nat 4) with 4294967296 in *. unfold load_segment, segment_ok in *.
  subst h. cbn [p_type p_offset p_paddr p_filesz p_memsz phdr_at] in *.
  unfold elf_segment, get32. repeat lstep. rewrite F0. destruct (lle 4 file i =? 1) eqn:Et; bools; cbn [negb].
  2:{ apply wp_ret. by destruct s. }
  destruct (Hs Et) as (Ho & Hp & Hw1 & Hw2). repeat lstep. rewrite F1, F2, F3.
  set (fs := lle 4 file (i + 16)) in *. set (ms := lle 4 file (i + 20)) in *. set (pa := lle 4 file (i + 12)) in *.
  set (po := lle 4 file (i + 4)) in *. set (src := take (Z.to_nat fs) (drop (Z.to_nat po) file)).
  assert (Z.of_nat (length src) = fs) as Hls by (unfold src; rewrite length_take, length_drop; lia).
  assert (po +u ELF_BASE = ELF_BASE + Z.of_nat (Z.to_nat po)) as ->.
  { unfold ELF_BASE. rewrite u32_small by (unfold is32; lia). lia. }
  rewrite <-Hls at 1. apply movsb_wp; [done| | |unfold ELF_BASE; lia|unfold ELF_BASE; lia|lia|].
  { by apply bytes_at_take, bytes_at_drop. }
  { intros p Hpp. apply pm_free. lia. }
  repeat lstep. cbn [l_mem set_mem]. rewrite !le_st_ne by (unfold ELF_BASE; lia). rewrite F3, F4. fold fs ms.
  unfold segment_bytes in HQ. cbn [p_offset p_filesz p_memsz phdr_at] in HQ. fold fs ms po src in HQ.
  destruct (ms <=? fs) eqn:Em; bools.
  - apply wp_ret. replace (Z.to_nat (ms - fs)) with 0%nat in HQ by lia. cbn [replicate] in HQ. by rewrite app_nil_r in HQ.
  - rewrite (u32_small (ms - fs)) by (unfold is32; lia). apply wp_bind, stosb_wp; [done| |lia|lia|lia|].
    { intros p Hpp. apply pm_free. lia. }
    apply wp_ret. cbn [l_mem set_mem]. by rewrite st_bytes_app in HQ.
Qed.

Lemma phdrs_lookup i h : phdrs file !! i = Some h ->
  0 <= Z.of_nat i < e_phnum file /\ h = phdr_at file (Z.to_nat (e_phoff file + e_phentsize file * Z.of_nat i)).
Proof.
  unfold phdrs. rewrite list_lookup_fmap. destruct (seqZ 0 (e_phnum file) !! i) as [x|] eqn:E; [|done].
  apply lookup_seqZ in E as [-> Hi]. rewrite Z.add_0_l. intros [= <-]. split; [lia|done].
Qed.

Lemma length_phdrs : Z.of_nat (length (phdrs file)) = e_phnum file.
Proof. unfold phdrs. rewrite length_fmap, length_seqZ. pose proof (file_range 2 44). unfold e_phnum. lia. Qed.

Lemma load_segments_low hs m : Forall (segment_ok file) hs -> forall p, p < 0x100000 ->
  ld8 (foldl (load_segment file) m hs) p = ld8 m p.
Proof.
  intros Hs. revert m. induction Hs as [|h hs Hh _ IH]; intros m p Hp; cbn; [done|]. rewrite IH by done.
  by apply load_segment_low.
Qed.

Lemma elf_phdrs_wp s E (Q : unit -> lsys -> Prop) : l_a20 s = true -> bytes_at (l_mem s) ELF_BASE file ->
  l_var s elf_phentsize = e_phentsize file ->
  Q tt (set_mem (foldl (load_segment file) (l_mem s) (phdrs file)) s) ->
  wpe (elf_phdrs (e_phoff file +u ELF_BASE) (e_phnum file)) s Q E.
Proof.
  intros Ha Hb He HQ. pose proof length_phdrs as Hl. pose proof (eo_len _ Hok) as Hlen.
  pose proof (file_range 4 28) as R1. pose proof (file_range 2 42) as R2. pose proof (file_range 2 44) as R3.
  fold (e_phoff file) in R1. fold (e_phentsize file) in R2. fold (e_phnum file) in R3.
  change (256 ^ Z.of_nat 4) with 4294967296 in R1. change (256 ^ Z.of_nat 2) with 65536 in R2, R3.
  unfold elf_phdrs. apply (wp_loop_var _ (fun v x s' => exists k, (k <= length (phdrs file))%nat /\
    v = e_phnum file - Z.of_nat k /\
    x = (u32 (ELF_BASE + (e_phoff file + e_phentsize file * Z.of_nat k)), e_phnum file - Z.of_nat k) /\
    s' = set_mem (foldl (load_segment file) (l_mem s) (take k (phdrs file))) s)) with (e_phnum file); [| |lia].
  2:{ exists 0%nat. split; [lia|]. split; [lia|]. split; [|by destruct s]. f_equal; [|lia]. f_equal. lia. }
  intros v x s' (k & Hk & -> & -> & ->). destruct (e_phnum file - Z.of_nat k =? 0) eqn:Ek; bools.
  { apply wp_ret. rewrite take_ge by lia. done. }
  destruct (lookup_lt_is_Some_2 (phdrs file) k ltac:(lia)) as [h Hh].
  destruct (phdrs_lookup _ _ Hh) as [Hkr Eh]. pose proof (eo_phdrs _ Hok _ Hkr) as Hend.
  assert (0 <= e_phentsize file * Z.of_nat k) as Hp0 by (apply Z.mul_nonneg_nonneg; lia).
  set (o := e_phoff file + e_phentsize file * Z.of_nat k) in *.
  assert (Forall (segment_ok file) (take k (phdrs file))) as Hpre by apply Forall_take, Hok.
  assert (segment_ok file h) as Hsh by (eapply Forall_lookup_1; [apply (eo_segments _ Hok)|exact Hh]).
  rewrite u32_small by (unfold is32, ELF_BASE; lia). rewrite <-(Z2Nat.id o) at 1 by lia.
  apply wp_bind, elf_segment_wp; [done| |lia|by rewrite <-Eh|].
  { cbn [l_mem set_mem]. eapply file_same; [exact Hb|]. by apply load_segments_low. }
  rewrite <-Eh. repeat lstep. cbn [l_var set_mem l_mem]. rewrite He. exists (e_phnum file - Z.of_nat (S k)).
  split; [lia|]. exists (S k). split; [lia|]. split; [done|]. split.
  - rewrite (u32_small (e_phnum file - Z.of_nat k - 1)) by (unfold is32; lia). f_equal; [|lia]. f_equal. unfold o. lia.
  - by rewrite (take_S_r _ _ h), foldl_app by done.
Qed.

(** Segments that do not overlap are all in memory at the end. *)
Definition mem_size (h : phdr) : Z := Z.max (p_filesz h) (p_memsz h).
Definition apart (h h' : phdr) : Prop := p_type h = 1 -> p_type h' = 1 ->
  p_paddr h + mem_size h <= p_paddr h' \/ p_paddr h' + mem_size h' <= p_paddr h.

Definition sized (h : phdr) : Prop := 0 <= p_offset h /\ 0 <= p_filesz h /\ 0 <= p_memsz h.

Lemma phdrs_sized : Forall sized (phdrs file).
Proof.
  apply Forall_lookup. intros i h Hi. apply phdrs_lookup in Hi as [_ ->]. unfold sized.
  cbn [phdr_at p_offset p_filesz p_memsz]. split_and!; apply (file_range 4).
Qed.

Lemma segments_kept hs m a n : Forall (segment_ok file) hs -> Forall sized hs ->
  Forall (fun h => p_type h = 1 -> a + n <= p_paddr h \/ p_paddr h + mem_size h <= a) hs ->
  same_on a n m (foldl (load_segment file) m hs).
Proof.
  intros Hs. revert m. induction Hs as [|h hs Hh _ IH]; intros m Hz Ha p Hp; cbn [foldl]; [done|].
  apply Forall_cons in Hz as [(Z1 & Z2 & Z3) Hz]. apply Forall_cons in Ha as [Hah Ha]. rewrite (IH _ Hz Ha p Hp).
  unfold load_segment. destruct (p_type h =? 1) eqn:Et; bools; [|done]. apply st_bytes_off.
  rewrite (proj1 (segment_length h Hh Et Z1 Z2 Z3)). fold (mem_size h). destruct (Hah Et); lia.
Qed.

Lemma segments_loaded hs m : Forall (segment_ok file) hs -> Forall sized hs -> ForallOrdPairs apart hs ->
  forall h, h ∈ hs -> p_type h = 1 ->
  bytes_at (foldl (load_segment file) m hs) (p_paddr h) (segment_bytes file h).
Proof.
  intros Hs. revert m. induction Hs as [|h0 hs Hh Hs IH]; intros m Hz Hap h Hin Ht; [by apply elem_of_nil in Hin|].
  apply Forall_cons in Hz as [(Z1 & Z2 & Z3) Hz]. inversion Hap as [|? ? H0 Hap']; subst. cbn [foldl].
  apply elem_of_cons in Hin as [->|Hin]; [|by apply IH].
  destruct (segment_length h0 Hh Ht Z1 Z2 Z3) as [Hlen Hby].
  assert (load_segment file m h0 = st_bytes m (p_paddr h0) (segment_bytes file h0)) as ->.
  { unfold load_segment. by rewrite Ht. }
  eapply bytes_at_same; [by apply st_bytes_at|]. rewrite Hlen. apply segments_kept; [done|done|].
  eapply Forall_impl; [exact H0|]. intros h' Hap0 Ht'. by apply Hap0.
Qed.

(** What [elf_load] leaves. *)
Record elf_loaded (s s' : lsys) : Prop := {
  el_entry : l_var s' kernel_entry = e_entry file;
  el_mem : forall p, p < 0xB8000 \/ 0xB8FA0 <= p ->
    ld8 (l_mem s') p = ld8 (foldl (load_segment file) (l_mem s) (phdrs file)) p;
  el_a20 : l_a20 s' = true;
}.
End Load.

Lemma length_hex_digits w n v : length (hex_digits w n v) = n.
Proof. revert v. induction n as [|n IH]; intros v; cbn; [done|]. by rewrite IH. Qed.

Lemma elf_done_wp s r E (Q : unit -> lsys -> Prop) : l_a20 s = true -> at_row s r -> 0 <= r < 25 ->
  (forall s', drew (set_var pm_vga_pos (0xB8000 + 160 * (r + 1)) s) s' -> Q tt s') -> wpe elf_done s Q E.
Proof.
  intros Ha Hr Hb HQ. unfold elf_done, pm_print_hex32. repeat lstep. rewrite Hr.
  apply pm_put_wp; [done|lia|cbn; lia|]. intros s1 D1. repeat lstep.
  apply pm_put_wp; [by rewrite (dr_a20 _ _ D1)|cbn; lia|rewrite length_hex_digits; cbn; lia|]. intros s2 D2.
  destruct (drew_trans _ _ _ D1 D2) as [M V A].
  eapply next_line_wp; [unfold at_row; by rewrite V|done|]. apply HQ. split; [exact M| |exact A]. cbn. by rewrite V.
Qed.

Lemma elf_bad_wp s r E (Q : unit -> lsys -> Prop) : l_a20 s = true -> at_row s r -> 0 <= r < 25 ->
  (forall s', same_off 0xB8000 0xFA0 (l_mem s) (l_mem s') -> E Halted s') -> wpe elf_bad s Q E.
Proof.
  intros Ha Hr Hb HE. unfold elf_bad. apply wp_bind. eapply pm_print_line_wp; [done|done|done|cbn; lia|].
  intros s' D. apply wp_stop, HE. apply (dr_mem _ _ D).
Qed.

(** A file with a valid header is loaded; any other stops the machine and changes nothing but
    the screen. *)
Lemma elf_load_wp file s r : (elf_valid file = true -> elf_ok file) -> (52 <= length file)%nat ->
  l_a20 s = true -> at_row s r -> 0 <= r < 25 -> bytes_at (l_mem s) ELF_BASE file ->
  wpe elf_load s (fun _ s' => elf_valid file = true /\ elf_loaded file s s' /\ at_row s' (r + 1))
    (fun e s' => elf_valid file = false /\ e = Halted /\ same_off 0xB8000 0xFA0 (l_mem s) (l_mem s')).
Proof.
  intros Hok Hlen Ha Hr Hrb Hb. unfold elf_load, get32, get16.
  assert (forall n k, (k + n <= 52)%nat -> le n (l_mem s) (ELF_BASE + Z.of_nat k) = lle n file k) as Hf.
  { intros n k Hk. apply lle_at; [done|lia]. }
  assert (elf_valid file = false -> wpe elf_bad s (fun _ s' => elf_valid file = true /\ elf_loaded file s s' /\ at_row s' (r + 1))
    (fun e s' => elf_valid file = false /\ e = Halted /\ same_off 0xB8000 0xFA0 (l_mem s) (l_mem s'))) as Hbad.
  { intros Hv. by eapply elf_bad_wp. }
  assert (le 4 (l_mem s) ELF_BASE = lle 4 file 0) as F0 by (rewrite <-Hf by lia; f_equal; unfold ELF_BASE; lia).
  pose proof (ld8_at _ _ _ 4 Hb ltac:(lia)) as F1. pose proof (ld8_at _ _ _ 5 Hb ltac:(lia)) as F2.
  pose proof (Hf 2%nat 16%nat ltac:(lia)) as F3. pose proof (Hf 2%nat 18%nat ltac:(lia)) as F4.
  pose proof (Hf 4%nat 24%nat ltac:(lia)) as F5. pose proof (Hf 4%nat 28%nat ltac:(lia)) as F6.
  pose proof (Hf 2%nat 42%nat ltac:(lia)) as F7. pose proof (Hf 2%nat 44%nat ltac:(lia)) as F8.
  change (Z.of_nat 4) with 4 in F1. change (Z.of_nat 5) with 5 in F2. change (Z.of_nat 16) with 16 in F3.
  change (Z.of_nat 18) with 18 in F4. change (Z.of_nat 24) with 24 in F5. change (Z.of_nat 28) with 28 in F6.
  change (Z.of_nat 42) with 42 in F7. change (Z.of_nat 44) with 44 in F8.
  unfold elf_valid in *. repeat lstep. rewrite F0.
  destruct (lle 4 file 0 =? 0x464C457F); cbn [negb andb] in *; [|by apply Hbad]. repeat lstep. rewrite F1.
  destruct (lle 1 file 4 =? 1); cbn [negb andb] in *; [|by apply Hbad]. repeat lstep. rewrite F2.
  destruct (lle 1 file 5 =? 1); cbn [negb andb] in *; [|by apply Hbad]. repeat lstep. rewrite F3.
  destruct (lle 2 file 16 =? 2); cbn [negb andb] in *; [|by apply Hbad]. repeat lstep. rewrite F4.
  destruct (lle 2 file 18 =? 3); cbn [negb andb] in *; [|by apply Hbad]. clear Hbad. specialize (Hok eq_refl).
  repeat lstep. vars. rewrite F5, F6, F7, F8.
  apply elf_phdrs_wp; [done|done|done|by vars|]. repeat lstep.
  eapply (elf_done_wp _ r); [done|unfold at_row; cbn [set_mem l_var]; by vars|done|]. intros s' [M V A].
  split; [done|]. split.
  - split; [|intros p Hp; rewrite M by lia; cbn [l_mem set_mem set_var]; done|by rewrite A].
    rewrite V. vars. cbn [set_mem l_var]. by vars.
  - unfold at_row. rewrite V. by vars.
Qed.
