(* ===== verification/Handoff.v ===== *)
(** * The memory map and its hand-over ([boot/stage2.asm])

    [detect_memory] collects the entries of INT 0x15, EAX = 0xE820, or makes up two from
    AX = 0xE801; [build_multiboot] converts them into the structure the kernel's [pmm_init]
    reads. *)

From stdpp Require Import base gmap list numbers option strings.
From Stdlib Require Import ZArith Lia.
From S2P Require Import Prelude Machine Terminal LoaderState.

Definition MMAP_ENTRIES : Z := 0x6000.
Definition MMAP_DATA : Z := 0x6004.
Definition MMAP_ENTRY_SIZE : Z := 24.
Definition MBOOT_INFO : Z := 0x5000.
Definition MBOOT_MMAP : Z := 0x5100.
Definition SMAP : Z := 0x534D4150.

Section Detect.
Context (B : bios).

Abbreviation put32 := (put_le real_zone 4).

(** [.e820_done]. *)
Definition e820_done : M lsys unit :=
  print_string "Memory: found " ;;;
  ax <- get16 MMAP_ENTRIES ;;
  print_hex ax ;;;
  print_string crlf.

(** The registers of [.use_ax] for what the BIOS gave. *)
Definition e801_blocks (ax bx cx dx : Z) : Z * Z := if cx =? 0 then (ax, bx) else (cx, dx).

(** [.try_e801]. *)
Definition try_e801 : M lsys unit :=
  print_string ("Memory: E820 failed, trying E801..." +:+ crlf) ;;;
  n <- next_call ;;
  match e801 B n with
  | None => print_string ("Memory: FAILED - no memory map!" +:+ crlf)
  | Some (ax, bx, cx, dx) =>
      let '(ax, bx) := e801_blocks ax bx cx dx in
      let di := MMAP_DATA in
      put32 (di + 0) 0x00000000 ;;; put32 (di + 4) 0x00000000 ;;;
      put32 (di + 8) 0x0009FC00 ;;; put32 (di + 12) 0x00000000 ;;;
      put32 (di + 16) 1 ;;; put32 (di + 20) 1 ;;;
      let di := u16 (di + MMAP_ENTRY_SIZE) in
      put32 (di + 0) 0x00100000 ;;; put32 (di + 4) 0x00000000 ;;;
      put32 (di + 8) (Z.shiftl ax 10 +u Z.shiftl bx 16) ;;; put32 (di + 12) 0x00000000 ;;;
      put32 (di + 16) 1 ;;; put32 (di + 20) 1 ;;;
      put32 MMAP_ENTRIES 2 ;;;
      print_string "Memory: found " ;;; print_hex 2 ;;; print_string crlf
  end.

(** One turn of [.e820_loop] on (DI, EBX).  [inr true] is [.e820_done], [inr false] is
    [.e820_fail]. *)
Definition e820_turn (di ebx : Z) : M lsys ((Z * Z) + bool) :=
  put32 (u16 (di + 20)) 0 ;;;
  n <- next_call ;;
  let r := e820 B n ebx in
  put_bytes real_zone di (r_bytes r) ;;;
  if r_carry r then ret (inr false) else
  if negb (r_eax r =? SMAP) then ret (inr false) else
  let skip di := if r_ebx r =? 0 then ret (inr true) else ret (inl (di, r_ebx r)) in
  if u8 (r_ecx r) <? 20 then skip di else
  acpi <- get32 (u16 (di + 20)) ;;
  put32 (u16 (di + 20)) (Z.lor acpi 1) ;;;
  lo <- get32 (u16 (di + 8)) ;;
  hi <- get32 (u16 (di + 12)) ;;
  if Z.lor lo hi =? 0 then skip di else
  count <- get32 MMAP_ENTRIES ;;
  put32 MMAP_ENTRIES (count +u 1) ;;;
  skip (u16 (di + MMAP_ENTRY_SIZE)).

Definition detect_memory : M lsys unit :=
  print_string ("Memory: detecting via E820..." +:+ crlf) ;;;
  put32 MMAP_ENTRIES 0 ;;;
  done <- loop (fun '(di, ebx) => e820_turn di ebx) (MMAP_DATA, 0) ;;
  if (done : bool) then e820_done else
  count <- get32 MMAP_ENTRIES ;;
  if 0 <? s32 count then e820_done else try_e801.
End Detect.

(** [print_memory_map]: a line for each entry. *)
Definition print_entry (di : Z) : M lsys unit :=
  print_string "  base=0x" ;;;
  ax <- get16 (u16 (di + 2)) ;; print_hex_raw ax ;;;
  ax <- get16 (u16 (di + 0)) ;; print_hex_raw ax ;;;
  print_string " len=0x" ;;;
  ax <- get16 (u16 (di + 10)) ;; print_hex_raw ax ;;;
  ax <- get16 (u16 (di + 8)) ;; print_hex_raw ax ;;;
  print_string " type=" ;;;
  al <- get8 (u16 (di + 16)) ;; teletype (u8 (al + 48)) ;;;
  print_string crlf.

Definition print_memory_map : M lsys unit :=
  cx <- get16 MMAP_ENTRIES ;;
  if cx =? 0 then ret tt else
  loop (fun '(di, cx) =>
    print_entry di ;;;
    let cx := u16 (cx - 1) in
    if negb (cx =? 0) then ret (inl (u16 (di + MMAP_ENTRY_SIZE), cx)) else ret (inr tt)) (MMAP_DATA, cx).

Section Build.
(** The address of the loader's name. *)
Context (mboot_name : Z).

Abbreviation put32 := (put_le pm_zone 4).

(** [mem_lower]: an available entry at 0. *)
Definition mb_lower (esi : Z) : M lsys unit :=
  type <- get32 (esi + 16) ;;
  if negb (type =? 1) then ret tt else
  lo <- get32 (esi + 0) ;;
  if negb (lo =? 0) then ret tt else
  hi <- get32 (esi + 4) ;;
  if negb (hi =? 0) then ret tt else
  eax <- get32 (esi + 8) ;;
  put32 (MBOOT_INFO + 4) (Z.shiftr eax 10).

(** [.mb_check_upper]: an available entry at 1 MB. *)
Definition mb_check_upper (esi : Z) : M lsys unit :=
  type <- get32 (esi + 16) ;;
  if negb (type =? 1) then ret tt else
  hi <- get32 (esi + 4) ;;
  if negb (hi =? 0) then ret tt else
  lo <- get32 (esi + 0) ;;
  if negb (lo =? 0x100000) then ret tt else
  eax <- get32 (esi + 8) ;;
  put32 (MBOOT_INFO + 8) (Z.shiftr eax 10).

(** One turn of [.mb_convert]. *)
Definition mb_entry (esi edi : Z) : M lsys unit :=
  put32 edi 20 ;;;
  eax <- get32 (esi + 0) ;; put32 (edi + 4) eax ;;;
  eax <- get32 (esi + 4) ;; put32 (edi + 8) eax ;;;
  eax <- get32 (esi + 8) ;; put32 (edi + 12) eax ;;;
  eax <- get32 (esi + 12) ;; put32 (edi + 16) eax ;;;
  eax <- get32 (esi + 16) ;; put32 (edi + 20) eax ;;;
  mb_lower esi ;;;
  mb_check_upper esi.

(** The loop over (ESI, EDI, EDX, ECX); the result is EDX. *)
Definition mb_convert (ecx : Z) : M lsys Z :=
  loop (fun '(esi, edi, edx, ecx) =>
    if ecx =? 0 then ret (inr edx) else
    mb_entry esi edi ;;;
    ret (inl (esi +u MMAP_ENTRY_SIZE, edi +u 24, edx +u 24, ecx -u 1))) (MMAP_DATA, MBOOT_MMAP, 0, ecx).

Definition build_multiboot : M lsys unit :=
  for_loop 22 1 (fun i => put32 (MBOOT_INFO + 4 * i) 0) 0 ;;;
  ecx <- get32 MMAP_ENTRIES ;;
  edx <- mb_convert ecx ;;
  put32 (MBOOT_INFO + 0) (Z.lor (Z.lor (Z.shiftl 1 0) (Z.shiftl 1 6)) (Z.shiftl 1 9)) ;;;
  put32 (MBOOT_INFO + 44) edx ;;;
  put32 (MBOOT_INFO + 48) MBOOT_MMAP ;;;
  put32 (MBOOT_INFO + 64) mboot_name.
End Build.

(** ** The map the BIOS gives *)

Record e820_entry := E820Entry { x_base : Z; x_length : Z; x_type : Z }.

Definition lo32 (v : Z) : Z := v mod 4294967296.
Definition hi32 (v : Z) : Z := v / 4294967296.

Definition entry64 (e : e820_entry) : Prop :=
  0 <= x_base e < 2 ^ 64 /\ 0 <= x_length e < 2 ^ 64 /\ is32 (x_type e).

(** The 20 bytes of an entry. *)
Definition raw (e : e820_entry) : list Z :=
  le_bytes 4 (lo32 (x_base e)) ++ le_bytes 4 (hi32 (x_base e)) ++
  le_bytes 4 (lo32 (x_length e)) ++ le_bytes 4 (hi32 (x_length e)) ++ le_bytes 4 (x_type e).

(** The service lists [es]: a chain of continuation values from 0 to 0, an entry of 20 bytes
    or of 24 with attributes for each. *)
Definition lists (B : bios) (es : list e820_entry) : Prop :=
  es <> [] /\ Forall entry64 es /\ exists cont : nat -> Z, cont 0%nat = 0 /\
  forall n i e, es !! i = Some e -> exists k ext,
    e820 B n (cont i) = E820Reply false SMAP (if decide (S i = length es) then 0 else cont (S i)) k (raw e ++ ext) /\
    (S i = length es \/ cont (S i) <> 0) /\
    ((k = 20 /\ ext = []) \/ (k = 24 /\ length ext = 4%nat /\ Forall byte ext)).

(** An entry in the loader's table, and the table. *)
Definition raw_at (m : gmap Z Z) (a : Z) (e : e820_entry) : Prop :=
  le 4 m a = lo32 (x_base e) /\ le 4 m (a + 4) = hi32 (x_base e) /\
  le 4 m (a + 8) = lo32 (x_length e) /\ le 4 m (a + 12) = hi32 (x_length e) /\ le 4 m (a + 16) = x_type e.

Definition table (m : gmap Z Z) (es : list e820_entry) : Prop :=
  le 4 m MMAP_ENTRIES = Z.of_nat (length es) /\
  forall i e, es !! i = Some e -> raw_at m (MMAP_DATA + 24 * Z.of_nat i) e.

Definition nonempty (e : e820_entry) : Prop := x_length e <> 0.
#[export] Instance nonempty_dec e : Decision (nonempty e).
Proof. unfold nonempty. apply _. Defined.

Lemma lo32_range v : is32 (lo32 v).
Proof. by apply Z.mod_pos_bound. Qed.

Lemma hi32_range v : 0 <= v < 2 ^ 64 -> is32 (hi32 v).
Proof. intros Hv. unfold hi32, is32. split; [apply Z.div_pos; lia|apply Z.div_lt_upper_bound; lia]. Qed.

Lemma raw_length e : length (raw e) = 20%nat.
Proof. done. Qed.

Lemma raw_bytes e : Forall byte (raw e).
Proof. unfold raw. repeat (apply Forall_app; split); apply le_bytes_byte. Qed.

Lemma bytes_at_app_inv m a bs bs' : bytes_at m a (bs ++ bs') ->
  bytes_at m a bs /\ bytes_at m (a + Z.of_nat (length bs)) bs'.
Proof.
  intros H. split.
  - intros i b Hi. apply H. by apply lookup_app_l_Some.
  - intros i b Hi. rewrite <-Z.add_assoc, <-Nat2Z.inj_add. apply H. rewrite lookup_app_r by lia.
    by replace (length bs + i - length bs)%nat with i by lia.
Qed.

Lemma raw_at_bytes m a e ext : entry64 e -> bytes_at m a (raw e ++ ext) -> raw_at m a e.
Proof.
  intros (Hb & Hl & Ht) H. apply bytes_at_app_inv in H as [H _]. unfold raw in H.
  apply bytes_at_app_inv in H as [H1 H]. apply bytes_at_app_inv in H as [H2 H].
  apply bytes_at_app_inv in H as [H3 H]. apply bytes_at_app_inv in H as [H4 H5].
  rewrite !length_le_bytes in *. change (Z.of_nat 4) with 4 in *. rewrite <-!Z.add_assoc in *.
  split_and!; apply le_read; try done; try apply lo32_range; by apply hi32_range.
Qed.

Lemma raw_at_same m m' a e : (forall b, a <= b -> b + 4 <= a + 20 -> le 4 m' b = le 4 m b) -> raw_at m a e -> raw_at m' a e.
Proof. intros H (E1 & E2 & E3 & E4 & E5). unfold raw_at. rewrite !H by lia. done. Qed.

Section DetectRuns.
Context (B : bios).

(** While the table is filled. *)
Record filling (s : lsys) (acc : list e820_entry) (s' : lsys) : Prop := {
  fi_table : table (l_mem s') acc;
  fi_mem : same_off 0x6000 0x1000 (l_mem s) (l_mem s');
  fi_var : l_var s' = l_var s;
  fi_a20 : l_a20 s' = true;
}.

Definition slot (acc : list e820_entry) : Z := MMAP_DATA + 24 * Z.of_nat (length acc).
Definition keep (acc : list e820_entry) (e : e820_entry) : list e820_entry :=
  if decide (nonempty e) then acc ++ [e] else acc.

(** Stores at the next slot and beyond leave the table alone. *)
Lemma table_above m m' acc : table m acc -> (forall b, b + 4 <= slot acc -> le 4 m' b = le 4 m b) -> table m' acc.
Proof.
  intros [Hc He] Hs. unfold slot, MMAP_DATA in Hs. split; [rewrite Hs; [done|unfold MMAP_ENTRIES; lia]|].
  intros i e Hi. eapply raw_at_same; [|by apply He]. intros b Hb1 Hb2. apply Hs.
  apply lookup_lt_Some in Hi. unfold MMAP_DATA in *. lia.
Qed.

(** Appending an entry: it is at the next slot, and the count is increased. *)
Lemma table_snoc m acc e : table m acc -> raw_at m (slot acc) e -> Z.of_nat (length acc) < 170 ->
  table (st_bytes m MMAP_ENTRIES (le_bytes 4 (Z.of_nat (length acc) +u 1))) (acc ++ [e]).
Proof.
  intros [Hc He] Hr Hl. rewrite u32_small by (unfold is32; lia). split.
  - rewrite le_st by (change (256 ^ Z.of_nat 4) with 4294967296; lia). rewrite length_app. cbn. lia.
  - intros i e' Hi. apply raw_at_same with m.
    { intros b Hb _. apply le_st_ne. rewrite length_le_bytes. unfold MMAP_ENTRIES, MMAP_DATA in *. lia. }
    apply lookup_app_Some in Hi as [Hi|[Hge Hi]]; [by apply He|].
    apply list_lookup_singleton_Some in Hi as [E <-]. unfold slot in Hr. by replace i with (length acc) by lia.
Qed.

Lemma zero_length e : entry64 e -> (Z.lor (lo32 (x_length e)) (hi32 (x_length e)) =? 0) = negb (bool_decide (nonempty e)).
Proof.
  intros (_ & Hl & _). pose proof (Z.div_mod (x_length e) 4294967296 ltac:(lia)) as Hd. unfold lo32, hi32, nonempty.
  destruct (Z.lor _ _ =? 0) eqn:E; bools.
  - apply Z.lor_eq_0_iff in E as [E1 E2]. rewrite E1, E2 in Hd. rewrite bool_decide_false by lia. done.
  - rewrite bool_decide_true; [done|]. intros Hz. by rewrite Hz in E.
Qed.

Lemma slot_range acc : Z.of_nat (length acc) < 170 -> 0x6004 <= slot acc /\ slot acc + 24 <= 0x7000.
Proof. unfold slot, MMAP_DATA. lia. Qed.

(** The stores of a turn: the attributes cleared, the BIOS's bytes, the attributes again. *)
Lemma entry_stored m acc e ext v : table m acc -> Z.of_nat (length acc) < 170 -> entry64 e ->
  (length ext <= 4)%nat -> Forall byte ext ->
  let m3 := st_bytes (st_bytes (st_bytes m (slot acc + 20) (le_bytes 4 0)) (slot acc) (raw e ++ ext))
                     (slot acc + 20) (le_bytes 4 v) in
  raw_at m3 (slot acc) e /\ table m3 acc /\ same_off 0x6000 0x1000 m m3.
Proof.
  intros Ht Hl He Hx Hb m3. pose proof (slot_range _ Hl) as Hs.
  assert (length (raw e ++ ext) <= 24)%nat as Hlen by (rewrite length_app; cbn; lia). unfold m3. split; [|split].
  - eapply raw_at_same; [intros b Hb1 Hb2; apply le_st_ne; rewrite length_le_bytes; lia|].
    eapply raw_at_bytes; [done|]. apply st_bytes_at, Forall_app. split; [apply raw_bytes|exact Hb].
  - eapply table_above; [exact Ht|]. intros b Hb'. rewrite !le_st_ne; [done|..]; rewrite ?length_le_bytes; lia.
  - intros p Hp. rewrite !st_bytes_off; [done|..]; rewrite ?length_le_bytes; lia.
Qed.

Lemma e820_turn_wp s acc s1 ebx ebx' k e ext E (Q : (Z * Z) + bool -> lsys -> Prop) : filling s acc s1 ->
  Z.of_nat (length acc) < 170 -> entry64 e ->
  e820 B (l_calls s1) ebx = E820Reply false SMAP ebx' k (raw e ++ ext) ->
  (k = 20 /\ ext = []) \/ (k = 24 /\ length ext = 4%nat /\ Forall byte ext) ->
  (forall s', filling s (keep acc e) s' -> l_calls s' = S (l_calls s1) ->
     Q (if ebx' =? 0 then inr true else inl (slot (keep acc e), ebx')) s') ->
  wpe (e820_turn B (slot acc) ebx) s1 Q E.
Proof.
  intros [Ht Hm Hv Ha] Hl He Hr Hk HQ. pose proof (slot_range _ Hl) as Hs.
  assert (forall n, 0 <= n <= 24 -> u16 (slot acc + n) = slot acc + n) as Hn by (intros n Hn; apply Z.mod_small; lia).
  assert (forall a n, 0x6000 <= a -> a + n <= 0x7000 -> free real_zone a n) as Hfree.
  { intros a n H1 H2 p Hp. apply real_free. lia. }
  assert ((length ext <= 4)%nat /\ Forall byte ext /\ (u8 k <? 20) = false) as (Hx1 & Hx2 & Hx3).
  { destruct Hk as [[-> ->]|(-> & Hl4 & Hb)]; [split_and!; [cbn; lia|constructor|done]|split_and!; [lia|done|done]]. }
  unfold e820_turn, get32. rewrite !Hn by lia. apply wp_bind, wp_put_le; [done|apply Hfree; lia|].
  repeat lstep. cbn [l_calls set_mem add_call]. rewrite Hr. cbn [r_carry r_eax r_ebx r_ecx r_bytes].
  apply wp_put_bytes; [done|apply Hfree; rewrite ?length_app; cbn; lia|]. rewrite Z.eqb_refl. cbn [negb]. rewrite Hx3.
  repeat lstep. apply wp_put_le; [done|apply Hfree; lia|]. repeat lstep. cbn [l_mem set_mem add_call].
  match goal with |- context [le_bytes 4 (Z.lor ?v 1)] =>
    destruct (entry_stored (l_mem s1) acc e ext (Z.lor v 1) Ht Hl He Hx1 Hx2) as (Hraw & Ht2 & Hm2);
    generalize dependent (Z.lor v 1) end.
  intros v Hraw Ht2 Hm2. pose proof Hraw as (_ & _ & R3 & R4 & _). rewrite R3, R4, zero_length by done.
  unfold keep in HQ. destruct (decide (nonempty e)) as [Hne|Hz].
  - rewrite bool_decide_true by done. cbn [negb]. repeat lstep. cbn [l_mem set_mem]. rewrite (proj1 Ht2).
    apply wp_put_le; [done|apply Hfree; unfold MMAP_ENTRIES; lia|]. unfold MMAP_ENTRY_SIZE. rewrite Hn by lia.
    replace (slot acc + 24) with (slot (acc ++ [e])) by (unfold slot; rewrite length_app; cbn; lia).
    match goal with |- wpe _ ?s' _ _ => assert (filling s (acc ++ [e]) s') as Hf end.
    { split; [by apply table_snoc| |done|done]. intros p Hp. cbn [l_mem set_mem].
      rewrite st_bytes_off, Hm2 by (rewrite ?length_le_bytes; unfold MMAP_ENTRIES; lia). by apply Hm. }
    specialize (HQ _ Hf eq_refl). by destruct (ebx' =? 0).
  - rewrite bool_decide_false by done. cbn [negb].
    match goal with |- wpe _ ?s' _ _ => assert (filling s acc s') as Hf end.
    { split; [done| |done|done]. intros p Hp. cbn [l_mem set_mem]. rewrite Hm2 by done. by apply Hm. }
    specialize (HQ _ Hf eq_refl). by destruct (ebx' =? 0).
Qed.

Lemma filter_take_S es i e : es !! i = Some e ->
  filter nonempty (take (S i) es) = keep (filter nonempty (take i es)) e.
Proof.
  intros Hi. rewrite (take_S_r _ _ e Hi), filter_app. unfold keep. case_decide as H.
  - by rewrite filter_cons_True.
  - by rewrite filter_cons_False, filter_nil, app_nil_r.
Qed.

Lemma filter_take_short es i : (length (filter nonempty (take i es)) <= i)%nat.
Proof. etransitivity; [apply length_filter|]. rewrite length_take. lia. Qed.

Lemma filling_printed s acc s1 s2 : filling s acc s1 -> printed s1 s2 -> filling s acc s2.
Proof. intros [H1 H2 H3 H4] [o ->]. by split. Qed.

Lemma e820_loop_wp s s1 es E (Q : bool -> lsys -> Prop) : lists B es -> (length es <= 170)%nat -> filling s [] s1 ->
  (forall s', filling s (filter nonempty es) s' -> Q true s') ->
  wpe (loop (fun '(di, ebx) => e820_turn B di ebx) (MMAP_DATA, 0)) s1 Q E.
Proof.
  intros (Hne & H64 & cont & Hc0 & Hrep) Hl Hf HQ.
  apply (wp_loop_var _ (fun n x s' => exists i, (i < length es)%nat /\ n = Z.of_nat (length es - i) /\
    x = (slot (filter nonempty (take i es)), cont i) /\ filling s (filter nonempty (take i es)) s'))
    with (Z.of_nat (length es)); [| |lia].
  - intros n x s2 (i & Hi & -> & -> & Hf2). destruct (lookup_lt_is_Some_2 es i Hi) as [e He].
    destruct (Hrep (l_calls s2) i e He) as (k & ext & Hr & Hlast & Hk). pose proof (filter_take_short es i) as Hsh.
    eapply (e820_turn_wp s _ s2); [exact Hf2|lia|by eapply Forall_lookup_1|exact Hr|exact Hk|].
    intros s3 Hf3 _. rewrite <-(filter_take_S es i e He) in *. case_decide as Hend.
    + apply HQ. by rewrite take_ge in Hf3 by lia.
    + destruct Hlast as [Hlast|Hlast]; [lia|]. rewrite (proj2 (Z.eqb_neq _ _) Hlast).
      exists (Z.of_nat (length es - S i)). split; [lia|]. exists (S i). split; [lia|]. done.
  - exists 0%nat. destruct es as [|e es]; [done|]. split; [cbn; lia|]. split; [done|]. split; [|done].
    by rewrite Hc0.
Qed.

Lemma e820_done_wp s E (Q : unit -> lsys -> Prop) : l_a20 s = true -> (forall s', printed s s' -> Q tt s') ->
  wpe e820_done s Q E.
Proof.
  intros Ha HQ. unfold e820_done, get16. apply wp_bind, print_string_wp. intros s1 [o ->]. repeat lstep.
  apply bios_hex_wp. intros s2 [o2 ->]. apply print_string_wp. intros s3 [o3 ->]. apply HQ. by eexists.
Qed.

(** The table holds the entries of the BIOS that are not empty. *)
Lemma detect_memory_wp s es E (Q : unit -> lsys -> Prop) : lists B es -> (length es <= 170)%nat -> l_a20 s = true ->
  (forall s', filling s (filter nonempty es) s' -> Q tt s') -> wpe (detect_memory B) s Q E.
Proof.
  intros Hls Hl Ha HQ. unfold detect_memory. apply wp_bind, print_string_wp. intros s1 [o ->].
  apply wp_bind, wp_put_le; [done|intros p Hp; apply real_free; unfold MMAP_ENTRIES in Hp; lia|].
  apply wp_bind. eapply (e820_loop_wp s _ es); [done|done| |].
  - split; [|intros p Hp; cbn [l_mem set_mem]; rewrite st_bytes_off; [done|unfold MMAP_ENTRIES; cbn; lia]|done|done].
    split; [cbn [l_mem set_mem]; by rewrite le_st|]. intros i e Hi. by rewrite lookup_nil in Hi.
  - intros s2 Hf2. apply e820_done_wp; [apply Hf2|]. intros s3 Hp. apply HQ. by eapply filling_printed.
Qed.

(** Without E820, the two entries of E801. *)
Definition e801_entries (ax bx cx dx : Z) : list e820_entry :=
  let '(ax, bx) := e801_blocks ax bx cx dx in
  [E820Entry 0 0x9FC00 1; E820Entry 0x100000 (u32 (1024 * ax + 65536 * bx)) 1].

(** Reading a word through stores of words. *)
Ltac word := cbn [l_mem set_mem]; repeat (rewrite le_st_ne by (rewrite length_le_bytes; lia));
  rewrite le_st by (change (256 ^ Z.of_nat 4) with 4294967296; lia).

Lemma try_e801_wp s s1 E (Q : unit -> lsys -> Prop) : filling s [] s1 ->
  (forall s', (match e801 B (l_calls s1) with
               | None => filling s [] s'
               | Some (ax, bx, cx, dx) => filling s (e801_entries ax bx cx dx) s'
               end) -> Q tt s') -> wpe (try_e801 B) s1 Q E.
Proof.
  intros Hf HQ. pose proof (fi_a20 _ _ _ Hf) as Ha. unfold try_e801. apply wp_bind, print_string_wp. intros s2 Hp.
  pose proof (filling_printed _ _ _ _ Hf Hp) as Hf2. destruct Hp as [o ->]. repeat lstep. cbn [l_calls] in *.
  destruct (e801 B (l_calls s1)) as [[[[ax bx] cx] dx]|].
  2:{ apply print_string_wp. intros s3 [o' ->]. apply HQ. by destruct Hf2. }
  unfold e801_entries in HQ. destruct (e801_blocks ax bx cx dx) as [a b]. unfold MMAP_DATA, MMAP_ENTRIES, MMAP_ENTRY_SIZE.
  change (u16 (0x6004 + 24)) with 0x601C.
  assert (Z.shiftl a 10 +u Z.shiftl b 16 = u32 (1024 * a + 65536 * b)) as ->.
  { rewrite !Z.shiftl_mul_pow2 by lia. f_equal. lia. }
  do 13 (apply wp_bind, wp_put_le; [done|intros p Hp; apply real_free; lia|]).
  match goal with |- wpe _ ?x _ _ => set (s3 := x) end.
  assert (filling s [E820Entry 0 0x9FC00 1; E820Entry 0x100000 (u32 (1024 * a + 65536 * b)) 1] s3) as Hf3.
  { split; [|intros p Hp; unfold s3; cbn [l_mem set_mem]; rewrite !st_bytes_off by (rewrite length_le_bytes; lia); by apply Hf|apply Hf|done].
    pose proof (u32_range (1024 * a + 65536 * b)) as Hr. unfold is32 in Hr.
    split; [unfold s3, MMAP_ENTRIES; by word|].
    intros [|[|i]] e Hi; [injection Hi as <-|injection Hi as <-|done]; unfold MMAP_DATA;
      cbn [Z.of_nat Z.mul Z.add Pos.of_succ_nat Pos.mul Pos.add]; split_and!; unfold s3; word; cbn [x_base x_length x_type]; try done.
    - unfold lo32. rewrite Z.mod_small by lia. done.
    - unfold hi32. rewrite Z.div_small by lia. done. }
  clearbody s3. apply wp_bind, print_string_wp. intros s4 H4. apply wp_bind, bios_hex_wp. intros s5 H5.
  apply print_string_wp. intros s6 H6. apply HQ. by repeat (eapply filling_printed; [|eassumption]).
Qed.

(** E820 is not there: it fails or does not echo the signature. *)
Definition e820_missing (n : nat) : Prop :=
  (r_carry (e820 B n 0) = true \/ r_eax (e820 B n 0) <> SMAP) /\ (length (r_bytes (e820 B n 0)) <= 24)%nat.

Lemma detect_e801_wp s E (Q : unit -> lsys -> Prop) : e820_missing (l_calls s) -> l_a20 s = true ->
  (forall s', (match e801 B (S (l_calls s)) with
               | None => filling s [] s'
               | Some (ax, bx, cx, dx) => filling s (e801_entries ax bx cx dx) s'
               end) -> Q tt s') -> wpe (detect_memory B) s Q E.
Proof.
  intros [Hmiss Hlen] Ha HQ. unfold detect_memory. apply wp_bind, print_string_wp. intros s1 [o ->].
  apply wp_bind, wp_put_le; [done|intros p Hp; apply real_free; unfold MMAP_ENTRIES in Hp; lia|]. apply wp_bind.
  apply (wp_loop_var _ (fun n x s' => n = 0 /\ x = (MMAP_DATA, 0) /\ filling s [] s' /\ l_calls s' = l_calls s)) with 0;
    [| |done].
  2:{ split; [done|]. split; [done|]. split; [|done]. split; [split|..]; try done.
      - cbn [l_mem set_mem]. by rewrite le_st.
      - intros p Hp. cbn [l_mem set_mem]. rewrite st_bytes_off; [done|unfold MMAP_ENTRIES; cbn; lia]. }
  intros n x s2 (-> & -> & Hf & Hc). pose proof (fi_a20 _ _ _ Hf) as Ha2. unfold e820_turn.
  change (u16 (MMAP_DATA + 20)) with (MMAP_DATA + 20).
  apply wp_bind, wp_put_le; [done|intros p Hp; apply real_free; unfold MMAP_DATA in Hp; lia|]. repeat lstep.
  cbn [l_calls set_mem add_call]. rewrite Hc.
  apply wp_put_bytes; [done|intros p Hp; apply real_free; unfold MMAP_DATA in Hp; lia|].
  match goal with |- wpe _ ?x _ _ => set (s3 := x) end.
  assert (filling s [] s3) as Hf3.
  { destruct Hf as [[Ht _] Hm Hv _]. split; [split; [|done]| |done|done]; unfold s3; cbn [l_mem set_mem add_call].
    - rewrite !le_st_ne by (rewrite ?length_le_bytes; unfold MMAP_ENTRIES, MMAP_DATA; lia). exact Ht.
    - intros p Hp. rewrite !st_bytes_off by (rewrite ?length_le_bytes; unfold MMAP_DATA; lia). by apply Hm. }
  assert (l_calls s3 = S (l_calls s)) as Hc3 by (cbn; congruence).
  assert (wpe (count <- get32 MMAP_ENTRIES ;; if 0 <? s32 count then e820_done else try_e801 B) s3 Q E) as Hend.
  { pose proof (fi_a20 _ _ _ Hf3) as Ha3. unfold get32. clearbody s3. repeat lstep. rewrite (proj1 (fi_table _ _ _ Hf3)).
    apply (try_e801_wp s); [done|]. by rewrite Hc3. }
  destruct (r_carry (e820 B (l_calls s) 0)); [by apply wp_ret|].
  destruct (r_eax (e820 B (l_calls s) 0) =? SMAP) eqn:Es; bools; [by destruct Hmiss|by apply wp_ret].
Qed.
End DetectRuns.

(** ** Showing the map *)

Lemma text_trans s1 s2 s3 : printed s1 s2 -> printed s2 s3 -> printed s1 s3.
Proof. intros [o ->] [o' ->]. by eexists. Qed.

Lemma print_entry_wp di s E (Q : unit -> lsys -> Prop) : l_a20 s = true -> (forall s', printed s s' -> Q tt s') ->
  wpe (print_entry di) s Q E.
Proof.
  intros Ha HQ. unfold print_entry, get16. apply wp_bind, print_string_wp. intros s1 [o1 ->].
  repeat lstep. apply print_hex_raw_wp. intros s2 [o2 ->]. repeat lstep. apply print_hex_raw_wp. intros s3 [o3 ->].
  apply wp_bind, print_string_wp. intros s4 [o4 ->].
  repeat lstep. apply print_hex_raw_wp. intros s5 [o5 ->]. repeat lstep. apply print_hex_raw_wp. intros s6 [o6 ->].
  apply wp_bind, print_string_wp. intros s7 [o7 ->]. repeat lstep. apply wp_modify.
  apply print_string_wp. intros s8 [o8 ->]. apply HQ. by eexists.
Qed.

Lemma print_memory_map_wp s E (Q : unit -> lsys -> Prop) : l_a20 s = true -> (forall s', printed s s' -> Q tt s') ->
  wpe print_memory_map s Q E.
Proof.
  intros Ha HQ. unfold print_memory_map, get16. repeat lstep. pose proof (le_range 2 (l_mem s) MMAP_ENTRIES) as Hr.
  change (256 ^ Z.of_nat 2) with 65536 in Hr. destruct (le 2 (l_mem s) MMAP_ENTRIES =? 0) eqn:E0; bools.
  { apply wp_ret, HQ, text_refl. }
  apply (wp_loop_var _ (fun n '(di, cx) s' => printed s s' /\ n = cx /\ 1 <= cx < 65536)) with (le 2 (l_mem s) MMAP_ENTRIES);
    [|split; [apply text_refl|split; [done|lia]]|lia].
  intros n [di cx] s1 (Hp & -> & Hcx). apply wp_bind, print_entry_wp; [by destruct Hp as [o ->]|]. intros s2 Hp2. cbv zeta.
  assert (u16 (cx - 1) = cx - 1) as -> by (apply Z.mod_small; lia).
  pose proof (text_trans _ _ _ Hp Hp2) as Hp3. destruct (cx - 1 =? 0) eqn:Ec; bools; cbn [negb]; apply wp_ret.
  - by apply HQ.
  - exists (cx - 1). split; [lia|]. split; [done|]. split; [done|lia].
Qed.

(** ** The multiboot structure *)

(** An entry in the form the kernel reads. *)
Definition mb_at (m : gmap Z Z) (a : Z) (e : e820_entry) : Prop :=
  le 4 m a = 20 /\ le 4 m (a + 4) = lo32 (x_base e) /\ le 4 m (a + 8) = hi32 (x_base e) /\
  le 4 m (a + 12) = lo32 (x_length e) /\ le 4 m (a + 16) = hi32 (x_length e) /\ le 4 m (a + 20) = x_type e.

(** [mem_lower] and [mem_upper] after an entry. *)
Definition lower_after (v : Z) (e : e820_entry) : Z :=
  if (x_type e =? 1) && (x_base e =? 0) then lo32 (x_length e) / 1024 else v.
Definition upper_after (v : Z) (e : e820_entry) : Z :=
  if (x_type e =? 1) && (x_base e =? 0x100000) then lo32 (x_length e) / 1024 else v.

Definition mb_map (m : gmap Z Z) (es : list e820_entry) : Prop :=
  forall i e, es !! i = Some e -> mb_at m (MBOOT_MMAP + 24 * Z.of_nat i) e.

(** The structure that is handed over; words 11, 12 and 16 are the length and the address of
    the map and the address of the loader's name. *)
Record mb_info (m : gmap Z Z) (es : list e820_entry) : Prop := {
  mi_flags : le 4 m MBOOT_INFO = 0x241;
  mi_lower : le 4 m (MBOOT_INFO + 4) = foldl lower_after 0 es;
  mi_upper : le 4 m (MBOOT_INFO + 8) = foldl upper_after 0 es;
  mi_length : le 4 m (MBOOT_INFO + 44) = 24 * Z.of_nat (length es);
  mi_addr : le 4 m (MBOOT_INFO + 48) = MBOOT_MMAP;
  mi_zero : forall j, 3 <= j < 22 -> j <> 11 -> j <> 12 -> j <> 16 -> le 4 m (MBOOT_INFO + 4 * j) = 0;
  mi_map : mb_map m es;
}.

(** [multiboot_info_t], and the one at an address. *)
Record multiboot_info := MultibootInfo {
  mbi_flags : Z;
  mbi_mem_lower : Z;
  mbi_mem_upper : Z;
  mbi_boot_device : Z;
  mbi_cmdline : Z;
  mbi_mods_count : Z;
  mbi_mods_addr : Z;
  mbi_syms : list Z;
  mbi_mmap_length : Z;
  mbi_mmap_addr : Z;
  mbi_drives_length : Z;
  mbi_drives_addr : Z;
  mbi_config_table : Z;
  mbi_boot_loader_name : Z;
  mbi_apm_table : Z;
  mbi_vbe_control_info : Z;
  mbi_vbe_mode_info : Z;
  mbi_vbe_mode : Z;
  mbi_vbe_interface_seg : Z;
  mbi_vbe_interface_off : Z;
  mbi_vbe_interface_len : Z;
}.

Definition multiboot_at (m : gmap Z Z) (a : Z) : multiboot_info :=
  MultibootInfo (le 4 m a) (le 4 m (a + 4)) (le 4 m (a + 8)) (le 4 m (a + 12)) (le 4 m (a + 16))
    (le 4 m (a + 20)) (le 4 m (a + 24)) [le 4 m (a + 28); le 4 m (a + 32); le 4 m (a + 36); le 4 m (a + 40)]
    (le 4 m (a + 44)) (le 4 m (a + 48)) (le 4 m (a + 52)) (le 4 m (a + 56)) (le 4 m (a + 60))
    (le 4 m (a + 64)) (le 4 m (a + 68)) (le 4 m (a + 72)) (le 4 m (a + 76))
    (le 2 m (a + 80)) (le 2 m (a + 82)) (le 2 m (a + 84)) (le 2 m (a + 86)).

(** The structure for a map of entries. *)
Definition handed_struct (es : list e820_entry) (name : Z) : multiboot_info :=
  MultibootInfo 0x241 (foldl lower_after 0 es) (foldl upper_after 0 es) 0 0 0 0 [0; 0; 0; 0]
    (24 * Z.of_nat (length es)) MBOOT_MMAP 0 0 0 name 0 0 0 0 0 0 0.

Lemma le_halves m a : le 4 m a = 0 -> le 2 m a = 0 /\ le 2 m (a + 2) = 0.
Proof.
  cbn [le]. replace (a + 2 + 1) with (a + 3) by lia. replace (a + 1 + 1) with (a + 2) by lia.
  replace (a + 2 + 1) with (a + 3) by lia.
  pose proof (ld8_range m a). pose proof (ld8_range m (a + 1)). pose proof (ld8_range m (a + 2)).
  pose proof (ld8_range m (a + 3)). lia.
Qed.

Lemma multiboot_struct m es : mb_info m es ->
  multiboot_at m MBOOT_INFO = handed_struct es (le 4 m (MBOOT_INFO + 64)).
Proof.
  intros [I1 I2 I3 I4 I5 Z0 _]. unfold multiboot_at, handed_struct. rewrite I1, I2, I3, I4, I5.
  assert (forall j k, k = 4 * j -> 3 <= j < 22 -> j <> 11 -> j <> 12 -> j <> 16 -> le 4 m (MBOOT_INFO + k) = 0) as Hz.
  { intros j k ->. apply Z0. }
  destruct (le_halves m (MBOOT_INFO + 80)) as [H1 H2]; [by apply (Hz 20)|].
  destruct (le_halves m (MBOOT_INFO + 84)) as [H3 H4]; [by apply (Hz 21)|].
  rewrite <-Z.add_assoc in H2, H4. change (80 + 2) with 82 in H2. change (84 + 2) with 86 in H4. rewrite H1, H2, H3, H4.
  rewrite (Hz 3 12), (Hz 4 16), (Hz 5 20), (Hz 6 24), (Hz 7 28), (Hz 8 32), (Hz 9 36), (Hz 10 40), (Hz 13 52),
    (Hz 14 56), (Hz 15 60), (Hz 17 68), (Hz 18 72), (Hz 19 76) by lia. done.
Qed.

(** While the entries are converted: [es] is the whole table, [k] entries are done. *)
Record converting (s : lsys) (es : list e820_entry) (k : nat) (s' : lsys) : Prop := {
  cv_done : mb_map (l_mem s') (take k es);
  cv_rest : forall i e, (k <= i)%nat -> es !! i = Some e -> raw_at (l_mem s') (MMAP_DATA + 24 * Z.of_nat i) e;
  cv_lower : le 4 (l_mem s') (MBOOT_INFO + 4) = foldl lower_after 0 (take k es);
  cv_upper : le 4 (l_mem s') (MBOOT_INFO + 8) = foldl upper_after 0 (take k es);
  cv_zero : forall j, 3 <= j < 22 -> le 4 (l_mem s') (MBOOT_INFO + 4 * j) = 0;
  cv_mem : forall p, p < 0x5000 \/ 0x7000 <= p -> ld8 (l_mem s') p = ld8 (l_mem s) p;
  cv_var : l_var s' = l_var s;
  cv_a20 : l_a20 s' = true;
}.

Section BuildRuns.
Context (mboot_name : Z) (Hname : is32 mboot_name).

Lemma pm_low a n : 0x5000 <= a -> a + n <= 0x7000 -> free pm_zone a n.
Proof. intros H1 H2 p Hp. apply pm_free. lia. Qed.

Lemma base_zero e : entry64 e -> (lo32 (x_base e) =? 0) && (hi32 (x_base e) =? 0) = (x_base e =? 0).
Proof.
  intros (Hb & _). unfold lo32, hi32. pose proof (Z.div_mod (x_base e) 4294967296 ltac:(lia)) as Hd.
  apply eq_true_iff_eq. rewrite andb_true_iff, !Z.eqb_eq. split; [lia|]. by intros ->.
Qed.

Lemma base_1mb e : entry64 e -> (hi32 (x_base e) =? 0) && (lo32 (x_base e) =? 0x100000) = (x_base e =? 0x100000).
Proof.
  intros (Hb & _). unfold lo32, hi32. pose proof (Z.div_mod (x_base e) 4294967296 ltac:(lia)) as Hd.
  apply eq_true_iff_eq. rewrite andb_true_iff, !Z.eqb_eq. split; [lia|]. by intros ->.
Qed.

(** [mb_lower] and [mb_check_upper]: one conditional store each. *)
Lemma limit_range e : is32 (lo32 (x_length e) / 1024).
Proof. pose proof (lo32_range (x_length e)). unfold is32 in *. split; [apply Z.div_pos; lia|apply Z.div_lt_upper_bound; lia]. Qed.

Lemma mb_lower_wp a e s E (Q : unit -> lsys -> Prop) : l_a20 s = true -> entry64 e -> raw_at (l_mem s) a e ->
  Q tt (if (x_type e =? 1) && (x_base e =? 0)
        then set_mem (st_bytes (l_mem s) (MBOOT_INFO + 4) (le_bytes 4 (lo32 (x_length e) / 1024))) s else s) ->
  wpe (mb_lower a) s Q E.
Proof.
  intros Ha He (R1 & R2 & R3 & _ & R5) HQ. rewrite <-base_zero in HQ by done. unfold mb_lower, get32. repeat lstep.
  rewrite R5. destruct (x_type e =? 1); cbn [negb andb] in *; [|by apply wp_ret]. repeat lstep.
  rewrite Z.add_0_r, R1. destruct (lo32 (x_base e) =? 0); cbn [negb andb] in *; [|by apply wp_ret]. repeat lstep.
  rewrite R2. destruct (hi32 (x_base e) =? 0); cbn [negb andb] in *; [|by apply wp_ret]. repeat lstep.
  rewrite R3, Z.shiftr_div_pow2 by lia. apply wp_put_le; [done|apply pm_low; unfold MBOOT_INFO; lia|done].
Qed.

Lemma mb_upper_wp a e s E (Q : unit -> lsys -> Prop) : l_a20 s = true -> entry64 e -> raw_at (l_mem s) a e ->
  Q tt (if (x_type e =? 1) && (x_base e =? 0x100000)
        then set_mem (st_bytes (l_mem s) (MBOOT_INFO + 8) (le_bytes 4 (lo32 (x_length e) / 1024))) s else s) ->
  wpe (mb_check_upper a) s Q E.
Proof.
  intros Ha He (R1 & R2 & R3 & _ & R5) HQ. rewrite <-base_1mb in HQ by done. unfold mb_check_upper, get32. repeat lstep.
  rewrite R5. destruct (x_type e =? 1); cbn [negb andb] in *; [|by apply wp_ret]. repeat lstep.
  rewrite R2. destruct (hi32 (x_base e) =? 0); cbn [negb andb] in *; [|by apply wp_ret]. repeat lstep.
  rewrite Z.add_0_r, R1. destruct (lo32 (x_base e) =? 0x100000); cbn [negb andb] in *; [|by apply wp_ret]. repeat lstep.
  rewrite R3, Z.shiftr_div_pow2 by lia. apply wp_put_le; [done|apply pm_low; unfold MBOOT_INFO; lia|done].
Qed.

(** The six words of an entry. *)
Definition put_entry (m : gmap Z Z) (a : Z) (e : e820_entry) : gmap Z Z :=
  st_bytes (st_bytes (st_bytes (st_bytes (st_bytes (st_bytes m a (le_bytes 4 20))
    (a + 4) (le_bytes 4 (lo32 (x_base e)))) (a + 8) (le_bytes 4 (hi32 (x_base e))))
    (a + 12) (le_bytes 4 (lo32 (x_length e)))) (a + 16) (le_bytes 4 (hi32 (x_length e))))
    (a + 20) (le_bytes 4 (x_type e)).

Ltac words := repeat (rewrite le_st_ne by (rewrite length_le_bytes; lia)).

Lemma put_entry_at m a e : entry64 e -> mb_at (put_entry m a e) a e.
Proof.
  intros (Hb & Hl & Ht). pose proof (lo32_range (x_base e)). pose proof (hi32_range _ Hb).
  pose proof (lo32_range (x_length e)). pose proof (hi32_range _ Hl). unfold mb_at, put_entry.
  split_and!; words; rewrite le_st; try done; change (256 ^ Z.of_nat 4) with 4294967296; unfold is32 in *; lia.
Qed.

Lemma put_entry_off m a e : same_off a 24 m (put_entry m a e).
Proof. intros p Hp. unfold put_entry. rewrite !st_bytes_off by (rewrite length_le_bytes; lia). done. Qed.

(** What a turn changes. *)
Record converted (s : lsys) (edi : Z) (e : e820_entry) (s' : lsys) : Prop := {
  co_entry : mb_at (l_mem s') edi e;
  co_lower : le 4 (l_mem s') (MBOOT_INFO + 4) = lower_after (le 4 (l_mem s) (MBOOT_INFO + 4)) e;
  co_upper : le 4 (l_mem s') (MBOOT_INFO + 8) = upper_after (le 4 (l_mem s) (MBOOT_INFO + 8)) e;
  co_mem : forall p, p < 0x5004 \/ 0x500C <= p < edi \/ edi + 24 <= p -> ld8 (l_mem s') p = ld8 (l_mem s) p;
  co_var : l_var s' = l_var s;
  co_a20 : l_a20 s' = true;
}.

Lemma mb_at_same m m' a e : same_on a 24 m m' -> mb_at m a e -> mb_at m' a e.
Proof.
  intros Hs (E1 & E2 & E3 & E4 & E5 & E6). unfold mb_at.
  rewrite !(le_same 4 m m') by (intros p Hp; apply Hs; lia). done.
Qed.

(** The two limits, from the memory with the entry in it. *)
Lemma limits_converted s edi e m1 s' : entry64 e -> l_a20 s = true -> 0x5100 <= edi -> edi + 24 <= 0x7000 ->
  m1 = put_entry (l_mem s) edi e ->
  let m2 := if (x_type e =? 1) && (x_base e =? 0)
            then st_bytes m1 (MBOOT_INFO + 4) (le_bytes 4 (lo32 (x_length e) / 1024)) else m1 in
  let m3 := if (x_type e =? 1) && (x_base e =? 0x100000)
            then st_bytes m2 (MBOOT_INFO + 8) (le_bytes 4 (lo32 (x_length e) / 1024)) else m2 in
  l_mem s' = m3 -> l_var s' = l_var s -> l_a20 s' = true -> converted s edi e s'.
Proof.
  intros He Ha H1 H2 Hm1 m2 m3 Em Ev Ea. pose proof (limit_range e) as Hr. unfold is32 in Hr.
  assert (forall p, p < 0x5004 \/ 0x5008 <= p -> ld8 m2 p = ld8 m1 p) as D2.
  { intros p Hp. unfold m2, MBOOT_INFO. destruct ((x_type e =? 1) && (x_base e =? 0)); [|done]. rewrite st_bytes_off by (rewrite length_le_bytes; lia). done. }
  assert (forall p, p < 0x5008 \/ 0x500C <= p -> ld8 m3 p = ld8 m2 p) as D3.
  { intros p Hp. unfold m3, MBOOT_INFO. clearbody m2. destruct ((x_type e =? 1) && (x_base e =? 0x100000)); [|done]. rewrite st_bytes_off by (rewrite length_le_bytes; lia). done. }
  assert (forall p, p < edi \/ edi + 24 <= p -> ld8 m1 p = ld8 (l_mem s) p) as D1 by (rewrite Hm1; apply put_entry_off).
  split; rewrite ?Em; [| | | |done|done].
  - apply mb_at_same with m1; [intros p Hp; rewrite D3, D2 by lia; done|]. rewrite Hm1. by apply put_entry_at.
  - rewrite (le_same 4 m2 m3) by (intros p Hp; apply D3; unfold MBOOT_INFO in Hp; lia). unfold lower_after, m2.
    destruct ((x_type e =? 1) && (x_base e =? 0)); [by apply le_st|]. apply le_same. intros p Hp. apply D1. unfold MBOOT_INFO in Hp. lia.
  - unfold upper_after, m3. clearbody m2. destruct ((x_type e =? 1) && (x_base e =? 0x100000)); [by apply le_st|]. apply le_same. intros p Hp.
    rewrite D2, D1 by (unfold MBOOT_INFO in Hp; lia). done.
  - intros p Hp. rewrite D3, D2, D1 by lia. done.
Qed.

Lemma mb_entry_wp esi edi e s E (Q : unit -> lsys -> Prop) : l_a20 s = true -> entry64 e -> raw_at (l_mem s) esi e ->
  0x5100 <= edi -> edi + 24 <= esi -> edi + 24 <= 0x7000 -> (forall s', converted s edi e s' -> Q tt s') ->
  wpe (mb_entry esi edi) s Q E.
Proof.
  intros Ha He Hraw H1 H2 H3 HQ. pose proof Hraw as (R1 & R2 & R3 & R4 & R5). unfold mb_entry, get32.
  apply wp_bind, wp_put_le; [done|apply pm_low; lia|].
  do 5 (repeat lstep; apply wp_put_le; [done|apply pm_low; lia|]). repeat lstep. cbn [l_mem set_mem]. words.
  rewrite Z.add_0_r, R1, R2, R3, R4, R5. fold (put_entry (l_mem s) edi e).
  assert (forall m, same_off edi 24 (l_mem s) m -> raw_at m esi e) as Hk.
  { intros m Hm. eapply raw_at_same; [|exact Hraw]. intros b Hb1 Hb2. eapply le_off; [exact Hm|lia]. }
  match goal with |- wpe _ ?x _ _ => set (s1 := x) end.
  assert (l_mem s1 = put_entry (l_mem s) edi e) as Em by done.
  assert (l_var s1 = l_var s /\ l_a20 s1 = true) as [Ev1 Ea1] by done. clearbody s1.
  apply (mb_lower_wp esi e); [done|done|rewrite Em; apply Hk, put_entry_off|].
  apply (mb_upper_wp esi e); [by destruct (_ && _)|done| |].
  { destruct (_ && _); cbn [l_mem set_mem]; [|rewrite Em; apply Hk, put_entry_off].
    apply raw_at_same with (l_mem s1); [|rewrite Em; apply Hk, put_entry_off]. intros b Hb1 Hb2. apply le_st_ne. rewrite length_le_bytes.
    unfold MBOOT_INFO. lia. }
  apply HQ. eapply (limits_converted s edi e (l_mem s1)); [done|done|done|done|done|..]; by repeat destruct (_ && _).
Qed.

Lemma mb_map_step m m' es k e : es !! k = Some e -> (k < 170)%nat -> mb_map m (take k es) ->
  mb_at m' (MBOOT_MMAP + 24 * Z.of_nat k) e ->
  (forall p, 0x500C <= p < MBOOT_MMAP + 24 * Z.of_nat k -> ld8 m' p = ld8 m p) -> mb_map m' (take (S k) es).
Proof.
  intros He Hk Hm Hnew Hs i e' Hi. apply lookup_take_Some in Hi as [Hi Hlt].
  destruct (decide (i = k)) as [->|Hne]; [by replace e' with e by congruence|].
  eapply mb_at_same; [|apply Hm, lookup_take_Some; split; [exact Hi|lia]].
  intros p Hp. apply Hs. unfold MBOOT_MMAP in *. lia.
Qed.

Lemma converting_step s es k e s1 s2 : es !! k = Some e -> (length es <= 170)%nat -> converting s es k s1 ->
  converted s1 (MBOOT_MMAP + 24 * Z.of_nat k) e s2 -> converting s es (S k) s2.
Proof.
  intros He Hl [D R Lo Up Ze Me Va _] [Ce Cl Cu Cm Cv Ca]. pose proof (lookup_lt_Some _ _ _ He) as Hk. split.
  - eapply mb_map_step; [exact He|lia|exact D|exact Ce|]. intros p Hp. apply Cm. lia.
  - intros i e' Hi He'. eapply raw_at_same; [|apply (R i e'); [lia|done]]. intros b Hb1 Hb2. apply le_same.
    intros p Hp. apply Cm. unfold MBOOT_MMAP, MMAP_DATA in *. lia.
  - by rewrite Cl, Lo, (take_S_r _ _ e), foldl_app by done.
  - by rewrite Cu, Up, (take_S_r _ _ e), foldl_app by done.
  - intros j Hj. rewrite <-(Ze j Hj). apply le_same. intros p Hp. apply Cm. unfold MBOOT_INFO, MBOOT_MMAP in *. lia.
  - intros p Hp. rewrite Cm; [by apply Me|]. unfold MBOOT_MMAP. lia.
  - congruence.
  - done.
Qed.

Lemma mb_convert_wp s es s1 E (Q : Z -> lsys -> Prop) : (length es <= 170)%nat -> Forall entry64 es ->
  converting s es 0 s1 -> (forall s', converting s es (length es) s' -> Q (24 * Z.of_nat (length es)) s') ->
  wpe (mb_convert (Z.of_nat (length es))) s1 Q E.
Proof.
  intros Hl H64 Hc HQ. unfold mb_convert.
  apply (wp_loop_var _ (fun n x s' => exists k, (k <= length es)%nat /\ n = Z.of_nat (length es) - Z.of_nat k /\
    x = (MMAP_DATA + 24 * Z.of_nat k, MBOOT_MMAP + 24 * Z.of_nat k, 24 * Z.of_nat k, Z.of_nat (length es) - Z.of_nat k) /\
    converting s es k s')) with (Z.of_nat (length es)); [| |lia].
  2:{ exists 0%nat. rewrite Z.sub_0_r. split; [lia|]. done. }
  intros n x s2 (k & Hk & -> & -> & Hc2). destruct (Z.of_nat (length es) - Z.of_nat k =? 0) eqn:Ek; bools.
  { apply wp_ret. assert (k = length es) as -> by lia. by apply HQ. }
  destruct (lookup_lt_is_Some_2 es k ltac:(lia)) as [e He].
  apply wp_bind, (mb_entry_wp _ _ e); [apply Hc2|by eapply Forall_lookup_1|by apply (cv_rest _ _ _ _ Hc2)|..];
    [unfold MBOOT_MMAP, MMAP_DATA; lia..|].
  intros s3 Hd. apply wp_ret. exists (Z.of_nat (length es) - Z.of_nat (S k)). split; [lia|]. exists (S k).
  split; [lia|]. split; [done|]. split; [|by eapply converting_step].
  unfold MMAP_ENTRY_SIZE, MBOOT_MMAP, MMAP_DATA. rewrite !u32_small by (unfold is32; lia).
  apply f_equal2; [apply f_equal2; [apply f_equal2|]|]; lia.
Qed.

Lemma clear_info_wp s E (Q : unit -> lsys -> Prop) : l_a20 s = true ->
  (forall s', same_off MBOOT_INFO 88 (l_mem s) (l_mem s') -> (forall j, 0 <= j < 22 -> le 4 (l_mem s') (MBOOT_INFO + 4 * j) = 0) ->
     l_var s' = l_var s -> l_a20 s' = true -> Q tt s') ->
  wpe (for_loop 22 1 (fun i => put_le pm_zone 4 (MBOOT_INFO + 4 * i) 0) 0) s Q E.
Proof.
  intros Ha HQ. apply (wp_for_loop _ _ _ (fun i s' => same_off MBOOT_INFO 88 (l_mem s) (l_mem s') /\
    (forall j, 0 <= j < i -> le 4 (l_mem s') (MBOOT_INFO + 4 * j) = 0) /\ l_var s' = l_var s /\ l_a20 s' = true));
    [done|lia|done|lia|split_and!; [done|intros; lia|done|done]| |intros s' (? & ? & ? & ?); by apply HQ].
  intros i s1 Hi _ (Hm & Hz & Hv & Ha1). apply wp_put_le; [done|apply pm_low; unfold MBOOT_INFO; lia|].
  split; [|split; [|done]].
  - intros p Hp. cbn [l_mem set_mem]. rewrite st_bytes_off by (rewrite length_le_bytes; lia). by apply Hm.
  - intros j Hj. cbn [l_mem set_mem]. destruct (Z.eq_dec j i) as [->|]; [by rewrite le_st|].
    rewrite le_st_ne by (rewrite length_le_bytes; lia). apply Hz. lia.
Qed.

(** The structure describes the table. *)
Lemma build_multiboot_wp s es E (Q : unit -> lsys -> Prop) : (length es <= 170)%nat -> Forall entry64 es ->
  l_a20 s = true -> table (l_mem s) es ->
  (forall s', mb_info (l_mem s') es -> l_var s' = l_var s -> l_a20 s' = true ->
     (forall p, p < 0x5000 \/ 0x7000 <= p -> ld8 (l_mem s') p = ld8 (l_mem s) p) -> Q tt s') ->
  wpe (build_multiboot mboot_name) s Q E.
Proof.
  intros Hl H64 Ha [Hc Ht] HQ. unfold build_multiboot, get32. apply wp_bind, clear_info_wp; [done|].
  intros s1 M1 Z1 V1 A1. repeat lstep.
  assert (le 4 (l_mem s1) MMAP_ENTRIES = Z.of_nat (length es)) as ->.
  { rewrite <-Hc. eapply le_off; [exact M1|]. unfold MMAP_ENTRIES, MBOOT_INFO. lia. }
  apply (mb_convert_wp s es s1); [done|done| |].
  { split; [intros i e Hi; by rewrite take_0, lookup_nil in Hi| |apply (Z1 1); lia|apply (Z1 2); lia|intros; apply Z1; lia| |done|done].
    - intros i e _ Hi. eapply raw_at_same; [|by apply Ht]. intros b Hb1 Hb2. eapply le_off; [exact M1|].
      unfold MMAP_DATA, MBOOT_INFO in *. lia.
    - intros p Hp. apply M1. unfold MBOOT_INFO. lia. }
  intros s2 [D _ Lo Up Ze Me Va A2]. rewrite firstn_all in D, Lo, Up.
  do 3 (apply wp_bind, wp_put_le; [done|apply pm_low; unfold MBOOT_INFO; lia|]).
  apply wp_put_le; [done|apply pm_low; unfold MBOOT_INFO; lia|]. unfold MBOOT_INFO, MBOOT_MMAP in *.
  rewrite Z.add_0_r. apply HQ; [|done|done|].
  - split; cbn [l_mem set_mem]; unfold MBOOT_INFO, MBOOT_MMAP; words; rewrite ?le_st; try done.
    + change (256 ^ Z.of_nat 4) with 4294967296. lia.
    + intros j Hj H11 H12 H16. words. by apply Ze.
    + intros i e Hi. eapply mb_at_same; [|by apply D]. apply lookup_lt_Some in Hi. intros p Hp. unfold MBOOT_MMAP in Hp.
      rewrite !st_bytes_off by (rewrite length_le_bytes; lia). done.
  - intros p Hp. cbn [l_mem set_mem]. rewrite !st_bytes_off by (rewrite length_le_bytes; lia). by apply Me.
Qed.
End BuildRuns.
