(* ===== verification/Stage2.v ===== *)
(** * Stage 2 of the boot loader ([boot/stage2.asm])

    [stage2_start] and [pm_entry]: the loader's parts in their order, from the jump of stage 1
    to the jump to the kernel. *)

From stdpp Require Import base gmap list numbers option strings.
From Stdlib Require Import ZArith Lia.
From S2P Require Import Prelude Machine Terminal Gdt LoaderState Loader Fat16 Elf Handoff.

(** The descriptors at [gdt_start]. *)
Definition stage2_gdt : list (list Z) :=
  [[0; 0; 0; 0; 0; 0; 0; 0];
   [0xFF; 0xFF; 0; 0; 0; 0x9A; 0xCF; 0];
   [0xFF; 0xFF; 0; 0; 0; 0x92; 0xCF; 0]].

(** Selectors 0x08 and 0x10 are flat segments of ring 0, for code and for data. *)
Lemma stage2_gdt_flat :
  (stage2_gdt !! 1%nat ≫= decode) = Some (Segment 0 0xFFFFFFFF true 0 true true) /\
  (stage2_gdt !! 2%nat ≫= decode) = Some (Segment 0 0xFFFFFFFF true 0 false true).
Proof. done. Qed.

Section Stage2.
Context (B : bios) (mboot_name : Z).

(** The banner and the boot drive. *)
Definition banner : M lsys unit :=
  print_string ("+========================+" +:+ crlf) ;;;
  print_string ("|      MyBoot v1.0       |" +:+ crlf) ;;;
  print_string ("+========================+" +:+ crlf) ;;;
  print_string "Boot drive: " ;;;
  al <- rdv boot_drive ;; print_hex al ;;;
  print_string crlf ;;;
  print_string ("Stage 2 loaded successfully." +:+ crlf).

(** The gate is opened and checked, or the loader stops. *)
Definition open_a20 : M lsys unit :=
  enable_a20 B ;;;
  ax <- check_a20 ;;
  if ax =? 0 then
    print_string ("A20: FAILED - cannot continue." +:+ crlf) ;;; stop_with Halted
  else print_string ("A20: enabled." +:+ crlf).

(** Steps 8 and 9: the volume and the kernel's file. *)
Definition load_kernel : M lsys unit :=
  fat16_init B ;;;
  ax <- fat16_find_file B ;;
  if ax =? 0 then stop_with Halted else fat16_load_file B ax.

(** The code in 32-bit mode; the result is EAX, EBX and the address of the jump. *)
Definition pm_entry : M lsys (Z * Z * Z) :=
  pm_put (0xB8000 + 3360) (bytes_of "[ OK ] 32-bit protected mode active!") ;;;
  elf_load ;;;
  pm_print_line "Building multiboot info struct..." ;;;
  build_multiboot mboot_name ;;;
  pm_print_line "Jumping to kernel entry point..." ;;;
  eip <- rdv kernel_entry ;;
  ret (0x2BADB002, MBOOT_INFO, eip).

(** [stage2_start].  Between the last message and [pm_entry] only registers change: [cli],
    [lgdt] of the descriptors above, CR0.PE, the far jump through selector 0x08 and the loads
    of the data segments with 0x10; both segments are flat, so that addresses mean the same
    on both sides. *)
Definition stage2_start (dl : Z) : M lsys (Z * Z * Z) :=
  wrv boot_drive dl ;;;
  banner ;;;
  open_a20 ;;;
  detect_memory B ;;;
  print_string ("Memory map:" +:+ crlf) ;;;
  print_memory_map ;;;
  load_kernel ;;;
  print_string ("Loading GDT, switching to protected mode..." +:+ crlf) ;;;
  pm_entry.
End Stage2.

(** ** The real-mode part *)

Section Runs.
Context (B : bios) (drive : Z) (d : disk) (g : geom) (entry : list Z) (cs : list Z).
Context (Hkbd : kbd_ready B).
Context (Hserves : serves B drive d) (Hv : volume d g).
Context (Hfind : dir_find (root_dir d g) = Some entry) (Hfirst : lle 2 entry 0x1A <> 0).
Context (Hchain : chain (fat_of d g) (lle 2 entry 0x1A) cs) (Hcs : Forall (cluster_ok d g) cs).
Context (Hsize : cluster_size g * Z.of_nat (length cs) <= 0x7F000).

Lemma banner_wp s E (Q : unit -> lsys -> Prop) : (forall s', printed s s' -> Q tt s') -> wpe banner s Q E.
Proof.
  intros HQ. unfold banner.
  do 4 (apply wp_bind, print_string_wp; let s := fresh "s" in let o := fresh "o" in intros s [o ->]).
  repeat lstep. apply bios_hex_wp. intros s5 [o5 ->]. apply wp_bind, print_string_wp. intros s6 [o6 ->].
  apply print_string_wp. intros s7 [o7 ->]. apply HQ. by eexists.
Qed.

Lemma open_a20_wp s (E : stop -> lsys -> Prop) (Q : unit -> lsys -> Prop) :
  (forall s', gate_only s s' -> l_a20 s' = true -> Q tt s') -> (forall s', l_a20 s' = false -> E Halted s') ->
  wpe (open_a20 B) s Q E.
Proof.
  intros HQ HE. unfold open_a20. apply wp_bind, enable_a20_wp; [done|]. intros s1 H1.
  apply wp_bind, check_a20_wp. intros s2 H2 A2. destruct (l_a20 s1); cbn [Z.eqb].
  - apply print_string_wp. intros s3 [o ->]. apply HQ; [|done]. eapply gate_trans; [exact H1|]. by destruct H2.
  - apply wp_bind, print_string_wp. intros s3 [o ->]. by apply wp_stop, HE.
Qed.

(** The file is at 0x10000, outside the buffers and the file memory is as it was. *)
Record kernel_read (s s' : lsys) : Prop := {
  kr_file : bytes_at (l_mem s') ELF_BASE (file_bytes d g cs);
  kr_mem : forall p, 0x6000 <= p < 0x10000 -> ld8 (l_mem s') p = ld8 (l_mem s) p;
  kr_vga : l_var s' pm_vga_pos = l_var s pm_vga_pos;
  kr_a20 : l_a20 s' = true;
}.

Lemma load_kernel_wp s E (Q : unit -> lsys -> Prop) : l_a20 s = true -> l_var s boot_drive = drive ->
  (forall s', kernel_read s s' -> Q tt s') -> wpe (load_kernel B) s Q E.
Proof.
  intros Ha Hdr HQ. unfold load_kernel. apply wp_bind, (fat16_init_wp B drive d g (l_var s pm_vga_pos) Hserves Hv); [done|done|done|].
  intros s1 [V1 A1 F1 M1]. apply wp_bind, (fat16_find_wp B drive d g (l_var s pm_vga_pos) Hserves Hv); [done|done|].
  intros ax s2 [V2 A2 M2] Hres. rewrite Hfind in Hres. destruct Hres as [-> _].
  rewrite (proj2 (Z.eqb_neq _ _) Hfirst).
  apply (fat16_load_wp B drive d g (l_var s pm_vga_pos) Hserves Hv s2 cs Hcs); [lia| |exact V2|exact A2|exact Hchain|].
  { eapply bytes_at_same; [exact F1|]. intros p Hp. apply M2. unfold FAT_BUF, SECTOR_BUF in *. lia. }
  intros s3 [_ G3 A3 F3 M3]. apply HQ. split; [exact F3| |exact G3|exact A3]. intros p Hp.
  rewrite M3 by lia. rewrite M2 by (unfold SECTOR_BUF; lia). apply M1. lia.
Qed.
End Runs.
