(* ===== verification/LoaderSpec.v ===== *)
(** * What the boot loader guarantees

    Runs of [boot/stage1.asm] and [boot/stage2.asm] on a machine whose BIOS does what its
    documentation says, up to the kernel's own boot code and [kernel_main]. *)

From stdpp Require Import base gmap list numbers option strings.
From Stdlib Require Import ZArith Lia.
From S2P Require Import Prelude Machine PageTables Pmm Paging PagingInit Boot PmmSpec PagingSpec.
From S2P Require Import HeapList Kheap HeapInv HeapSpec Vmm Terminal Kprintf Serial Process SchedInv Kernel KernelSpec.
From S2P Require Import Start LoaderState Loader Fat16 Elf Handoff Stage2.

(** ** The protected-mode part *)

(** The kernel is in memory, the memory map is where EBX points. *)
Record handed_over (file : list Z) (es : list e820_entry) (s' : lsys) : Prop := {
  ho_info : mb_info (l_mem s') es;
  ho_segments : forall h, h ∈ phdrs file -> p_type h = 1 -> bytes_at (l_mem s') (p_paddr h) (segment_bytes file h);
}.

Lemma table_same m m' es : (length es <= 170)%nat -> table m es ->
  (forall p, 0x6000 <= p < 0x7000 -> ld8 m' p = ld8 m p) -> table m' es.
Proof.
  intros Hl [Hc Ht] Hs. split.
  - rewrite <-Hc. apply le_same. intros p Hp. apply Hs. unfold MMAP_ENTRIES in Hp. lia.
  - intros i e Hi. eapply raw_at_same; [|by apply Ht]. apply lookup_lt_Some in Hi. intros b Hb1 Hb2. apply le_same.
    intros p Hp. apply Hs. unfold MMAP_DATA in *. lia.
Qed.

Lemma mb_info_same m m' es : (length es <= 170)%nat -> mb_info m es ->
  (forall p, 0x5000 <= p < 0x8000 -> ld8 m' p = ld8 m p) -> mb_info m' es.
Proof.
  intros Hl [I1 I2 I3 I4 I5 I6 I7] Hs.
  assert (forall a, 0x5000 <= a < 0x7000 -> le 4 m' a = le 4 m a) as Hle.
  { intros a Ha. apply le_same. intros p Hp. apply Hs. lia. }
  split; rewrite ?Hle by (unfold MBOOT_INFO; lia); try done.
  { intros j Hj H1 H2 H3. rewrite Hle by (unfold MBOOT_INFO; lia). by apply I6. }
  intros i e Hi. eapply mb_at_same; [|by apply I7].
  apply lookup_lt_Some in Hi. intros p Hp. apply Hs. unfold MBOOT_MMAP in Hp. lia.
Qed.

Section Pm.
Context (mboot_name : Z) (file : list Z) (es : list e820_entry).
Context (Hes : (length es <= 170)%nat) (H64 : Forall entry64 es).
Context (Hok : elf_valid file = true -> elf_ok file /\ ForallOrdPairs apart (phdrs file)) (Hlen : (52 <= length file)%nat).
Context (Hshort : Z.of_nat (length file) <= 0x7F000).

Lemma pm_entry_wp s : l_a20 s = true -> at_row s 22 -> bytes_at (l_mem s) ELF_BASE file -> table (l_mem s) es ->
  wpe (pm_entry mboot_name) s
    (fun r s' => elf_valid file = true /\ r = (0x2BADB002, MBOOT_INFO, e_entry file) /\ handed_over file es s')
    (fun e _ => e = Halted /\ elf_valid file = false).
Proof.
  intros Ha Hrow Hb Ht. unfold pm_entry. apply wp_bind, pm_put_wp; [done|lia|cbn; lia|]. intros s1 [M1 V1 A1].
  assert (bytes_at (l_mem s1) ELF_BASE file) as Hb1.
  { eapply bytes_at_same; [exact Hb|]. intros p Hp. apply M1. unfold ELF_BASE in Hp. lia. }
  assert (table (l_mem s1) es) as Ht1 by (eapply table_same; [done|exact Ht|]; intros p Hp; apply M1; lia).
  apply wp_bind. eapply wp_weaken; [apply (elf_load_wp file s1 22)| |].
  - intros Hv. by apply Hok.
  - done.
  - by rewrite A1.
  - unfold at_row. by rewrite V1.
  - lia.
  - exact Hb1.
  - intros [] s2 (Hv & [El Em Ea] & Hr2). destruct (Hok Hv) as [Heok Hap].
    assert (table (l_mem s2) es) as Ht2.
    { eapply table_same; [done|exact Ht1|]. intros p Hp. rewrite Em by lia. apply load_segments_low; [apply Heok|lia]. }
    apply wp_bind. eapply pm_print_line_wp; [done|exact Hr2|lia|cbn; lia|]. intros s3 [M3 V3 A3].
    assert (table (l_mem s3) es) as Ht3 by (eapply table_same; [done|exact Ht2|]; intros p Hp; apply M3; lia).
    apply wp_bind, (build_multiboot_wp mboot_name s3 es); [done|done|by rewrite A3|done|].
    intros s4 Hi V4 A4 M4. apply wp_bind. eapply (pm_print_line_wp _ _ 24); [done| |lia|cbn; lia|].
    { unfold at_row. rewrite V4, V3. by vars. }
    intros s5 [M5 V5 A5]. repeat lstep. split; [done|]. split.
    { rewrite V5. vars. rewrite V4, V3. vars. by rewrite El. }
    split.
    + eapply mb_info_same; [done|exact Hi|]. intros p Hp. apply M5. lia.
    + intros h Hh Hty. assert (segment_ok file h) as Hsh by (pose proof (eo_segments _ Heok) as Hf; rewrite Forall_forall in Hf; by apply Hf).
      eapply bytes_at_same; [apply (segments_loaded file Heok (phdrs file) (l_mem s1)); [apply Heok|by apply phdrs_sized|done|exact Hh|done]|].
      destruct (Hsh Hty) as (_ & Hpa & _). intros p Hp. rewrite M5, M4 by lia. cbn [set_var l_mem] in M3. rewrite M3 by lia.
      apply Em. lia.
  - intros e s2 (Hv & -> & _). done.
Qed.
End Pm.

(** ** Stage 2 *)

Section Stage2.
Context (B : bios) (mboot_name drive : Z) (d : disk) (g : geom) (es : list e820_entry) (entry cs : list Z).

(** What stage 2 finds: a keyboard controller that answers, a BIOS that lists [es] and reads the
    disk, and a volume on it with the kernel's file in the chain [cs]. *)
Record bootable : Prop := {
  ba_kbd : kbd_ready B;
  ba_map : lists B es /\ (length es <= 170)%nat;
  ba_disk : serves B drive d /\ volume d g;
  ba_entry : dir_find (root_dir d g) = Some entry /\ lle 2 entry 0x1A <> 0;
  ba_chain : chain (fat_of d g) (lle 2 entry 0x1A) cs /\ Forall (cluster_ok d g) cs;
  ba_size : cluster_size g * Z.of_nat (length cs) <= 0x7F000;
  ba_elf : elf_valid (file_bytes d g cs) = true -> elf_ok (file_bytes d g cs) /\ ForallOrdPairs apart (phdrs (file_bytes d g cs));
}.

Lemma file_length : bootable -> (52 <= length (file_bytes d g cs))%nat /\ Z.of_nat (length (file_bytes d g cs)) <= 0x7F000.
Proof.
  intros [_ _ [_ Hv] _ [Hch Hcs] Hsz _]. pose proof (length_file d g Hv cs Hcs) as Hl.
  pose proof (v_spc d g Hv) as Hspc. assert (0 < length cs)%nat by (destruct Hch; cbn; lia).
  unfold cluster_size in *. split; [|lia]. nia.
Qed.

Lemma stage2_wp s : bootable -> at_row s 22 ->
  wpe (stage2_start B mboot_name drive) s
    (fun r s' => elf_valid (file_bytes d g cs) = true /\ r = (0x2BADB002, MBOOT_INFO, e_entry (file_bytes d g cs)) /\
                 handed_over (file_bytes d g cs) (filter nonempty es) s')
    (fun e s' => e = Halted /\ (l_a20 s' = false \/ elf_valid (file_bytes d g cs) = false)).
Proof.
  intros Hba Hrow. destruct (file_length Hba) as [Hfl Hfs]. destruct Hba as [Hk [Hls Hes] [Hsv Hv] [Hf Hf0] [Hch Hcs] Hsz Helf].
  assert (length (filter nonempty es) <= 170)%nat as Hes' by (etransitivity; [apply length_filter|done]).
  assert (Forall entry64 (filter nonempty es)) as H64 .
  { apply Forall_forall. intros e [_ He]%list_elem_of_filter. destruct Hls as (_ & H & _). rewrite Forall_forall in H. by apply H. }
  unfold stage2_start. apply wp_bind, wp_wrv, wp_bind, banner_wp. intros s1 [o1 ->].
  apply wp_bind, (open_a20_wp B Hk); [|intros s' Ha; split; [done|by left]].
  intros s2 [M2 V2] A2. apply wp_bind, (detect_memory_wp B s2 es); [done|done|done|]. intros s3 [T3 M3 V3 A3].
  apply wp_bind, print_string_wp. intros s4 [o4 ->]. apply wp_bind, print_memory_map_wp; [done|]. intros s5 [o5 ->].
  apply wp_bind, (load_kernel_wp B drive d g entry cs Hsv Hv Hf Hf0 Hch Hcs Hsz); [done| |].
  { cbn [l_var]. rewrite V3, V2. cbn [l_var]. by vars. }
  intros s6 [F6 M6 G6 A6]. apply wp_bind, print_string_wp. intros s7 [o7 ->].
  eapply wp_weaken; [apply (pm_entry_wp mboot_name (file_bytes d g cs) (filter nonempty es) Hes' H64 Helf Hfl Hfs)| |].
  - done.
  - unfold at_row in *. cbn [l_var] in *. rewrite G6, V3, V2. cbn [l_var]. by vars.
  - exact F6.
  - eapply table_same; [done|exact T3|]. intros p Hp. apply M6. lia.
  - done.
  - intros e s8 [-> Hv8]. split; [done|by right].
Qed.
End Stage2.

(** ** The kernel's view *)

(** An entry as [pmm_init] reads it. *)
Definition kernel_entry_of (e : e820_entry) : mmap_entry := MmapEntry 20 (x_base e) (x_length e) (x_type e).

Section KernelView.
Context {L : Layout} {LOk : LayoutOk L}.

Lemma boot_ram_low m p : p < 0x100000 -> ld8 (boot_ram m) p = ld8 m p.
Proof.
  intros Hp. pose proof lo_bpd_range as H1. pose proof lo_bpt_range as H2. unfold boot_ram, boot_pd, boot_pt in *.
  assert (forall m a v, 0x100000 <= a -> ld8 (st32 m a v) p = ld8 m p) as Hst.
  { intros m' a v Ha. unfold st32. rewrite !ld8_st8, !decide_False by lia. done. }
  assert (forall n m a f, 0x100000 <= a -> ld8 (fill_words n a f m) p = ld8 m p) as Hfill.
  { induction n as [|n IH]; intros m' a f Ha; cbn [fill_words]; [done|]. rewrite Hst by lia. by apply IH. }
  rewrite !Hst, !Hfill by lia. done.
Qed.

(** Below 1 MB the kernel reads what the loader stored. *)
Lemma vread_low m dev a : 0 <= a -> a + 4 <= 0x100000 -> vread (boot_machine m dev) a = Some (le 4 m a).
Proof.
  intros H0 H1. assert (forall b, 0 <= b < 0x100000 -> translate (boot_machine m dev) b = Some b) as Ht.
  { intros b Hb. rewrite boot_translate by (unfold is32; lia). unfold boot_map. by rewrite decide_True by lia. }
  unfold vread, translate4. rewrite !u32_small by (unfold is32; lia). rewrite !Ht by lia.
  cbn [ram boot_machine]. rewrite !boot_ram_low by lia. f_equal. cbn [le].
  replace (a + 2) with (a + 1 + 1) by lia. replace (a + 3) with (a + 1 + 1 + 1) by lia. lia.
Qed.

(** What the loader built is what [pmm_init] expects. *)
Lemma handed_boot_info m es dev : mb_info m es -> (length es <= 170)%nat ->
  boot_info (boot_machine m dev) MBOOT_INFO (kernel_entry_of <$> es).
Proof.
  intros [I1 _ _ I4 I5 _ I6] Hl. exists 0x241, MBOOT_MMAP, (24 * Z.of_nat (length es)). unfold MBOOT_INFO, MBOOT_MMAP in *.
  rewrite !u32_small by (unfold is32; lia). rewrite !vread_low, I1, I4, I5 by lia.
  split; [unfold is32; lia|]. split; [done|]. split; [done|]. split; [done|]. split; [done|].
  assert (forall k, (k <= length es)%nat ->
    mmap_at (boot_machine m dev) (0x5100 + 24 * Z.of_nat (length es - k)) (0x5100 + 24 * Z.of_nat (length es))
      (kernel_entry_of <$> drop (length es - k) es)) as H.
  { induction k as [|k IH]; intros Hk; [rewrite Nat.sub_0_r, drop_all; cbn; lia|].
    destruct (lookup_lt_is_Some_2 es (length es - S k) ltac:(lia)) as [e He].
    rewrite (drop_S _ e) by done. replace (S (length es - S k)) with (length es - k)%nat by lia. cbn [fmap list_fmap mmap_at].
    specialize (IH ltac:(lia)). destruct (I6 _ _ He) as (E1 & E2 & _ & E4 & _ & E6). unfold MBOOT_MMAP in *.
    set (a := 0x5100 + 24 * Z.of_nat (length es - S k)) in *. cbn [e_size kernel_entry_of].
    split; [lia|]. split.
    - unfold entry_at. rewrite (u32_small (a + 4)), (u32_small (a + 12)), (u32_small (a + 20)) by (unfold is32; lia).
      rewrite !vread_low, E1, E2, E4, E6 by lia. done.
    - split; [lia|]. split; [unfold is32; lia|]. replace (a + 20 + 4) with (0x5100 + 24 * Z.of_nat (length es - k)) by lia. exact IH. }
  specialize (H (length es) ltac:(lia)). by rewrite Nat.sub_diag in H.
Qed.
End KernelView.

Section Entering.
Context {L : Layout} {LOk : LayoutOk L}.

(** The kernel when [kernel_main] is called on the machine [h]: its statics are zero, and the
    serial port gets ready now and then. *)
Record entering (h : machine) (k : kernel) : Prop := {
  en_machine : g_hw (h_g (hs (k_o k))) = h;
  en_serial : responsive h;
  en_frames : pristine (g_p (h_g (hs (k_o k))));
  en_heap : total_allocated (hs (k_o k)) = 0 /\ first_block (hs (k_o k)) = 0;
  en_regions : length (region_pool (o_v (k_o k))) = 256%nat /\ region_pool_used (o_v (k_o k)) = 0;
  en_table : table_ok (k_o k);
  en_cells : length (k_cells k) = 2000%nat;
  en_gdt : length (k_gdt k) = 3%nat;
  en_idt : length (k_idt k) = 256%nat;
  en_handlers : length (k_handlers k) = 256%nat;
}.

Lemma entering_entry m es dev k : mb_info m es -> (length es <= 170)%nat ->
  Forall entry_ok (kernel_entry_of <$> es) -> map_disjoint free_limit (kernel_entry_of <$> es) ->
  entering (boot_machine m dev) k -> at_entry MBOOT_INFO (kernel_entry_of <$> es) k.
Proof.
  intros Hi Hl Hok Hd [Em Hse Hp Hh Hr Ht Hc Hg Hid Hha].
  split; try done; [|change (responsive (g_hw (h_g (hs (k_o k))))); by rewrite Em]. split; [done| | |done|done].
  - exists boot_pd. rewrite Em. apply boot_boot_ok.
  - rewrite Em. by apply handed_boot_info.
Qed.
End Entering.

(** ** Claims on the loader *)

(** C10: stage 2 hands the machine over as the kernel's boot code expects it.  The BIOS lists
    a memory map and reads a disk with a FAT16 volume whose root directory has TUPLEOS.BIN:
    the loader finds the file, follows its chain of clusters, loads every PT_LOAD segment
    with its zero-filled rest, and jumps to the entry point with the multiboot magic in EAX
    and, in EBX, the address of a [multiboot_info_t] that describes the map without its empty
    entries and whose other fields are zero, up to the address of the loader's name.  It
    stops only when the A20 gate stays closed or the file is no ELF executable for i386. *)
Theorem stage2_hands_over B mboot_name drive d g es entry cs s :
  bootable B drive d g es entry cs -> at_row s 22 ->
  wpe (stage2_start B mboot_name drive) s
    (fun r s' => elf_valid (file_bytes d g cs) = true /\ r = (0x2BADB002, MBOOT_INFO, e_entry (file_bytes d g cs)) /\
                 handed_over (file_bytes d g cs) (filter nonempty es) s' /\
                 exists name, multiboot_at (l_mem s') MBOOT_INFO = handed_struct (filter nonempty es) name)
    (fun e s' => e = Halted /\ (l_a20 s' = false \/ elf_valid (file_bytes d g cs) = false)).
Proof.
  intros Hb Hrow. eapply wp_mono; [exact (stage2_wp B mboot_name drive d g es entry cs s Hb Hrow)|]. intros r s' (Hv & -> & Ho).
  split; [done|]. split; [done|]. split; [done|]. eexists. apply multiboot_struct, Ho.
Qed.

(** C23: [detect_memory] fills the table with exactly the entries of E820 that are not empty;
    where E820 is missing, with low memory and one range above 1 MB of the size E801
    reports; where both are, with nothing.  It writes nowhere else. *)
Theorem detect_memory_exact B s : l_a20 s = true ->
  (forall es, lists B es -> (length es <= 170)%nat ->
     wp (detect_memory B) s (fun _ s' => filling s (filter nonempty es) s')) /\
  (e820_missing B (l_calls s) ->
     wp (detect_memory B) s (fun _ s' => match e801 B (S (l_calls s)) with
       | Some (ax, bx, cx, dx) => filling s (e801_entries ax bx cx dx) s'
       | None => filling s [] s'
       end)).
Proof.
  intros Ha. split.
  - intros es Hls Hl. by apply (detect_memory_wp B s es).
  - intros Hm. apply detect_e801_wp; [done|done|]. intros s'. by destruct (e801 B (S (l_calls s))) as [[[[? ?] ?] ?]|].
Qed.

(** C24: entered with DS = 0, stage 1 makes up to three attempts to read stage 2, with a reset
    after a failure.  It jumps to 0x7E00 with the drive in DL exactly when the first attempt
    that succeeds has read 32 sectors, whose bytes are then at 0x7E00; it stops with a message
    when all three fail or the first that succeeds is short. *)
Theorem stage1_loads B off drive s : chs_bounded B ->
  wpe (stage1 B off 0 drive) s
    (fun r s' => r = (STAGE2_ADDR, drive) /\ stage2_read B s drive s' /\ same_off STAGE2_ADDR 16384 (l_mem s) (l_mem s'))
    (fun e _ => e = Halted /\ stage1_gave_up B s drive).
Proof. apply stage1_wp. Qed.

(** C40: entered with DS other than 0, which the BIOS is free to do, stage 1 loses the boot
    drive: it stores DL before it sets DS to 0, so that the number it reads stage 2 from and
    passes on in DL is the one in its image, whatever drive it was started from. *)
Theorem stage1_wrong_drive B off ds drive s : chs_bounded B -> 0 < ds <= 0xFFFF ->
  0x7C00 <= off < 0x7DFE -> stage1_zone (phys (l_a20 s) (ds * 16 + off)) = false ->
  wpe (stage1 B off ds drive) s
    (fun r s' => r = (STAGE2_ADDR, l_var s boot_drive) /\ stage2_read B s (l_var s boot_drive) s')
    (fun e _ => e = Halted /\ stage1_gave_up B s (l_var s boot_drive)).
Proof.
  intros Hb Hds Hoff Hz. unfold stage1, store_drive. rewrite (proj2 (Z.eqb_neq ds 0)) by lia.
  apply wp_bind. unfold put8. apply wp_bind, wp_get. rewrite Hz. apply wp_modify.
  set (s1 := set_mem _ _). eapply wp_mono; [exact (read_stage2_wp B (l_var s1 boot_drive) s1 Hb eq_refl)|].
  intros r s' (Hr & Hrd & _). done.
Qed.

(** Reads of the data area fail. *)
Definition data_unreadable (B : bios) (drive : Z) (g : geom) : Prop :=
  forall n lba count, data_start g <= lba -> int13 B n drive lba count = (true, []).

(** C37: a disk error while the kernel is loaded is not noticed.  When the clusters of the
    file cannot be read, [fat16_load_file] prints a message and returns as it does after
    success, so that stage 2 goes on to protected mode with a file that is not in memory:
    nothing was stored at 0x10000 or above. *)
Theorem load_error_ignored B drive d g entry s : serves B drive d -> volume d g -> data_unreadable B drive g ->
  dir_find (root_dir d g) = Some entry -> 2 <= lle 2 entry 0x1A ->
  data_start g + (lle 2 entry 0x1A - 2) * g_spc g < 65536 -> lle 2 entry 0x1A < 65536 ->
  l_a20 s = true -> l_var s boot_drive = drive ->
  wp (load_kernel B) s (fun _ s' => forall p, 0x10000 <= p -> ld8 (l_mem s') p = ld8 (l_mem s) p).
Proof.
  intros Hsv Hv Hbad Hf Hc Hl Hc16 Ha Hdr. unfold load_kernel.
  apply wp_bind, (fat16_init_wp B drive d g (l_var s pm_vga_pos) Hsv Hv); [done|done|done|]. intros s1 [V1 A1 F1 M1].
  apply wp_bind, (fat16_find_wp B drive d g (l_var s pm_vga_pos) Hsv Hv); [done|done|]. intros ax s2 [V2 A2 M2] Hres.
  rewrite Hf in Hres. destruct Hres as [-> _]. rewrite (proj2 (Z.eqb_neq _ _)) by lia.
  unfold fat16_load_file. repeat lstep.
  apply (wp_loop_var _ (fun n _ s' => n = 0 /\ l_mem s' = l_mem s2 /\ laid_out drive g (l_var s pm_vga_pos) s' /\
    l_var s' fat16_curr_cluster = lle 2 entry 0x1A)) with 0; [| |done].
  2:{ split; [done|]. split; [done|]. split; [destruct V2; split; by vars|by vars]. }
  intros n [] s3 (-> & Em & V3 & E3). pose proof (v_spc d g Hv) as Hspc. pose proof (data_start_nonneg d g Hv) as Hds.
  assert (0 <= (lle 2 entry 0x1A - 2) * g_spc g) as Hp by (apply Z.mul_nonneg_nonneg; lia).
  unfold load_cluster, read_sectors. repeat lstep. vars. rewrite E3, (lo_spc _ _ _ _ V3), (lo_data _ _ _ _ V3), (lo_drive _ _ _ _ V3).
  assert (u16 (u16 (u16 (lle 2 entry 26 - 2) * g_spc g) + data_start g) = (lle 2 entry 26 - 2) * g_spc g + data_start g) as ->.
  { unfold u16. rewrite (Z.mod_small (lle 2 entry 26 - 2)), (Z.mod_small (_ * _)), Z.mod_small; lia. }
  rewrite Hbad by lia. repeat lstep. apply wp_ret. repeat lstep. apply print_string_wp. intros s4 [o ->]. repeat lstep.
  intros p Hp'. cbn [l_mem]. vars. cbn [add_call l_mem]. vars. rewrite Em, M2 by (unfold SECTOR_BUF; lia). apply M1. lia.
Qed.

Section DiskToKernel.
Context {L : Layout} {LOk : LayoutOk L}.
(** Where the linker put the kernel's symbols. *)
Context (sym_trampoline sym_thread_a sym_thread_b sym_gdt sym_idt : Z) (isr irq : Z -> Z).
Context (sym_start sym_higher_half_start ret_start : Z).
Hypothesis symbols32 : is32 sym_trampoline /\ is32 sym_thread_a /\ is32 sym_thread_b.
Hypothesis stubs32 : forall n, is32 (isr n) /\ is32 (irq n).
Hypothesis start_fits : start_ok sym_start sym_higher_half_start ret_start.

(** The kernel's memory after [_start]: the machine is another one, the statics are not. *)
Lemma entering_started h h' k : device h' = device h -> entering h k -> entering h' (update km_lens h' k).
Proof.
  intros Hd [? Hs ? ? ? ? ? ? ? ?]. split; try by destruct k as [[[[[]]]]].
  unfold responsive in *. by rewrite Hd.
Qed.

Lemma info_with_stack m es magic mbi : (length es <= 170)%nat -> mb_info m es ->
  mb_info (with_stack ret_start m magic mbi) es.
Proof.
  intros Hl Hi. eapply mb_info_same; [done|exact Hi|]. intros p Hp. pose proof lo_bpt_range.
  unfold with_stack, stack_word, stack_top, stack_bottom, st32. rewrite !ld8_st8, !decide_False by lia. done.
Qed.

Abbreviation run := (run_kernel sym_start sym_higher_half_start ret_start sym_gdt sym_idt isr irq sym_trampoline sym_thread_a sym_thread_b).
Abbreviation settled := (halted_state sym_trampoline sym_thread_a sym_thread_b sym_gdt sym_idt isr irq MULTIBOOT_MAGIC).

Lemma run_kernel_wp m es c dev k : (length es <= 170)%nat -> mb_info m es ->
  Forall entry_ok (kernel_entry_of <$> es) -> map_disjoint free_limit (kernel_entry_of <$> es) ->
  entering (Machine m c dev 0 []) k ->
  wpe (run MULTIBOOT_MAGIC MBOOT_INFO) k (fun _ _ => False) (fun e k' => e = Halted /\ settled k k').
Proof.
  intros Hl Hi Hok Hd Hen. destruct symbols32 as (T32 & A32 & B32). unfold run_kernel. wp_step. wp_step.
  replace (view km_lens k) with (Machine m c dev 0 []) by (symmetry; apply Hen).
  apply (start_wp _ _ _ start_fits); [unfold is32, MULTIBOOT_MAGIC; lia|unfold is32, MBOOT_INFO; lia|]. cbn [fst snd].
  set (k1 := update km_lens _ k).
  assert (at_entry MBOOT_INFO (kernel_entry_of <$> es) k1) as He.
  { eapply (entering_entry _ _ dev); [by apply info_with_stack|done|done|done|]. by apply (entering_started (Machine m c dev 0 [])). }
  wp_step. eapply wp_weaken; [apply (kernel_main_wp sym_trampoline sym_thread_a sym_thread_b T32 A32 B32 sym_gdt sym_idt isr irq
    (fun n => proj1 (stubs32 n)) (fun n => proj2 (stubs32 n)) _ _ MULTIBOOT_MAGIC k1 He)|by intros|].
  intros e k' [-> H]. split; [done|exact H].
Qed.

(** C6: from the disk to the kernel's idle loop.  On the memory stage 2 leaves, the kernel's
    boot code, entered with the registers stage 2 sets, and [kernel_main] run to the final
    [hlt] loop: the segments, gates, handlers, regions and the
    process table are set up, and the two threads wait, or the frames were too few for a heap
    and there is no thread.  Assumed are a kernel whose statics are zero, a serial port that
    gets ready, and of the memory map the BIOS lists: at most 170 entries, available entries
    that end below the last frame of the bitmap ([entry_ok]) and share no frame
    ([map_disjoint]).  The kernel reads that map through the page tables its boot code
    builds. *)
Theorem disk_to_kernel B mboot_name drive d g es entry cs s :
  bootable B drive d g es entry cs -> at_row s 22 ->
  Forall entry_ok (kernel_entry_of <$> filter nonempty es) ->
  map_disjoint free_limit (kernel_entry_of <$> filter nonempty es) ->
  wpe (stage2_start B mboot_name drive) s
    (fun r s' => forall c dev k, entering (Machine (l_mem s') c dev 0 []) k ->
       exists k', run r.1.1 r.1.2 k = Stop Halted k' /\ settled k k')
    (fun e s' => e = Halted /\ (l_a20 s' = false \/ elf_valid (file_bytes d g cs) = false)).
Proof.
  intros Hba Hrow Hok Hd. eapply wp_weaken; [by apply (stage2_wp B mboot_name drive d g es entry cs)| |done].
  intros r s' (_ & -> & Hho) c dev k Hen. cbn [fst snd].
  assert (length (filter nonempty es) <= 170)%nat as Hl.
  { etransitivity; [apply length_filter|]. apply (ba_map _ _ _ _ _ _ _ Hba). }
  pose proof (run_kernel_wp _ _ c dev k Hl (ho_info _ _ _ Hho) Hok Hd Hen) as W.
  unfold wpe in W. change 0x2BADB002 with MULTIBOOT_MAGIC.
  destruct (run _ _ k) as [a k'|e k']; [done|]. destruct W as [-> H]. by exists k'.
Qed.
End DiskToKernel.

(** ** A disk

    One FAT16 volume with a kernel file of one cluster: an ELF header, one program header and a
    segment of 16 bytes with 16 more to be zeroed. *)

Definition pad (n : nat) (bs : list Z) : list Z := bs ++ replicate (n - length bs) 0.

Definition demo_sector0 : list Z :=
  pad 512 (replicate 0x0B 0 ++ le_bytes 2 512 ++ [1] ++ le_bytes 2 1 ++ [1] ++ le_bytes 2 16 ++ replicate 3 0 ++ le_bytes 2 1).
Definition demo_fat : list Z := pad 512 (le_bytes 2 0xFFF8 ++ le_bytes 2 0xFFFF ++ le_bytes 2 0xFFFF).
Definition demo_entry : list Z := bytes_of "TUPLEOS BIN" ++ [0x20] ++ replicate 14 0 ++ le_bytes 2 2 ++ le_bytes 4 100.
Definition demo_root : list Z := pad 512 demo_entry.
Definition demo_elf : list Z :=
  pad 512 ([0x7F; 0x45; 0x4C; 0x46; 1; 1] ++ replicate 10 0 ++ le_bytes 2 2 ++ le_bytes 2 3 ++ le_bytes 4 1 ++
           le_bytes 4 0x100000 ++ le_bytes 4 52 ++ replicate 10 0 ++ le_bytes 2 32 ++ le_bytes 2 1 ++ replicate 6 0 ++
           le_bytes 4 1 ++ le_bytes 4 84 ++ le_bytes 4 0xC0100000 ++ le_bytes 4 0x100000 ++ le_bytes 4 16 ++ le_bytes 4 32 ++
           replicate 8 0 ++ replicate 16 0x90).

Definition demo_disk : disk :=
  Disk 4 (fun k => if k =? 0 then demo_sector0 else if k =? 1 then demo_fat else if k =? 2 then demo_root else demo_elf).
Definition demo_geom : geom := Geom 1 1 1 16 1.
Definition demo_es : list e820_entry := [E820Entry 0 0x9F000 1; E820Entry 0x100000 0x700000 1].

Definition demo_bios : bios := {|
  int13 := fun _ _ lba count => (false, sectors demo_disk lba count);
  int13_chs := fun _ _ _ _ => (false, 32, []);
  e820 := fun _ ebx => if ebx =? 0
                       then E820Reply false SMAP 1 20 (raw (E820Entry 0 0x9F000 1))
                       else E820Reply false SMAP 0 20 (raw (E820Entry 0x100000 0x700000 1));
  e801 := fun _ => None;
  int15_a20 := fun _ _ => (false, true);
  in_port := fun _ _ => 0;
  out_port := fun _ _ _ g => g;
|}.

Definition demo_loader : lsys := Lsys ∅ (fun x => if decide (x = pm_vga_pos) then 0xB8000 + 3520 else 0) false 0 [].

Lemma bytes_check l : forallb (fun b => (0 <=? b) && (b <? 256)) l = true -> Forall byte l.
Proof.
  induction l as [|b l IH]; cbn; [constructor|]. intros H. apply andb_true_iff in H as [H1 H2]. bools.
  constructor; [unfold byte; lia|by apply IH].
Qed.

Lemma demo_volume : volume demo_disk demo_geom.
Proof.
  assert (forall k, dk_sector demo_disk k = demo_sector0 \/ dk_sector demo_disk k = demo_fat \/
    dk_sector demo_disk k = demo_root \/ dk_sector demo_disk k = demo_elf) as Hs.
  { intros k. cbn [dk_sector demo_disk]. repeat case_match; auto. }
  split; [split|done|done|done|done].
  - intros k _. by destruct (Hs k) as [->|[->|[->| ->]]].
  - intros k _. destruct (Hs k) as [->|[->|[->| ->]]]; by apply bytes_check.
Qed.

Lemma demo_file : file_bytes demo_disk demo_geom [2] = demo_elf.
Proof. unfold file_bytes. cbn [fmap list_fmap concat]. rewrite app_nil_r. unfold cluster_bytes. apply sectors_one. Qed.

Lemma demo_elf_ok : elf_ok demo_elf.
Proof.
  split; [by apply bytes_check|split; vm_compute; discriminate| |].
  - change (e_phnum demo_elf) with 1. intros i Hi. assert (i = 0) as -> by lia. by vm_compute.
  - assert (phdrs demo_elf = [Phdr 1 84 0x100000 16 32]) as -> by done.
    constructor; [|constructor]. intros _. by vm_compute.
Qed.

Lemma demo_bootable : bootable demo_bios 0x80 demo_disk demo_geom demo_es demo_entry [2].
Proof.
  split.
  - intros n. exists 0%nat. by split.
  - split; [|cbn; lia]. split; [done|]. split; [repeat constructor; cbn; unfold is32; lia|].
    exists Z.of_nat. split; [done|]. intros n [|[|i]] e He; [injection He as <-|injection He as <-|done].
    + exists 20, []. split; [by rewrite app_nil_r|]. split; [by right|by left].
    + exists 20, []. split; [by rewrite app_nil_r|]. split; [by left|by left].
  - split; [by intros n lba count _ _ _|exact demo_volume].
  - by vm_compute.
  - split; [apply chain_last; by vm_compute|]. constructor; [|constructor]. by vm_compute.
  - by vm_compute.
  - rewrite demo_file. intros _. split; [exact demo_elf_ok|].
    assert (phdrs demo_elf = [Phdr 1 84 0x100000 16 32]) as -> by done. repeat constructor.
Qed.

Lemma stage2_hands_over_witness :
  wpe (stage2_start demo_bios 0xB000 0x80) demo_loader
    (fun r s' => elf_valid (file_bytes demo_disk demo_geom [2]) = true /\
                 r = (0x2BADB002, MBOOT_INFO, e_entry (file_bytes demo_disk demo_geom [2])) /\
                 handed_over (file_bytes demo_disk demo_geom [2]) (filter nonempty demo_es) s' /\
                 exists name, multiboot_at (l_mem s') MBOOT_INFO = handed_struct (filter nonempty demo_es) name)
    (fun e s' => e = Halted /\ (l_a20 s' = false \/ elf_valid (file_bytes demo_disk demo_geom [2]) = false)).
Proof. exact (stage2_hands_over demo_bios 0xB000 0x80 demo_disk demo_geom demo_es demo_entry [2] demo_loader demo_bootable eq_refl). Defined.

Lemma detect_memory_exact_witness : l_a20 (set_a20 true demo_loader) = true /\
  wp (detect_memory demo_bios) (set_a20 true demo_loader)
     (fun _ s' => filling (set_a20 true demo_loader) (filter nonempty demo_es) s').
Proof.
  split; [reflexivity|].
  apply (proj1 (detect_memory_exact demo_bios (set_a20 true demo_loader) eq_refl) demo_es).
  - apply (ba_map _ _ _ _ _ _ _ demo_bootable).
  - apply (ba_map _ _ _ _ _ _ _ demo_bootable).
Defined.


(** A BIOS that reads stage 2 at the second attempt. *)
Definition demo_retry : bios :=
  Bios (int13 demo_bios)
    (fun n _ _ _ => if Nat.eqb n 0 then (true, 0, []) else (false, 32, replicate 512 0x90))
    (e820 demo_bios) (e801 demo_bios) (int15_a20 demo_bios) (in_port demo_bios) (out_port demo_bios).

Lemma demo_chs : chs_bounded demo_retry.
Proof.
  intros n drive cf al bs. cbn [int13_chs demo_retry]. destruct (Nat.eqb n 0); intros [= <- <- <-].
  - split; [done|constructor].
  - split; [done|by apply bytes_check].
Qed.

Lemma stage1_loads_witness :
  wpe (stage1 demo_retry 0x7DE0 0 0x80) demo_loader
    (fun r s' => r = (STAGE2_ADDR, 0x80) /\ stage2_read demo_retry demo_loader 0x80 s' /\
                 same_off STAGE2_ADDR 16384 (l_mem demo_loader) (l_mem s'))
    (fun e _ => e = Halted /\ stage1_gave_up demo_retry demo_loader 0x80).
Proof. exact (stage1_loads demo_retry 0x7DE0 0x80 demo_loader demo_chs). Defined.

(** Entered at 0x07C0:0000 with DS = 0x07C0. *)
Lemma stage1_wrong_drive_witness :
  wpe (stage1 demo_retry 0x7DE0 0x7C0 0x80) demo_loader
    (fun r s' => r = (STAGE2_ADDR, l_var demo_loader boot_drive) /\
                 stage2_read demo_retry demo_loader (l_var demo_loader boot_drive) s')
    (fun e _ => e = Halted /\ stage1_gave_up demo_retry demo_loader (l_var demo_loader boot_drive)).
Proof. apply (stage1_wrong_drive demo_retry 0x7DE0 0x7C0 0x80 demo_loader demo_chs); [lia|lia|reflexivity]. Defined.

(** The same disk without its data area. *)
Definition demo_short : disk := Disk 3 (dk_sector demo_disk).
Definition demo_broken : bios :=
  Bios (fun _ _ lba count => if 3 <=? lba then (true, []) else (false, sectors demo_short lba count))
    (int13_chs demo_bios) (e820 demo_bios) (e801 demo_bios) (int15_a20 demo_bios) (in_port demo_bios) (out_port demo_bios).

Lemma demo_short_volume : volume demo_short demo_geom.
Proof.
  destruct demo_volume as [[H1 H2] _ _ _ _]. split; [split|done..].
  - intros k Hk. apply H1. cbn in *. lia.
  - intros k Hk. apply H2. cbn in *. lia.
Qed.

Lemma demo_broken_serves : serves demo_broken 0x80 demo_short.
Proof.
  intros n lba count H0 Hc Hs. cbn [int13 demo_broken dk_size demo_short] in *.
  by rewrite (proj2 (Z.leb_gt 3 lba)) by lia.
Qed.

Lemma demo_unreadable : data_unreadable demo_broken 0x80 demo_geom.
Proof.
  intros n lba count H. change (data_start demo_geom) with 3 in H. cbn [int13 demo_broken].
  by rewrite (proj2 (Z.leb_le 3 lba)) by lia.
Qed.

Definition demo_real : lsys := set_var boot_drive 0x80 (set_a20 true demo_loader).

Lemma load_error_ignored_witness :
  wp (load_kernel demo_broken) demo_real
     (fun _ s' => forall p, 0x10000 <= p -> ld8 (l_mem s') p = ld8 (l_mem demo_real) p).
Proof.
  apply (load_error_ignored demo_broken 0x80 demo_short demo_geom demo_entry demo_real
           demo_broken_serves demo_short_volume demo_unreadable); [vm_compute; reflexivity|vm_compute; discriminate| | |reflexivity|reflexivity].
  - vm_compute. reflexivity.
  - vm_compute. reflexivity.
Defined.

Lemma demo_es_ok : Forall entry_ok (kernel_entry_of <$> filter nonempty demo_es).
Proof.
  assert (filter nonempty demo_es = demo_es) as -> by reflexivity.
  repeat (apply Forall_cons; split; [intros _; by vm_compute|]). constructor.
Qed.

Lemma demo_es_disjoint : map_disjoint (@free_limit demo_layout) (kernel_entry_of <$> filter nonempty demo_es).
Proof.
  change (@free_limit demo_layout) with 0x114000. split; [|split; [|done]].
  - intros g Hg H. unfold entry_frames in H. bools. cbn [kernel_entry_of e_base e_length e_type x_base x_length x_type] in *.
    unfold PAGE_SIZE in *. lia.
  - intros g Hg H. done.
Qed.

Lemma demo_symbols : is32 0xC0102000 /\ is32 0xC0103000 /\ is32 0xC0103100.
Proof. unfold is32. lia. Qed.

Lemma demo_stubs : forall n : Z, is32 ((fun _ => 0xC0106000) n) /\ is32 ((fun _ => 0xC0107000) n).
Proof. unfold is32. lia. Qed.

Lemma disk_to_kernel_witness :
  wpe (stage2_start demo_bios 0xB000 0x80) demo_loader
    (fun r s' => forall c dev k, entering (Machine (l_mem s') c dev 0 []) k ->
       exists k', @run_kernel demo_layout 0x100040 0xC0101000 0xC0101020 0xC0104000 0xC0105000 (fun _ => 0xC0106000)
                    (fun _ => 0xC0107000) 0xC0102000 0xC0103000 0xC0103100 r.1.1 r.1.2 k = Stop Halted k' /\
         @halted_state demo_layout demo_layout_ok 0xC0102000 0xC0103000 0xC0103100 0xC0104000 0xC0105000 (fun _ => 0xC0106000)
           (fun _ => 0xC0107000) MULTIBOOT_MAGIC k k')
    (fun e s' => e = Halted /\ (l_a20 s' = false \/ elf_valid (file_bytes demo_disk demo_geom [2]) = false)).
Proof.
  exact (@disk_to_kernel demo_layout demo_layout_ok 0xC0102000 0xC0103000 0xC0103100 0xC0104000 0xC0105000
    (fun _ => 0xC0106000) (fun _ => 0xC0107000) 0x100040 0xC0101000 0xC0101020 demo_symbols demo_stubs demo_start_ok
    demo_bios 0xB000 0x80 demo_disk demo_geom demo_es demo_entry [2] demo_loader demo_bootable eq_refl demo_es_ok demo_es_disjoint).
Defined.
